(* ===== verification/_CoqProject ===== *)
-Q . S2P
Prelude.v
Enums.v
Taps.v
Transports.v
TapsProgram.v
Threads.v
Races.v
PanPath.v
GobRpc.v
Process.v
ServerSelector.v
ServerThreads.v
Connections.v
Sessions.v
SelectorServer.v
SelectorClient.v
ClientThreads.v
TracerMsg.v
ConnTracer.v
QuicTracer.v
System.v
LuaApi.v
LuaSelector.v
LuaThreads.v
LuaPath.v
LuaCalls.v
LuaStats.v
PacketConn.v
Appnet.v
Debug.v
Daemon.v
StatsCalls.v
Applications.v
EndToEnd.v
DaemonRun.v
Convenience.v
Examples.v
CommandLine.v
