(* ===== verification/Prelude.v ===== *)
(** * PANAPI: a verification development

    PANAPI is a Go library that gives applications the TAPS interface to
    transport services over path-aware networks, and a daemon that selects
    network paths for them. An application describes a connection in a
    Preconnection (package taps) and starts it through a protocol object
    (pkg/inet/tcp, pkg/inet/quic, pkg/scion/quic). A connection over SCION asks a
    selector for paths; [rpc.SelectorClient] is a selector that asks the daemon
    over net/rpc, and [rpc.TracerClient] with [rpc.ConnectionTracerClient]
    reports what quic-go does to the daemon as well. In the daemon an RPC service
    ([rpc.SelectorServer], [rpc.TracerServer], [rpc.ConnectionTracerServer])
    unpacks the messages for an implementation: one selector per connection
    ([rpc.serverSelector]), or a Lua script that selects paths
    ([lua.LuaSelector]) and collects statistics ([lua.Stats]).

    ** How Go is modelled

    [GoM S A] below is a Go function over a state [S]. It returns, panics, ends
    the process (log.Fatal) or waits forever for a mutex; the state is kept on
    every outcome. Pointers are locations of stores, nil is [None], so what two
    objects share is visible; Go maps are heap objects where the code shares
    them. A machine integer is a [Z] with its wrap-around written out where the
    code computes with it (IDServer's counter, the index arithmetic of String).
    Loops over slices and maps are recursion. The loops that need not end have
    fuel: the receive loop of PacketConn and the example programs' ([loop] below).
    Their theorems say for how much fuel, and with what, they return, or what
    holds of every round. Log output is left out, except that of the examples.

    ** The files

    - Prelude: the monad, stores, record update, and the lemmas on runs the other
      files share: invariants ([preserves]), relations between first and last
      state ([within]), simulations ([sim_at]), loops.
    - Enums (taps/enum.go, taps/enum_string.go): the enumerations as bytes, the
      generated String methods with their name and index tables. Every byte
      prints, a declared constant as its identifier, and no two bytes alike
      (String_correct, String_injective); the assertions of the generated blank
      functions hold (checks_pass).
    - Taps (the rest of package taps): endpoints, preferences, properties,
      security parameters, Preconnection with Copy, Listen, Initiate and
      SetPreferences. [view] is the value of a preconnection. Copy makes an equal
      value out of new objects, which no write to the old ones changes, but for the
      objects of the crypto packages, which it shares ([secrets], Copy_faithful,
      Copy_isolated); Listen, Initiate and SetPreferences are
      specified on every branch (Listen_spec, Initiate_spec, SetPreferences_spec).
    - Transports (pkg/inet/tcp/tcp.go, pkg/inet/quic/quic.go,
      pkg/scion/quic/quic.go, pkg/udp/udp.go): every method of the protocols,
      listeners and connections. Satisfy fails exactly on inadmissible
      preferences (Satisfy_admits, udp_Satisfy_admits); four theorems describe
      defects: a shared preconnection that every Accept overwrites, TCP
      listeners that panic, QUIC's Initiate without Satisfy, a selector used
      without a nil check.
    - TapsProgram: any sequence of calls of a program that makes, changes and
      copies TAPS objects, listens, initiates and accepts. What it passed to
      Listen or Initiate keeps its value but for the peer Accept names
      (handles_keep).
    - Threads: goroutines as programs of actions, their interleavings as a step
      relation, and the class [Mutex]: critical sections can be put one after the
      other ([serializable]), and one that starts ends ([interleaved_progress]).
    - Races: maps that nothing guards. An action is labelled with the access it
      makes of the map; [split] lets an access begin and end, and one that begins
      while a conflicting one is under way is a data race, at which the run ends.
      [tracks_run] says what runs without one amount to, [tracks_live] that there
      always is one, [split_run] that single actions make one.
    - PanPath (rpc/path.go): paths, addresses and their conversions.
    - GobRpc (rpc/rpc.go, with encoding/gob and net/rpc): what gob delivers of a
      value, a [Link] with the server's state behind it, [rpc_Call], IDServer. A
      call whose arguments do not encode shuts the link down; a panic of a
      handler ends the daemon. [carry] is what a call amounts to, [call_carries]
      the lemma that links the two.
    - Process (rpc/rpc.go, rpc/tracer.go): the registrations of NewServer, which
      succeed once in a process (NewServer_again), and the log files of
      NewTracerServer and NewClient with the goroutines that flush them
      (clients_share_log); the files of the daemon's qlog tracer, one for each
      connection and perspective (qlog_names_distinct).
    - ServerSelector (rpc/selector.go): the class [ServerSelector], which the
      RPC service works against, and serverSelector, a map from printed address
      pairs to selector objects. It behaves as one selector per connection when
      the printed pair identifies the connection (serverSelector_refines);
      without that, connections share selectors (serverSelector_collision).
    - ServerThreads: its methods cut into their accesses of the map, which has no
      mutex; two first requests of a connection can lose a selector without a race
      (concurrent_first_requests), and those of two connections can race
      (first_requests_race).
    - Connections: when the selector objects are independent, a connection gets
      the answers it would get alone (connections_independent). Sessions: the same
      when the sessions of different connections run at the same time over the
      unguarded map, in every run up to a data race (sessions_independent); so a
      selector is lost only to two requests of one connection.
    - SelectorServer (rpc/selector.go): the messages and the six handlers, each
      specified on every message (handler_spec).
    - SelectorClient (rpc/selector.go): the client's operations. client_refines
      is the refinement of the whole path-selection stack: after any history an
      operation is its bookkeeping and one request to the daemon's selector.
      Path_current says which path objects Path can return.
    - ClientThreads: its operations cut into their accesses of the client's fields
      and their calls. However several of them interleave, up to a data race the table
      is a record of what they did in some order, and Path returns what was current
      at some moment (concurrent_Path_current); table and daemon can come to
      disagree (refresh_overtaken), and Path and PathDown can race (lookup_races).
    - TracerMsg, ConnTracer (rpc/connection_tracer.go): the message and its
      String, the 26 callbacks of the client, the 27 handlers. report_refines:
      a callback reaches the method of its name with its own arguments, or ends
      the application in one of the listed cases.
    - QuicTracer (rpc/tracer.go): the tracer of packets outside connections; what
      reaches the daemon of a report (packet_reports_refine).
    - System: any number of applications, each with one link that its selector
      and its tracers share, and one daemon with one state; they take turns in any
      order. [application], [system], [happens] for an event and [after] for
      several. The lemmas say what a turn keeps ([well_behaved]) and what is left
      to an application whose link is down; a single report that gob cannot send
      brings it there (report_cuts_off).
    - LuaApi (lua/lua.go): Lua values, tables in a store, the virtual machine with
      its stack and mutex, calls of Lua functions, LoadScript.
    - LuaSelector (lua/selector.go): conversion of paths to tables, the two maps
      between tables and paths, the six operations, an instance of
      [ServerSelector]. For states reached from the start by any requests,
      whatever the script does: Path returns only paths on offer, if no two paths
      of one offer have the same fingerprint (lua_Path_offered,
      lua_stale_duplicate), an offer withdraws the tables of the one before
      (lua_flush), the mutex is free afterwards (lua_mutex), the stack grows only
      by Close (lua_stack).
    - LuaThreads: the requests, the goroutine's rounds and the statistics'
      callbacks cut into actions. Whatever the interleaving, what they return and
      leave is what some sequence of them would (lua_serializable), and none waits
      for ever for another (lua_progress); so the other files run them whole.
    - LuaPath: the tables newLuaPath builds show the path completely, in new
      memory (newLuaPath_shows). LuaCalls: what Initialize and Refresh call the
      script with, every path's table leading back to it (offer_calls_script).
    - LuaStats (lua/stats.go): the 27 methods, an instance of
      [ServerConnectionTracer]; what they do with an untouched module, alone and
      at the end of the RPC stack (stats_default,
      stats_close_ends_application), and their mutex (stats_mutex).
    - PacketConn (internal/measured-appnet: packet_conn.go, dispatcher.go): the
      socket that measures round trips; ReadFrom as a relation and the
      equivalence of the loop with it (ReadFrom_returns).
    - Appnet (internal/measured-appnet: appnet.go, timednet.go): the network of
      the process, initialised once (DefNetwork_once), and the sockets on it
      (Listen_opens).
    - Debug (debug/selector.go): the slow selector, equal to the one it wraps but
      for time (DebugSelector_transparent).
    - Daemon (cmd/daemon/main.go, rpc.NewServer, taps.DefaultSelector): start-up
      and the composed state, in which selector and statistics share the Lua
      state. With a script, any interleaving of requests, tracing messages and
      goroutine rounds leaves Path to what is on offer (daemon_Path_offered, with
      the same condition on the offers);
      without one, each connection has its own default selector, whatever the
      tracing services do (daemon_fallback), and closing a QUIC connection ends
      the application (daemon_close_ends_application).
    - StatsCalls: which function of the script a callback of quic-go ends in, and
      what its arguments show, from the application to the daemon's statistics
      ([script_call], callback_calls_script).
    - Applications: System with this daemon. With a script, an application gets
      its own paths, whatever the others do, and only those on offer under the
      condition of daemon_Path_offered (system_Path_own); without one, a single report of one application ends the
      daemon and thereby all of them (one_report_ends_all).
    - EndToEnd: the stack from a preconnection to the script and back, put together
      from the theorems above. What SetPreferences says reaches the script
      (preferences_reach_script), Initiate over SCION returns a connection to another AS
      only after the script was asked with the preferences and the paths
      (Initiate_reaches_script), and a path the script chooses comes back as the
      application's own, the last of the offer with its fingerprint
      (offered_path_returns).
    - DaemonRun (the rest of main): the socket, profiling, the registration of the
      services, signal and cleanup; a
      daemon that does not end by a signal leaves its socket in the way of the
      next (main_socket).
    - Convenience (pkg/convenience/convenience.go): certificates, and an
      application's selector and tracer over one link to the daemon.
    - Examples (examples/): the three programs. capacityseeker's client writes as
      many bytes as asked (client_copy_bytes); pingpong's switches its profile on
      schedule (clientWorker_profile).
    - CommandLine (the flags of cmd/daemon/main.go and examples/): the parser of
      package flag and strconv's readings of numbers, from the arguments to the
      mains: the last setting of every flag or its default, and the status of what
      is refused (command_line, over the table [flags_of] of the usage texts); its
      fuel, one more than the arguments, always is enough (parse_total). The flags
      that messages of the examples name are not declared (advice_fails).

    ** Interfaces and parameters

    Interfaces of the program are classes, and the theorems about their users
    hold for every implementation: [ProtocolInterface] (Taps), [SelectorObject] and
    [ServerSelector] (ServerSelector), [ServerConnectionTracer] (ConnTracer),
    [LoggingTracer] (QuicTracer), [PanDefaultSelector] (Daemon), [PanSelector]
    (Debug), [Mutex] (Threads). [IndependentObjects] (Connections) is what selector
    objects that share nothing promise. [ClientSelectors] and [DialingSelectors]
    (EndToEnd) say which selectors of a network are clients of a daemon and that
    pan's dialling calls their Initialize when the host dialled is in another AS;
    inside the AS pan sends without a path. Code outside the
    repository is a parameter too:
    [Pan] (addresses and their text, forwarding paths, times), [PanCodecs] (how
    gob sends those types) with the law [PanFaithful] (addresses, interfaces and
    rpc.Path values arrive as sent), [Quic], [QuicCodecs] and [QuicFields] (types of
    quic-go that are only passed on or printed), [Network] (sockets, quic-go and
    pan as operations on a network state), [Snet] and [PacketNet] (SCION packets
    and their sockets), [FileSystem], [AppnetSystem], [DaemonSystem], [DaemonHost], [Crypto] and [Programs]
    (environment, files, certificates, streams, time), [LuaVM] (the Lua machine running a
    script) with the law [LuaMemory] (a script can create tables of its own but
    does not free or reuse those it was given). The Sample modules instantiate
    all of them; the witnesses run there.

    ** Not modelled

    The usage texts of the flags, what quic-go writes to the qlog files, log
    output but the examples'. Go's scheduler is modelled
    as any interleaving of actions where the Lua state (LuaThreads),
    serverSelector (ServerThreads, Sessions) and the client of one connection
    (ClientThreads) are concerned; elsewhere an operation runs to its end before
    the next one starts: the turns of the applications in System, the tracers,
    concurrent first uses of the default network, the goroutines of the examples.
    Of a run in which two accesses of an unguarded map overlap, one of them a
    write, nothing is said from that moment on: Go's runtime may end the process
    or go on with a broken map. The other fields of the client are pointers,
    which are read and written as one word, in the order of the code. A program
    of TapsProgram does not write through the pointers that
    Connection.Preconnection returns. *)

From Stdlib Require Export ZArith Lia Ascii.
From stdpp Require Export base option list strings pretty gmap sets fin_maps.

Set Default Proof Using "Type".

(** A slice of pointers without nil. *)
Lemma no_nil {A} (ps : list (option A)) : None ∉ ps → ∃ qs, ps = Some <$> qs.
Proof.
  induction ps as [|[p|] ps IH]; intros Hn; [by exists []| |by destruct Hn; left].
  destruct IH as [qs ->]; [by intros ?; destruct Hn; right|]. by exists (p :: qs).
Qed.

(** ** Outcomes of Go code

    A call returns a value, panics (nil dereference, nil-map write, failed type
    assertion, slice out of range, log.Panic), ends the process (log.Fatal), or
    blocks forever on a mutex it already holds. *)
Inductive outcome (A : Type) : Type :=
  | Ok (a : A)
  | Panics (why : string)
  | Exits (why : string)
  | Deadlocks.
Arguments Ok {_} _.
Arguments Panics {_} _.
Arguments Exits {_} _.
Arguments Deadlocks {_}.

#[export] Instance outcome_eq_dec {A} `{EqDecision A} : EqDecision (outcome A).
Proof. solve_decision. Defined.

(** The value a function returns for Go's [error] interface: nil or an error
    with its text. *)
Definition error : Type := option string.

(** A Go function over a state [S]: explicit state passing, the state being
    kept on every outcome because deferred calls still run on a panic. *)
Definition GoM (S A : Type) : Type := S → outcome A * S.

#[export] Instance GoM_ret {S} : MRet (GoM S) := λ A a s, (Ok a, s).
#[export] Instance GoM_bind {S} : MBind (GoM S) := λ A B f m s,
  match m s with
  | (Ok a, s') => f a s'
  | (Panics w, s') => (Panics w, s')
  | (Exits w, s') => (Exits w, s')
  | (Deadlocks, s') => (Deadlocks, s')
  end.
#[export] Instance GoM_fmap {S} : FMap (GoM S) := λ A B f m, m ≫= λ a, mret (f a).

Definition newline : string := String (Ascii.ascii_of_nat 10) EmptyString.

Definition nil_deref : string := "invalid memory address or nil pointer dereference".
Definition nil_map_write : string := "assignment to entry in nil map".
Definition slice_range : string := "slice bounds out of range".

Section Primitives.
Context {S : Type}.

Definition get_state : GoM S S := λ s, (Ok s, s).
Definition gets {A} (f : S → A) : GoM S A := λ s, (Ok (f s), s).
Definition modify (f : S → S) : GoM S unit := λ s, (Ok tt, f s).
Definition panic {A} (why : string) : GoM S A := λ s, (Panics why, s).
Definition fatal {A} (why : string) : GoM S A := λ s, (Exits why, s).
Definition deadlock {A} : GoM S A := λ s, (Deadlocks, s).

(** A call of a function without state. *)
Definition pure_call {A} (o : outcome A) : GoM S A := λ s, (o, s).

(** [*p] of a pointer that may be nil. *)
Definition deref {A} (p : option A) : GoM S A :=
  match p with Some a => mret a | None => panic nil_deref end.

(** [defer d(); m()]: the deferred call runs when [m] returns and when it
    panics, not when the process exits. *)
Definition deferring {A} (d : GoM S unit) (m : GoM S A) : GoM S A := λ s,
  match m s with
  | (Ok a, s') => (d ≫= λ _, mret a) s'
  | (Panics w, s') => (d ≫= λ _, panic w) s'
  | (Exits w, s') => (Exits w, s')
  | (Deadlocks, s') => (Deadlocks, s')
  end.

(** Run an operation of a component of the state. *)
Definition zoom {T A} (view : S → T) (upd : T → S → S) (m : GoM T A) : GoM S A := λ s,
  let '(r, t) := m (view s) in (r, upd t s).

(** A for loop over a slice, for its effects. *)
Fixpoint go_for {A} (f : A → GoM S unit) (l : list A) : GoM S unit :=
  match l with
  | [] => mret tt
  | x :: l' => f x ≫= λ _, go_for f l'
  end.

(** A for loop over a slice that fills another slice of the same length. *)
Fixpoint go_map {A B} (f : A → GoM S B) (l : list A) : GoM S (list B) :=
  match l with
  | [] => mret []
  | x :: l' => f x ≫= λ y, go_map f l' ≫= λ ys, mret (y :: ys)
  end.
End Primitives.

(** Addresses of heap objects; two pointers are equal when they are the same
    location. Each kind of object has a store of its own. *)
Abbreviation loc := positive.

(** ** Functional record update

    [r <| f := v |>] copies record [r] with field [f] replaced. A record opts in
    with an [Eta] instance that rebuilds it from its projections. *)
Class Eta (R : Type) := eta : R → R.
Class Setter {R T : Type} (proj : R → T) := set_field : (T → T) → R → R.
Arguments set_field {R T} proj {_} _ _ /.

Ltac derive_setter :=
  lazymatch goal with
  | |- @Setter ?R ?T ?p =>
      let i := constr:(ltac:(let x := constr:(_ : Eta R) in exact x)) in
      let e := eval red in i in
      let e := lazymatch e with (fun _ => _) => e | _ => eval hnf in e end in
      let e := eval pattern p in e in
      lazymatch e with
      | ?h _ => exact (λ (g : T → T) (x : R), h (λ y, g (p y)) x)
      end
  end.
#[export] Hint Extern 1 (Setter _) => derive_setter : typeclass_instances.

Declare Scope go_scope.
Delimit Scope go_scope with go.
Notation "x <| p := v |>" := (set_field p (λ _, v) x)
  (at level 1, left associativity, p at level 99, v at level 200,
   format "x <| p  :=  v |>") : go_scope.
#[global] Open Scope go_scope.

(** ** Stores

    A component's heap is a record of stores, one per kind of object. *)
Section Stores.
Context {H C : Type} (st : H → gmap loc C) `{!Setter st}.

(** [&C{...}]: a location the store does not use yet. *)
Definition alloc (c : C) : GoM H loc := λ h,
  let l := fresh (dom (st h)) in (Ok l, set_field st (<[l := c]>) h).

(** [*p], reading the whole object. *)
Definition load (p : option loc) : GoM H C := λ h,
  match p with
  | Some l => match st h !! l with Some c => (Ok c, h) | None => (Panics nil_deref, h) end
  | None => (Panics nil_deref, h)
  end.

(** [*p = c]. *)
Definition store (p : option loc) (c : C) : GoM H unit := λ h,
  match p with
  | Some l =>
      match st h !! l with
      | Some _ => (Ok tt, set_field st (<[l := c]>) h)
      | None => (Panics nil_deref, h)
      end
  | None => (Panics nil_deref, h)
  end.

Lemma alloc_fresh h : st h !! fresh (dom (st h)) = None.
Proof. apply not_elem_of_dom, is_fresh. Qed.

Lemma load_ok h l c : st h !! l = Some c → load (Some l) h = (Ok c, h).
Proof. intros E. unfold load. by rewrite E. Qed.

End Stores.

(** ** Reasoning about runs *)

(** Every run of [m] from a state of [I] ends in a state of [I]. *)
Definition preserves {S A} (I : S → Prop) (m : GoM S A) : Prop :=
  ∀ s, I s → I (m s).2.

(** Every run of [m] relates its first state to its last by [R]. *)
Definition within {S A} (R : S → S → Prop) (m : GoM S A) : Prop :=
  ∀ s, R s (m s).2.

Section Runs.
Context {S : Type}.

Lemma bind_ok {A B} (m : GoM S A) (f : A → GoM S B) s a s' :
  m s = (Ok a, s') → (m ≫= f) s = f a s'.
Proof. intros H. unfold mbind, GoM_bind. by rewrite H. Qed.

Lemma bind_panics {A B} (m : GoM S A) (f : A → GoM S B) s w s' :
  m s = (Panics w, s') → (m ≫= f) s = (Panics w, s').
Proof. intros H. unfold mbind, GoM_bind. by rewrite H. Qed.

Lemma bind_inv {A B} (m : GoM S A) (f : A → GoM S B) s b s' :
  (m ≫= f) s = (Ok b, s') → ∃ a s1, m s = (Ok a, s1) ∧ f a s1 = (Ok b, s').
Proof.
  unfold mbind, GoM_bind. destruct (m s) as [[] ?]; intros; simplify_eq. eauto.
Qed.

Lemma ret_inv {A} (a b : A) (s s' : S) : (mret a : GoM S A) s = (Ok b, s') → b = a ∧ s' = s.
Proof. unfold mret, GoM_ret. intros; by simplify_eq. Qed.

Lemma bind_ret_l {A B} (a : A) (f : A → GoM S B) s : ((mret a : GoM S A) ≫= f) s = f a s.
Proof. done. Qed.

Lemma bind_assoc {A B C} (m : GoM S A) (f : A → GoM S B) (g : B → GoM S C) s :
  ((m ≫= f) ≫= g) s = (m ≫= λ a, f a ≫= g) s.
Proof. unfold mbind, GoM_bind. by destruct (m s) as [[] ?]. Qed.

Lemma bind_ext {A B} (m : GoM S A) (f g : A → GoM S B) s :
  (∀ a s', f a s' = g a s') → (m ≫= f) s = (m ≫= g) s.
Proof. intros Hf. unfold mbind, GoM_bind. destruct (m s) as [[a| | |] s']; [apply Hf|done..]. Qed.

Lemma preserves_run {A} (I : S → Prop) (m : GoM S A) s r s' :
  preserves I m → I s → m s = (r, s') → I s'.
Proof. intros Hm Hs E. specialize (Hm s Hs). by rewrite E in Hm. Qed.

Lemma preserves_get_state (I : S → Prop) : preserves I get_state.
Proof. exact (λ s Hs, Hs). Qed.

Lemma preserves_ret {A} I (a : A) : preserves I (mret a : GoM S A).
Proof. exact (λ s Hs, Hs). Qed.

Lemma preserves_bind {A B} I (m : GoM S A) (f : A → GoM S B) :
  preserves I m → (∀ a, preserves I (f a)) → preserves I (m ≫= f).
Proof.
  intros Hm Hf s Hs. unfold mbind, GoM_bind. specialize (Hm s Hs).
  destruct (m s) as [[] s'] eqn:E; simpl in *; try done. by apply Hf.
Qed.

Lemma preserves_gets {A} I (f : S → A) : preserves I (gets f).
Proof. exact (λ s Hs, Hs). Qed.

Lemma within_run {A} R (m : GoM S A) s r s' : within R m → m s = (r, s') → R s s'.
Proof. intros Hm E. specialize (Hm s). by rewrite E in Hm. Qed.

Lemma within_bind {A B} R `{!Transitive R} (m : GoM S A) (f : A → GoM S B) :
  within R m → (∀ a, within R (f a)) → within R (m ≫= f).
Proof.
  intros Hm Hf s. unfold mbind, GoM_bind. specialize (Hm s).
  destruct (m s) as [[] s'] eqn:E; simpl in *; try done.
  etransitivity; [exact Hm|apply Hf].
Qed.

Lemma within_ret {A} R `{!Reflexive R} (a : A) : within R (mret a : GoM S A).
Proof. intros s. unfold mret, GoM_ret. reflexivity. Qed.

Lemma within_get_state (R : S → S → Prop) `{!Reflexive R} : within R get_state.
Proof. intros s. unfold get_state. reflexivity. Qed.

Lemma within_fmap {A B} R `{!PreOrder R} (f : A → B) (m : GoM S A) :
  within R m → within R (f <$> m).
Proof.
  intros Hm. apply within_bind; [apply _|done|]. intros a. apply within_ret; apply _.
Qed.

Lemma within_go_for {A} R `{!PreOrder R} (f : A → GoM S unit) l :
  (∀ x, within R (f x)) → within R (go_for f l).
Proof.
  intros Hf. induction l; simpl; [apply within_ret; apply _|].
  apply within_bind; [apply _|done|done].
Qed.

Lemma within_go_map {A B} R `{!PreOrder R} (f : A → GoM S B) l :
  (∀ x, within R (f x)) → within R (go_map f l).
Proof.
  intros Hf. induction l; simpl; [apply within_ret; apply _|].
  apply within_bind; [apply _|done|]. intros ?.
  apply within_bind; [apply _|done|]. intros ?. apply within_ret; apply _.
Qed.

Lemma within_deferring {A} R `{!Transitive R} (d : GoM S unit) (m : GoM S A) :
  within R d → within R m → within R (deferring d m).
Proof.
  intros Hd Hm s. unfold deferring, mbind, GoM_bind. specialize (Hm s).
  destruct (m s) as [[] s1]; try done; specialize (Hd s1); destruct (d s1) as [[] s2];
    simpl in *; by etransitivity.
Qed.

End Runs.

(** ** Loops

    [for { ... }] with fuel: the body gets the variables [b] of the loop and goes
    on with their new values or leaves with a result; [None] is a loop that is
    still running when the fuel is used up. *)
Section Loops.
Context {S B A : Type} (body : B → GoM S (B + A)).

Fixpoint loop (fuel : nat) (b : B) : GoM S (option A) :=
  match fuel with
  | 0 => mret None
  | Datatypes.S fuel =>
      r ← body b;
      match r with inl b' => loop fuel b' | inr a => mret (Some a) end
  end.

(** [turns n b s b' s']: [n] rounds that all go on. *)
Inductive turns : nat → B → S → B → S → Prop :=
  | turns_0 b s : turns 0 b s b s
  | turns_S n b s b1 s1 b' s' :
      body b s = (Ok (inl b1), s1) → turns n b1 s1 b' s' → turns (Datatypes.S n) b s b' s'.

Lemma loop_turns n fuel b s b' s' :
  turns n b s b' s' → loop (n + fuel) b s = loop fuel b' s'.
Proof. induction 1 as [|n b s b1 s1 b' s' R _ IH]; [done|]. simpl. by rewrite (bind_ok _ _ _ _ _ R). Qed.

(** The loop returns exactly when, within the fuel, some rounds go on and the
    next one leaves. *)
Lemma loop_returns fuel b s a s' :
  loop fuel b s = (Ok (Some a), s') ↔
  ∃ n b1 s1, n < fuel ∧ turns n b s b1 s1 ∧ body b1 s1 = (Ok (inr a), s').
Proof.
  split.
  - revert b s. induction fuel as [|fuel IH]; intros b s; [done|].
    intros ([b1|a1] & s1 & R1 & R)%bind_inv.
    + apply IH in R as (n & b2 & s2 & Hn & Ht & Hr). exists (Datatypes.S n), b2, s2.
      split_and!; [lia|by econstructor|done].
    + apply ret_inv in R as [[= ->] ->]. exists 0, b, s. split_and!; [lia|constructor|done].
  - intros (n & b1 & s1 & Hn & Ht & Hr).
    replace fuel with (n + Datatypes.S (fuel - Datatypes.S n)) by lia.
    rewrite (loop_turns _ _ _ _ _ _ Ht). simpl. by rewrite (bind_ok _ _ _ _ _ Hr).
Qed.

(** The same, computed. *)
Fixpoint run_turns (n : nat) (b : B) (s : S) : option (B * S) :=
  match n with
  | 0 => Some (b, s)
  | Datatypes.S n => match body b s with (Ok (inl b1), s1) => run_turns n b1 s1 | _ => None end
  end.

Lemma run_turns_sound n b s b' s' : run_turns n b s = Some (b', s') → turns n b s b' s'.
Proof.
  revert b s. induction n as [|n IH]; intros b s; [intros [= -> ->]; constructor|]. simpl.
  destruct (body b s) as [[[b1|]| | |] s1] eqn:R; try done. intros Ht. by econstructor; [|apply IH].
Qed.

Lemma turns_snoc n b s b1 s1 b' s' :
  turns n b s b1 s1 → body b1 s1 = (Ok (inl b'), s') → turns (Datatypes.S n) b s b' s'.
Proof.
  induction 1 as [b s|n b s b0 s0 b1 s1 R _ IH]; intros R'; [by repeat econstructor|].
  econstructor; [exact R|by apply IH].
Qed.

(** An invariant of the rounds. *)
Lemma turns_invariant (I : nat → B → S → Prop) n0 n b s b' s' :
  (∀ k b s b1 s1, I k b s → body b s = (Ok (inl b1), s1) → I (Datatypes.S k) b1 s1) →
  turns n b s b' s' → I n0 b s → I (n0 + n) b' s'.
Proof.
  intros Hstep. intros Ht. revert n0.
  induction Ht as [|n b s b1 s1 b' s' R _ IH]; intros n0 HI; [by rewrite Nat.add_0_r|].
  rewrite Nat.add_succ_r. apply (IH (Datatypes.S n0)). by eapply Hstep.
Qed.

Lemma within_loop (R : S → S → Prop) `{!PreOrder R} fuel b :
  (∀ b, within R (body b)) → within R (loop fuel b).
Proof.
  intros Hb. revert b. induction fuel as [|fuel IH]; intros b; simpl; [apply within_ret; apply _|].
  apply within_bind; [apply _|done|]. intros [b'|a]; [done|]. apply within_ret; apply _.
Qed.
End Loops.

(** ** Simulation between runs over two states *)

(** From related states, [m1] and [m2] have the same outcome and end in related
    states. *)
Definition sim_at {S1 S2 A} (R : S1 → S2 → Prop) (m1 : GoM S1 A) (m2 : GoM S2 A)
    (s1 : S1) (s2 : S2) : Prop :=
  (m1 s1).1 = (m2 s2).1 ∧ R (m1 s1).2 (m2 s2).2.

Lemma sim_ret {S1 S2 A} (R : S1 → S2 → Prop) (a : A) s1 s2 :
  R s1 s2 → sim_at R (mret a) (mret a) s1 s2.
Proof. by intros. Qed.

Lemma sim_bind {S1 S2 A B} (R : S1 → S2 → Prop) (m1 : GoM S1 A) (m2 : GoM S2 A)
    (f1 : A → GoM S1 B) (f2 : A → GoM S2 B) s1 s2 :
  sim_at R m1 m2 s1 s2 →
  (∀ a t1 t2, R t1 t2 → sim_at R (f1 a) (f2 a) t1 t2) →
  sim_at R (m1 ≫= f1) (m2 ≫= f2) s1 s2.
Proof.
  intros [Ho Hr] Hf. unfold sim_at, mbind, GoM_bind.
  destruct (m1 s1) as [o1 t1], (m2 s2) as [o2 t2]. simpl in *. subst o2.
  destruct o1; [by apply Hf|done..].
Qed.

Lemma sim_go_map {S1 S2 A B} (R : S1 → S2 → Prop) (f1 : A → GoM S1 B) (f2 : A → GoM S2 B) l s1 s2 :
  R s1 s2 → (∀ x t1 t2, R t1 t2 → sim_at R (f1 x) (f2 x) t1 t2) →
  sim_at R (go_map f1 l) (go_map f2 l) s1 s2.
Proof.
  intros Hr Hf. revert s1 s2 Hr. induction l as [|x l IH]; intros s1 s2 Hr; [by apply sim_ret|].
  apply sim_bind; [by apply Hf|]. intros y t1 t2 Ht.
  apply sim_bind; [by apply IH|]. intros ys u1 u2 Hu. by apply sim_ret.
Qed.

(** Step over the head operation of a run whose result [tac] finds. *)
Tactic Notation "go_exec" "by" tactic3(tac) :=
  rewrite ?bind_assoc; erewrite bind_ok by (tac; fail); simpl; rewrite ?bind_ret_l; simpl.

Create HintDb go.
#[export] Hint Resolve preserves_ret preserves_get_state preserves_gets : go.

(** Split a run that preserves an invariant into the operations it is made of. *)
Ltac preserves :=
  repeat first
    [ progress intros
    | solve [auto with go]
    | apply preserves_bind
    | progress case_match ].

(** Split a run within a preorder into the operations it is made of. *)
Ltac runs :=
  repeat first
    [ progress intros
    | assumption
    | apply within_ret; apply _
    | apply within_get_state; apply _
    | apply within_bind; [apply _| |] ].
