(* ===== verification/Enums.v ===== *)
(** * The enumerations of the TAPS API (taps/enum.go, taps/enum_string.go)

    Every Go enumeration is a [uint8], so a value is an integer of that width
    and may lie outside the declared constants. The [String] methods are the
    generated ones: a name table held in one string, cut at an index table of
    bytes. The theorems show that the cut never leaves the table, that every
    declared constant prints as its own identifier, that every other byte
    prints as "Type(n)", and that printing loses nothing. *)

From S2P Require Import Prelude.
Local Open Scope Z_scope.

Definition uint8 (z : Z) : Z := z mod 256.
Definition is_uint8 (z : Z) : Prop := 0 ≤ z < 256.

(** ** The constants, in iota order *)
Definition Preference := Z.
Definition unset : Preference := 0.
Definition Ignore : Preference := 1.
Definition Require_ : Preference := 2.
Definition Prefer : Preference := 3.
Definition Avoid : Preference := 4.
Definition Prohibit : Preference := 5.

Definition MultipathPreference := Z.
Definition dynamic : MultipathPreference := 0.
Definition Disabled : MultipathPreference := 1.
Definition Active : MultipathPreference := 2.
Definition Passive : MultipathPreference := 3.

Definition MultipathPolicy := Z.
Definition Handover : MultipathPolicy := 0.
Definition Interactive : MultipathPolicy := 1.
Definition Aggregate : MultipathPolicy := 2.

Definition Directionality := Z.
Definition Bidirectional : Directionality := 0.
Definition UnidirectionalSend : Directionality := 1.
Definition UnidirectionalReceive : Directionality := 2.

Definition CapacityProfile := Z.
Definition Default : CapacityProfile := 0.
Definition Scavenger : CapacityProfile := 1.
Definition LowLatencyInteractive : CapacityProfile := 2.
Definition LowLatencyNonInteractive : CapacityProfile := 3.
Definition ConstantRateStreaming : CapacityProfile := 4.
Definition CapacitySeeking : CapacityProfile := 5.

Definition StreamScheduler := Z.
Definition SCTP_SS_FCFS : StreamScheduler := 0.
Definition SCTP_SS_RR : StreamScheduler := 1.
Definition SCTP_SS_RR_PKT : StreamScheduler := 2.
Definition SCTP_SS_PRIO : StreamScheduler := 3.
Definition SCTP_SS_FC : StreamScheduler := 4.
Definition SCTP_SS_WFQ : StreamScheduler := 5.

Definition ConnectionState := Z.
Definition Establishing : ConnectionState := 0.
Definition Established : ConnectionState := 1.
Definition Closing : ConnectionState := 2.
Definition Closed : ConnectionState := 3.

(** ** The generated String methods *)

(** [s[a:b]] of a Go string: the bounds are checked. *)
Definition go_substring (s : string) (a b : Z) : outcome string :=
  if (0 <=? a) && (a <=? b) && (b <=? Z.of_nat (String.length s))
  then Ok (String.substring (Z.to_nat a) (Z.to_nat (b - a)) s)
  else Panics slice_range.

(** [x[i]] of a Go array: the index is checked. *)
Definition go_index (x : list Z) (i : Z) : outcome Z :=
  match (if 0 <=? i then x !! Z.to_nat i else None) with
  | Some v => Ok v
  | None => Panics "index out of range"
  end.

(** The body the generator emits for each type: [i + 1] is [uint8] arithmetic. *)
Definition stringer (typ name : string) (index : list Z) (i : Z) : outcome string :=
  if uint8 (Z.of_nat (length index) - 1) <=? i
  then Ok (typ +:+ "(" +:+ pretty i +:+ ")")
  else match go_index index i, go_index index (uint8 (i + 1)) with
       | Ok a, Ok b => go_substring name a b
       | Panics w, _ | _, Panics w => Panics w
       | _, _ => Panics "unreachable"
       end.

Definition _Preference_name : string := "unsetIgnoreRequirePreferAvoidProhibit".
Definition _Preference_index : list Z := [0; 5; 11; 18; 24; 29; 37].
Definition Preference_String (i : Preference) : outcome string :=
  stringer "Preference" _Preference_name _Preference_index i.

Definition _MultipathPreference_name : string := "dynamicDisabledActivePassive".
Definition _MultipathPreference_index : list Z := [0; 7; 15; 21; 28].
Definition MultipathPreference_String (i : MultipathPreference) : outcome string :=
  stringer "MultipathPreference" _MultipathPreference_name _MultipathPreference_index i.

Definition _MultipathPolicy_name : string := "HandoverInteractiveAggregate".
Definition _MultipathPolicy_index : list Z := [0; 8; 19; 28].
Definition MultipathPolicy_String (i : MultipathPolicy) : outcome string :=
  stringer "MultipathPolicy" _MultipathPolicy_name _MultipathPolicy_index i.

Definition _Directionality_name : string :=
  "BidirectionalUnidirectionalSendUnidirectionalReceive".
Definition _Directionality_index : list Z := [0; 13; 31; 52].
Definition Directionality_String (i : Directionality) : outcome string :=
  stringer "Directionality" _Directionality_name _Directionality_index i.

Definition _CapacityProfile_name : string :=
  "DefaultScavengerLowLatencyInteractiveLowLatencyNonInteractiveConstantRateStreamingCapacitySeeking".
Definition _CapacityProfile_index : list Z := [0; 7; 16; 37; 61; 82; 97].
Definition CapacityProfile_String (i : CapacityProfile) : outcome string :=
  stringer "CapacityProfile" _CapacityProfile_name _CapacityProfile_index i.

Definition _StreamScheduler_name : string :=
  "SCTP_SS_FCFSSCTP_SS_RRSCTP_SS_RR_PKTSCTP_SS_PRIOSCTP_SS_FCSCTP_SS_WFQ".
Definition _StreamScheduler_index : list Z := [0; 12; 22; 36; 48; 58; 69].
Definition StreamScheduler_String (i : StreamScheduler) : outcome string :=
  stringer "StreamScheduler" _StreamScheduler_name _StreamScheduler_index i.

Definition _ConnectionState_name : string := "EstablishingEstablishedClosingClosed".
Definition _ConnectionState_index : list Z := [0; 12; 23; 30; 36].
Definition ConnectionState_String (i : ConnectionState) : outcome string :=
  stringer "ConnectionState" _ConnectionState_name _ConnectionState_index i.

(** ** The compile-time assertions

    [_ = x[C-n]] with [var x [1]struct{}] compiles only for the index 0: each
    constant must have the value the tables were generated for. *)
Definition one_element (index : Z) : bool := (0 <=? index) && (index <? 1).

Definition Preference_checks : list Z :=
  [unset - 0; Ignore - 1; Require_ - 2; Prefer - 3; Avoid - 4; Prohibit - 5].
Definition MultipathPreference_checks : list Z := [dynamic - 0; Disabled - 1; Active - 2; Passive - 3].
Definition MultipathPolicy_checks : list Z := [Handover - 0; Interactive - 1; Aggregate - 2].
Definition Directionality_checks : list Z :=
  [Bidirectional - 0; UnidirectionalSend - 1; UnidirectionalReceive - 2].
Definition CapacityProfile_checks : list Z :=
  [Default - 0; Scavenger - 1; LowLatencyInteractive - 2; LowLatencyNonInteractive - 3;
   ConstantRateStreaming - 4; CapacitySeeking - 5].
Definition StreamScheduler_checks : list Z :=
  [SCTP_SS_FCFS - 0; SCTP_SS_RR - 1; SCTP_SS_RR_PKT - 2; SCTP_SS_PRIO - 3; SCTP_SS_FC - 4; SCTP_SS_WFQ - 5].
Definition ConnectionState_checks : list Z :=
  [Establishing - 0; Established - 1; Closing - 2; Closed - 3].

(** The package compiles. *)
Lemma checks_pass :
  forallb one_element (Preference_checks ++ MultipathPreference_checks ++ MultipathPolicy_checks ++
    Directionality_checks ++ CapacityProfile_checks ++ StreamScheduler_checks ++ ConnectionState_checks) = true.
Proof. reflexivity. Qed.

(** ** Specification: the identifiers as enum.go declares them *)
Inductive enum : Set :=
  | EPreference | EMultipathPreference | EMultipathPolicy | EDirectionality
  | ECapacityProfile | EStreamScheduler | EConnectionState.

Definition enum_name (e : enum) : string :=
  match e with
  | EPreference => "Preference"
  | EMultipathPreference => "MultipathPreference"
  | EMultipathPolicy => "MultipathPolicy"
  | EDirectionality => "Directionality"
  | ECapacityProfile => "CapacityProfile"
  | EStreamScheduler => "StreamScheduler"
  | EConnectionState => "ConnectionState"
  end.

(** Each declared constant with the text it must print as. *)
Definition enum_constants (e : enum) : list (Z * string) :=
  match e with
  | EPreference =>
      [(unset, "unset"); (Ignore, "Ignore"); (Require_, "Require");
       (Prefer, "Prefer"); (Avoid, "Avoid"); (Prohibit, "Prohibit")]
  | EMultipathPreference =>
      [(dynamic, "dynamic"); (Disabled, "Disabled"); (Active, "Active"); (Passive, "Passive")]
  | EMultipathPolicy =>
      [(Handover, "Handover"); (Interactive, "Interactive"); (Aggregate, "Aggregate")]
  | EDirectionality =>
      [(Bidirectional, "Bidirectional"); (UnidirectionalSend, "UnidirectionalSend");
       (UnidirectionalReceive, "UnidirectionalReceive")]
  | ECapacityProfile =>
      [(Default, "Default"); (Scavenger, "Scavenger");
       (LowLatencyInteractive, "LowLatencyInteractive");
       (LowLatencyNonInteractive, "LowLatencyNonInteractive");
       (ConstantRateStreaming, "ConstantRateStreaming"); (CapacitySeeking, "CapacitySeeking")]
  | EStreamScheduler =>
      [(SCTP_SS_FCFS, "SCTP_SS_FCFS"); (SCTP_SS_RR, "SCTP_SS_RR");
       (SCTP_SS_RR_PKT, "SCTP_SS_RR_PKT"); (SCTP_SS_PRIO, "SCTP_SS_PRIO");
       (SCTP_SS_FC, "SCTP_SS_FC"); (SCTP_SS_WFQ, "SCTP_SS_WFQ")]
  | EConnectionState =>
      [(Establishing, "Establishing"); (Established, "Established");
       (Closing, "Closing"); (Closed, "Closed")]
  end%string.

Definition enum_String (e : enum) : Z → outcome string :=
  match e with
  | EPreference => Preference_String
  | EMultipathPreference => MultipathPreference_String
  | EMultipathPolicy => MultipathPolicy_String
  | EDirectionality => Directionality_String
  | ECapacityProfile => CapacityProfile_String
  | EStreamScheduler => StreamScheduler_String
  | EConnectionState => ConnectionState_String
  end.

(** What printing a byte must give. *)
Definition enum_text (e : enum) (i : Z) : string :=
  match list_find (λ c, c.1 = i) (enum_constants e) with
  | Some (_, (_, s)) => s
  | None => enum_name e +:+ "(" +:+ pretty i +:+ ")"
  end.

(** ** Lemmas: the declared range and the fallback *)
Definition enum_size (e : enum) : Z := Z.of_nat (length (enum_constants e)).

Definition fallback (e : enum) (i : Z) : string := enum_name e +:+ "(" +:+ pretty i +:+ ")".

Lemma enum_String_out e i : enum_size e ≤ i → enum_String e i = Ok (fallback e i).
Proof.
  intros Hi. destruct e; unfold enum_size in Hi; simpl in Hi; unfold enum_String;
    match goal with |- ?f i = _ => unfold f, stringer end;
    match goal with |- context [uint8 ?n <=? i] =>
      let k := eval vm_compute in (uint8 n) in change (uint8 n) with k end;
    (destruct (_ <=? i) eqn:E; [reflexivity|lia]).
Qed.

Lemma enum_constants_below e : Forall (λ c, c.1 < enum_size e) (enum_constants e).
Proof. destruct e; repeat constructor. Qed.

Lemma enum_text_out e i : enum_size e ≤ i → enum_text e i = fallback e i.
Proof.
  intros Hi. unfold enum_text. destruct (list_find _ _) as [[k [j s]]|] eqn:E; [|done].
  apply list_find_Some in E as (Hk & Hj & _). simpl in Hj. subst j.
  eapply Forall_lookup_1 in Hk; [|apply enum_constants_below]. simpl in Hk. lia.
Qed.

(** A declared value, by cases. *)
Lemma enum_in_cases e i (P : Z → Prop) :
  Forall P (Z.of_nat <$> seq 0 (length (enum_constants e))) →
  0 ≤ i < enum_size e → P i.
Proof.
  intros HP Hi. rewrite Forall_forall in HP. apply HP.
  apply list_elem_of_fmap. exists (Z.to_nat i). rewrite elem_of_seq.
  unfold enum_size in Hi. lia.
Qed.

Lemma enum_String_in e i : 0 ≤ i < enum_size e → enum_String e i = Ok (enum_text e i).
Proof.
  revert i. intros i. apply (enum_in_cases e i (λ i, enum_String e i = Ok (enum_text e i))).
  destruct e; repeat constructor.
Qed.

(** No identifier has a parenthesis, every fallback text has one. *)
Fixpoint has_paren (s : string) : bool :=
  match s with
  | EmptyString => false
  | String c s => (bool_decide (c = "("%char)) || has_paren s
  end.

Lemma has_paren_app s t : has_paren (s +:+ t) = has_paren s || has_paren t.
Proof.
  induction s as [|c s IH]; [done|].
  change (bool_decide (c = "("%char) || has_paren (s +:+ t)
          = (bool_decide (c = "("%char) || has_paren s) || has_paren t).
  by rewrite IH, orb_assoc.
Qed.

Lemma has_paren_fallback e i : has_paren (fallback e i) = true.
Proof. unfold fallback. rewrite !has_paren_app. apply orb_true_r. Qed.

Lemma has_paren_text e i : 0 ≤ i < enum_size e → has_paren (enum_text e i) = false.
Proof.
  apply (enum_in_cases e i (λ i, has_paren (enum_text e i) = false)).
  destruct e; repeat constructor.
Qed.

Lemma enum_text_in_inj e i j :
  0 ≤ i < enum_size e → 0 ≤ j < enum_size e → enum_text e i = enum_text e j → i = j.
Proof.
  intros Hi Hj. revert i Hi.
  refine (enum_in_cases e j (λ j, ∀ i, _ → enum_text e i = enum_text e j → i = j) _ Hj).
  apply Forall_forall. intros k Hk i Hi. revert Hk.
  refine (enum_in_cases e i (λ i, k ∈ _ → enum_text e i = enum_text e k → i = k) _ Hi).
  destruct e; cbn; repeat (constructor; [set_unfold; intuition (subst; done)|]); constructor.
Qed.

Lemma fallback_inj e i j : fallback e i = fallback e j → i = j.
Proof.
  unfold fallback. intros H%(inj (String.app _))%(inj (String.app _)).
  apply (inj pretty). revert H. generalize (pretty i : string) (pretty j : string).
  induction s as [|c s IH]; intros [|d t]; cbn; intros; simplify_eq/=; try done.
  - by destruct t.
  - by destruct s.
  - f_equal. by apply IH.
Qed.

(** ** Properties *)

(** C38: For each of the seven enumerations and every byte, String returns: a
    declared constant prints as the identifier enum.go gives it, any other byte
    as "Type(n)"; the index and name tables are never left, so it never
    panics. *)
Theorem String_correct (e : enum) (i : Z) :
  is_uint8 i → enum_String e i = Ok (enum_text e i).
Proof.
  intros [??]. destruct (Z.lt_ge_cases i (enum_size e)); [by apply enum_String_in|].
  by rewrite enum_String_out, enum_text_out.
Qed.

Lemma String_correct_witness :
  is_uint8 5 ∧ enum_String ECapacityProfile 5 = Ok "CapacitySeeking"%string
  ∧ enum_String ECapacityProfile 200 = Ok "CapacityProfile(200)"%string.
Proof.
  assert (is_uint8 5) as H5 by (unfold is_uint8; lia).
  assert (is_uint8 200) as H200 by (unfold is_uint8; lia).
  split; [exact H5|].
  exact (conj (String_correct ECapacityProfile 5 H5)
              (String_correct ECapacityProfile 200 H200)).
Defined.

(** String is injective on every enumeration: two different bytes never
    print the same, so a script that receives a profile by name can tell all of
    them apart. *)
Theorem String_injective (e : enum) (i j : Z) :
  is_uint8 i → is_uint8 j → enum_String e i = enum_String e j → i = j.
Proof.
  intros [Hi _] [Hj _].
  destruct (Z.lt_ge_cases i (enum_size e)), (Z.lt_ge_cases j (enum_size e));
    repeat first [rewrite enum_String_in by done | rewrite enum_String_out by done];
    intros [= Heq].
  - by eapply enum_text_in_inj.
  - exfalso. apply (f_equal has_paren) in Heq.
    by rewrite has_paren_fallback, has_paren_text in Heq.
  - exfalso. apply (f_equal has_paren) in Heq.
    by rewrite has_paren_fallback, has_paren_text in Heq.
  - by eapply fallback_inj.
Qed.

Lemma String_injective_witness :
  is_uint8 3 ∧ (enum_String ECapacityProfile 3 = enum_String ECapacityProfile 3 → 3 = 3).
Proof.
  assert (is_uint8 3) as H3 by (unfold is_uint8; lia).
  exact (conj H3 (String_injective ECapacityProfile 3 3 H3 H3)).
Defined.
