(* ===== verification/Taps.v ===== *)
(** * The TAPS objects and the Preconnection (package taps)

    Endpoints, preferences, properties, security parameters and preconnections,
    over an explicit heap: pointers are locations, Go maps are heap objects
    (nil being no location), so what a Copy shares with its original is
    visible. [Preconnection] comes with Copy, Listen, Initiate and
    SetPreferences; a protocol is an object behind the [Protocol] interface. *)

From S2P Require Import Prelude Enums.

(** ** Data *)

(** endpoint.go. LocalEndpoint and RemoteEndpoint embed an Endpoint and nothing
    else: a pointer to one is a pointer to its Endpoint. *)
Record Endpoint (P : Type) := mkEndpoint {
  Address : string;
  Protocol : option P
}.
Arguments mkEndpoint {P} _ _.
Arguments Address {P} _.
Arguments Protocol {P} _.

(** connection_preferences.go; a [time.Duration] is a count of nanoseconds. *)
Record ConnectionPreferences := mkConnectionPreferences {
  ConnTimeout : Z;
  ConnCapacityProfile : CapacityProfile;
  MultipathPolicy_ : MultipathPolicy;
  IsolateSession : bool
}.

(** transport_preferences.go *)
Record TransportPreferences := mkTransportPreferences {
  tp_Reliability : Preference;
  tp_PreserveOrder : Preference;
  tp_CongestionControl : Preference;
  tp_Interface : option loc;
  tp_Multipath : MultipathPreference
}.

(** transport_properties.go *)
Record TransportProperties := mkTransportProperties {
  Reliability : bool;
  PreserveOrder : bool;
  CongestionControl : bool;
  Interface : string;
  Multipath : MultipathPreference
}.

(** selection_properties.go *)
Record SelectionProperties := mkSelectionProperties {
  sp_Reliability : Preference;
  sp_PreserveMsgBoundaries : Preference;
  sp_PerMsgReliability : Preference;
  sp_PreserveOrder : Preference;
  sp_ZeroRTTMsg : Preference;
  sp_Multistreaming : Preference;
  sp_FullChecksumSend : Preference;
  sp_FullChecksumRecv : Preference;
  sp_CongestionControl : Preference;
  sp_KeepAlive : Preference;
  sp_Interface : option loc;
  sp_PvD : option loc;
  sp_Multipath : MultipathPreference;
  sp_UseTemporaryLocalAddress : Preference;
  sp_AdvertisesAltAddr : bool;
  sp_Direction : Directionality;
  sp_SoftErrorNotify : Preference;
  sp_ActiveReadBeforeSend : Preference
}.

(** security.go. Keys and cipher suites are objects of the crypto packages, which
    this heap does not hold: a pointer says which object it is, and [secrets] reads
    what it contains. *)
Record KeyPair := mkKeyPair { PrivateKey : option loc; PublicKey : option loc }.

Record SecurityParameters := mkSecurityParameters {
  Identity : string;
  KeyPair_ : KeyPair;
  SupportedGroup : Z;
  CipherSuite : option loc;
  SignatureAlgorithm : Z;
  MaxCachedSessions : Z;
  CachedSessionLifetime : Z;
  PSK : option loc
}.

(** preconnection.go *)
Record Preconnection := mkPreconnection {
  LocalEndpoint : option loc;
  RemoteEndpoint : option loc;
  TransportPreferences_ : TransportPreferences;
  SecurityParameters_ : SecurityParameters;
  ConnectionPreferences_ : option loc
}.
#[export] Instance eta_Preconnection : Eta Preconnection := λ p,
  mkPreconnection (LocalEndpoint p) (RemoteEndpoint p) (TransportPreferences_ p)
    (SecurityParameters_ p) (ConnectionPreferences_ p).

(** The heap of TAPS objects; [P] is the type of protocol objects. *)
Record Heap (P : Type) := mkHeap {
  endpoints : gmap loc (Endpoint P);
  preferences : gmap loc ConnectionPreferences;
  maps : gmap loc (gmap string Preference);
  preconnections : gmap loc Preconnection
}.
Arguments mkHeap {P} _ _ _ _.
Arguments endpoints {P} _.
Arguments preferences {P} _.
Arguments maps {P} _.
Arguments preconnections {P} _.
#[export] Instance eta_Heap P : Eta (Heap P) := λ h,
  mkHeap (endpoints h) (preferences h) (maps h) (preconnections h).
Definition empty_heap {P} : Heap P := mkHeap ∅ ∅ ∅ ∅.

(** error.go *)
Definition NewEstablishmentError (reason : string) : error := Some reason.

(** ** Constructors and copies *)
Section Copies.
Context {P : Type}.

(** [for key, value := range m { new[key] = value }]: ranging over a nil map
    does nothing, and the order of a range does not matter here. *)
Definition copy_map (m : option loc) : GoM (Heap P) loc :=
  entries ← match m with None => mret ∅ | Some _ => load maps m end;
  alloc maps (map_fold (λ k v new, <[k := v]> new) ∅ entries).

Definition Endpoint_Copy (e : option loc) : GoM (Heap P) loc :=
  v ← load endpoints e;
  alloc endpoints (mkEndpoint (Address v) (Protocol v)).

Definition ConnectionPreferences_Copy (cp : option loc) : GoM (Heap P) loc :=
  v ← load preferences cp;
  alloc preferences (mkConnectionPreferences (ConnTimeout v) (ConnCapacityProfile v)
                       (MultipathPolicy_ v) (IsolateSession v)).

Definition TransportPreferences_Copy (tp : TransportPreferences)
    : GoM (Heap P) TransportPreferences :=
  newInterface ← copy_map (tp_Interface tp);
  mret (mkTransportPreferences (tp_Reliability tp) (tp_PreserveOrder tp)
          (tp_CongestionControl tp) (Some newInterface) (tp_Multipath tp)).

Definition NewTransportPreferences : GoM (Heap P) TransportPreferences :=
  m ← alloc maps ∅;
  mret (mkTransportPreferences Require_ Require_ Require_ (Some m) dynamic).

Definition TransportProperties_Copy (tp : TransportProperties) : TransportProperties :=
  mkTransportProperties (Reliability tp) (PreserveOrder tp) (CongestionControl tp)
    (Interface tp) (Multipath tp).

Definition SelectionProperties_Copy (sp : SelectionProperties)
    : GoM (Heap P) SelectionProperties :=
  newInterface ← copy_map (sp_Interface sp);
  newPvD ← copy_map (sp_PvD sp);
  mret {| sp_Reliability := sp_Reliability sp;
          sp_PreserveMsgBoundaries := sp_PreserveMsgBoundaries sp;
          sp_PerMsgReliability := sp_PerMsgReliability sp;
          sp_PreserveOrder := sp_PreserveOrder sp;
          sp_ZeroRTTMsg := sp_ZeroRTTMsg sp;
          sp_Multistreaming := sp_Multistreaming sp;
          sp_FullChecksumSend := sp_FullChecksumSend sp;
          sp_FullChecksumRecv := sp_FullChecksumRecv sp;
          sp_CongestionControl := sp_CongestionControl sp;
          sp_KeepAlive := sp_KeepAlive sp;
          sp_Interface := Some newInterface;
          sp_PvD := Some newPvD;
          sp_Multipath := sp_Multipath sp;
          sp_UseTemporaryLocalAddress := sp_UseTemporaryLocalAddress sp;
          sp_AdvertisesAltAddr := sp_AdvertisesAltAddr sp;
          sp_Direction := sp_Direction sp;
          sp_SoftErrorNotify := sp_SoftErrorNotify sp;
          sp_ActiveReadBeforeSend := sp_ActiveReadBeforeSend sp |}.

Definition NewSelectionProperties : GoM (Heap P) SelectionProperties :=
  newInterface ← alloc maps ∅;
  newPvD ← alloc maps ∅;
  mret {| sp_Reliability := Require_; sp_PreserveMsgBoundaries := Ignore;
          sp_PerMsgReliability := Ignore; sp_PreserveOrder := Require_;
          sp_ZeroRTTMsg := Ignore; sp_Multistreaming := Prefer;
          sp_FullChecksumSend := Require_; sp_FullChecksumRecv := Require_;
          sp_CongestionControl := Require_; sp_KeepAlive := Ignore;
          sp_Interface := Some newInterface; sp_PvD := Some newPvD;
          sp_UseTemporaryLocalAddress := unset; sp_Multipath := dynamic;
          sp_AdvertisesAltAddr := false; sp_Direction := Bidirectional;
          sp_SoftErrorNotify := Ignore; sp_ActiveReadBeforeSend := Ignore |}.

Definition NewDisabledSecurityParameters : SecurityParameters :=
  mkSecurityParameters "" (mkKeyPair None None) 0 None 0 0 0 None.

(** The cipher suite and the keys are shared with the original. *)
Definition SecurityParameters_Copy (sp : SecurityParameters) : SecurityParameters :=
  mkSecurityParameters (Identity sp) (KeyPair_ sp) (SupportedGroup sp) (CipherSuite sp)
    (SignatureAlgorithm sp) (MaxCachedSessions sp) (CachedSessionLifetime sp) (PSK sp).

(** [&LocalEndpoint{*p.LocalEndpoint.Copy()}], and the same for the remote
    end: the endpoint is copied and the copy's value put in a new object. *)
Definition copy_endpoint (e : option loc) : GoM (Heap P) (option loc) :=
  match e with
  | None => mret None
  | Some _ => c ← Endpoint_Copy e; v ← load endpoints (Some c); Some <$> alloc endpoints v
  end.

Definition Preconnection_Copy (p : option loc) : GoM (Heap P) loc :=
  pre ← load preconnections p;
  local ← copy_endpoint (LocalEndpoint pre);
  remote ← copy_endpoint (RemoteEndpoint pre);
  cp ← match ConnectionPreferences_ pre with
       | None => mret None
       | Some _ => Some <$> ConnectionPreferences_Copy (ConnectionPreferences_ pre)
       end;
  tp ← TransportPreferences_Copy (TransportPreferences_ pre);
  alloc preconnections
    (mkPreconnection local remote tp (SecurityParameters_Copy (SecurityParameters_ pre)) cp).
End Copies.

(** ** What a preconnection denotes

    The value a holder of the pointer can read through it: every pointer
    followed, a nil map read as an empty one. *)
Record View (P : Type) := mkView {
  v_local : option (Endpoint P);
  v_remote : option (Endpoint P);
  v_reliability : Preference;
  v_order : Preference;
  v_congestion : Preference;
  v_interface : gmap string Preference;
  v_multipath : MultipathPreference;
  v_security : SecurityParameters;
  v_preferences : option ConnectionPreferences
}.
Arguments mkView {P} _ _ _ _ _ _ _ _ _.
Arguments v_local {P} _.
Arguments v_remote {P} _.
Arguments v_reliability {P} _.
Arguments v_order {P} _.
Arguments v_congestion {P} _.
Arguments v_interface {P} _.
Arguments v_multipath {P} _.
Arguments v_security {P} _.
Arguments v_preferences {P} _.
#[export] Instance eta_View P : Eta (View P) := λ v,
  mkView (v_local v) (v_remote v) (v_reliability v) (v_order v) (v_congestion v) (v_interface v)
    (v_multipath v) (v_security v) (v_preferences v).

Section Views.
Context {P : Type}.
Implicit Types (h : Heap P).

(** A pointer's target; [None] for a dangling pointer. *)
Definition view_ptr {C} (m : gmap loc C) (p : option loc) : option (option C) :=
  match p with None => Some None | Some l => Some <$> m !! l end.

Definition view_map (m : gmap loc (gmap string Preference)) (p : option loc)
    : option (gmap string Preference) :=
  match p with None => Some ∅ | Some l => m !! l end.

Definition view h (l : loc) : option (View P) :=
  pre ← preconnections h !! l;
  local ← view_ptr (endpoints h) (LocalEndpoint pre);
  remote ← view_ptr (endpoints h) (RemoteEndpoint pre);
  cp ← view_ptr (preferences h) (ConnectionPreferences_ pre);
  interface ← view_map (maps h) (tp_Interface (TransportPreferences_ pre));
  let tp := TransportPreferences_ pre in
  Some (mkView local remote (tp_Reliability tp) (tp_PreserveOrder tp)
          (tp_CongestionControl tp) interface (tp_Multipath tp)
          (SecurityParameters_ pre) cp).

(** The private key, the public key, the cipher suite and the PSK of a
    preconnection's security parameters, read from the objects [crypto] of the
    crypto packages. A view has the pointers to these objects only. *)
Definition secrets {C} (crypto : gmap loc C) h (l : loc) : option (list (option (option C))) :=
  pre ← preconnections h !! l;
  let sp := SecurityParameters_ pre in
  Some (view_ptr crypto <$> [PrivateKey (KeyPair_ sp); PublicKey (KeyPair_ sp); CipherSuite sp; PSK sp]).

(** [h'] has the objects of [h], unchanged, and maybe more. *)
Definition extends h h' : Prop :=
  endpoints h ⊆ endpoints h' ∧ preferences h ⊆ preferences h' ∧
  maps h ⊆ maps h' ∧ preconnections h ⊆ preconnections h'.

#[export] Instance extends_preorder : PreOrder extends.
Proof.
  split.
  - intros h. by repeat split.
  - intros h1 h2 h3 (?&?&?&?) (?&?&?&?). repeat split; by etrans.
Qed.

(** [h'] and [h2] agree except on objects that [h] already had. *)
Definition agree_off h h' h2 : Prop :=
  (∀ l, endpoints h !! l = None → endpoints h2 !! l = endpoints h' !! l) ∧
  (∀ l, preferences h !! l = None → preferences h2 !! l = preferences h' !! l) ∧
  (∀ l, maps h !! l = None → maps h2 !! l = maps h' !! l) ∧
  (∀ l, preconnections h !! l = None → preconnections h2 !! l = preconnections h' !! l).

(** A pointer to nothing that [m] had. *)
Definition fresh_ptr {C} (m : gmap loc C) (p : option loc) : Prop :=
  match p with None => True | Some l => m !! l = None end.

Lemma fresh_ptr_mono {C} (m m' : gmap loc C) p :
  m ⊆ m' → fresh_ptr m' p → fresh_ptr m p.
Proof. destruct p; simpl; [|done]. intros ??. by eapply lookup_weaken_None. Qed.

Lemma view_ptr_mono {C} (m m' : gmap loc C) p v :
  m ⊆ m' → view_ptr m p = Some v → view_ptr m' p = Some v.
Proof.
  destruct p as [l|]; simpl; [|done]. intros Hsub Hv.
  apply fmap_Some in Hv as (c & Hc & ->). by rewrite (lookup_weaken _ _ _ _ Hc Hsub).
Qed.

Lemma view_map_mono m m' p v : m ⊆ m' → view_map m p = Some v → view_map m' p = Some v.
Proof. destruct p as [l|]; simpl; [|done]. intros ??. by eapply lookup_weaken. Qed.

Lemma extends_alloc_endpoints h c : extends h (alloc endpoints c h).2.
Proof. repeat split; try done. apply insert_subseteq, alloc_fresh. Qed.
Lemma extends_alloc_preferences h c : extends h (alloc preferences c h).2.
Proof. repeat split; try done. apply insert_subseteq, alloc_fresh. Qed.
Lemma extends_alloc_maps h c : extends h (alloc maps c h).2.
Proof. repeat split; try done. apply insert_subseteq, alloc_fresh. Qed.
Lemma extends_alloc_preconnections h c : extends h (alloc preconnections c h).2.
Proof. repeat split; try done. apply insert_subseteq, alloc_fresh. Qed.

Lemma map_fold_copy (m : gmap string Preference) :
  map_fold (λ k v new, <[k := v]> new) ∅ m = m.
Proof.
  induction m using map_first_key_ind; [done|].
  by rewrite map_fold_insert_first_key, IHm.
Qed.

(** ** Specifications of the copies *)
Lemma copy_endpoint_spec h e v :
  view_ptr (endpoints h) e = Some v →
  ∃ e' h', copy_endpoint e h = (Ok e', h') ∧ extends h h' ∧
    view_ptr (endpoints h') e' = Some v ∧ fresh_ptr (endpoints h) e'.
Proof.
  destruct e as [l|]; simpl; intros Hv; [|by eexists None, h; simplify_eq].
  apply fmap_Some in Hv as (c & Hc & ->).
  unfold Endpoint_Copy, fmap, GoM_fmap.
  go_exec by (by apply load_ok). go_exec by reflexivity.
  go_exec by (apply load_ok, lookup_insert_eq). go_exec by reflexivity.
  do 2 eexists. split; [reflexivity|].
  assert (extends h (alloc endpoints c (alloc endpoints c h).2).2) as Hext.
  { etrans; apply extends_alloc_endpoints. }
  destruct c as [a p]. split_and!; [exact Hext| |]; simpl.
  - by rewrite lookup_insert_eq.
  - eapply lookup_weaken_None; [|apply insert_subseteq, alloc_fresh]. apply alloc_fresh.
Qed.

Lemma copy_preferences_spec h cp v :
  view_ptr (preferences h) cp = Some v →
  ∃ cp' h',
    match cp with None => mret None | Some _ => Some <$> ConnectionPreferences_Copy cp end h
      = (Ok cp', h') ∧ extends h h' ∧
    view_ptr (preferences h') cp' = Some v ∧ fresh_ptr (preferences h) cp'.
Proof.
  destruct cp as [l|]; simpl; intros Hv; [|by eexists None, h; simplify_eq].
  apply fmap_Some in Hv as (c & Hc & ->).
  unfold ConnectionPreferences_Copy, fmap, GoM_fmap.
  go_exec by (by apply load_ok). go_exec by reflexivity.
  do 2 eexists. split; [reflexivity|].
  destruct c as [t ca mp i]. split_and!; simpl.
  - apply extends_alloc_preferences.
  - by rewrite lookup_insert_eq.
  - apply alloc_fresh.
Qed.

Lemma copy_map_spec h m v :
  view_map (maps h) m = Some v →
  ∃ l h', copy_map m h = (Ok l, h') ∧ extends h h' ∧
    maps h' !! l = Some v ∧ maps h !! l = None.
Proof.
  intros Hv. unfold copy_map.
  assert (match m with None => mret ∅ | Some _ => load maps m end h = (Ok v, h)) as Hm.
  { destruct m as [l|]; simpl in Hv; [by apply load_ok|by simplify_eq]. }
  go_exec by exact Hm. rewrite map_fold_copy.
  do 2 eexists. split; [reflexivity|]. split_and!; simpl.
  - apply extends_alloc_maps.
  - apply lookup_insert_eq.
  - apply alloc_fresh.
Qed.

Lemma TransportPreferences_Copy_spec h tp m :
  view_map (maps h) (tp_Interface tp) = Some m →
  ∃ tp' h', TransportPreferences_Copy tp h = (Ok tp', h') ∧ extends h h' ∧
    view_map (maps h') (tp_Interface tp') = Some m ∧ fresh_ptr (maps h) (tp_Interface tp') ∧
    tp_Reliability tp' = tp_Reliability tp ∧ tp_PreserveOrder tp' = tp_PreserveOrder tp ∧
    tp_CongestionControl tp' = tp_CongestionControl tp ∧ tp_Multipath tp' = tp_Multipath tp.
Proof.
  intros (l & h' & Hrun & Hext & Hl & Hfr)%copy_map_spec.
  unfold TransportPreferences_Copy. go_exec by exact Hrun.
  do 2 eexists. split; [reflexivity|]. by split_and!.
Qed.

(** The objects a preconnection's value lives in. *)
Definition fresh_preconnection h (pre : Preconnection) : Prop :=
  fresh_ptr (endpoints h) (LocalEndpoint pre) ∧
  fresh_ptr (endpoints h) (RemoteEndpoint pre) ∧
  fresh_ptr (preferences h) (ConnectionPreferences_ pre) ∧
  fresh_ptr (maps h) (tp_Interface (TransportPreferences_ pre)).

Lemma SecurityParameters_Copy_id sp : SecurityParameters_Copy sp = sp.
Proof. by destruct sp. Qed.

Lemma view_inv h l v :
  view h l = Some v →
  ∃ pre, preconnections h !! l = Some pre ∧
    view_ptr (endpoints h) (LocalEndpoint pre) = Some (v_local v) ∧
    view_ptr (endpoints h) (RemoteEndpoint pre) = Some (v_remote v) ∧
    view_ptr (preferences h) (ConnectionPreferences_ pre) = Some (v_preferences v) ∧
    view_map (maps h) (tp_Interface (TransportPreferences_ pre)) = Some (v_interface v) ∧
    let tp := TransportPreferences_ pre in
    v = mkView (v_local v) (v_remote v) (tp_Reliability tp) (tp_PreserveOrder tp)
          (tp_CongestionControl tp) (v_interface v) (tp_Multipath tp)
          (SecurityParameters_ pre) (v_preferences v).
Proof.
  unfold view. intros Hv.
  apply bind_Some in Hv as (pre & Hpre & Hv).
  apply bind_Some in Hv as (lo & Hlo & Hv). apply bind_Some in Hv as (re & Hre & Hv).
  apply bind_Some in Hv as (cp & Hcp & Hv). apply bind_Some in Hv as (m & Hm & Hv).
  simplify_eq/=. by exists pre.
Qed.

Lemma view_intro h l pre lo re cp m :
  preconnections h !! l = Some pre →
  view_ptr (endpoints h) (LocalEndpoint pre) = Some lo →
  view_ptr (endpoints h) (RemoteEndpoint pre) = Some re →
  view_ptr (preferences h) (ConnectionPreferences_ pre) = Some cp →
  view_map (maps h) (tp_Interface (TransportPreferences_ pre)) = Some m →
  let tp := TransportPreferences_ pre in
  view h l = Some (mkView lo re (tp_Reliability tp) (tp_PreserveOrder tp)
    (tp_CongestionControl tp) m (tp_Multipath tp) (SecurityParameters_ pre) cp).
Proof. intros H1 H2 H3 H4 H5. unfold view. by rewrite H1; simpl; rewrite H2, H3, H4, H5. Qed.

(** Copy returns a new preconnection with the same value, all of whose
    objects are new. *)
Lemma Preconnection_Copy_spec h l v :
  view h l = Some v →
  ∃ l' h' pre', Preconnection_Copy (Some l) h = (Ok l', h') ∧ extends h h' ∧
    preconnections h !! l' = None ∧ preconnections h' !! l' = Some pre' ∧
    fresh_preconnection h pre' ∧ view h' l' = Some v.
Proof.
  intros (pre & Hpre & Hlo & Hre & Hcp & Hm & Hv)%view_inv.
  unfold Preconnection_Copy. go_exec by (by apply load_ok).
  destruct (copy_endpoint_spec h _ _ Hlo) as (lo' & h1 & R1 & X1 & V1 & F1).
  go_exec by exact R1.
  eapply view_ptr_mono in Hre; [|apply X1].
  destruct (copy_endpoint_spec h1 _ _ Hre) as (re' & h2 & R2 & X2 & V2 & F2).
  go_exec by exact R2. assert (extends h h2) as X02 by (by etrans).
  eapply view_ptr_mono in Hcp; [|apply X02].
  destruct (copy_preferences_spec h2 _ _ Hcp) as (cp' & h3 & R3 & X3 & V3 & F3).
  go_exec by exact R3. assert (extends h h3) as X03 by (by etrans).
  eapply view_map_mono in Hm; [|apply X03].
  destruct (TransportPreferences_Copy_spec h3 _ _ Hm)
    as (tp' & h4 & R4 & X4 & V4 & F4 & Etp). destruct Etp as (E1 & E2 & E3 & E4).
  go_exec by exact R4. assert (extends h h4) as X04 by (by etrans).
  assert (extends h2 h4) as X24 by (by etrans).
  assert (extends h1 h4) as X14 by (by etrans).
  do 3 eexists. split; [reflexivity|]. rewrite SecurityParameters_Copy_id.
  split_and!.
  - etrans; [exact X04|]. apply extends_alloc_preconnections.
  - eapply lookup_weaken_None; [apply alloc_fresh|]. apply X04.
  - apply lookup_insert_eq.
  - unfold fresh_preconnection. simpl. split_and!; [exact F1|..].
    + eapply fresh_ptr_mono; [apply X1|exact F2].
    + eapply fresh_ptr_mono; [apply X02|exact F3].
    + eapply fresh_ptr_mono; [apply X03|exact F4].
  - rewrite Hv, <- E1, <- E2, <- E3, <- E4.
    refine (view_intro _ _ (mkPreconnection lo' re' tp' (SecurityParameters_ pre) cp')
              _ _ _ _ _ _ _ _ _); simpl; [apply lookup_insert_eq|..].
    + eapply view_ptr_mono; [apply X14|exact V1].
    + eapply view_ptr_mono; [apply X24|exact V2].
    + eapply view_ptr_mono; [apply X4|exact V3].
    + exact V4.
Qed.

Lemma view_ptr_agree {C} (m m' m2 : gmap loc C) p :
  (∀ l, m !! l = None → m2 !! l = m' !! l) → fresh_ptr m p → view_ptr m2 p = view_ptr m' p.
Proof. destruct p as [l|]; simpl; [|done]. intros H Hl. by rewrite H. Qed.

Lemma view_map_agree (m m' m2 : gmap loc (gmap string Preference)) p :
  (∀ l, m !! l = None → m2 !! l = m' !! l) → fresh_ptr m p → view_map m2 p = view_map m' p.
Proof. destruct p as [l|]; simpl; [|done]. intros H Hl. by rewrite H. Qed.

(** Equal views have the same secrets, whatever the objects contain. *)
Lemma view_secrets {C} (crypto : gmap loc C) h h' l l' v :
  view h l = Some v → view h' l' = Some v → secrets crypto h l = secrets crypto h' l'.
Proof.
  intros (pre & Hp & _ & _ & _ & _ & E)%view_inv (pre' & Hp' & _ & _ & _ & _ & E')%view_inv.
  unfold secrets. rewrite Hp, Hp'. simpl. rewrite E in E'. by injection E' as _ _ _ _ ->.
Qed.

(** The value of a preconnection made of new objects does not depend on the
    old ones. *)
Lemma view_agree h h' h2 l pre :
  agree_off h h' h2 → preconnections h !! l = None →
  preconnections h' !! l = Some pre → fresh_preconnection h pre →
  view h2 l = view h' l.
Proof.
  intros (He & Hp & Hm & Hpre) Hl Hl' (F1 & F2 & F3 & F4). unfold view.
  rewrite (Hpre l Hl), Hl'. simpl.
  rewrite (view_ptr_agree _ _ _ _ He F1), (view_ptr_agree _ _ _ _ He F2),
    (view_ptr_agree _ _ _ _ Hp F3), (view_map_agree _ _ _ _ Hm F4). done.
Qed.
End Views.

(** ** The Preconnection's operations *)

(** The state a protocol works on: the TAPS heap and the network [N]. *)
Record World (P N : Type) := mkWorld { heap : Heap P; net : N }.
Arguments mkWorld {P N} _ _.
Arguments heap {P N} _.
Arguments net {P N} _.
#[export] Instance eta_World P N : Eta (World P N) := λ w, mkWorld (heap w) (net w).

(** The interfaces of protocol.go and selector.go: protocols of type [P] over a
    network [N] produce listeners [L] and connections [C] and may have a path
    selector [Sel]. A nil interface value is [None]. *)
Class ProtocolInterface (P N L C Sel : Type) := {
  Satisfy : P → loc → GoM (World P N) (TransportProperties * error);
  NewListener : P → loc → GoM (World P N) (option L * error);
  Protocol_Initiate : P → loc → GoM (World P N) (option C * error);
  Selector : P → option Sel;
  Selector_SetPreferences : Sel → option loc → GoM (World P N) error
}.
#[export] Hint Mode ProtocolInterface ! - - - - : typeclass_instances.

Section Operations.
Context {P N L C Sel : Type} `{!ProtocolInterface P N L C Sel}.
Implicit Types (w : World P N).

Definition on_heap {A} (m : GoM (Heap P) A) : GoM (World P N) A :=
  zoom heap (λ h w, w <| heap := h |>) m.

Definition Listen (p : option loc) : GoM (World P N) (option L * error) :=
  pre ← on_heap (load preconnections p);
  match LocalEndpoint pre with
  | None => mret (None, NewEstablishmentError "can't create listener without a local endpoint")
  | Some e =>
      ep ← on_heap (load endpoints (Some e));
      match Protocol ep with
      | None => mret (None, NewEstablishmentError "no protocol specified")
      | Some proto => c ← on_heap (Preconnection_Copy p); NewListener proto c
      end
  end.

Definition Initiate (p : option loc) : GoM (World P N) (option C * error) :=
  pre ← on_heap (load preconnections p);
  match RemoteEndpoint pre with
  | None => mret (None, NewEstablishmentError "can't initiate without a remote endpoint")
  | Some e =>
      ep ← on_heap (load endpoints (Some e));
      match Protocol ep with
      | None => mret (None, NewEstablishmentError "no protocol specified")
      | Some proto => c ← on_heap (Preconnection_Copy p); Protocol_Initiate proto c
      end
  end.

Definition SetPreferences (p cps : option loc) : GoM (World P N) error :=
  pre ← on_heap (load preconnections p);
  proto ← match LocalEndpoint pre with
          | None =>
              match RemoteEndpoint pre with
              | None => mret None
              | Some e => Some <$> on_heap (load endpoints (Some e))
              end
          | Some e => Some <$> on_heap (load endpoints (Some e))
          end;
  match proto with
  | None => mret (Some "No endpoint specified"%string)
  | Some ep =>
      match Protocol ep with
      | None => mret (Some "No protocol specified"%string)
      | Some proto =>
          match Selector proto with
          | Some s => Selector_SetPreferences s cps
          | None => mret (Some "Can not set preferences on empty selector"%string)
          end
      end
  end.

Lemma on_heap_ok {A} (m : GoM (Heap P) A) w a h :
  m (heap w) = (Ok a, h) → on_heap m w = (Ok a, w <| heap := h |>).
Proof. intros E. unfold on_heap, zoom. by rewrite E. Qed.

Lemma on_heap_load {D} (st : Heap P → gmap loc D) w l d :
  st (heap w) !! l = Some d → on_heap (load st (Some l)) w = (Ok d, w).
Proof. intros E. unfold on_heap, zoom, load. rewrite E. by destruct w. Qed.

Lemma view_ptr_Some {D} (m : gmap loc D) p d :
  view_ptr m p = Some (Some d) → ∃ l, p = Some l ∧ m !! l = Some d.
Proof.
  destruct p as [l|]; simpl; [|done]. intros (d' & Hd & Heq)%fmap_Some. simplify_eq. eauto.
Qed.

Lemma view_ptr_None {D} (m : gmap loc D) p : view_ptr m p = Some None → p = None.
Proof. destruct p as [l|]; simpl; [|done]. by intros (d' & Hd & Heq)%fmap_Some. Qed.

Lemma on_heap_Copy w p v :
  view (heap w) p = Some v →
  ∃ c h pre, on_heap (Preconnection_Copy (Some p)) w = (Ok c, w <| heap := h |>) ∧
    extends (heap w) h ∧ preconnections (heap w) !! c = None ∧
    preconnections h !! c = Some pre ∧ fresh_preconnection (heap w) pre ∧ view h c = Some v.
Proof.
  intros (c & h & pre & R & H)%Preconnection_Copy_spec. exists c, h, pre.
  split; [by apply on_heap_ok|done].
Qed.

(** Listen and Initiate of a well-formed preconnection. *)
Lemma Listen_run w p v :
  view (heap w) p = Some v →
  Listen (Some p) w =
  match v_local v with
  | None => (Ok (None, Some "can't create listener without a local endpoint"%string), w)
  | Some ep =>
      match Protocol ep with
      | None => (Ok (None, Some "no protocol specified"%string), w)
      | Some proto => (on_heap (Preconnection_Copy (Some p)) ≫= NewListener proto) w
      end
  end.
Proof.
  intros (pre & Hpre & Hlo & _)%view_inv. unfold Listen. go_exec by (by apply on_heap_load).
  destruct (v_local v) as [ep|].
  - apply view_ptr_Some in Hlo as (e & -> & Hep). go_exec by (by apply on_heap_load).
    by destruct (Protocol ep).
  - by apply view_ptr_None in Hlo as ->.
Qed.

Lemma Initiate_run w p v :
  view (heap w) p = Some v →
  Initiate (Some p) w =
  match v_remote v with
  | None => (Ok (None, Some "can't initiate without a remote endpoint"%string), w)
  | Some ep =>
      match Protocol ep with
      | None => (Ok (None, Some "no protocol specified"%string), w)
      | Some proto => (on_heap (Preconnection_Copy (Some p)) ≫= Protocol_Initiate proto) w
      end
  end.
Proof.
  intros (pre & Hpre & _ & Hre & _)%view_inv. unfold Initiate. go_exec by (by apply on_heap_load).
  destruct (v_remote v) as [ep|].
  - apply view_ptr_Some in Hre as (e & -> & Hep). go_exec by (by apply on_heap_load).
    by destruct (Protocol ep).
  - by apply view_ptr_None in Hre as ->.
Qed.
End Operations.

(** ** Properties *)
Section Properties.
Context {P N L C Sel : Type} `{!ProtocolInterface P N L C Sel}.
Implicit Types (w : World P N).

(** C21: Copy of a well-formed preconnection always returns a new
    preconnection with the same value (endpoints, preferences, interface
    table, security parameters), and leaves every existing object as it was. *)
Theorem Copy_faithful (h : Heap P) l v :
  view h l = Some v →
  ∃ l' h', Preconnection_Copy (Some l) h = (Ok l', h') ∧ preconnections h !! l' = None ∧
    extends h h' ∧ view h' l' = Some v ∧ view h' l = Some v.
Proof.
  intros Hv. destruct (Preconnection_Copy_spec h l v Hv) as (l' & h' & pre & R & X & F & _ & _ & V).
  exists l', h'. split_and!; [done..|].
  destruct (view_inv _ _ _ Hv) as (pre0 & H0 & H1 & H2 & H3 & H4 & ->).
  destruct X as (X1 & X2 & X3 & X4).
  apply view_intro; eauto using lookup_weaken, view_ptr_mono, view_map_mono.
Qed.

(** C20: Copy shares no endpoint, preferences object, interface table or
    preconnection with its original: whatever is later written to those that
    existed before the copy, the copy still has the value the original had when it
    was copied. It does share the objects of the crypto packages, although
    SecurityParameters.Copy promises deep copies: whatever the keys, the cipher
    suite and the PSK contain then or later, the copy reads the very objects the
    original had. *)
Theorem Copy_isolated (h h' h2 : Heap P) l l' v :
  view h l = Some v → Preconnection_Copy (Some l) h = (Ok l', h') →
  agree_off h h' h2 →
  view h2 l' = Some v ∧ ∀ K (crypto : gmap loc K), secrets crypto h2 l' = secrets crypto h l.
Proof.
  intros Hv Hrun Hagree.
  destruct (Preconnection_Copy_spec h l v Hv) as (l1 & h1 & pre & R & X & F & E & Fr & V).
  rewrite Hrun in R. simplify_eq. assert (view h2 l1 = Some v) as Hv2 by (erewrite view_agree; eauto).
  split; [done|]. intros K crypto. by eapply view_secrets.
Qed.

(** Listen, on every branch: without a local endpoint, or without a
    protocol at it, an establishment error and no effect; otherwise the
    protocol's NewListener is called on a preconnection made of new objects
    that has the value of the original, so no later change to the original
    reaches the listener. *)
Theorem Listen_spec w p v :
  view (heap w) p = Some v →
  match v_local v with
  | None =>
      Listen (Some p) w
      = (Ok (None, Some "can't create listener without a local endpoint"%string), w)
  | Some ep =>
      match Protocol ep with
      | None => Listen (Some p) w = (Ok (None, Some "no protocol specified"%string), w)
      | Some proto =>
          ∃ c h, Listen (Some p) w = NewListener proto c (w <| heap := h |>) ∧
            extends (heap w) h ∧ preconnections (heap w) !! c = None ∧
            ∀ h2, agree_off (heap w) h h2 → view h2 c = Some v
      end
  end.
Proof.
  intros Hv. rewrite (Listen_run w p v Hv). destruct (v_local v) as [ep|]; [|done].
  destruct (Protocol ep) as [proto|]; [|done].
  destruct (on_heap_Copy w p v Hv) as (c & h & pre' & R & X & F & E & Fr & V).
  exists c, h. split_and!; [by erewrite bind_ok by exact R|done..|].
  intros h2 Hagree. erewrite view_agree; eauto.
Qed.

(** Initiate, on every branch, as for Listen but at the remote endpoint. *)
Theorem Initiate_spec w p v :
  view (heap w) p = Some v →
  match v_remote v with
  | None =>
      Initiate (Some p) w
      = (Ok (None, Some "can't initiate without a remote endpoint"%string), w)
  | Some ep =>
      match Protocol ep with
      | None => Initiate (Some p) w = (Ok (None, Some "no protocol specified"%string), w)
      | Some proto =>
          ∃ c h, Initiate (Some p) w = Protocol_Initiate proto c (w <| heap := h |>) ∧
            extends (heap w) h ∧ preconnections (heap w) !! c = None ∧
            ∀ h2, agree_off (heap w) h h2 → view h2 c = Some v
      end
  end.
Proof.
  intros Hv. rewrite (Initiate_run w p v Hv). destruct (v_remote v) as [ep|]; [|done].
  destruct (Protocol ep) as [proto|]; [|done].
  destruct (on_heap_Copy w p v Hv) as (c & h & pre' & R & X & F & E & Fr & V).
  exists c, h. split_and!; [by erewrite bind_ok by exact R|done..|].
  intros h2 Hagree. erewrite view_agree; eauto.
Qed.

(** The endpoint whose protocol SetPreferences uses: the local one if there is
    one, else the remote one. *)
Definition preferred_endpoint (v : View P) : option (Endpoint P) :=
  match v_local v with Some e => Some e | None => v_remote v end.

(** SetPreferences, on every branch: the local endpoint shadows the remote
    one even when it has no protocol; without endpoint, protocol or selector
    an error with its own text and no effect; otherwise the selector's result,
    on the caller's own preferences object. *)
Theorem SetPreferences_spec w p v cps :
  view (heap w) p = Some v →
  SetPreferences (Some p) cps w =
  match preferred_endpoint v with
  | None => (Ok (Some "No endpoint specified"%string), w)
  | Some ep =>
      match Protocol ep with
      | None => (Ok (Some "No protocol specified"%string), w)
      | Some proto =>
          match Selector proto with
          | None => (Ok (Some "Can not set preferences on empty selector"%string), w)
          | Some s => Selector_SetPreferences s cps w
          end
      end
  end.
Proof.
  intros (pre & Hpre & Hlo & Hre & _)%view_inv. unfold SetPreferences, preferred_endpoint.
  go_exec by (by apply on_heap_load).
  destruct (v_local v) as [ep|]; [|destruct (v_remote v) as [ep|]].
  - apply view_ptr_Some in Hlo as (e & -> & Hep).
    unfold fmap, GoM_fmap. go_exec by (by apply on_heap_load).
    by destruct (Protocol ep) as [proto|]; [destruct (Selector proto)|].
  - apply view_ptr_None in Hlo as ->. apply view_ptr_Some in Hre as (e & -> & Hep).
    unfold fmap, GoM_fmap. go_exec by (by apply on_heap_load).
    by destruct (Protocol ep) as [proto|]; [destruct (Selector proto)|].
  - apply view_ptr_None in Hlo as ->. by apply view_ptr_None in Hre as ->.
Qed.
End Properties.

(** ** Witnesses

    A concrete preconnection over a protocol whose listeners and connections
    are the preconnections they were given. *)
Module Sample.
Inductive proto := Sel_proto | Plain_proto.

#[global] Instance proto_interface : ProtocolInterface proto unit loc loc unit := {
  Satisfy _ _ := mret (mkTransportProperties true true true "" Disabled, None);
  NewListener _ p := mret (Some p, None);
  Protocol_Initiate _ p := mret (Some p, None);
  Selector p := match p with Sel_proto => Some tt | Plain_proto => None end;
  Selector_SetPreferences _ _ := mret None
}.

Definition prefs : ConnectionPreferences := mkConnectionPreferences 0 Scavenger Handover false.
Definition tp : TransportPreferences :=
  mkTransportPreferences Require_ Require_ Require_ (Some 7%positive) dynamic.
Definition secured : SecurityParameters :=
  mkSecurityParameters "server" (mkKeyPair (Some 21%positive) (Some 22%positive)) 29
    (Some 11%positive) 0 0 0 (Some 12%positive).
Definition pre : Preconnection :=
  mkPreconnection (Some 1%positive) (Some 2%positive) tp secured
    (Some 3%positive).
Definition h : Heap proto :=
  mkHeap {[1%positive := mkEndpoint "[127.0.0.1]:1337" (Some Sel_proto);
           2%positive := mkEndpoint "[127.0.0.1]:80" (Some Plain_proto)]}
    {[3%positive := prefs]} {[7%positive := {["eth0" := Prefer]}]} {[5%positive := pre]}.
Definition w : World proto unit := mkWorld h tt.
Definition v : View proto :=
  mkView (Some (mkEndpoint "[127.0.0.1]:1337" (Some Sel_proto)))
    (Some (mkEndpoint "[127.0.0.1]:80" (Some Plain_proto)))
    Require_ Require_ Require_ {["eth0" := Prefer]} dynamic secured (Some prefs).

Lemma view_v : view h 5%positive = Some v.
Proof. reflexivity. Qed.

(** The copy, and a heap in which the program has since changed the original's
    local endpoint and its preferences. *)
Definition copied := Preconnection_Copy (P := proto) (Some 5%positive) h.
Definition later : Heap proto :=
  let h' := copied.2 in
  h' <| endpoints := <[1%positive := mkEndpoint "elsewhere" None]> (endpoints h') |>
     <| preferences := <[3%positive := mkConnectionPreferences 9 Default Handover true]>
                         (preferences h') |>.

Lemma later_agrees : agree_off h copied.2 later.
Proof.
  split_and!; intros l Hl; [| |done|done]; unfold later; simpl.
  - rewrite lookup_insert_ne; [done|]. by intros <-.
  - rewrite lookup_insert_ne; [done|]. by intros <-.
Qed.
End Sample.

Lemma Copy_faithful_witness :
  view Sample.h 5%positive = Some Sample.v ∧
  ∃ l' h', Preconnection_Copy (Some 5%positive) Sample.h = (Ok l', h') ∧
    preconnections Sample.h !! l' = None ∧ extends Sample.h h' ∧
    view h' l' = Some Sample.v ∧ view h' 5%positive = Some Sample.v.
Proof.
  exact (conj Sample.view_v (Copy_faithful Sample.h 5%positive Sample.v Sample.view_v)).
Defined.

Lemma Copy_isolated_witness :
  ∃ l', Sample.copied.1 = Ok l' ∧ view Sample.later l' = Some Sample.v ∧
    view Sample.later 5%positive ≠ Some Sample.v ∧
    secrets (C := string) {[21%positive := "private"; 22%positive := "public"; 11%positive := "changed since"; 12%positive := "psk"]}
      Sample.later l'
    = Some [Some (Some "private"); Some (Some "public"); Some (Some "changed since"); Some (Some "psk")]%string.
Proof.
  eexists. split; [vm_compute; reflexivity|].
  match goal with |- view _ ?l = _ ∧ _ => assert (Sample.copied = (Ok l, Sample.copied.2)) as R by (vm_compute; reflexivity) end.
  destruct (Copy_isolated Sample.h Sample.copied.2 Sample.later 5%positive _ Sample.v
           Sample.view_v R Sample.later_agrees) as [Hv Hs].
  split; [exact Hv|]. split; [discriminate|]. rewrite Hs. reflexivity.
Defined.

Lemma Listen_spec_witness :
  view (heap Sample.w) 5%positive = Some Sample.v ∧
  ∃ c h, Listen (Some 5%positive) Sample.w = NewListener Sample.Sel_proto c (Sample.w <| heap := h |>)
    ∧ extends (heap Sample.w) h ∧ preconnections (heap Sample.w) !! c = None ∧
    ∀ h2, agree_off (heap Sample.w) h h2 → view h2 c = Some Sample.v.
Proof.
  exact (conj Sample.view_v (Listen_spec Sample.w 5%positive Sample.v Sample.view_v)).
Defined.

Lemma Initiate_spec_witness :
  view (heap Sample.w) 5%positive = Some Sample.v ∧
  ∃ c h, Initiate (Some 5%positive) Sample.w
         = Protocol_Initiate Sample.Plain_proto c (Sample.w <| heap := h |>)
    ∧ extends (heap Sample.w) h ∧ preconnections (heap Sample.w) !! c = None ∧
    ∀ h2, agree_off (heap Sample.w) h h2 → view h2 c = Some Sample.v.
Proof.
  exact (conj Sample.view_v (Initiate_spec Sample.w 5%positive Sample.v Sample.view_v)).
Defined.

Lemma SetPreferences_spec_witness :
  view (heap Sample.w) 5%positive = Some Sample.v ∧
  SetPreferences (Some 5%positive) (Some 3%positive) Sample.w = (Ok None, Sample.w).
Proof.
  exact (conj Sample.view_v
    (SetPreferences_spec Sample.w 5%positive Sample.v (Some 3%positive) Sample.view_v)).
Defined.
