(* ===== verification/Transports.v ===== *)
(** * The transport protocols (pkg/inet/tcp, pkg/inet/quic, pkg/scion/quic, pkg/udp)

    The three implementations of the [Protocol] interface, each with Satisfy,
    NewListener, Initiate, its listener's Accept and Close and its connection's
    Preconnection and Close, and UDP's Satisfy. Sockets, quic-go and pan are
    parameters: a class of operations on the state of the network. *)

From S2P Require Import Prelude Enums Taps.
Local Open Scope Z_scope.

(** ** Protocol objects *)

(** pkg/inet/quic: [Protocol{QuicConfig, TLSConfig}]. *)
Record iquic_Protocol := mk_iquic_Protocol {
  QuicConfig : option loc;
  TLSConfig : option loc
}.

(** pkg/scion/quic: [Config{Quic, TLS, Selector}] of a [Protocol]. *)
Record squic_Config (Sel : Type) := mk_squic_Config {
  Quic : option loc;
  TLS : option loc;
  Config_Selector : option Sel
}.
Arguments mk_squic_Config {Sel} _ _ _.
Arguments Quic {Sel} _.
Arguments TLS {Sel} _.
Arguments Config_Selector {Sel} _.

(** The values a [taps.Protocol] interface can hold. *)
Inductive protocol (Sel : Type) : Type :=
  | TcpProtocol
  | InetQuicProtocol (q : iquic_Protocol)
  | ScionQuicProtocol (q : squic_Config Sel).
Arguments TcpProtocol {Sel}.
Arguments InetQuicProtocol {Sel} _.
Arguments ScionQuicProtocol {Sel} _.

(** ** The network: sockets, quic-go and pan *)
Class Network := {
  Net : Type;
  NetListener : Type;
  NetConn : Type;
  QListener : Type;
  QSession : Type;
  QStream : Type;
  PanAddr : Type;
  Sel : Type;
  net_Listen : string → GoM Net (option NetListener * error);
  net_Dial : string → GoM Net (option NetConn * error);
  NetListener_Accept : NetListener → GoM Net (option NetConn * error);
  NetListener_Close : NetListener → GoM Net error;
  NetConn_RemoteAddr : NetConn → string;
  quic_ListenAddr : string → option loc → option loc → GoM Net (option QListener * error);
  quic_DialAddr : string → option loc → option loc → GoM Net (option QSession * error);
  QListener_Accept : QListener → GoM Net (option QSession * error);
  QListener_Close : QListener → GoM Net error;
  QSession_RemoteAddr : QSession → string;
  QSession_AcceptStream : QSession → GoM Net (option QStream * error);
  QSession_OpenStream : QSession → GoM Net (option QStream * error);
  QSession_CloseWithError : QSession → Z → string → GoM Net error;
  QStream_Close : QStream → GoM Net error;
  pan_ResolveUDPAddr : string → GoM Net (PanAddr * error);
  pan_ListenQUIC : PanAddr → option loc → option loc → GoM Net (option QListener * error);
  pan_DialQUIC : PanAddr → option Sel → option loc → option loc → GoM Net (option QSession * error);
  Sel_SetPreferences : Sel → option loc → GoM (World (protocol Sel) Net) error
}.

Section Protocols.
Context `{Network}.

Abbreviation TW := (World (protocol Sel) Net).

Definition on_net {A} (m : GoM Net A) : GoM TW A := zoom net (λ n w, w <| net := n |>) m.

Definition constraints : string := "Can't satisfy all constraints".

(** The guard shared word for word by the three Satisfy methods. *)
Definition prohibited (sp : TransportPreferences) : bool :=
  (tp_Reliability sp =? Prohibit) || (tp_PreserveOrder sp =? Prohibit)
  || (tp_CongestionControl sp =? Prohibit).

Definition preferences_of (p : loc) : GoM TW TransportPreferences :=
  TransportPreferences_ <$> on_heap (load preconnections (Some p)).

(** [p.LocalEndpoint.Address] and [p.RemoteEndpoint.Address]. *)
Definition local_address (p : loc) : GoM TW string :=
  pre ← on_heap (load preconnections (Some p));
  Address <$> on_heap (load endpoints (LocalEndpoint pre)).
Definition remote_address (p : loc) : GoM TW string :=
  pre ← on_heap (load preconnections (Some p));
  Address <$> on_heap (load endpoints (RemoteEndpoint pre)).

(** [p.RemoteEndpoint = &taps.RemoteEndpoint{Endpoint{Address: addr}}], where
    [p] may be nil. *)
Definition set_remote (p : option loc) (addr : string) : GoM TW unit :=
  e ← on_heap (alloc endpoints (mkEndpoint addr None));
  pre ← on_heap (load preconnections p);
  on_heap (store preconnections p (pre <| RemoteEndpoint := Some e |>)).

(** ** pkg/inet/tcp *)
Record tcp_listener := mk_tcp_listener { tl_p : option loc; tl_l : option NetListener }.
Record tcp_Connection := mk_tcp_Connection { tc_Conn : option NetConn; tc_p : option loc }.

Definition tcp_Preconnection (c : tcp_Connection) : option loc := tc_p c.

Definition tcp_Accept (l : tcp_listener) : GoM TW (option tcp_Connection * error) :=
  match tl_l l with
  | None => mret (None, Some "not a listener"%string)
  | Some nl =>
      '(conn, err) ← on_net (NetListener_Accept nl);
      c ← deref conn;
      set_remote (tl_p l) (NetConn_RemoteAddr c);;
      mret (Some (mk_tcp_Connection conn (tl_p l)), err)
  end.

Definition tcp_Close (l : tcp_listener) : GoM TW error :=
  nl ← deref (tl_l l); on_net (NetListener_Close nl).

Definition tcp_Satisfy (p : loc) : GoM TW (TransportProperties * error) :=
  sp ← preferences_of p;
  mret (mkTransportProperties true true true "" Disabled,
        if prohibited sp then Some constraints else None).

Definition tcp_NewListener (p : loc) : GoM TW (option tcp_listener * error) :=
  '(_, err) ← tcp_Satisfy p;
  match err with
  | Some e => mret (None, Some e)
  | None =>
      addr ← local_address p;
      '(l, err) ← on_net (net_Listen addr);
      mret (Some (mk_tcp_listener None l), err)
  end.

Definition tcp_Initiate (p : loc) : GoM TW (option tcp_Connection * error) :=
  '(_, err) ← tcp_Satisfy p;
  match err with
  | Some e => mret (None, Some e)
  | None =>
      addr ← remote_address p;
      '(conn, err) ← on_net (net_Dial addr);
      mret (Some (mk_tcp_Connection conn (Some p)), err)
  end.

(** ** pkg/inet/quic *)
Record iquic_listener := mk_iquic_listener { il_pre : option loc; il_l : option QListener }.
Record iquic_Connection := mk_iquic_Connection {
  ic_Stream : option QStream; ic_pre : option loc; ic_Session : option QSession }.

Definition iquic_Preconnection (c : iquic_Connection) : option loc := ic_pre c.

Definition iquic_Connection_Close (c : iquic_Connection) : GoM TW error :=
  s ← deref (ic_Stream c); on_net (QStream_Close s);;
  ss ← deref (ic_Session c); on_net (QSession_CloseWithError ss 0 "closed").

Definition iquic_Accept (l : iquic_listener) : GoM TW (option iquic_Connection * error) :=
  match il_l l with
  | None => mret (None, Some "not a listener"%string)
  | Some ql =>
      '(session, err) ← on_net (QListener_Accept ql);
      match err with
      | Some e => mret (None, Some e)
      | None =>
          ss ← deref session;
          set_remote (il_pre l) (QSession_RemoteAddr ss);;
          '(stream, err) ← on_net (QSession_AcceptStream ss);
          mret (Some (mk_iquic_Connection stream (il_pre l) session), err)
      end
  end.

Definition iquic_Close (l : iquic_listener) : GoM TW error :=
  ql ← deref (il_l l); on_net (QListener_Close ql).

Definition iquic_Selector (q : iquic_Protocol) : option Sel := None.

Definition iquic_Satisfy (p : loc) : GoM TW (TransportProperties * error) :=
  sp ← preferences_of p;
  mret (mkTransportProperties true true true "" Disabled,
        if prohibited sp then Some constraints else None).

Definition iquic_NewListener (q : iquic_Protocol) (p : loc)
    : GoM TW (option iquic_listener * error) :=
  '(_, err) ← iquic_Satisfy p;
  match err with
  | Some e => mret (None, Some e)
  | None =>
      addr ← local_address p;
      '(l, err) ← on_net (quic_ListenAddr addr (TLSConfig q) (QuicConfig q));
      mret (Some (mk_iquic_listener (Some p) l), err)
  end.

Definition iquic_Initiate (q : iquic_Protocol) (p : loc)
    : GoM TW (option iquic_Connection * error) :=
  addr ← remote_address p;
  '(session, err) ← on_net (quic_DialAddr addr (TLSConfig q) (QuicConfig q));
  match err with
  | Some e => mret (None, Some e)
  | None =>
      ss ← deref session;
      '(stream, err) ← on_net (QSession_OpenStream ss);
      mret (Some (mk_iquic_Connection stream (Some p) session), err)
  end.

(** ** pkg/scion/quic *)
Record squic_listener := mk_squic_listener { sl_p : option loc; sl_l : option QListener }.
Record squic_Connection := mk_squic_Connection {
  sc_Stream : option QStream; sc_p : option loc; sc_Session : option QSession }.

Definition squic_Preconnection (c : squic_Connection) : option loc := sc_p c.

Definition squic_Connection_Close (c : squic_Connection) : GoM TW error :=
  s ← deref (sc_Stream c); on_net (QStream_Close s);;
  ss ← deref (sc_Session c); on_net (QSession_CloseWithError ss 0 "closed").

Definition squic_Accept (l : squic_listener) : GoM TW (option squic_Connection * error) :=
  match sl_l l with
  | None => mret (None, Some "not a listener"%string)
  | Some ql =>
      '(session, err) ← on_net (QListener_Accept ql);
      match err with
      | Some e => mret (None, Some e)
      | None =>
          ss ← deref session;
          set_remote (sl_p l) (QSession_RemoteAddr ss);;
          '(stream, err) ← on_net (QSession_AcceptStream ss);
          mret (Some (mk_squic_Connection stream (sl_p l) session), err)
      end
  end.

Definition squic_Close (l : squic_listener) : GoM TW error :=
  ql ← deref (sl_l l); on_net (QListener_Close ql).

Definition squic_Selector (q : squic_Config Sel) : option Sel := Config_Selector q.

Definition squic_Satisfy (p : loc) : GoM TW (TransportProperties * error) :=
  sp ← preferences_of p;
  mret (mkTransportProperties true true true "" Passive,
        if prohibited sp then Some constraints else None).

Definition squic_NewListener (q : squic_Config Sel) (p : loc)
    : GoM TW (option squic_listener * error) :=
  '(_, err) ← squic_Satisfy p;
  match err with
  | Some e => mret (None, Some e)
  | None =>
      la ← local_address p;
      '(addr, err) ← on_net (pan_ResolveUDPAddr la);
      match err with
      | Some e => mret (None, Some e)
      | None =>
          pre ← on_heap (load preconnections (Some p));
          err ← match ConnectionPreferences_ pre with
                | None => mret None
                | Some cp => s ← deref (Config_Selector q); Sel_SetPreferences s (Some cp)
                end;
          match err with
          | Some e => mret (None, Some e)
          | None =>
              '(l, err) ← on_net (pan_ListenQUIC addr (TLS q) (Quic q));
              mret (Some (mk_squic_listener (Some p) l), err)
          end
      end
  end.

Definition squic_Initiate (q : squic_Config Sel) (p : loc)
    : GoM TW (option squic_Connection * error) :=
  ra ← remote_address p;
  '(addr, err) ← on_net (pan_ResolveUDPAddr ra);
  match err with
  | Some e => mret (None, Some e)
  | None =>
      pre ← on_heap (load preconnections (Some p));
      err ← match Config_Selector q with
            | None => mret None
            | Some s => Sel_SetPreferences s (ConnectionPreferences_ pre)
            end;
      match err with
      | Some e => mret (None, Some e)
      | None =>
          '(session, err) ← on_net (pan_DialQUIC addr (Config_Selector q) (TLS q) (Quic q));
          match err with
          | Some e => mret (None, Some e)
          | None =>
              ss ← deref session;
              '(stream, err) ← on_net (QSession_OpenStream ss);
              mret (Some (mk_squic_Connection stream (Some p) session), err)
          end
      end
  end.

(** ** The Protocol interface *)
Inductive listener := TcpL (l : tcp_listener) | InetL (l : iquic_listener) | ScionL (l : squic_listener).
Inductive connection := TcpC (c : tcp_Connection) | InetC (c : iquic_Connection)
  | ScionC (c : squic_Connection).

Definition wrap {A B} (f : A → B) (r : option A * error) : option B * error := (f <$> r.1, r.2).

#[export] Instance protocol_interface : ProtocolInterface (protocol Sel) Net listener connection Sel := {
  Satisfy proto p :=
    match proto with
    | TcpProtocol => tcp_Satisfy p
    | InetQuicProtocol _ => iquic_Satisfy p
    | ScionQuicProtocol _ => squic_Satisfy p
    end;
  NewListener proto p :=
    match proto with
    | TcpProtocol => wrap TcpL <$> tcp_NewListener p
    | InetQuicProtocol q => wrap InetL <$> iquic_NewListener q p
    | ScionQuicProtocol q => wrap ScionL <$> squic_NewListener q p
    end;
  Protocol_Initiate proto p :=
    match proto with
    | TcpProtocol => wrap TcpC <$> tcp_Initiate p
    | InetQuicProtocol q => wrap InetC <$> iquic_Initiate q p
    | ScionQuicProtocol q => wrap ScionC <$> squic_Initiate q p
    end;
  Selector proto :=
    match proto with
    | TcpProtocol => None
    | InetQuicProtocol q => iquic_Selector q
    | ScionQuicProtocol q => squic_Selector q
    end;
  Selector_SetPreferences := Sel_SetPreferences
}.
End Protocols.

(** ** pkg/udp

    [sp = *sp.Copy()] works on a copy whose tables Satisfy never reads. *)
Definition udp_Satisfy {P} (sp : SelectionProperties)
    : GoM (Heap P) (TransportProperties * error) :=
  sp ← SelectionProperties_Copy sp;
  mret (mkTransportProperties false false false "" Disabled,
        if (sp_Reliability sp =? Require_) || (sp_PreserveMsgBoundaries sp =? Require_)
           || (sp_PerMsgReliability sp =? Require_) || (sp_PreserveOrder sp =? Require_)
           || (sp_ZeroRTTMsg sp =? Prohibit) || (sp_Multistreaming sp =? Require_)
           || (sp_FullChecksumSend sp =? Require_) || (sp_FullChecksumRecv sp =? Require_)
           || (sp_CongestionControl sp =? Require_) || (sp_KeepAlive sp =? Require_)
        then Some "Can't satisfy all constraints"%string else None).

(** ** The Listener and Connection interfaces *)
Section Interfaces.
Context `{Network}.

Definition Listener_Accept (l : listener)
    : GoM (World (protocol Sel) Net) (option connection * error) :=
  match l with
  | TcpL l => wrap TcpC <$> tcp_Accept l
  | InetL l => wrap InetC <$> iquic_Accept l
  | ScionL l => wrap ScionC <$> squic_Accept l
  end.

Definition Connection_Preconnection (c : connection) : option loc :=
  match c with
  | TcpC c => tcp_Preconnection c
  | InetC c => iquic_Preconnection c
  | ScionC c => squic_Preconnection c
  end.

(** The preconnection a listener writes to, and the address of the peer a
    connection talks to. *)
Definition listener_preconnection (l : listener) : option loc :=
  match l with TcpL l => tl_p l | InetL l => il_pre l | ScionL l => sl_p l end.

Definition peer (c : connection) : option string :=
  match c with
  | TcpC c => NetConn_RemoteAddr <$> tc_Conn c
  | InetC c => QSession_RemoteAddr <$> ic_Session c
  | ScionC c => QSession_RemoteAddr <$> sc_Session c
  end.
End Interfaces.

(** ** Lemmas *)
Section Lemmas.
Context `{Network}.
Implicit Types (w : World (protocol Sel) Net).

Lemma on_net_heap {A} (m : GoM Net A) w r w' : on_net m w = (r, w') → heap w' = heap w.
Proof. unfold on_net, zoom. destruct (m (net w)). intros. by simplify_eq. Qed.

Lemma on_net_ok {A} (m : GoM Net A) w a n :
  m (net w) = (Ok a, n) → on_net m w = (Ok a, w <| net := n |>).
Proof. intros E. unfold on_net, zoom. by rewrite E. Qed.

Lemma preferences_of_ok w p pre :
  preconnections (heap w) !! p = Some pre →
  preferences_of p w = (Ok (TransportPreferences_ pre), w).
Proof. intros Hp. unfold preferences_of, fmap, GoM_fmap. by go_exec by (by apply on_heap_load). Qed.

Lemma remote_address_ok w p pre e ep :
  preconnections (heap w) !! p = Some pre → RemoteEndpoint pre = Some e →
  endpoints (heap w) !! e = Some ep → remote_address p w = (Ok (Address ep), w).
Proof.
  intros Hp He Hep. unfold remote_address, fmap, GoM_fmap.
  go_exec by (by apply on_heap_load). rewrite He. by go_exec by (by apply on_heap_load).
Qed.

Lemma local_address_ok w p pre e ep :
  preconnections (heap w) !! p = Some pre → LocalEndpoint pre = Some e →
  endpoints (heap w) !! e = Some ep → local_address p w = (Ok (Address ep), w).
Proof.
  intros Hp He Hep. unfold local_address, fmap, GoM_fmap.
  go_exec by (by apply on_heap_load). rewrite He. by go_exec by (by apply on_heap_load).
Qed.

(** The remote endpoint of a preconnection now reads as [addr]. *)
Definition remote_is (hp : Heap (protocol Sel)) (p : loc) (addr : string) : Prop :=
  ∃ pre e ep, preconnections hp !! p = Some pre ∧ RemoteEndpoint pre = Some e ∧
    endpoints hp !! e = Some ep ∧ Address ep = addr.

Lemma set_remote_inv p addr w u w' :
  set_remote (Some p) addr w = (Ok u, w') → remote_is (heap w') p addr.
Proof.
  unfold set_remote, on_heap, zoom, alloc, load, store, mbind, GoM_bind. simpl.
  destruct (preconnections (heap w) !! p) as [pre|] eqn:E; simpl; [|done].
  rewrite E. intros [= <- <-]. simpl.
  eexists _, _, _. split_and!; [apply lookup_insert_eq|done|apply lookup_insert_eq|done].
Qed.

Lemma remote_is_read w p addr :
  remote_is (heap w) p addr → remote_address p w = (Ok addr, w).
Proof. intros (pre & e & ep & Hp & He & Hep & <-). by eapply remote_address_ok. Qed.

Lemma wrap_inv {A B} (f : A → B) (m : GoM (World (protocol Sel) Net) (option A * error)) w b err w' :
  (wrap f <$> m) w = (Ok (Some b, err), w') →
  ∃ a, b = f a ∧ m w = (Ok (Some a, err), w').
Proof.
  unfold fmap, GoM_fmap. intros (r & s & Hr & [Hw ->]%ret_inv)%bind_inv.
  destruct r as [[a|] e]; unfold wrap in Hw; simplify_eq/=. eauto.
Qed.

(** What a successful Accept of any of the three listeners leaves behind. *)
Lemma Accept_inv l p w c err w' :
  listener_preconnection l = Some p →
  Listener_Accept l w = (Ok (Some c, err), w') →
  Connection_Preconnection c = Some p ∧
  ∃ addr, peer c = Some addr ∧ remote_is (heap w') p addr.
Proof.
  intros Hp. destruct l as [l|l|l]; simpl in *;
    intros (a & -> & Hrun)%wrap_inv; simpl.
  - unfold tcp_Accept in Hrun. destruct (tl_l l); [|by apply ret_inv in Hrun as [? _]].
    apply bind_inv in Hrun as ([conn e] & w1 & H1 & Hrun).
    destruct conn as [conn|]; [|done].
    apply bind_inv in Hrun as (cc & w2 & [-> ->]%ret_inv & Hrun).
    apply bind_inv in Hrun as (u & w3 & H3 & [? ->]%ret_inv). simplify_eq/=.
    rewrite Hp in H3 |- *. apply set_remote_inv in H3. eauto.
  - unfold iquic_Accept in Hrun. destruct (il_l l); [|by apply ret_inv in Hrun as [? _]].
    apply bind_inv in Hrun as ([ss e] & w1 & H1 & Hrun).
    destruct e; [by apply ret_inv in Hrun as [? _]|]. destruct ss as [ss|]; [|done].
    apply bind_inv in Hrun as (cc & w2 & [-> ->]%ret_inv & Hrun).
    apply bind_inv in Hrun as (u & w3 & H3 & Hrun).
    apply bind_inv in Hrun as ([st e2] & w4 & H4 & [? ->]%ret_inv). simplify_eq/=.
    rewrite Hp in H3 |- *. apply set_remote_inv in H3. apply on_net_heap in H4 as ->. eauto.
  - unfold squic_Accept in Hrun. destruct (sl_l l); [|by apply ret_inv in Hrun as [? _]].
    apply bind_inv in Hrun as ([ss e] & w1 & H1 & Hrun).
    destruct e; [by apply ret_inv in Hrun as [? _]|]. destruct ss as [ss|]; [|done].
    apply bind_inv in Hrun as (cc & w2 & [-> ->]%ret_inv & Hrun).
    apply bind_inv in Hrun as (u & w3 & H3 & Hrun).
    apply bind_inv in Hrun as ([st e2] & w4 & H4 & [? ->]%ret_inv). simplify_eq/=.
    rewrite Hp in H3 |- *. apply set_remote_inv in H3. apply on_net_heap in H4 as ->. eauto.
Qed.

Lemma tcp_NewListener_inv p w l err w' :
  tcp_NewListener p w = (Ok (Some l, err), w') → tl_p l = None.
Proof.
  unfold tcp_NewListener. intros ([tp e] & w1 & _ & Hrun)%bind_inv.
  destruct e; [by apply ret_inv in Hrun as [? _]|].
  apply bind_inv in Hrun as (a & w2 & _ & Hrun).
  apply bind_inv in Hrun as ([nl e] & w3 & _ & [? _]%ret_inv). by simplify_eq.
Qed.
End Lemmas.

(** ** Properties *)

(** What a selection preference admits, by the comments of enum.go: Require
    selects only protocols that provide the property, Prohibit only those that
    do not, every other preference proceeds either way. *)
Definition admits (pref : Preference) (provided : bool) : bool :=
  if pref =? Require_ then provided else if pref =? Prohibit then negb provided else true.

(** The properties UDP provides: those its Satisfy returns and those it lists
    in comments. *)
Definition udp_provides (sp : SelectionProperties) : list (Preference * bool) :=
  [(sp_Reliability sp, false); (sp_PreserveMsgBoundaries sp, false);
   (sp_PerMsgReliability sp, false); (sp_PreserveOrder sp, false); (sp_ZeroRTTMsg sp, true);
   (sp_Multistreaming sp, false); (sp_FullChecksumSend sp, false);
   (sp_FullChecksumRecv sp, false); (sp_CongestionControl sp, false); (sp_KeepAlive sp, false)].

Lemma admits_true pref : admits pref true = negb (pref =? Prohibit).
Proof. unfold admits. destruct (Z.eqb_spec pref Require_) as [->|]; [done|]. by destruct (_ =? _). Qed.

Lemma admits_false pref : admits pref false = negb (pref =? Require_).
Proof. unfold admits. destruct (pref =? Require_); [done|]. by destruct (_ =? _). Qed.

Section Claims.
Context `{Network}.
Implicit Types (w : World (protocol Sel) Net).

(** C33: Satisfy of each of the three stream protocols returns the protocol's
    properties and fails exactly when one of the three preferences does not
    admit them; it has no effect. *)
Theorem Satisfy_admits proto w p pre :
  preconnections (heap w) !! p = Some pre →
  ∃ props err, Satisfy proto p w = (Ok (props, err), w) ∧
    Reliability props = true ∧ PreserveOrder props = true ∧ CongestionControl props = true ∧
    let sp := TransportPreferences_ pre in
    err = if admits (tp_Reliability sp) (Reliability props)
             && admits (tp_PreserveOrder sp) (PreserveOrder props)
             && admits (tp_CongestionControl sp) (CongestionControl props)
          then None else Some constraints.
Proof.
  intros Hp. pose proof (preferences_of_ok w p pre Hp) as R.
  destruct proto; simpl; unfold tcp_Satisfy, iquic_Satisfy, squic_Satisfy;
    rewrite (bind_ok _ _ _ _ _ R); do 2 eexists; split_and!; try reflexivity; simpl;
    rewrite !admits_true; unfold prohibited; by repeat destruct (_ =? _).
Qed.

(** UDP's Satisfy fails exactly when one of its ten preferences does not
    admit what UDP provides, given well-formed tables, and changes no existing
    object. *)
Theorem udp_Satisfy_admits {P} (h : Heap P) sp m1 m2 :
  view_map (maps h) (sp_Interface sp) = Some m1 → view_map (maps h) (sp_PvD sp) = Some m2 →
  ∃ h', extends h h' ∧
    udp_Satisfy sp h =
    (Ok (mkTransportProperties false false false "" Disabled,
         if forallb (λ c, admits c.1 c.2) (udp_provides sp) then None
         else Some "Can't satisfy all constraints"%string), h').
Proof.
  intros H1 H2. destruct (copy_map_spec h _ _ H1) as (l1 & h1 & R1 & X1 & _).
  eapply view_map_mono in H2; [|apply X1].
  destruct (copy_map_spec h1 _ _ H2) as (l2 & h2 & R2 & X2 & _).
  exists h2. split; [by etrans|].
  unfold udp_Satisfy, SelectionProperties_Copy. go_exec by exact R1. go_exec by exact R2.
  unfold mret, GoM_ret. rewrite admits_true, !admits_false, andb_true_r, <- !negb_orb,
    !orb_assoc. by destruct (_ || _).
Qed.

(** Every connection a listener accepts carries the listener's one
    preconnection, so after a second Accept the preconnection of the first
    connection names the second peer. *)
Theorem Accept_overwrites_peer l p w c1 e1 w1 c2 e2 w2 :
  listener_preconnection l = Some p →
  Listener_Accept l w = (Ok (Some c1, e1), w1) →
  Listener_Accept l w1 = (Ok (Some c2, e2), w2) →
  Connection_Preconnection c1 = Some p ∧ Connection_Preconnection c2 = Some p ∧
  ∃ addr1 addr2, peer c1 = Some addr1 ∧ peer c2 = Some addr2 ∧
    remote_address p w1 = (Ok addr1, w1) ∧ remote_address p w2 = (Ok addr2, w2).
Proof.
  intros Hl (P1 & a1 & Ha1 & R1)%(Accept_inv _ p) (P2 & a2 & Ha2 & R2)%(Accept_inv _ p); [|done..].
  split_and!; [done..|]. exists a1, a2. split_and!; [done..| |]; by apply remote_is_read.
Qed.

(** A listener that the TCP protocol's NewListener returned never accepts
    a connection: once the operating system hands one over, Accept panics on
    the preconnection NewListener left nil. *)
Theorem tcp_listener_panics p w l err w1 nl w2 conn e n :
  tcp_NewListener p w = (Ok (Some l, err), w1) → tl_l l = Some nl →
  NetListener_Accept nl (net w2) = (Ok (Some conn, e), n) →
  (tcp_Accept l w2).1 = Panics nil_deref.
Proof.
  intros Hp%tcp_NewListener_inv Hl Ha. unfold tcp_Accept. rewrite Hl, Hp.
  rewrite (bind_ok _ _ _ _ _ (on_net_ok _ _ _ _ Ha)). reflexivity.
Qed.

(** On a preconnection that prohibits what the protocols provide, TCP's
    Initiate fails without touching the network, while QUIC's goes on to dial
    the remote address and returns the connection. *)
Theorem Initiate_prohibited q w p pre e ep ss n1 st err n2 :
  preconnections (heap w) !! p = Some pre → RemoteEndpoint pre = Some e →
  endpoints (heap w) !! e = Some ep → prohibited (TransportPreferences_ pre) = true →
  quic_DialAddr (Address ep) (TLSConfig q) (QuicConfig q) (net w) = (Ok (Some ss, None), n1) →
  QSession_OpenStream ss n1 = (Ok (st, err), n2) →
  tcp_Initiate p w = (Ok (None, Some constraints), w) ∧
  (iquic_Satisfy p w).1 = Ok (mkTransportProperties true true true "" Disabled, Some constraints) ∧
  iquic_Initiate q p w
  = (Ok (Some (mk_iquic_Connection st (Some p) (Some ss)), err), w <| net := n2 |>).
Proof.
  intros Hp He Hep Hpro Hdial Hopen.
  pose proof (preferences_of_ok w p pre Hp) as R. split_and!.
  - unfold tcp_Initiate, tcp_Satisfy. go_exec by exact R. by rewrite Hpro.
  - unfold iquic_Satisfy. go_exec by exact R. by rewrite Hpro.
  - unfold iquic_Initiate. go_exec by (by eapply remote_address_ok).
    go_exec by (by apply on_net_ok). by go_exec by (by apply on_net_ok).
Qed.

(** The SCION protocol's NewListener dereferences its selector whenever the
    preconnection has connection preferences: without a selector it panics,
    where Initiate with the same configuration goes on to dial. *)
Theorem squic_NewListener_nil_selector q w p pre e ep cp addr n :
  preconnections (heap w) !! p = Some pre → LocalEndpoint pre = Some e →
  endpoints (heap w) !! e = Some ep → prohibited (TransportPreferences_ pre) = false →
  ConnectionPreferences_ pre = Some cp → Config_Selector q = None →
  pan_ResolveUDPAddr (Address ep) (net w) = (Ok (addr, None), n) →
  squic_NewListener q p w = (Panics nil_deref, w <| net := n |>) ∧
  (RemoteEndpoint pre = Some e →
   squic_Initiate q p w
   = ('(session, err) ← on_net (pan_DialQUIC addr None (TLS q) (Quic q));
      match err with
      | Some e => mret (None, Some e)
      | None =>
          ss ← deref session;
          '(stream, err) ← on_net (QSession_OpenStream ss);
          mret (Some (mk_squic_Connection stream (Some p) session), err)
      end) (w <| net := n |>)).
Proof.
  intros Hp He Hep Hpro Hcp Hsel Hres. split.
  - unfold squic_NewListener, squic_Satisfy.
    go_exec by (by eapply preferences_of_ok). rewrite Hpro.
    go_exec by (by eapply local_address_ok). go_exec by (by apply on_net_ok).
    go_exec by (by apply on_heap_load). by rewrite Hcp, Hsel.
  - intros Hre. unfold squic_Initiate.
    go_exec by (by eapply remote_address_ok). go_exec by (by apply on_net_ok).
    go_exec by (by apply on_heap_load). by rewrite Hsel.
Qed.
End Claims.

(** ** Witnesses

    A network whose state is the list of peers still to come in; dialling
    always works. *)
Module SampleNet.
Definition pop : GoM (list string) (option string * error) := λ n,
  match n with [] => (Ok (None, Some "closed"%string), []) | a :: n => (Ok (Some a, None), n) end.

#[global] Instance network : Network := {
  Net := list string; NetListener := unit; NetConn := string; QListener := unit;
  QSession := string; QStream := unit; PanAddr := string; Sel := unit;
  net_Listen _ := mret (Some tt, None);
  net_Dial a := mret (Some a, None);
  NetListener_Accept _ := pop;
  NetListener_Close _ := mret None;
  NetConn_RemoteAddr a := a;
  quic_ListenAddr _ _ _ := mret (Some tt, None);
  quic_DialAddr a _ _ := mret (Some a, None);
  QListener_Accept _ := pop;
  QListener_Close _ := mret None;
  QSession_RemoteAddr a := a;
  QSession_AcceptStream _ := mret (Some tt, None);
  QSession_OpenStream _ := mret (Some tt, None);
  QSession_CloseWithError _ _ _ := mret None;
  QStream_Close _ := mret None;
  pan_ResolveUDPAddr a := mret (a, None);
  pan_ListenQUIC _ _ _ := mret (Some tt, None);
  pan_DialQUIC a _ _ _ := mret (Some a, None);
  Sel_SetPreferences _ _ := mret None
}.

Definition pre (tp : TransportPreferences) : Preconnection :=
  mkPreconnection (Some 1%positive) (Some 1%positive) tp NewDisabledSecurityParameters
    (Some 3%positive).
Definition tp_default : TransportPreferences :=
  mkTransportPreferences Require_ Require_ Require_ None dynamic.
Definition tp_unreliable : TransportPreferences :=
  mkTransportPreferences Prohibit Ignore Ignore None dynamic.
Definition w (tp : TransportPreferences) : World (protocol Sel) Net :=
  mkWorld (mkHeap {[1%positive := mkEndpoint "192.0.2.1:1337" None]}
             {[3%positive := mkConnectionPreferences 0 Default Handover false]} ∅
             {[5%positive := pre tp]}) ["10.0.0.1:1"; "10.0.0.2:2"]%string.
Definition ql : listener := InetL (mk_iquic_listener (Some 5%positive) (Some tt)).
Definition sp : SelectionProperties :=
  mkSelectionProperties Require_ Ignore Ignore Require_ Ignore Prefer Require_ Require_ Require_
    Ignore (Some 1%positive) (Some 2%positive) dynamic unset false Bidirectional Ignore Ignore.
Definition q : iquic_Protocol := mk_iquic_Protocol None None.
Definition sq : squic_Config Sel := mk_squic_Config None None None.
End SampleNet.

Lemma Satisfy_admits_witness :
  ∃ props err, Satisfy TcpProtocol 5%positive (SampleNet.w SampleNet.tp_unreliable)
    = (Ok (props, err), SampleNet.w SampleNet.tp_unreliable) ∧ err = Some constraints.
Proof.
  destruct (Satisfy_admits TcpProtocol (SampleNet.w SampleNet.tp_unreliable) 5%positive
    (SampleNet.pre SampleNet.tp_unreliable) eq_refl) as (props & err & R & H1 & H2 & H3 & E).
  exists props, err. split; [exact R|]. rewrite E, H1. reflexivity.
Defined.

Lemma udp_Satisfy_admits_witness :
  let '(r, h) := NewSelectionProperties (P := unit) empty_heap in
  r = Ok SampleNet.sp ∧
  (udp_Satisfy SampleNet.sp h).1
  = Ok (mkTransportProperties false false false "" Disabled,
        Some "Can't satisfy all constraints"%string).
Proof.
  split; [reflexivity|].
  destruct (udp_Satisfy_admits (NewSelectionProperties (P := unit) empty_heap).2
    SampleNet.sp ∅ ∅ eq_refl eq_refl) as (h' & _ & R).
  exact (f_equal fst R).
Defined.

Lemma Accept_overwrites_peer_witness :
  ∃ c1 c2 w1 w2,
    Listener_Accept SampleNet.ql (SampleNet.w SampleNet.tp_default) = (Ok (Some c1, None), w1) ∧
    Listener_Accept SampleNet.ql w1 = (Ok (Some c2, None), w2) ∧
    peer c1 = Some "10.0.0.1:1"%string ∧
    remote_address 5%positive w2 = (Ok "10.0.0.2:2"%string, w2).
Proof.
  do 4 eexists. split; [reflexivity|]. split; [reflexivity|].
  destruct (Accept_overwrites_peer SampleNet.ql 5%positive (SampleNet.w SampleNet.tp_default)
    _ _ _ _ _ _ eq_refl eq_refl eq_refl) as (_ & _ & a1 & a2 & H1 & H2 & _ & R2).
  cbn in H1, H2. injection H1 as <-. injection H2 as <-. exact (conj eq_refl R2).
Defined.

Lemma tcp_listener_panics_witness :
  ∃ l w1, tcp_NewListener 5%positive (SampleNet.w SampleNet.tp_default) = (Ok (Some l, None), w1)
    ∧ (tcp_Accept l w1).1 = Panics nil_deref.
Proof.
  do 2 eexists. split; [reflexivity|].
  eapply (tcp_listener_panics 5%positive (SampleNet.w SampleNet.tp_default));
    [reflexivity|reflexivity|]. reflexivity.
Defined.

Lemma Initiate_prohibited_witness :
  tcp_Initiate 5%positive (SampleNet.w SampleNet.tp_unreliable)
  = (Ok (None, Some constraints), SampleNet.w SampleNet.tp_unreliable) ∧
  (iquic_Initiate SampleNet.q 5%positive (SampleNet.w SampleNet.tp_unreliable)).1
  = Ok (Some (mk_iquic_Connection (Some tt) (Some 5%positive) (Some "192.0.2.1:1337"%string)), None).
Proof.
  destruct (Initiate_prohibited SampleNet.q (SampleNet.w SampleNet.tp_unreliable) 5%positive
    (SampleNet.pre SampleNet.tp_unreliable) 1%positive (mkEndpoint "192.0.2.1:1337" None)
    "192.0.2.1:1337"%string _ _ _ _ eq_refl eq_refl eq_refl eq_refl eq_refl eq_refl)
    as (H1 & _ & H3).
  split; [exact H1|]. rewrite H3. reflexivity.
Defined.

Lemma squic_NewListener_nil_selector_witness :
  (squic_NewListener SampleNet.sq 5%positive (SampleNet.w SampleNet.tp_default)).1
  = Panics nil_deref.
Proof.
  destruct (squic_NewListener_nil_selector SampleNet.sq (SampleNet.w SampleNet.tp_default)
    5%positive (SampleNet.pre SampleNet.tp_default) 1%positive
    (mkEndpoint "192.0.2.1:1337" None) 3%positive "192.0.2.1:1337"%string _
    eq_refl eq_refl eq_refl eq_refl eq_refl eq_refl eq_refl) as [R _].
  rewrite R. reflexivity.
Defined.
