(* ===== verification/TapsProgram.v ===== *)
(** * A program that uses TAPS (taps/preconnection.go and the transports)

    Any sequence of calls of a program: it makes endpoints, preferences, tables
    and preconnections and writes to them, copies preconnections, listens,
    initiates and accepts. What it made itself is its own; a listener and an
    initiated connection hold a preconnection of their own. The program does not
    write through the pointers that Connection.Preconnection returns. *)

From S2P Require Import Prelude Enums Taps Transports.

Section Program.
Context `{Network}.
Abbreviation TH := (Heap (protocol Sel)).
Abbreviation TW := (World (protocol Sel) Net).

(** The objects the program made itself. *)
Record objects := mk_objects {
  own_endpoints : gset loc;
  own_preferences : gset loc;
  own_maps : gset loc;
  own_preconnections : gset loc
}.

Definition add_endpoint (l : loc) (o : objects) : objects :=
  mk_objects ({[l]} ∪ own_endpoints o) (own_preferences o) (own_maps o) (own_preconnections o).
Definition add_preferences (l : loc) (o : objects) : objects :=
  mk_objects (own_endpoints o) ({[l]} ∪ own_preferences o) (own_maps o) (own_preconnections o).
Definition add_map (l : loc) (o : objects) : objects :=
  mk_objects (own_endpoints o) (own_preferences o) ({[l]} ∪ own_maps o) (own_preconnections o).

Definition opt_set (p : option loc) : gset loc := match p with Some l => {[l]} | None => ∅ end.

(** A preconnection with all it points to. *)
Definition add_preconnection (pre : Preconnection) (l : loc) (o : objects) : objects :=
  mk_objects (opt_set (LocalEndpoint pre) ∪ opt_set (RemoteEndpoint pre) ∪ own_endpoints o)
    (opt_set (ConnectionPreferences_ pre) ∪ own_preferences o)
    (opt_set (tp_Interface (TransportPreferences_ pre)) ∪ own_maps o)
    ({[l]} ∪ own_preconnections o).

Definition ptr_own (s : gset loc) (p : option loc) : Prop := opt_set p ⊆ s.
#[export] Instance ptr_own_dec s p : Decision (ptr_own s p).
Proof. unfold ptr_own. apply _. Defined.
Definition owns (o : objects) (pre : Preconnection) : Prop :=
  ptr_own (own_endpoints o) (LocalEndpoint pre) ∧ ptr_own (own_endpoints o) (RemoteEndpoint pre) ∧
  ptr_own (own_preferences o) (ConnectionPreferences_ pre) ∧
  ptr_own (own_maps o) (tp_Interface (TransportPreferences_ pre)).
#[export] Instance owns_dec o pre : Decision (owns o pre).
Proof. unfold owns. apply _. Defined.

(** A listener, or a connection that Initiate returned. *)
Inductive handle : Type := Listening (l : listener) | Connected (c : connection).

Definition handle_preconnection (x : handle) : option loc :=
  match x with
  | Listening l => listener_preconnection l
  | Connected c => Connection_Preconnection c
  end.

(** With each handle goes the value the program's preconnection had when it
    called Listen or Initiate. *)
Record program := mk_program {
  world : TW;
  own : objects;
  handles : list (handle * View (protocol Sel))
}.

Inductive call : Type :=
  | NewEndpoint (e : Endpoint (protocol Sel))
  | NewConnectionPreferences (cp : ConnectionPreferences)
  | NewTable (m : gmap string Preference)
  | NewPreconnection (pre : Preconnection)
  | SetEndpoint (l : loc) (e : Endpoint (protocol Sel))
  | SetConnectionPreferences (l : loc) (cp : ConnectionPreferences)
  | SetTable (l : loc) (m : gmap string Preference)
  | SetPreconnection (l : loc) (pre : Preconnection)
  | CallCopy (p : loc)
  | CallListen (p : loc)
  | CallInitiate (p : loc)
  | CallAccept (k : nat)
  | CallSetPreferences (p : loc) (cps : option loc).

Definition on_world {A} (m : GoM TW A) (s : program) : outcome A * program :=
  let '(r, w) := m (world s) in (r, mk_program w (own s) (handles s)).

(** Make an object and own it, or write to one. *)
Definition make (add : loc → objects → objects) (m : GoM TH loc) (s : program) : program :=
  match on_world (on_heap m) s with
  | (Ok l, s) => mk_program (world s) (add l (own s)) (handles s)
  | (_, s) => s
  end.
Definition write (m : GoM TH unit) (s : program) : program := (on_world (on_heap m) s).2.

Definition hold {A} (f : A → handle) (v : View (protocol Sel)) (m : GoM TW (option A * error))
    (s : program) : program :=
  match on_world m s with
  | (Ok (Some a, _), s) => mk_program (world s) (own s) (handles s ++ [(f a, v)])
  | (_, s) => s
  end.

(** A call uses pointers of the program's own; without them it cannot be made. *)
Definition invoke (c : call) (s : program) : program :=
  let o := own s in
  match c with
  | NewEndpoint e => make add_endpoint (alloc endpoints e) s
  | NewConnectionPreferences cp => make add_preferences (alloc preferences cp) s
  | NewTable m => make add_map (alloc maps m) s
  | NewPreconnection pre =>
      if decide (owns o pre) then make (add_preconnection pre) (alloc preconnections pre) s else s
  | SetEndpoint l e => if decide (l ∈ own_endpoints o) then write (store endpoints (Some l) e) s else s
  | SetConnectionPreferences l cp =>
      if decide (l ∈ own_preferences o) then write (store preferences (Some l) cp) s else s
  | SetTable l m => if decide (l ∈ own_maps o) then write (store maps (Some l) m) s else s
  | SetPreconnection l pre =>
      if decide (l ∈ own_preconnections o ∧ owns o pre)
      then write (store preconnections (Some l) pre) s else s
  | CallCopy p =>
      if decide (p ∈ own_preconnections o) then
        match on_world (on_heap (Preconnection_Copy (Some p))) s with
        | (Ok c, s) =>
            match preconnections (heap (world s)) !! c with
            | Some pre => mk_program (world s) (add_preconnection pre c (own s)) (handles s)
            | None => s
            end
        | (_, s) => s
        end
      else s
  | CallListen p =>
      if decide (p ∈ own_preconnections o) then
        match view (heap (world s)) p with
        | Some v => hold Listening v (Listen (Some p)) s
        | None => (on_world (Listen (Some p)) s).2
        end
      else s
  | CallInitiate p =>
      if decide (p ∈ own_preconnections o) then
        match view (heap (world s)) p with
        | Some v => hold Connected v (Initiate (Some p)) s
        | None => (on_world (Initiate (Some p)) s).2
        end
      else s
  | CallAccept k =>
      match handles s !! k with
      | Some (Listening l, _) => (on_world (Listener_Accept l) s).2
      | _ => s
      end
  | CallSetPreferences p cps =>
      if decide (p ∈ own_preconnections o ∧ ptr_own (own_preferences o) cps)
      then (on_world (SetPreferences (Some p) cps) s).2 else s
  end.

(** The program after calls; it starts with nothing. *)
Definition ran (cs : list call) (n : Net) : program :=
  foldl (λ s c, invoke c s) (mk_program (mkWorld empty_heap n) (mk_objects ∅ ∅ ∅ ∅) []) cs.

(** A selector's SetPreferences leaves the TAPS objects alone. *)
Class SelectorSpares : Prop :=
  spares_heap : ∀ s p, within (λ w w', heap w' = heap w) (Sel_SetPreferences s p).
End Program.

(** ** What the calls change *)
Section Lemmas.
Context `{Network}.
Abbreviation TH := (Heap (protocol Sel)).
Abbreviation TW := (World (protocol Sel) Net).
Implicit Types (h : TH) (o : objects) (w : TW) (v : View (protocol Sel)).

(** A preconnection none of whose objects is the program's. *)
Definition apart o (pre : Preconnection) : Prop :=
  opt_set (LocalEndpoint pre) ## own_endpoints o ∧ opt_set (RemoteEndpoint pre) ## own_endpoints o ∧
  opt_set (ConnectionPreferences_ pre) ## own_preferences o ∧
  opt_set (tp_Interface (TransportPreferences_ pre)) ## own_maps o.

(** Between [h] and [h'] only objects of [o] and the preconnections of [W] have
    changed, and [o'] has more of new objects only. *)
Definition kept {C} (s : gset loc) (m m' : gmap loc C) : Prop :=
  ∀ l c, m !! l = Some c → l ∉ s → m' !! l = Some c.
Definition fresh_in {C} (s s' : gset loc) (m : gmap loc C) : Prop :=
  ∀ l, l ∈ s' → l ∈ s ∨ m !! l = None.
Record frame (W : gset loc) h h' o o' : Prop := {
  frame_endpoints : kept (own_endpoints o) (endpoints h) (endpoints h');
  frame_preferences : kept (own_preferences o) (preferences h) (preferences h');
  frame_maps : kept (own_maps o) (maps h) (maps h');
  frame_preconnections : kept (own_preconnections o ∪ W) (preconnections h) (preconnections h');
  fresh_endpoints : fresh_in (own_endpoints o) (own_endpoints o') (endpoints h);
  fresh_preferences : fresh_in (own_preferences o) (own_preferences o') (preferences h);
  fresh_maps : fresh_in (own_maps o) (own_maps o') (maps h);
  fresh_preconnections : fresh_in (own_preconnections o) (own_preconnections o') (preconnections h)
}.

Lemma kept_subseteq {C} s (m m' : gmap loc C) : m ⊆ m' → kept s m m'.
Proof. intros Hs l c Hl _. by eapply lookup_weaken. Qed.

Lemma kept_insert {C} (s : gset loc) (m : gmap loc C) l c : l ∈ s → kept s m (<[l := c]> m).
Proof. intros Hl l' c' Hl' Hn. rewrite lookup_insert_ne; [done|]. by intros ->. Qed.

Lemma fresh_in_same {C} s (m : gmap loc C) : fresh_in s s m.
Proof. intros l. by left. Qed.

Lemma fresh_in_union {C} p s (m : gmap loc C) : fresh_ptr m p → fresh_in s (opt_set p ∪ s) m.
Proof. intros Hp l [Hl|Hl]%elem_of_union; [|by left]. destruct p; set_solver. Qed.

Lemma extends_frame h h' o : extends h h' → frame ∅ h h' o o.
Proof. intros (X1 & X2 & X3 & X4). split; by (apply kept_subseteq || apply fresh_in_same). Qed.

(** Pointers that resolve and are not the program's. *)
Lemma view_ptr_kept {C} s (m m' : gmap loc C) p r :
  kept s m m' → opt_set p ## s → view_ptr m p = Some r → view_ptr m' p = Some r.
Proof.
  intros Hk Hp. destruct p as [l|]; simpl; [|done]. intros (c & Hc & ->)%fmap_Some.
  by rewrite (Hk l c Hc) by set_solver.
Qed.

Lemma view_map_kept s m m' p r :
  kept s m m' → opt_set p ## s → view_map m p = Some r → view_map m' p = Some r.
Proof. intros Hk Hp. destruct p as [l|]; simpl; [|done]. intros Hl. apply Hk; [done|set_solver]. Qed.

Lemma disjoint_fresh_in {C} p s s' (m : gmap loc C) r :
  fresh_in s s' m → view_ptr m p = Some r → opt_set p ## s → opt_set p ## s'.
Proof.
  intros Hf Hv Hd l Hl Hl'. destruct (Hf l Hl') as [|Hn]; [set_solver|].
  destruct p as [l0|]; [|set_solver]. simpl in Hl.
  assert (l = l0) as -> by set_solver. simpl in Hv. by rewrite Hn in Hv.
Qed.

Lemma view_map_ptr m p r : view_map m p = Some r → ∃ r', view_ptr m p = Some r'.
Proof. destruct p as [l|]; simpl; [intros ->|]; eauto. Qed.

(** A handle's preconnection stays apart from the program's objects and keeps the
    value it had at the call, but that Accept names a peer as a listener's remote
    endpoint. *)
Definition retains h o (x : handle) v : Prop :=
  ∀ c, handle_preconnection x = Some c →
    c ∉ own_preconnections o ∧
    ∃ pre, preconnections h !! c = Some pre ∧ apart o pre ∧
      ∃ r, view h c = Some (v <| v_remote := r |>) ∧
        (r = v_remote v ∨ ∃ l addr, x = Listening l ∧ r = Some (mkEndpoint addr None)).

Lemma retains_frame W h h' o o' x v :
  frame W h h' o o' → retains h o x v →
  (∀ c, handle_preconnection x = Some c → c ∉ W) → retains h' o' x v.
Proof.
  intros F Hr HW c Hc. destruct (Hr c Hc) as (Hn & pre & Hpre & (A1 & A2 & A3 & A4) & r & Hv & Hx).
  destruct (view_inv _ _ _ Hv) as (pre0 & Hpre0 & Vl & Vr & Vp & Vm & E).
  rewrite Hpre in Hpre0. injection Hpre0 as <-.
  assert (preconnections h' !! c = Some pre) as Hpre'.
  { apply (frame_preconnections _ _ _ _ _ F); [done|]. pose proof (HW c Hc). set_solver. }
  destruct (view_map_ptr _ _ _ Vm) as [vm Vm'].
  split; [|exists pre; split; [exact Hpre'|split; [|exists r; split; [|exact Hx]]]].
  - intros Hin. destruct (fresh_preconnections _ _ _ _ _ F c Hin) as [|Hf]; [done|by rewrite Hf in Hpre].
  - split_and!; (eapply disjoint_fresh_in; [apply F|eassumption|assumption]).
  - rewrite E. apply view_intro; [exact Hpre'|..].
    + eapply view_ptr_kept; [apply F|exact A1|exact Vl].
    + eapply view_ptr_kept; [apply F|exact A2|exact Vr].
    + eapply view_ptr_kept; [apply F|exact A3|exact Vp].
    + eapply view_map_kept; [apply F|exact A4|exact Vm].
Qed.

(** The program's own pointers resolve. *)
Definition own_ok h o : Prop :=
  (∀ l, l ∈ own_endpoints o → is_Some (endpoints h !! l)) ∧
  (∀ l, l ∈ own_preferences o → is_Some (preferences h !! l)) ∧
  (∀ l, l ∈ own_maps o → is_Some (maps h !! l)) ∧
  ∀ l, l ∈ own_preconnections o → ∃ pre, preconnections h !! l = Some pre ∧ owns o pre.

Lemma lookup_mono {C} (m m' : gmap loc C) l : m ⊆ m' → is_Some (m !! l) → is_Some (m' !! l).
Proof. intros Hs [c Hc]. exists c. by eapply lookup_weaken. Qed.

Lemma own_ok_extends h h' o : extends h h' → own_ok h o → own_ok h' o.
Proof.
  intros (X1 & X2 & X3 & X4) (O1 & O2 & O3 & O4). split_and!; eauto using lookup_mono.
  intros l Hl. destruct (O4 l Hl) as (pre & Hp & Ho). exists pre. split; [by eapply lookup_weaken|done].
Qed.

Lemma owns_mono o o' pre :
  own_endpoints o ⊆ own_endpoints o' → own_preferences o ⊆ own_preferences o' →
  own_maps o ⊆ own_maps o' → owns o pre → owns o' pre.
Proof. unfold owns, ptr_own. set_solver. Qed.

(** What the program owns has a value. *)
Lemma own_view h o l : own_ok h o → l ∈ own_preconnections o → is_Some (view h l).
Proof.
  intros (O1 & O2 & O3 & O4) Hl. destruct (O4 l Hl) as (pre & Hp & Ho1 & Ho2 & Ho3 & Ho4).
  assert (∀ {C} (m : gmap loc C) s p, (∀ l, l ∈ s → is_Some (m !! l)) → ptr_own s p → ∃ r, view_ptr m p = Some r) as Hptr.
  { intros C m s p Hs Hsub. destruct p as [l0|]; [|by eexists]. destruct (Hs l0) as [c Hc]; [set_solver|].
    exists (Some c). simpl. by rewrite Hc. }
  destruct (Hptr _ _ _ _ O1 Ho1) as [v1 V1], (Hptr _ _ _ _ O1 Ho2) as [v2 V2], (Hptr _ _ _ _ O2 Ho3) as [v3 V3].
  assert (∃ m, view_map (maps h) (tp_Interface (TransportPreferences_ pre)) = Some m) as [v4 V4].
  { destruct (tp_Interface _) as [l0|]; [|by eexists]. destruct (O3 l0) as [c Hc]; [set_solver|]. by exists c. }
  eexists. by eapply view_intro.
Qed.

(** No two handles have the same preconnection. *)
Definition distinct_handles (hs : list (handle * View (protocol Sel))) : Prop :=
  ∀ j k x y c, hs !! j = Some x → hs !! k = Some y →
    handle_preconnection x.1 = Some c → handle_preconnection y.1 = Some c → j = k.

(** The invariant of a program. *)
Definition sound (s : program) : Prop :=
  own_ok (heap (world s)) (own s) ∧
  Forall (λ x, retains (heap (world s)) (own s) x.1 x.2) (handles s) ∧
  distinct_handles (handles s).

Lemma sound_frame s w' o' :
  sound s → frame ∅ (heap (world s)) (heap w') (own s) o' → own_ok (heap w') o' →
  sound (mk_program w' o' (handles s)).
Proof.
  intros (_ & Hh & Hn) F Ho. split_and!; [done| |done]. eapply Forall_impl; [exact Hh|].
  intros x Hx. eapply retains_frame; [exact F|exact Hx|]. set_solver.
Qed.

(** A run that changes nothing on the heap, or only makes objects. *)
Lemma sound_extends s w' : sound s → extends (heap (world s)) (heap w') → sound (mk_program w' (own s) (handles s)).
Proof.
  intros Hs X. apply sound_frame; [done|by apply extends_frame|]. eapply own_ok_extends; [exact X|apply Hs].
Qed.

(** *** The calls that make and write objects *)
Lemma sound_make s add (m : GoM TH loc) :
  sound s →
  (∃ l h', m (heap (world s)) = (Ok l, h') ∧ extends (heap (world s)) h' ∧
     frame ∅ (heap (world s)) h' (own s) (add l (own s)) ∧ own_ok h' (add l (own s))) →
  sound (make add m s).
Proof.
  intros Hs (l & h' & R & X & F & Ho). unfold make, on_world, on_heap, zoom. rewrite R.
  by apply (sound_frame s ((world s) <| heap := h' |>)).
Qed.

Lemma extends_fields h h' o o' :
  extends h h' →
  fresh_in (own_endpoints o) (own_endpoints o') (endpoints h) →
  fresh_in (own_preferences o) (own_preferences o') (preferences h) →
  fresh_in (own_maps o) (own_maps o') (maps h) →
  fresh_in (own_preconnections o) (own_preconnections o') (preconnections h) → frame ∅ h h' o o'.
Proof. intros (X1 & X2 & X3 & X4) F1 F2 F3 F4. split; by (apply kept_subseteq || assumption). Qed.

Lemma fresh_in_add {C} s l (m : gmap loc C) : m !! l = None → fresh_in s ({[l]} ∪ s) m.
Proof. intros Hl. by apply (fresh_in_union (Some l)). Qed.

Lemma fresh_in_own {C} (s : gset loc) p (m : gmap loc C) : ptr_own s p → fresh_in s (opt_set p ∪ s) m.
Proof. intros Hp l. unfold ptr_own in Hp. set_solver. Qed.

Lemma resolve_add {C} (m : gmap loc C) (s : gset loc) l c :
  (∀ l', l' ∈ s → is_Some (m !! l')) → ∀ l', l' ∈ {[l]} ∪ s → is_Some (<[l := c]> m !! l').
Proof.
  intros Hs l' Hl'. destruct (decide (l = l')) as [->|]; [rewrite lookup_insert_eq; eauto|].
  rewrite lookup_insert_ne by done. apply Hs. set_solver.
Qed.

Lemma sound_NewEndpoint s e : sound s → sound (make add_endpoint (alloc endpoints e) s).
Proof.
  intros Hs. apply sound_make; [done|]. do 2 eexists. split; [reflexivity|].
  pose proof (extends_alloc_endpoints (heap (world s)) e) as X. split_and!; [exact X| |].
  - apply extends_fields; [exact X|..]; try apply fresh_in_same. apply fresh_in_add, alloc_fresh.
  - destruct (own_ok_extends _ _ _ X (proj1 Hs)) as (_ & O2 & O3 & O4).
    split_and!; [by apply resolve_add, Hs|done..|]. intros l Hl. destruct (O4 l Hl) as (pre & Hp & Ho).
    exists pre. split; [done|]. eapply owns_mono; [..|exact Ho]; simpl; set_solver.
Qed.

Lemma sound_NewConnectionPreferences s cp : sound s → sound (make add_preferences (alloc preferences cp) s).
Proof.
  intros Hs. apply sound_make; [done|]. do 2 eexists. split; [reflexivity|].
  pose proof (extends_alloc_preferences (heap (world s)) cp) as X. split_and!; [exact X| |].
  - apply extends_fields; [exact X|..]; try apply fresh_in_same. apply fresh_in_add, alloc_fresh.
  - destruct (own_ok_extends _ _ _ X (proj1 Hs)) as (O1 & _ & O3 & O4).
    split_and!; [done|by apply resolve_add, Hs|done|]. intros l Hl. destruct (O4 l Hl) as (pre & Hp & Ho).
    exists pre. split; [done|]. eapply owns_mono; [..|exact Ho]; simpl; set_solver.
Qed.

Lemma sound_NewTable s m : sound s → sound (make add_map (alloc maps m) s).
Proof.
  intros Hs. apply sound_make; [done|]. do 2 eexists. split; [reflexivity|].
  pose proof (extends_alloc_maps (heap (world s)) m) as X. split_and!; [exact X| |].
  - apply extends_fields; [exact X|..]; try apply fresh_in_same. apply fresh_in_add, alloc_fresh.
  - destruct (own_ok_extends _ _ _ X (proj1 Hs)) as (O1 & O2 & _ & O4).
    split_and!; [done..|by apply resolve_add, Hs|]. intros l Hl. destruct (O4 l Hl) as (pre & Hp & Ho).
    exists pre. split; [done|]. eapply owns_mono; [..|exact Ho]; simpl; set_solver.
Qed.

(** Owning one more preconnection whose objects resolve. *)
Lemma own_ok_add h o pre l :
  own_ok h o → preconnections h !! l = Some pre → is_Some (view h l) → own_ok h (add_preconnection pre l o).
Proof.
  intros (O1 & O2 & O3 & O4) Hl [v (pre0 & Hl0 & Vl & Vr & Vp & Vm & _)%view_inv].
  rewrite Hl in Hl0. injection Hl0 as <-.
  assert (∀ {C} (m : gmap loc C) p r, view_ptr m p = Some r → ∀ l, l ∈ opt_set p → is_Some (m !! l)) as Hptr.
  { intros C m p r Hv l' Hl'. destruct p as [l0|]; [|set_solver]. simpl in Hl'.
    assert (l' = l0) as -> by set_solver. simpl in Hv. apply fmap_Some in Hv as (c & Hc & _). by exists c. }
  destruct (view_map_ptr _ _ _ Vm) as [vm Vm']. split_and!; simpl.
  - intros l' [[Hl'|Hl']%elem_of_union|Hl']%elem_of_union; eauto.
  - intros l' [Hl'|Hl']%elem_of_union; eauto.
  - intros l' [Hl'|Hl']%elem_of_union; eauto.
  - intros l' [->%elem_of_singleton|Hl']%elem_of_union.
    + exists pre. split; [done|]. unfold owns, ptr_own. simpl. set_solver.
    + destruct (O4 l' Hl') as (pre' & Hp' & Ho'). exists pre'. split; [done|].
      eapply owns_mono; [..|exact Ho']; simpl; set_solver.
Qed.

(** A preconnection made of the program's own objects. *)
Lemma owns_view h o pre l :
  own_ok h o → owns o pre → preconnections h !! l = Some pre → is_Some (view h l).
Proof.
  intros (O1 & O2 & O3 & O4) Ho Hl.
  apply (own_view h (mk_objects (own_endpoints o) (own_preferences o) (own_maps o) {[l]})); [|simpl; set_solver].
  split_and!; [done..|]. simpl. intros l' Hl'. assert (l' = l) as -> by set_solver. by exists pre.
Qed.

Lemma sound_NewPreconnection s pre :
  sound s → owns (own s) pre → sound (make (add_preconnection pre) (alloc preconnections pre) s).
Proof.
  intros Hs Ho. apply sound_make; [done|]. do 2 eexists. split; [reflexivity|].
  pose proof (extends_alloc_preconnections (heap (world s)) pre) as X. destruct Ho as (H1 & H2 & H3 & H4).
  pose proof (own_ok_extends _ _ _ X (proj1 Hs)) as Hok. split_and!; [exact X| |].
  - apply extends_fields; [exact X|..]; simpl; try (by apply fresh_in_own).
    + rewrite <-union_assoc_L. intros l. unfold ptr_own in *. set_solver.
    + apply fresh_in_add, alloc_fresh.
  - apply own_ok_add; [exact Hok|apply lookup_insert_eq|].
    eapply owns_view; [exact Hok|done|apply lookup_insert_eq].
Qed.

Lemma kept_same {C} s (m : gmap loc C) : kept s m m.
Proof. by intros l c. Qed.

Lemma resolve_insert {C} (m : gmap loc C) l c l' : is_Some (m !! l') → is_Some (<[l := c]> m !! l').
Proof.
  intros Hl. destruct (decide (l = l')) as [->|]; [rewrite lookup_insert_eq; eauto|by rewrite lookup_insert_ne].
Qed.

Lemma sound_write s (m : GoM TH unit) u h' :
  sound s → m (heap (world s)) = (Ok u, h') → frame ∅ (heap (world s)) h' (own s) (own s) →
  own_ok h' (own s) → sound (write m s).
Proof.
  intros Hs R F Ho. unfold write, on_world, on_heap, zoom. rewrite R.
  by apply (sound_frame s ((world s) <| heap := h' |>)).
Qed.

Lemma store_ok {C} (f : TH → gmap loc C) `{!Setter f} h l c :
  is_Some (f h !! l) → store f (Some l) c h = (Ok tt, set_field f (<[l := c]>) h).
Proof. intros [d Hd]. unfold store. by rewrite Hd. Qed.

Lemma sound_SetEndpoint s l e :
  sound s → l ∈ own_endpoints (own s) → sound (write (store endpoints (Some l) e) s).
Proof.
  intros Hs Hl. pose proof Hs as ((O1 & O2 & O3 & O4) & _). eapply sound_write; [done|apply (store_ok endpoints); auto|..].
  - split; simpl; try apply kept_same; try apply fresh_in_same. by apply kept_insert.
  - split_and!; simpl; eauto using resolve_insert.
Qed.

Lemma sound_SetConnectionPreferences s l cp :
  sound s → l ∈ own_preferences (own s) → sound (write (store preferences (Some l) cp) s).
Proof.
  intros Hs Hl. pose proof Hs as ((O1 & O2 & O3 & O4) & _). eapply sound_write; [done|apply (store_ok preferences); auto|..].
  - split; simpl; try apply kept_same; try apply fresh_in_same. by apply kept_insert.
  - split_and!; simpl; eauto using resolve_insert.
Qed.

Lemma sound_SetTable s l m :
  sound s → l ∈ own_maps (own s) → sound (write (store maps (Some l) m) s).
Proof.
  intros Hs Hl. pose proof Hs as ((O1 & O2 & O3 & O4) & _). eapply sound_write; [done|apply (store_ok maps); auto|..].
  - split; simpl; try apply kept_same; try apply fresh_in_same. by apply kept_insert.
  - split_and!; simpl; eauto using resolve_insert.
Qed.

Lemma sound_SetPreconnection s l pre :
  sound s → l ∈ own_preconnections (own s) → owns (own s) pre →
  sound (write (store preconnections (Some l) pre) s).
Proof.
  intros Hs Hl Ho. pose proof Hs as ((O1 & O2 & O3 & O4) & _). eapply sound_write; [done|apply (store_ok preconnections)|..].
  - destruct (O4 l Hl) as (pre0 & Hp & _). eauto.
  - split; simpl; try apply kept_same; try apply fresh_in_same. apply kept_insert. set_solver.
  - split_and!; simpl; eauto. intros l' Hl'. destruct (decide (l = l')) as [<-|].
    + exists pre. by rewrite lookup_insert_eq.
    + rewrite lookup_insert_ne by done. by apply O4.
Qed.

(** *** Copies *)
Lemma sound_Copy s p : sound s → sound (invoke (CallCopy p) s).
Proof.
  intros Hs. simpl. case_decide as Hp; [|done].
  destruct (own_view _ _ _ (proj1 Hs) Hp) as [v Hv].
  destruct (Preconnection_Copy_spec _ _ _ Hv) as (c & h' & pre & R & X & Hc & Hpre & (F1 & F2 & F3 & F4) & V).
  unfold on_world, on_heap, zoom. rewrite R. simpl. rewrite Hpre.
  apply (sound_frame s (mkWorld h' (net (world s))) (add_preconnection pre c (own s))); [done|..].
  - apply extends_fields; [exact X|..]; simpl; try (by apply fresh_in_union); [|by apply fresh_in_add].
    intros l Hl. rewrite <-union_assoc_L in Hl. destruct (fresh_in_union _ _ _ F1 l Hl) as [Hl'|]; [|by right].
    exact (fresh_in_union _ _ _ F2 l Hl').
  - apply own_ok_add; [by eapply own_ok_extends, Hs|done|by eexists].
Qed.

(** *** Listeners and connections *)
Definition same_heap w w' : Prop := heap w' = heap w.
#[export] Instance same_heap_preorder : PreOrder same_heap.
Proof. split; [done|]. unfold same_heap. intros w1 w2 w3 E1 E2. congruence. Qed.

Lemma same_heap_on_net {A} (m : GoM Net A) : within same_heap (on_net m).
Proof. intros w. unfold on_net, zoom. by destruct (m (net w)). Qed.

Lemma same_heap_load {C} (f : TH → gmap loc C) p : within same_heap (on_heap (N := Net) (load f p)).
Proof. intros w. unfold on_heap, zoom, load. by destruct p as [l|]; [destruct (f (heap w) !! l)|]; destruct w. Qed.

Lemma same_heap_deref {A} (o : option A) : within same_heap (deref o : GoM TW A).
Proof. by destruct o. Qed.

Lemma same_heap_preferences_of p : within same_heap (preferences_of p).
Proof. apply within_fmap; [apply _|apply same_heap_load]. Qed.
Lemma same_heap_local_address p : within same_heap (local_address p).
Proof. apply within_bind; [apply _|apply same_heap_load|intros pre]. apply within_fmap; [apply _|apply same_heap_load]. Qed.
Lemma same_heap_remote_address p : within same_heap (remote_address p).
Proof. apply within_bind; [apply _|apply same_heap_load|intros pre]. apply within_fmap; [apply _|apply same_heap_load]. Qed.
End Lemmas.

Create HintDb taps.
#[export] Hint Resolve same_heap_on_net same_heap_load same_heap_deref same_heap_preferences_of
  same_heap_local_address same_heap_remote_address spares_heap : taps.

(** Split a run that leaves the heap as it is. *)
Ltac same_heap :=
  repeat first
    [ progress intros
    | solve [auto with taps]
    | apply within_ret; apply _
    | apply within_fmap; [apply _|]
    | apply within_bind; [apply _| |]
    | progress case_match ].

Section Protocols.
Context `{Network} `{!SelectorSpares}.
Abbreviation TH := (Heap (protocol Sel)).
Abbreviation TW := (World (protocol Sel) Net).
Implicit Types (h : TH) (o : objects) (w : TW) (v : View (protocol Sel)).

Lemma same_heap_NewListener (proto : protocol Sel) c : within same_heap (NewListener (N := Net) proto c).
Proof.
  destruct proto as [|q|q]; simpl; unfold tcp_NewListener, iquic_NewListener, squic_NewListener,
    tcp_Satisfy, iquic_Satisfy, squic_Satisfy; same_heap.
Qed.

Lemma same_heap_Initiate (proto : protocol Sel) c : within same_heap (Protocol_Initiate (N := Net) proto c).
Proof.
  destruct proto as [|q|q]; simpl; unfold tcp_Initiate, iquic_Initiate, squic_Initiate,
    tcp_Satisfy, iquic_Satisfy, squic_Satisfy; same_heap.
Qed.

(** The preconnection of what a protocol returns is the one it was given. *)
Lemma NewListener_preconnection (proto : protocol Sel) c w l e w' :
  NewListener proto c w = (Ok (Some l, e), w') →
  listener_preconnection l = Some c ∨ listener_preconnection l = None.
Proof.
  destruct proto as [|q|q]; simpl; intros (a & -> & R)%wrap_inv.
  - right. unfold tcp_NewListener in R. apply bind_inv in R as ([? [err|]] & w1 & _ & R); [done|].
    apply bind_inv in R as (ad & w2 & _ & R). apply bind_inv in R as ([? err] & w3 & _ & R).
    by apply ret_inv in R as [[= -> _] _].
  - left. unfold iquic_NewListener in R. apply bind_inv in R as ([? [err|]] & w1 & _ & R); [done|].
    apply bind_inv in R as (ad & w2 & _ & R). apply bind_inv in R as ([? err] & w3 & _ & R).
    by apply ret_inv in R as [[= -> _] _].
  - left. unfold squic_NewListener in R. apply bind_inv in R as ([? [err|]] & w1 & _ & R); [done|].
    apply bind_inv in R as (ad & w2 & _ & R). apply bind_inv in R as ([? [err|]] & w3 & _ & R); [done|].
    apply bind_inv in R as (pre & w4 & _ & R). apply bind_inv in R as ([err|] & w5 & _ & R); [done|].
    apply bind_inv in R as ([? err] & w6 & _ & R). by apply ret_inv in R as [[= -> _] _].
Qed.

Lemma Initiate_preconnection (proto : protocol Sel) c w x e w' :
  Protocol_Initiate proto c w = (Ok (Some x, e), w') → Connection_Preconnection x = Some c.
Proof.
  destruct proto as [|q|q]; simpl; intros (a & -> & R)%wrap_inv.
  - unfold tcp_Initiate in R. apply bind_inv in R as ([? [err|]] & w1 & _ & R); [done|].
    apply bind_inv in R as (ad & w2 & _ & R). apply bind_inv in R as ([? err] & w3 & _ & R).
    by apply ret_inv in R as [[= -> _] _].
  - unfold iquic_Initiate in R. apply bind_inv in R as (ad & w1 & _ & R).
    apply bind_inv in R as ([? [err|]] & w2 & _ & R); [done|].
    apply bind_inv in R as (ss & w3 & _ & R). apply bind_inv in R as ([? err] & w4 & _ & R).
    by apply ret_inv in R as [[= -> _] _].
  - unfold squic_Initiate in R. apply bind_inv in R as (ad & w1 & _ & R).
    apply bind_inv in R as ([? [err|]] & w2 & _ & R); [done|].
    apply bind_inv in R as (pre & w3 & _ & R). apply bind_inv in R as ([err|] & w4 & _ & R); [done|].
    apply bind_inv in R as ([? [err|]] & w5 & _ & R); [done|].
    apply bind_inv in R as (ss & w6 & _ & R). apply bind_inv in R as ([? err] & w7 & _ & R).
    by apply ret_inv in R as [[= -> _] _].
Qed.

Lemma fresh_apart {C} (m : gmap loc C) (s : gset loc) p :
  (∀ l, l ∈ s → is_Some (m !! l)) → fresh_ptr m p → opt_set p ## s.
Proof.
  intros Hs Hp l Hl Hin. destruct p as [l0|]; [|set_solver]. simpl in Hl.
  assert (l = l0) as -> by set_solver. destruct (Hs l0 Hin) as [c Hc]. simpl in Hp. by rewrite Hp in Hc.
Qed.

(** A copy, then a call on it. *)
Lemma sound_hold {A} (f : A → handle) (m : loc → GoM TW (option A * error)) p v s :
  sound s → view (heap (world s)) p = Some v → (∀ c, within same_heap (m c)) →
  (∀ c w a e w', m c w = (Ok (Some a, e), w') →
    handle_preconnection (f a) = Some c ∨ handle_preconnection (f a) = None) →
  sound (hold f v (on_heap (Preconnection_Copy (Some p)) ≫= m) s).
Proof.
  intros Hs Hv Hm Hf.
  destruct (on_heap_Copy _ _ _ Hv) as (c & h' & pre & R & X & Hc & Hpre & (F1 & F2 & F3 & F4) & V).
  unfold hold, on_world. rewrite (bind_ok _ _ _ _ _ R).
  specialize (Hm c ((world s) <| heap := h' |>)). specialize (Hf c ((world s) <| heap := h' |>)).
  destruct (m c _) as [r w'] eqn:Rm. unfold same_heap in Hm. simpl in Hm.
  assert (sound (mk_program w' (own s) (handles s))) as Hs'.
  { apply sound_extends; [done|]. by rewrite Hm. }
  destruct r as [[[a|] e]| | |]; try exact Hs'. specialize (Hf a e w' eq_refl).
  pose proof Hs as ((O1 & O2 & O3 & O4) & Hh & _). destruct Hs' as (Ho' & Hh' & Hd').
  split_and!; [done|apply Forall_app; split; [done|]; apply Forall_singleton|]; simpl in *.
  - intros c' Hc'. destruct Hf as [Hf|Hf]; [|by rewrite Hf in Hc']. rewrite Hf in Hc'. injection Hc' as <-.
    rewrite Hm. split; [|exists pre; split; [done|]; split].
    + intros Hin. destruct (O4 c Hin) as (pre0 & Hp & _). by rewrite Hp in Hc.
    + split_and!; by eapply fresh_apart.
    + exists (v_remote v). split; [by destruct v|by left].
  - assert (∀ j x c', handles s !! j = Some x → handle_preconnection x.1 = Some c' →
      handle_preconnection (f a) = Some c' → False) as Hne.
    { intros j x c' Hj Hx Hx'. destruct Hf as [Hf|Hf]; [|by rewrite Hf in Hx'].
      rewrite Hf in Hx'. injection Hx' as <-. apply (Forall_lookup_1 _ _ _ _ Hh) in Hj.
      destruct (Hj c Hx) as (_ & pre0 & Hp & _). by rewrite Hp in Hc. }
    intros j k x y c' Hj Hk Hx Hy.
    apply lookup_app_Some in Hj as [Hj|[Gj Hj]], Hk as [Hk|[Gk Hk]].
    + by eapply Hd'.
    + apply list_lookup_singleton_Some in Hk as [_ <-]. by destruct (Hne j x c').
    + apply list_lookup_singleton_Some in Hj as [_ <-]. by destruct (Hne k y c').
    + apply list_lookup_singleton_Some in Hj as [Ej _], Hk as [Ek _]. lia.
Qed.

(** *** Accept

    It changes the heap by naming the peer in the listener's preconnection. *)
Definition names_peer (p : option loc) w w' : Prop :=
  same_heap w w' ∨ ∃ addr w1, same_heap w w1 ∧ heap w' = heap (set_remote p addr w1).2.

Lemma names_peer_then {A B} p (m : GoM TW A) (f : A → GoM TW B) w w1 :
  same_heap w w1 → within same_heap m → (∀ a w', same_heap w w' → names_peer p w (f a w').2) →
  names_peer p w ((m ≫= f) w1).2.
Proof.
  unfold mbind, GoM_bind. intros Hw Hm Hf. specialize (Hm w1).
  destruct (m w1) as [[a| | |] w2]; [apply Hf|left..]; by etrans.
Qed.

Lemma names_peer_set {B} p addr (f : unit → GoM TW B) w w1 :
  same_heap w w1 → (∀ u, within same_heap (f u)) → names_peer p w ((set_remote p addr ≫= f) w1).2.
Proof.
  intros Hw Hf. right. exists addr, w1. split; [done|]. unfold mbind, GoM_bind at 1.
  destruct (set_remote p addr w1) as [[u| | |] w2]; [|done..]. specialize (Hf u w2). by destruct (f u w2).
Qed.

Lemma names_peer_same {A} p (m : GoM TW A) w w' : within same_heap m → same_heap w w' → names_peer p w (m w').2.
Proof. intros Hm Hw. left. etrans; [exact Hw|apply Hm]. Qed.

Lemma Accept_names_peer l w : names_peer (listener_preconnection l) w (Listener_Accept l w).2.
Proof.
  assert (same_heap w w) as Hw by done.
  destruct l as [[p [nl|]]|[p [ql|]]|[p [ql|]]]; simpl; try (by left).
  all: unfold fmap, GoM_fmap, tcp_Accept, iquic_Accept, squic_Accept; simpl; rewrite ?bind_assoc.
  all: apply names_peer_then; [done|apply same_heap_on_net|intros [ss err] w1 H1; rewrite ?bind_assoc].
  2-3: destruct err as [err|]; [by apply names_peer_same; [same_heap|]|]; rewrite ?bind_assoc.
  all: apply names_peer_then; [done|apply same_heap_deref|intros c w2 H2; rewrite ?bind_assoc].
  all: apply names_peer_set; [done|]; same_heap.
Qed.

(** Naming a peer, as a change of the heap. *)
Lemma set_remote_heap p addr w :
  let h := heap w in let e := fresh (dom (endpoints h)) in
  let h1 := h <| endpoints := <[e := mkEndpoint addr None]> (endpoints h) |> in
  heap (set_remote p addr w).2 =
  match p ≫= λ c, preconnections h !! c with
  | Some pre => h1 <| preconnections := <[default e p := pre <| RemoteEndpoint := Some e |>]> (preconnections h) |>
  | None => h1
  end.
Proof.
  unfold set_remote, on_heap, zoom, alloc, load, store, mbind, GoM_bind. simpl.
  destruct p as [c|]; [|done]. simpl. destruct (preconnections (heap w) !! c) as [pre|] eqn:E; [|done].
  simpl. by rewrite E.
Qed.

Lemma view_named h c pre e ep r v :
  preconnections h !! c = Some pre → view h c = Some (v <| v_remote := r |>) →
  endpoints h !! e = Some ep →
  view (h <| preconnections := <[c := pre <| RemoteEndpoint := Some e |>]> (preconnections h) |>) c
  = Some (v <| v_remote := Some ep |>).
Proof.
  intros Hpre (pre0 & Hpre0 & Vl & _ & Vp & Vm & E)%view_inv He. rewrite Hpre in Hpre0. injection Hpre0 as <-.
  etrans; [eapply (view_intro _ _ (pre <| RemoteEndpoint := Some e |>)); [apply lookup_insert_eq|exact Vl| |exact Vp|exact Vm]|].
  - simpl. by rewrite He.
  - destruct v. simpl in *. injection E as -> -> -> -> ->. done.
Qed.

Lemma sound_Accept s k l v w' :
  sound s → handles s !! k = Some (Listening l, v) → names_peer (listener_preconnection l) (world s) w' →
  sound (mk_program w' (own s) (handles s)).
Proof.
  intros Hs Hk [Hw|(addr & w1 & Hw1 & Hw)].
  { apply sound_extends; [done|]. by rewrite Hw. }
  rewrite set_remote_heap, Hw1 in Hw. set (h := heap (world s)) in *.
  set (e := fresh (dom (endpoints h))) in *. set (h1 := h <| endpoints := _ |>) in *.
  assert (extends h h1) as X by apply extends_alloc_endpoints.
  pose proof (sound_extends s (mkWorld h1 (net w')) Hs X) as Hs1.
  destruct (listener_preconnection l) as [c|] eqn:Hc; simpl in Hw; [|by destruct w'; simpl in *; subst].
  pose proof Hs1 as (Ho1 & Hh1 & Hd). pose proof (Forall_lookup_1 _ _ _ _ Hh1 Hk c Hc) as (Hn & pre & Hpre & A & r & Hv & _).
  change (preconnections h !! c = Some pre) in Hpre. rewrite Hpre in Hw. simpl in Hw.
  assert (frame {[c]} h1 (heap w') (own s) (own s)) as F.
  { rewrite Hw. split; simpl; try apply kept_same; try apply fresh_in_same. apply kept_insert. set_solver. }
  split_and!.
  - simpl. rewrite Hw. destruct Ho1 as (O1 & O2 & O3 & O4). split_and!; [done..|].
    intros p Hp. simpl. rewrite lookup_insert_ne; [by apply O4|]. by intros ->.
  - simpl. apply Forall_lookup_2. intros j x Hj. destruct (decide (j = k)) as [->|Hne].
    + rewrite Hk in Hj. injection Hj as <-. intros c' Hc'. simpl in Hc'. rewrite Hc in Hc'. injection Hc' as <-.
      assert (e ∉ own_endpoints (own s)) as He.
      { intros Hin. destruct (proj1 (proj1 Hs) e Hin) as [d Hd']. pose proof (alloc_fresh endpoints h) as Hf.
        change (endpoints h !! e = Some d) in Hd'. fold e in Hf. by rewrite Hf in Hd'. }
      destruct A as (A1 & A2 & A3 & A4). split; [done|].
      exists (pre <| RemoteEndpoint := Some e |>). split; [simpl; rewrite Hw; apply lookup_insert_eq|].
      split; [split_and!; simpl; [done|set_solver|done..]|].
      exists (Some (mkEndpoint addr None)). split; [|right; by exists l, addr].
      rewrite Hw. apply (view_named h1 c pre e _ r v); [exact Hpre|exact Hv|]. apply lookup_insert_eq.
    + eapply retains_frame; [exact F|exact (Forall_lookup_1 _ _ _ _ Hh1 Hj)|].
      intros c' Hc' ->%elem_of_singleton. apply Hne. by eapply Hd.
  - exact Hd.
Qed.

(** *** Every call *)
Lemma hold_ext {A} (f : A → handle) v (m m' : GoM TW (option A * error)) s :
  m (world s) = m' (world s) → hold f v m s = hold f v m' s.
Proof. intros E. unfold hold, on_world. by rewrite E. Qed.

Lemma hold_none {A} (f : A → handle) v (m : GoM TW (option A * error)) s e :
  m (world s) = (Ok (None, e), world s) → hold f v m s = s.
Proof. intros E. unfold hold, on_world. rewrite E. by destruct s. Qed.

Lemma sound_on_world {A} (m : GoM TW A) s : sound s → within same_heap m → sound (on_world m s).2.
Proof.
  intros Hs Hm. unfold on_world. specialize (Hm (world s)). destruct (m (world s)) as [r w']. simpl in *.
  apply sound_extends; [done|]. by rewrite Hm.
Qed.

Lemma same_heap_SetPreferences p cps : within same_heap (SetPreferences (N := Net) (Sel := Sel) p cps).
Proof.
  unfold SetPreferences. same_heap. apply spares_heap.
Qed.

Lemma sound_invoke c s : sound s → sound (invoke c s).
Proof.
  intros Hs. destruct c as [e|cp|m|pre|l e|l cp|l m|l pre|p|p|p|k|p cps].
  - by apply sound_NewEndpoint.
  - by apply sound_NewConnectionPreferences.
  - by apply sound_NewTable.
  - simpl. case_decide; [by apply sound_NewPreconnection|done].
  - simpl. case_decide; [by apply sound_SetEndpoint|done].
  - simpl. case_decide; [by apply sound_SetConnectionPreferences|done].
  - simpl. case_decide; [by apply sound_SetTable|done].
  - simpl. case_decide as Hd; [destruct Hd; by apply sound_SetPreconnection|done].
  - by apply sound_Copy.
  - cbn [invoke]. case_decide as Hp; [|done]. destruct (own_view _ _ _ (proj1 Hs) Hp) as [v Hv]. rewrite Hv.
    pose proof (Listen_run (world s) p v Hv) as R.
    destruct (v_local v) as [ep|]; [|by erewrite hold_none].
    destruct (Protocol ep) as [proto|]; [|by erewrite hold_none].
    rewrite (hold_ext _ _ _ _ _ R). apply sound_hold; [done..|apply same_heap_NewListener|].
    intros c w a e w' Hr. by eapply NewListener_preconnection.
  - cbn [invoke]. case_decide as Hp; [|done]. destruct (own_view _ _ _ (proj1 Hs) Hp) as [v Hv]. rewrite Hv.
    pose proof (Initiate_run (world s) p v Hv) as R.
    destruct (v_remote v) as [ep|]; [|by erewrite hold_none].
    destruct (Protocol ep) as [proto|]; [|by erewrite hold_none].
    rewrite (hold_ext _ _ _ _ _ R). apply sound_hold; [done..|apply same_heap_Initiate|].
    intros c w a e w' Hr. left. by eapply Initiate_preconnection.
  - simpl. destruct (handles s !! k) as [[[l|x] v]|] eqn:Hk; [|done..].
    unfold on_world. pose proof (Accept_names_peer l (world s)) as Hn.
    destruct (Listener_Accept l (world s)) as [r w']. by eapply sound_Accept.
  - simpl. case_decide; [|done]. apply sound_on_world; [done|]. apply same_heap_SetPreferences.
Qed.

Lemma sound_after cs s : sound s → sound (foldl (λ s c, invoke c s) s cs).
Proof. revert s. induction cs as [|c cs IH]; intros s Hs; [done|]. apply IH, sound_invoke, Hs. Qed.

Lemma sound_ran cs n : sound (ran cs n).
Proof.
  apply sound_after. split_and!; [split_and!; set_solver|by apply Forall_nil|].
  intros j k x y c Hj. simpl in Hj. by rewrite lookup_nil in Hj.
Qed.

(** Handles stay. *)
Lemma handles_invoke c s : handles s `prefix_of` handles (invoke c s).
Proof.
  assert (∀ add (m : GoM TH loc), handles (make add m s) = handles s) as Hmake.
  { intros add m. unfold make, on_world. destruct (on_heap m (world s)) as [[] ?]; done. }
  assert (∀ {A} (m : GoM TW A), handles (on_world m s).2 = handles s) as Hon.
  { intros A m. unfold on_world. by destruct (m (world s)). }
  assert (∀ {A} (f : A → handle) v m, handles s `prefix_of` handles (hold f v m s)) as Hhold.
  { intros A f v m. unfold hold, on_world. destruct (m (world s)) as [[[[a|] e]| | |] w']; try done.
    by eexists. }
  destruct c; cbn [invoke]; repeat case_decide; unfold write; rewrite ?Hmake, ?Hon; try done.
  - unfold on_world. destruct (on_heap _ (world s)) as [[c| | |] w']; try done. simpl.
    by destruct (preconnections (heap w') !! c).
  - destruct (view _ _); [apply Hhold|by rewrite Hon].
  - destruct (view _ _); [apply Hhold|by rewrite Hon].
  - destruct (handles s !! k) as [[[l|x] v]|]; [by rewrite Hon|done..].
Qed.

Lemma handles_after cs s : handles s `prefix_of` handles (foldl (λ s c, invoke c s) s cs).
Proof.
  revert s. induction cs as [|c cs IH]; intros s; [done|]. etrans; [apply (handles_invoke c)|apply IH].
Qed.
End Protocols.

(** ** Properties *)
Section Claims.
Context `{Network} `{!SelectorSpares}.

(** C19: What a program passed to Listen or Initiate stays as it was, whatever
    calls it makes afterwards: the preconnection of the listener or the connection
    keeps the value that the program's preconnection had at the call. The one
    exception is Accept, which names a peer as the remote endpoint of the
    listener's preconnection. *)
Theorem handles_keep cs cs' n p v c :
  let s := ran cs n in let h' := heap (world (ran (cs ++ cs') n)) in
  p ∈ own_preconnections (own s) → view (heap (world s)) p = Some v →
  (∀ l e w', Listen (Some p) (world s) = (Ok (Some l, e), w') → listener_preconnection l = Some c →
     head cs' = Some (CallListen p) →
     ∃ r, view h' c = Some (v <| v_remote := r |>) ∧
       (r = v_remote v ∨ ∃ addr, r = Some (mkEndpoint addr None))) ∧
  (∀ x e w', Initiate (Some p) (world s) = (Ok (Some x, e), w') → Connection_Preconnection x = Some c →
     head cs' = Some (CallInitiate p) → view h' c = Some v).
Proof.
  intros s h' Hp Hv. unfold h', ran. rewrite foldl_app. fold (ran cs n). fold s.
  assert (∀ call x, invoke call s = mk_program (world (invoke call s)) (own s) (handles s ++ [(x, v)]) →
    handle_preconnection x = Some c → head cs' = Some call →
    ∃ r, view (heap (world (foldl (λ s c, invoke c s) s cs'))) c = Some (v <| v_remote := r |>) ∧
      (r = v_remote v ∨ ∃ l addr, x = Listening l ∧ r = Some (mkEndpoint addr None))) as Hkeep.
  { intros call x E Hc Hcs. destruct cs' as [|call' cs']; [done|]. injection Hcs as ->. simpl.
    pose proof (sound_after cs' _ (sound_invoke call s (sound_ran cs n))) as (_ & Hh & _).
    pose proof (handles_after cs' (invoke call s)) as [hs Ehs].
    assert (handles (foldl (λ s c, invoke c s) (invoke call s) cs') !! length (handles s) = Some (x, v)) as Hk.
    { rewrite Ehs, E. simpl. rewrite <-app_assoc. by apply list_lookup_middle. }
    destruct (Forall_lookup_1 _ _ _ _ Hh Hk c Hc) as (_ & pre & _ & _ & r & Hr & Hx). by exists r. }
  split.
  - intros l e w' R Hc Hcs. destruct (Hkeep (CallListen p) (Listening l)) as (r & Hr & Hx); [|done..|].
    + cbn [invoke]. rewrite decide_True, Hv by done. unfold hold, on_world. by rewrite R.
    + exists r. split; [done|]. destruct Hx as [|(l' & addr & _ & ->)]; eauto.
  - intros x e w' R Hc Hcs. destruct (Hkeep (CallInitiate p) (Connected x)) as (r & Hr & Hx); [|done..|].
    + cbn [invoke]. rewrite decide_True, Hv by done. unfold hold, on_world. by rewrite R.
    + destruct Hx as [->|(l' & addr & [=] & _)]. rewrite Hr. by destruct v.
Qed.
End Claims.

(** ** Witnesses *)
Module SampleProgram.
#[global] Existing Instance SampleNet.network.
#[global] Instance spares : SelectorSpares.
Proof. by intros []. Qed.

Definition ep (addr : string) : Endpoint (protocol Sel) :=
  mkEndpoint addr (Some (InetQuicProtocol SampleNet.q)).

(** A preconnection, whose objects are all the first of their kind. *)
Definition setup : list call := [
  NewEndpoint (ep "192.0.2.1:1337");
  NewConnectionPreferences (mkConnectionPreferences 0 Default Handover false);
  NewTable {["eth0" := Prefer]};
  NewPreconnection (mkPreconnection (Some 1%positive) None
    (mkTransportPreferences Require_ Require_ Require_ (Some 1%positive) dynamic)
    NewDisabledSecurityParameters (Some 1%positive))
].
(** Listen, then change everything, then accept. *)
Definition use : list call := [
  CallListen 1%positive;
  SetEndpoint 1%positive (ep "192.0.2.9:9");
  SetTable 1%positive ∅;
  CallAccept 0;
  CallCopy 1%positive
].
Definition net : Net := ["10.0.0.1:1"; "10.0.0.2:2"]%string.

(** What the program passed to Listen. *)
Definition value : View (protocol Sel) :=
  mkView (Some (ep "192.0.2.1:1337")) None Require_ Require_ Require_ {["eth0" := Prefer]} dynamic
    NewDisabledSecurityParameters (Some (mkConnectionPreferences 0 Default Handover false)).
End SampleProgram.

Lemma handles_keep_witness :
  ∃ r, view (heap (world (ran (SampleProgram.setup ++ SampleProgram.use) SampleProgram.net))) 2%positive
       = Some (SampleProgram.value <| v_remote := r |>) ∧
    (r = None ∨ ∃ addr, r = Some (mkEndpoint addr None)).
Proof.
  set (s := ran SampleProgram.setup SampleProgram.net).
  assert (1%positive ∈ own_preconnections (own s)) as Hp.
  { apply (bool_decide_unpack _). vm_compute. reflexivity. }
  assert (view (heap (world s)) 1%positive = Some SampleProgram.value) as Hv by (vm_compute; reflexivity).
  set (l := InetL (mk_iquic_listener (Some 2%positive) (Some (tt : @QListener SampleNet.network)))).
  assert ((Listen (Some 1%positive) (world s)).1 = Ok (Some l, None)) as R by (vm_compute; reflexivity).
  refine (proj1 (handles_keep SampleProgram.setup SampleProgram.use SampleProgram.net 1%positive
    SampleProgram.value 2%positive Hp Hv) l None (Listen (Some 1%positive) (world s)).2 _ eq_refl eq_refl).
  apply injective_projections; [exact R|reflexivity].
Defined.
