(* ===== verification/Threads.v ===== *)
(** * Requests that run at the same time

    net/rpc runs every request in a goroutine of its own. A request is a tree of
    actions, each of which happens at once; the goroutines take turns, one action
    at a time, in any order. This file has the semantics and what a mutex
    guarantees: requests that hold it from their first action to their last have
    the effect of running one after the other. *)

From S2P Require Import Prelude.
From stdpp Require Export relations.

(** ** Programs and their interleavings *)

(** What an action does to the one map of the state that nothing guards. *)
Inductive access := NoMap | Reads | Writes.
#[export] Instance access_eq_dec : EqDecision access.
Proof. solve_decision. Defined.

Section Programs.
Context {S A : Type}.

(** What is left of a goroutine: a result, or an action and what follows it. *)
Inductive prog : Type :=
  | Done (a : A)
  | Act {B : Type} (x : access) (m : GoM S B) (k : B → prog).

(** The goroutine running alone. *)
Fixpoint run (p : prog) : GoM S A :=
  match p with
  | Done a => mret a
  | Act _ m k => m ≫= λ b, run (k b)
  end.

(** A goroutine's next action; a finished one has none. *)
Definition advance (p : prog) : GoM S prog :=
  match p with
  | Done _ => deadlock
  | Act _ m k => m ≫= λ b, mret (k b)
  end.

Fixpoint andthen (p : prog) (k : A → prog) : prog :=
  match p with
  | Done a => k a
  | Act x m f => Act x m (λ b, andthen (f b) k)
  end.

(** All goroutines with the state they share. One of them acts; an action that
    blocks is not a step, and one that panics or exits ends the process. *)
Inductive step : list prog * S → list prog * S → Prop :=
  | step_act ts s i p p' s' :
      ts !! i = Some p → advance p s = (Ok p', s') → step (ts, s) (<[i := p']> ts, s').

Lemma run_advance p s p' s' : advance p s = (Ok p', s') → run p s = run p' s'.
Proof.
  destruct p as [a|B w m k]; [done|]. simpl. intros (b & s1 & R & [-> ->]%ret_inv)%bind_inv.
  by rewrite (bind_ok _ _ _ _ _ R).
Qed.

Lemma run_andthen p k s : run (andthen p k) s = (run p ≫= λ a, run (k a)) s.
Proof.
  revert s. induction p as [a|B w m f IH]; intros s; [done|]. simpl. rewrite bind_assoc.
  unfold mbind, GoM_bind. destruct (m s) as [[b| | |] s']; [apply IH|done..].
Qed.

(** A goroutine's action is smaller than the goroutine. *)
Definition smaller (p' p : prog) : Prop := ∃ s s', advance p s = (Ok p', s').

Lemma smaller_wf : well_founded smaller.
Proof.
  intros p. induction p as [a|B w m k IH]; constructor; intros p' (s & s' & R); [done|].
  simpl in R. apply bind_inv in R as (b & s1 & _ & [-> _]%ret_inv). apply IH.
Qed.

(** No order of actions goes on forever. *)
Lemma step_wf : well_founded (flip step).
Proof.
  assert (∀ ts : list prog, Acc (λ ts' ts, ∃ i p p', ts !! i = Some p ∧ smaller p' p ∧ ts' = <[i := p']> ts) ts)
    as Hts.
  { induction ts as [|p ts IH]; [by constructor; intros ? (? & ? & ? & ? & _)|].
    revert ts IH. induction (smaller_wf p) as [p _ IHp]. intros ts Hts.
    induction Hts as [ts Hts IHts]. constructor. intros ts' ([|i] & q & q' & Hq & Hs & ->).
    - simpl in *. simplify_eq. apply IHp; [done|by constructor].
    - simpl in *. apply IHts. eauto 10. }
  intros [ts s]. revert s. induction (Hts ts) as [ts _ IH]. intros s.
  constructor. intros [ts' s'] Hstep. inversion Hstep as [? ? i p p' ? Hp R]; subst.
  apply IH. exists i, p, p'. split_and!; [done| |done]. by exists s, s'.
Qed.

(** The goroutines act in the given order. *)
Fixpoint follow (order : list nat) (c : list prog * S) : option (list prog * S) :=
  match order with
  | [] => Some c
  | i :: order =>
      p ← c.1 !! i;
      match advance p c.2 with
      | (Ok p', s') => follow order (<[i := p']> c.1, s')
      | _ => None
      end
  end.

Lemma follow_steps order c c' : follow order c = Some c' → rtc step c c'.
Proof.
  revert c. induction order as [|i order IH]; intros [ts s]; simpl; [by intros [= <-]|].
  destruct (ts !! i) as [p|] eqn:Hp; [|done]. simpl.
  destruct (advance p s) as [[p'| | |] s'] eqn:R; [|done..]. intros Hf.
  eapply rtc_l; [by eapply step_act|by apply IH].
Qed.
End Programs.
Arguments prog : clear implicits.

(** ** What a mutex promises *)
Class Mutex (S : Type) := {
  acquire : GoM S unit;
  release : GoM S unit;
  held : S → bool;
  acquire_spec s :
    if held s then acquire s = (Deadlocks, s) else ∃ s', acquire s = (Ok tt, s') ∧ held s' = true;
  release_spec s : held s = true → ∃ s', release s = (Ok tt, s') ∧ held s' = false
}.

Section Serial.
Context {S A : Type} `{!Mutex S}.
Abbreviation prog := (prog S A).
Implicit Types (ts bs : list prog) (s : S).

Definition releasing (b : prog) : prog := andthen b (λ a, Act NoMap release (λ _, Done a)).

(** [acquire; defer release; b] *)
Definition critical (b : prog) : prog := Act NoMap acquire (λ _, releasing b).

Lemma run_critical b s : run (critical b) s = (acquire;; a ← run b; release;; mret a) s.
Proof. simpl. apply bind_ext. intros _ s1. exact (run_andthen b _ s1). Qed.

(** The actions of [b] leave the mutex alone. *)
Fixpoint quiet (b : prog) : Prop :=
  match b with
  | Done _ => True
  | Act _ m k => (∀ s, held s = true → held (m s).2 = true) ∧ ∀ x, quiet (k x)
  end.

(** The goroutines of [order] have run, one after the other, from [s] to [s'];
    [ts] has their results. *)
Inductive serial (bs ts : list prog) : list nat → S → S → Prop :=
  | serial_nil s : serial bs ts [] s s
  | serial_snoc order i b a s s1 s2 :
      serial bs ts order s s1 →
      bs !! i = Some b → ts !! i = Some (Done a) → run (critical b) s1 = (Ok a, s2) →
      serial bs ts (order ++ [i]) s s2.

Lemma releasing_unfinished b a : releasing b ≠ Done a.
Proof. by destruct b. Qed.

(** A goroutine in its critical section acts: it goes on there, or it releases
    the mutex and is done. *)
Lemma advance_releasing b s p' s' :
  quiet b → held s = true → advance (releasing b) s = (Ok p', s') →
  (held s' = true ∧ ∃ b', quiet b' ∧ p' = releasing b') ∨
  (held s' = false ∧ ∃ a, b = Done a ∧ p' = Done a).
Proof.
  intros Hq Hh. destruct b as [a|B w m k]; simpl; intros (x & s1 & R & [-> ->]%ret_inv)%bind_inv.
  - right. destruct (release_spec s Hh) as (s2 & R' & Hs2). rewrite R' in R. simplify_eq. eauto.
  - left. destruct Hq as [Hm Hk]. specialize (Hm s Hh). rewrite R in Hm. eauto.
Qed.

(** What is true of all interleavings of critical sections: those in [order] are
    done; the others wait, but for the one that holds the mutex, whose remaining
    actions have the effect it would have had on the state the last one left. *)
Inductive interleaved (bs : list prog) (s0 : S) : list prog * S → Prop :=
  | free_intro ts s order :
      held s = false → serial bs ts order s0 s → NoDup order →
      length ts = length bs →
      (∀ i, i ∉ order → ts !! i = critical <$> bs !! i) →
      interleaved bs s0 (ts, s)
  | busy_intro ts s order s1 i b b' :
      held s = true → serial bs ts order s0 s1 → NoDup order → i ∉ order →
      length ts = length bs →
      bs !! i = Some b → ts !! i = Some (releasing b') → quiet b' →
      run (critical b) s1 = run (releasing b') s →
      (∀ j, j ∉ order → j ≠ i → ts !! j = critical <$> bs !! j) →
      interleaved bs s0 (ts, s).

Lemma not_elem_of_one (i j : nat) : i ∉ [j] → i ≠ j.
Proof. set_solver. Qed.

(** Who is done stays as he is. *)
Lemma serial_insert bs ts order s s' i p :
  i ∉ order → serial bs ts order s s' → serial bs (<[i := p]> ts) order s s'.
Proof.
  intros Hi Hs. induction Hs as [s|order j b a s s1 s2 Hs IH Hb Ha R]; [constructor|].
  apply not_elem_of_app in Hi as [Hi Hj%not_elem_of_one].
  econstructor; [by apply IH|done| |done]. by rewrite list_lookup_insert_ne.
Qed.

Lemma serial_done bs ts order s s' i :
  serial bs ts order s s' → i ∈ order → ∃ a, ts !! i = Some (Done a).
Proof.
  induction 1 as [s|order j b a s s1 s2 _ IH _ Ha _]; [by intros ?%elem_of_nil|].
  intros [?| ->%list_elem_of_singleton]%elem_of_app; eauto.
Qed.

Lemma interleaved_step bs s0 c c' :
  Forall quiet bs → interleaved bs s0 c → step c c' → interleaved bs s0 c'.
Proof.
  intros Hq Hc Hstep. destruct Hstep as [ts s i p p' s' Hp R].
  inversion Hc as [? ? order Hh Hs Hnd Hl Hrest|? ? order s1 j b b' Hh Hs Hnd Hj Hl Hb Hpj Hqb Hrun Hrest]; subst.
  - destruct (decide (i ∈ order)) as [Hi|Hi].
    { destruct (serial_done _ _ _ _ _ _ Hs Hi) as [a Ha]. rewrite Ha in Hp. by simplify_eq. }
    rewrite (Hrest i Hi) in Hp. apply fmap_Some in Hp as (b & Hb & ->).
    pose proof (acquire_spec s) as Ha. rewrite Hh in Ha. destruct Ha as (s1 & Ha & Hs1).
    pose proof (run_advance _ _ _ _ R) as Hrun.
    simpl in R. rewrite (bind_ok _ _ _ _ _ Ha) in R. apply ret_inv in R as [-> ->].
    eapply (busy_intro bs s0 _ _ order s i b b); try done.
    + by apply serial_insert.
    + by rewrite length_insert.
    + rewrite list_lookup_insert_eq; [done|]. rewrite Hl. by eapply lookup_lt_Some.
    + by eapply (Forall_lookup_1 quiet bs).
    + intros k Hk Hne. rewrite list_lookup_insert_ne by done. by apply Hrest.
  - destruct (decide (i = j)) as [->|Hij].
    + rewrite Hpj in Hp. injection Hp as <-. pose proof (run_advance _ _ _ _ R) as Hrun'.
      assert (j < length ts) as Hlt by (by eapply lookup_lt_Some).
      destruct (advance_releasing _ _ _ _ Hqb Hh R) as [(Hh' & b2 & Hq2 & ->)|(Hh' & a & -> & ->)].
      * eapply (busy_intro bs s0 _ _ order s1 j b b2); try done.
        -- by apply serial_insert.
        -- by rewrite length_insert.
        -- by rewrite list_lookup_insert_eq.
        -- by rewrite Hrun, Hrun'.
        -- intros k Hk Hne. rewrite list_lookup_insert_ne by done. by apply Hrest.
      * eapply (free_intro bs s0 _ _ (order ++ [j])); try done.
        -- eapply serial_snoc; [by apply serial_insert|done|by rewrite list_lookup_insert_eq|].
           by rewrite Hrun, Hrun'.
        -- apply NoDup_app. split_and!; [done| |apply NoDup_singleton].
           intros k Hk ->%list_elem_of_singleton. done.
        -- by rewrite length_insert.
        -- intros k [Hk Hne%not_elem_of_one]%not_elem_of_app.
           rewrite list_lookup_insert_ne by done. by apply Hrest.
    + destruct (decide (i ∈ order)) as [Hi|Hi].
      { destruct (serial_done _ _ _ _ _ _ Hs Hi) as [a Ha]. rewrite Ha in Hp. by simplify_eq. }
      rewrite (Hrest i Hi Hij) in Hp. apply fmap_Some in Hp as (b2 & Hb2 & ->).
      simpl in R. apply bind_inv in R as (u & s2 & Ra & _).
      pose proof (acquire_spec s) as Ha. rewrite Hh in Ha. by rewrite Ha in Ra.
Qed.

Lemma interleaved_start bs s : held s = false → interleaved bs s (critical <$> bs, s).
Proof.
  intros Hh. eapply (free_intro bs s _ _ []); [done|constructor|constructor|by rewrite length_fmap|].
  intros i _. by rewrite list_lookup_fmap.
Qed.

Lemma interleaved_reached bs s c :
  Forall quiet bs → held s = false → rtc step (critical <$> bs, s) c → interleaved bs s c.
Proof.
  intros Hq Hh Hsteps. pose proof (interleaved_start bs s Hh) as Hi.
  induction Hsteps as [|c1 c2 c3 H1 _ IH]; [done|]. apply IH. by eapply interleaved_step.
Qed.

(** When all are done, all have run. *)
Lemma interleaved_done bs s ts s' :
  interleaved bs s (ts, s') → (∀ i p, ts !! i = Some p → ∃ a, p = Done a) →
  ∃ order, order ≡ₚ seq 0 (length bs) ∧ serial bs ts order s s'.
Proof.
  intros Hi Hdone.
  inversion Hi as [? ? order Hh Hs Hnd Hl Hrest|? ? order s1 j b b' Hh Hs Hnd Hj Hl Hb Hp Hq Hrun Hrest];
    subst; [|by destruct (Hdone j _ Hp) as [a ?%releasing_unfinished]].
  exists order. split; [|done]. apply NoDup_Permutation; [done|apply NoDup_seq|].
  intros i. rewrite elem_of_seq. split.
  - intros Hin. destruct (serial_done _ _ _ _ _ _ Hs Hin) as [a Ha%lookup_lt_Some]. lia.
  - intros [_ Hlt]. destruct (decide (i ∈ order)) as [|Hn]; [done|].
    destruct (lookup_lt_is_Some_2 bs i Hlt) as [b Hb]. specialize (Hrest i Hn).
    rewrite Hb in Hrest. by destruct (Hdone i _ Hrest).
Qed.

(** The mutex is never left without a holder: somebody can act, or the holder
    is stuck in an action of its own. *)
Lemma interleaved_progress bs s ts s' :
  interleaved bs s (ts, s') →
  (∀ i p, ts !! i = Some p → ∃ a, p = Done a) ∨
  (∃ c, step (ts, s') c) ∨
  ∃ i b, ts !! i = Some (releasing b) ∧ held s' = true ∧
    ∀ p' s2, advance (releasing b) s' ≠ (Ok p', s2).
Proof.
  intros Hi.
  inversion Hi as [? ? order Hh Hs Hnd Hl Hrest|? ? order s1 j b b' Hh Hs Hnd Hj Hl Hb Hp Hq Hrun Hrest];
    subst.
  - destruct (decide (Forall (λ i, i ∈ order) (seq 0 (length ts)))) as [Hall|Hsome].
    + left. intros i p Hp. assert (i ∈ order) as Hin.
      { apply (Forall_lookup_1 _ _ i i Hall). apply lookup_seq. split; [done|].
        by eapply lookup_lt_Some. }
      destruct (serial_done _ _ _ _ _ _ Hs Hin) as [a Ha]. simplify_eq. eauto.
    + right. left. apply not_Forall_Exists in Hsome; [|intros ?; apply _].
      apply Exists_exists in Hsome as (i & [_ Hlt]%elem_of_seq & Hn). simpl in Hn.
      rewrite Hl in Hlt. destruct (lookup_lt_is_Some_2 bs i Hlt) as [b Hb].
      specialize (Hrest i Hn). rewrite Hb in Hrest.
      pose proof (acquire_spec s') as Ha. rewrite Hh in Ha. destruct Ha as (s2 & Ha & _).
      eexists. eapply step_act; [exact Hrest|]. simpl. by rewrite (bind_ok _ _ _ _ _ Ha).
  - right. destruct (advance (releasing b') s') as [[p'| | |] s2] eqn:R.
    + left. eexists. by eapply step_act.
    + right. exists j, b'. split_and!; [done..|]. congruence.
    + right. exists j, b'. split_and!; [done..|]. congruence.
    + right. exists j, b'. split_and!; [done..|]. congruence.
Qed.
End Serial.

(** ** Requests cut into actions *)
Section Requests.
Context {S A Q : Type} `{!Mutex S} (serve : Q → GoM S A).

(** [b] is the request [q] between its acquire and its release, in actions. *)
Definition cuts (q : Q) (b : prog S A) : Prop :=
  quiet b ∧ ∀ s a s', run (critical b) s = (Ok a, s') → serve q s = (Ok a, s').

Definition served (qs : list Q) (rs : list A) (i : nat) : option (Q * A) :=
  q ← qs !! i; a ← rs !! i; Some (q, a).

Lemma served_all qs rs : length rs = length qs → omap (served qs rs) (seq 0 (length qs)) = zip qs rs.
Proof.
  revert rs. induction qs as [|q qs IH]; intros [|a rs] Hl; simplify_eq/=; [done|].
  f_equal. rewrite <-(IH rs) by done. rewrite <-fmap_S_seq. clear.
  induction (seq 0 (length qs)) as [|i ns IH]; [done|]. simpl.
  change (served (q :: qs) (a :: rs) (Datatypes.S i)) with (served qs rs i).
  destruct (served qs rs i); [f_equal|]; exact IH.
Qed.

Lemma go_map_snoc qs q s rs s1 a s2 :
  go_map serve qs s = (Ok rs, s1) → serve q s1 = (Ok a, s2) →
  go_map serve (qs ++ [q]) s = (Ok (rs ++ [a]), s2).
Proof.
  revert s rs. induction qs as [|q' qs IH]; intros s rs.
  - intros [-> ->]%ret_inv R. cbn [app go_map]. rewrite (bind_ok _ _ _ _ _ R). done.
  - intros (x & s3 & R1 & R)%bind_inv. apply bind_inv in R as (ys & s4 & R2 & [-> ->]%ret_inv).
    intros R. cbn [app go_map]. rewrite (bind_ok _ _ _ _ _ R1).
    by rewrite (bind_ok _ _ _ _ _ (IH _ _ R2 R)).
Qed.

Lemma serial_served qs bs rs order s s' :
  Forall2 cuts qs bs → serial bs (Done <$> rs) order s s' →
  go_map serve (omap (served qs rs) order).*1 s = (Ok (omap (served qs rs) order).*2, s').
Proof.
  intros Hqs. induction 1 as [s|order i b a s s1 s2 _ IH Hb Ha R]; [done|].
  rewrite list_lookup_fmap in Ha. apply fmap_Some in Ha as (a' & Ha & [= <-]).
  destruct (Forall2_lookup_r _ _ _ _ _ Hqs Hb) as (q & Hq & _ & Hcut).
  rewrite omap_app. simpl. unfold served at 2 4. rewrite Hq, Ha. simpl. rewrite !fmap_app.
  by eapply go_map_snoc; [|apply Hcut].
Qed.

(** Requests that run at the same time have the results and the effect of the
    same requests one after the other, in some order. *)
Lemma serializable qs bs rs s s' :
  held s = false → Forall2 cuts qs bs → rtc step (critical <$> bs, s) (Done <$> rs, s') →
  ∃ l, l ≡ₚ zip qs rs ∧ go_map serve l.*1 s = (Ok l.*2, s').
Proof.
  intros Hh Hqs Hsteps.
  assert (Forall quiet bs) as Hq.
  { clear -Hqs. induction Hqs as [|q b qs bs [Hb _] _ IH]; by constructor. }
  pose proof (interleaved_reached _ _ _ Hq Hh Hsteps) as Hi.
  assert (length rs = length qs) as Hl.
  { rewrite (Forall2_length _ _ _ Hqs), <-(length_fmap (Done (S := S)) rs).
    by inversion Hi. }
  destruct (interleaved_done _ _ _ _ Hi) as (order & Hperm & Hs).
  { intros i p Hp. rewrite list_lookup_fmap in Hp. apply fmap_Some in Hp as (a & _ & ->). eauto. }
  exists (omap (served qs rs) order). split; [|by eapply serial_served].
  rewrite Hperm, <-(Forall2_length _ _ _ Hqs). by rewrite served_all.
Qed.
End Requests.
