(* ===== verification/Races.v ===== *)
(** * Maps that nothing guards

    Go gives no meaning to an access of a map that overlaps a write of the same map
    in another goroutine: its runtime ends the process when it notices, and goes on
    with a broken map when it does not. So such an access is no single action here.
    It begins and it ends, the state counts the accesses in between, and one that
    begins where it conflicts is a data race, at which the run ends. The runs that
    are left are those without a race, and what single actions do is what happens
    in them. *)

From S2P Require Import Prelude Threads.

(** ** Accesses with a beginning and an end *)
Section Races.
Context {S A : Type}.
Abbreviation prog := (prog S A).

(** The state with the accesses of the map that are under way. *)
Record raced := mk_raced { contents : S; readers : nat; writers : nat }.
#[export] Instance eta_raced : Eta raced := λ r, mk_raced (contents r) (readers r) (writers r).

Definition unraced (s : S) : raced := mk_raced s 0 0.

Definition on_contents {B} (m : GoM S B) : GoM raced B := zoom contents (λ s r, r <| contents := s |>) m.

Definition data_race : string := "fatal error: concurrent map access".

(** Whether an access conflicts with none that is under way. *)
Definition clear_for (x : access) (r : raced) : bool :=
  match x with
  | NoMap => true
  | Reads => bool_decide (writers r = 0)
  | Writes => bool_decide (writers r = 0 ∧ readers r = 0)
  end.

Definition begin_access (x : access) : GoM raced unit := λ r,
  if clear_for x r then
    (Ok tt, match x with
            | NoMap => r
            | Reads => r <| readers := Datatypes.S (readers r) |>
            | Writes => r <| writers := Datatypes.S (writers r) |>
            end)
  else (Exits data_race, r).

Definition end_access {B} (x : access) (m : GoM S B) : GoM raced B :=
  b ← on_contents m;
  modify (λ r, match x with
               | NoMap => r
               | Reads => r <| readers := pred (readers r) |>
               | Writes => r <| writers := pred (writers r) |>
               end);;
  mret b.

(** A program whose accesses take their time. *)
Fixpoint split (p : prog) : Threads.prog raced A :=
  match p with
  | Done a => Done a
  | Act NoMap m k => Act NoMap (on_contents m) (λ b, split (k b))
  | Act x m k => Act x (begin_access x) (λ _, Act x (end_access x m) (λ b, split (k b)))
  end.

(** Goroutines one of which is about to race. *)
Definition racing (c : list (Threads.prog raced A) * raced) : Prop :=
  ∃ i p, c.1 !! i = Some p ∧ (advance p c.2).1 = Exits data_race.

(** A program alone does not race. *)
Lemma run_split p s :
  (run (split p) (unraced s)).1 = (run p s).1 ∧
  ∀ a, (run p s).1 = Ok a → (run (split p) (unraced s)).2 = unraced (run p s).2.
Proof.
  revert s. induction p as [a|B x m k IH]; intros s; [done|].
  destruct x; simpl; unfold end_access, on_contents, zoom, begin_access, modify, mbind, GoM_bind; simpl;
    unfold mbind, GoM_bind; simpl; destruct (m s) as [[b| | |] s'] eqn:R; try done; apply IH.
Qed.

(** ** From single actions and back *)

(** How far a goroutine is with the program [p]: between two of its actions, or in
    the middle of an access. *)
Inductive stands : access → prog → Threads.prog raced A → Prop :=
  | stands_between p : stands NoMap p (split p)
  | stands_amid B x (m : GoM S B) k :
      x ≠ NoMap → stands x (Act x m k) (Act x (end_access x m) (λ b, split (k b))).

(** The accesses under way are those the state counts. *)
Definition under_way (x : access) (xs : list access) : nat := length (filter (λ y, y = x) xs).

Lemma under_way_insert y xs i x x' :
  xs !! i = Some x →
  under_way y (<[i:=x']> xs) + (if decide (x = y) then 1 else 0)
  = under_way y xs + (if decide (x' = y) then 1 else 0).
Proof.
  unfold under_way. revert i. induction xs as [|z xs IH]; intros [|i] Hi; simplify_eq/=; [|specialize (IH i Hi)];
    rewrite !filter_cons; repeat case_decide; simpl; lia.
Qed.

Record tracks (qs : list prog) (xs : list access) (c : list (Threads.prog raced A) * raced) : Prop := {
  tracks_length : length xs = length qs ∧ length c.1 = length qs;
  tracks_stands i x q p : xs !! i = Some x → qs !! i = Some q → c.1 !! i = Some p → stands x q p;
  tracks_readers : readers c.2 = under_way Reads xs;
  tracks_writers : writers c.2 = under_way Writes xs
}.

Lemma tracks_start qs s : tracks qs (replicate (length qs) NoMap) (split <$> qs, unraced s).
Proof.
  assert (∀ x n, x ≠ NoMap → under_way x (replicate n NoMap) = 0) as Hz.
  { intros x n Hx. unfold under_way. induction n as [|n IH]; [done|]. simpl. by rewrite filter_cons_False by congruence. }
  split; simpl; [by rewrite length_replicate, length_fmap| |by rewrite Hz..].
  intros i x q p [-> _]%lookup_replicate Hq. rewrite list_lookup_fmap, Hq. intros [= <-]. constructor.
Qed.

(** One goroutine has moved. *)
Lemma tracks_insert qs xs ts r i q q' x x' p p' r' :
  tracks qs xs (ts, r) → xs !! i = Some x → qs !! i = Some q → ts !! i = Some p →
  stands x' q' p' →
  (∀ y, y ≠ NoMap → (if decide (y = Reads) then readers r' else writers r') + (if decide (x = y) then 1 else 0)
     = (if decide (y = Reads) then readers r else writers r) + (if decide (x' = y) then 1 else 0)) →
  tracks (<[i:=q']> qs) (<[i:=x']> xs) (<[i:=p']> ts, r').
Proof.
  intros [[H1 H2] Hs Hr Hw] Hx Hq Hp Hst Hc. simpl in *. split; simpl.
  - by rewrite !length_insert.
  - intros j y qj pj. destruct (decide (j = i)) as [->|Hj].
    + rewrite !list_lookup_insert_eq by (by eapply lookup_lt_Some). by intros [= <-] [= <-] [= <-].
    + rewrite !list_lookup_insert_ne by done. apply Hs.
  - pose proof (under_way_insert Reads xs i x x' Hx). specialize (Hc Reads ltac:(done)). simpl in Hc. lia.
  - pose proof (under_way_insert Writes xs i x x' Hx). specialize (Hc Writes ltac:(done)). simpl in Hc. lia.
Qed.

(** What happens without a race happens in single actions: an access is one, at
    its end. *)
Lemma tracks_step qs xs c c' :
  tracks qs xs c → step c c' →
  ∃ qs' xs', tracks qs' xs' c' ∧ rtc step (qs, contents c.2) (qs', contents c'.2).
Proof.
  intros Ht Hstep. destruct Hstep as [ts r i p p' r' Hp R].
  destruct (tracks_length _ _ _ Ht) as [H1 H2]. simpl in H1, H2.
  destruct (lookup_lt_is_Some_2 qs i) as [q Hq]; [rewrite <-H2; by eapply lookup_lt_Some|].
  destruct (lookup_lt_is_Some_2 xs i) as [x Hx]; [rewrite H1; by eapply lookup_lt_Some|].
  pose proof (tracks_stands _ _ _ Ht i x q p Hx Hq Hp) as Hst.
  assert (∀ B x (m : GoM S B) k b s', q = Act x m k → m (contents r) = (Ok b, s') →
    step (qs, contents r) (<[i:=k b]> qs, s')) as Hatomic.
  { intros B y m k b s' -> Rm. eapply step_act; [exact Hq|]. simpl. by rewrite (bind_ok _ _ _ _ _ Rm). }
  destruct Hst as [q|B x m k Hne].
  - destruct q as [a|B x m k]; [discriminate R|]. destruct (decide (x = NoMap)) as [->|Hne].
    + apply bind_inv in R as (b & r1 & R & [-> ->]%ret_inv). unfold on_contents, zoom in R.
      destruct (m (contents r)) as [res s'] eqn:Rm. injection R as -> <-.
      exists (<[i:=k b]> qs), (<[i:=NoMap]> xs). split; [|by eapply rtc_once, Hatomic].
      eapply tracks_insert; [done..|constructor|]. intros y Hy. simpl. by case_decide.
    + exists qs, (<[i:=x]> xs).
      assert (p' = Act x (end_access x m) (λ b, split (k b)) ∧ begin_access x r = (Ok tt, r')) as [-> Rb].
      { destruct x; [done|..]; apply bind_inv in R as ([] & r1 & R & [-> ->]%ret_inv); done. }
      unfold begin_access in Rb. destruct (clear_for x r); [|discriminate Rb]. injection Rb as <-.
      split; [|by destruct x]. rewrite <-(list_insert_id qs i (Act x m k)) by done.
      eapply tracks_insert; [done..|by constructor|]. intros y Hy.
      destruct x, y; try done; simpl; lia.
  - apply bind_inv in R as (b & r1 & R & [-> ->]%ret_inv). unfold end_access in R.
    apply bind_inv in R as (b' & r2 & R & R2). apply bind_inv in R2 as (u & r3 & R2 & [-> ->]%ret_inv).
    injection R2 as <- <-. unfold on_contents, zoom in R. destruct (m (contents r)) as [res s'] eqn:Rm.
    injection R as -> <-. exists (<[i:=k b']> qs), (<[i:=NoMap]> xs).
    split; [|by destruct x; eapply rtc_once, Hatomic].
    eapply tracks_insert; [done..|constructor|]. intros y Hy.
    pose proof (under_way_insert x xs i x NoMap Hx) as Hu. rewrite decide_True in Hu by done.
    rewrite decide_False in Hu by congruence.
    pose proof (tracks_readers _ _ _ Ht) as Hr. pose proof (tracks_writers _ _ _ Ht) as Hw. simpl in Hr, Hw.
    destruct x, y; try done; simpl; lia.
Qed.

Lemma tracks_run qs xs c c' :
  tracks qs xs c → rtc step c c' →
  ∃ qs' xs', tracks qs' xs' c' ∧ rtc step (qs, contents c.2) (qs', contents c'.2).
Proof.
  intros Ht Hr. revert qs xs Ht. induction Hr as [c|c1 c2 c3 Hs _ IH]; intros qs xs Ht; [by exists qs, xs|].
  destruct (tracks_step _ _ _ _ Ht Hs) as (qs1 & xs1 & Ht1 & R1).
  destruct (IH _ _ Ht1) as (qs2 & xs2 & Ht2 & R2). exists qs2, xs2. split; [done|]. by etrans.
Qed.

(** What has finished has finished in single actions too. *)
Lemma tracks_done qs xs ts r i a q :
  tracks qs xs (ts, r) → ts !! i = Some (Done a) → qs !! i = Some q → q = Done a.
Proof.
  intros Ht Hi Hq. destruct (tracks_length _ _ _ Ht) as [H1 H2]. simpl in H1, H2.
  destruct (lookup_lt_is_Some_2 xs i) as [x Hx]; [rewrite H1; by eapply lookup_lt_Some|].
  pose proof (tracks_stands _ _ _ Ht i x q _ Hx Hq Hi) as Hst.
  remember (Done a) as p eqn:E. destruct Hst as [q|]; [|discriminate E].
  destruct q as [a'|B [] m k]; [by injection E as ->|discriminate E..].
Qed.

(** Where every goroutine that has not finished can act by itself, one of them can
    without a race: the one in the middle of an access, or, if none is, any. *)
Lemma tracks_live qs xs ts r :
  tracks qs xs (ts, r) →
  (∀ i q, qs !! i = Some q → (∃ a, q = Done a) ∨ ∃ q' s', advance q (contents r) = (Ok q', s')) →
  Forall (λ p, ∃ a, p = Done a) ts ∨ ∃ c', step (ts, r) c'.
Proof.
  intros Ht Hlive. destruct (tracks_length _ _ _ Ht) as [H1 H2]. simpl in H1, H2.
  destruct (decide (Forall (λ x, x = NoMap) xs)) as [Hnone|Hsome].
  - assert (∀ x, x ≠ NoMap → under_way x xs = 0) as Hz.
    { intros x Hx. unfold under_way. clear -Hnone Hx. induction Hnone as [|y xs -> _ IH]; [done|].
      by rewrite filter_cons_False by congruence. }
    assert (readers r = 0 ∧ writers r = 0) as [Hr Hw].
    { pose proof (tracks_readers _ _ _ Ht). pose proof (tracks_writers _ _ _ Ht). simpl in *. by rewrite !Hz in *. }
    assert (∀ ts0 qs0, length ts0 = length qs0 →
      (∀ i p q, ts0 !! i = Some p → qs0 !! i = Some q → p = split q) →
      (∀ i q, qs0 !! i = Some q → (∃ a, q = Done a) ∨ ∃ q' s', advance q (contents r) = (Ok q', s')) →
      Forall (λ p : Threads.prog raced A, ∃ a, p = Done a) ts0 ∨ ∃ i p p' r', ts0 !! i = Some p ∧ advance p r = (Ok p', r')) as Hfind.
    { clear -Hr Hw. intros ts0. induction ts0 as [|p ts0 IH]; intros [|q qs0] Hl Hsp Hlv; try done; [by left|].
      injection Hl as Hl. pose proof (Hsp 0 p q eq_refl eq_refl) as ->.
      destruct (Hlv 0 q eq_refl) as [[a ->]|(q' & s' & R)].
      - destruct (IH qs0 Hl (λ i, Hsp (Datatypes.S i)) (λ i, Hlv (Datatypes.S i))) as [IH'|(i & Hi)].
        + left. constructor; [by eexists|done].
        + right. by exists (Datatypes.S i).
      - right. destruct q as [a|B x m k]; [discriminate R|].
        apply bind_inv in R as (b & s1 & R & _).
        exists 0. destruct x; eexists _, _, _; (split; [reflexivity|]); cbn [split advance];
          unfold begin_access, clear_for, on_contents, zoom, mbind, GoM_bind; rewrite ?Hr, ?Hw, ?R; reflexivity. }
    destruct (Hfind ts qs H2) as [Hd|(i & p & p' & r' & Hp & R)]; [|exact Hlive|by left|].
    + intros i p q Hp Hq. destruct (lookup_lt_is_Some_2 xs i) as [x Hx]; [rewrite H1; by eapply lookup_lt_Some|].
      pose proof (tracks_stands _ _ _ Ht i x q p Hx Hq Hp) as Hst.
      pose proof (Forall_lookup_1 _ _ _ _ Hnone Hx) as Hnx. by destruct Hst.
    + right. eexists. by eapply step_act.
  - right. apply not_Forall_Exists, Exists_exists in Hsome as (x & [i Hx]%list_elem_of_lookup_1 & Hne); [|apply _].
    destruct (lookup_lt_is_Some_2 qs i) as [q Hq]; [rewrite <-H1; by eapply lookup_lt_Some|].
    destruct (lookup_lt_is_Some_2 ts i) as [p Hp]; [rewrite H2; by eapply lookup_lt_Some|].
    pose proof (tracks_stands _ _ _ Ht i x q p Hx Hq Hp) as Hst. destruct Hst as [|B x m k _]; [by destruct Hne|].
    destruct (Hlive i _ Hq) as [[a [=]]|(q' & s' & R)]. apply bind_inv in R as (b & s1 & R & _).
    eexists. eapply step_act; [exact Hp|]. simpl. unfold end_access, on_contents, zoom, mbind, GoM_bind. rewrite R. reflexivity.
Qed.

(** And single actions can happen without a race, the accesses one after the
    other. *)
Lemma split_step qs s qs' s' :
  step (qs, s) (qs', s') → rtc step (split <$> qs, unraced s) (split <$> qs', unraced s').
Proof.
  intros Hs. inversion Hs as [? ? i p p' ? Hp R]; subst. destruct p as [a|B x m k]; [discriminate R|].
  apply bind_inv in R as (b & s1 & R & [-> ->]%ret_inv). rewrite list_fmap_insert.
  assert ((split <$> qs) !! i = Some (split (Act x m k))) as Hi by by rewrite list_lookup_fmap, Hp.
  assert (i < length (split <$> qs)) as Hlt by by eapply lookup_lt_Some.
  destruct (decide (x = NoMap)) as [->|Hx].
  - eapply rtc_once, step_act; [exact Hi|]. simpl. unfold on_contents, zoom, mbind, GoM_bind. simpl. by rewrite R.
  - assert (∀ r, (begin_access x (unraced s)) = (Ok tt, r) → (end_access x m r) = (Ok b, unraced s1) →
      rtc step (split <$> qs, unraced s) (<[i:=split (k b)]> (split <$> qs), unraced s1)) as Hgo.
    { intros r R1 R2. set (mid := Act x (end_access x m) (λ b, split (k b))).
      apply (rtc_l _ _ (<[i:=mid]> (split <$> qs), r)).
      - eapply step_act; [exact Hi|]. destruct x; [done|..]; simpl; by rewrite (bind_ok _ _ _ _ _ R1).
      - assert (step (<[i:=mid]> (split <$> qs), r) (<[i:=split (k b)]> (<[i:=mid]> (split <$> qs)), unraced s1)) as Hs2.
        { eapply step_act; [by apply list_lookup_insert_eq|]. simpl. by rewrite (bind_ok _ _ _ _ _ R2). }
        rewrite list_insert_insert_eq in Hs2. by apply rtc_once. }
    destruct x; [done|..]; (eapply Hgo; [reflexivity|]);
      unfold end_access, on_contents, zoom, mbind, GoM_bind; simpl; by rewrite R.
Qed.

Lemma split_run c c' : rtc step c c' → rtc step (split <$> c.1, unraced c.2) (split <$> c'.1, unraced c'.2).
Proof.
  induction 1 as [c|[qs s] [qs1 s1] c2 Hs _ IH]; [done|]. etrans; [by apply split_step|exact IH].
Qed.
End Races.
Arguments raced S : clear implicits.
Arguments mk_raced {S} _ _ _.
