(* ===== verification/PanPath.v ===== *)
(** * Paths and addresses (rpc/path.go, and the types it takes from pan)

    The types of the pan package are parameters: addresses with their printed
    form, forwarding paths, times. Of pan.Path, pan.PathMetadata and
    pan.PathInterface the records hold the fields the program reads. A
    [*pan.Path] is an optional value: the program never writes through one. *)

From Stdlib Require Import Floats.SpecFloat.
From S2P Require Import Prelude.

Class Pan := {
  UDPAddr : Type;
  IA : Type;
  ForwardingPath : Type;
  Time : Type;
  UDPAddr_String : UDPAddr → string;
  IA_String : IA → string;
  Time_String : Time → string;
  zero_ForwardingPath : ForwardingPath;
  UDPAddr_eq_dec :: EqDecision UDPAddr
}.

(** pan.PathFingerprint is a string type. *)
Abbreviation PathFingerprint := string.

Section Paths.
Context `{Pan}.

Record PathInterface := mkPathInterface { pi_IA : IA; pi_IfID : Z }.

(** The coordinates are float32 values. *)
Record GeoCoordinates := mkGeoCoordinates {
  Latitude : spec_float; Longitude : spec_float; geo_Address : string }.

Record PathMetadata := mkPathMetadata {
  MTU : Z;
  Interfaces : list PathInterface;
  Latency : list Z;
  Bandwidth : list Z;
  LinkType : list Z;
  InternalHops : list Z;
  Notes : list string;
  Geo : list GeoCoordinates
}.

(** pan.Path *)
Record PanPath := mkPanPath {
  pp_Source : IA;
  pp_Destination : IA;
  pp_Metadata : option PathMetadata;
  pp_Fingerprint : PathFingerprint;
  pp_ForwardingPath : ForwardingPath;
  pp_Expiry : Time
}.

(** rpc.Path: what crosses the connection to the daemon. *)
Record Path := mkPath {
  Source : IA;
  Destination : IA;
  Metadata : option PathMetadata;
  Fingerprint : PathFingerprint;
  Expiry : Time
}.

(** The struct literal leaves the forwarding path at its zero value. *)
Definition Path_PanPath {S} (p : option Path) : GoM S PanPath :=
  p ← deref p;
  mret (mkPanPath (Source p) (Destination p) (Metadata p) (Fingerprint p)
          zero_ForwardingPath (Expiry p)).

Definition NewPathFrom {S} (p : option PanPath) : GoM S Path :=
  p ← deref p;
  mret (mkPath (pp_Source p) (pp_Destination p) (pp_Metadata p) (pp_Fingerprint p) (pp_Expiry p)).

(** The values of the two conversions. *)
Definition to_rpc (p : PanPath) : Path :=
  mkPath (pp_Source p) (pp_Destination p) (pp_Metadata p) (pp_Fingerprint p) (pp_Expiry p).

Definition without_forwarding (p : PanPath) : PanPath :=
  mkPanPath (pp_Source p) (pp_Destination p) (pp_Metadata p) (pp_Fingerprint p)
    zero_ForwardingPath (pp_Expiry p).

(** The receiving loops of the server: [paths[i] = p.PanPath()]. *)
Definition PanPaths {S} (ps : list (option Path)) : GoM S (list (option PanPath)) :=
  go_map (λ p, Some <$> Path_PanPath p) ps.

Lemma PanPaths_cons {S} p ps (s : S) :
  PanPaths (Some p :: ps) s
  = (PanPaths ps ≫= λ l, mret (Some (mkPanPath (Source p) (Destination p) (Metadata p)
       (Fingerprint p) zero_ForwardingPath (Expiry p)) :: l)) s.
Proof. done. Qed.

Lemma PanPaths_to_rpc {S} ps (s : S) :
  PanPaths (Some ∘ to_rpc <$> ps) s = (Ok (Some ∘ without_forwarding <$> ps), s).
Proof.
  induction ps as [|p ps IH]; [done|]. rewrite fmap_cons. simpl. rewrite PanPaths_cons.
  by go_exec by exact IH.
Qed.

End Paths.

(** ** Concrete addresses for the witnesses *)
Module SamplePan.
(** Three addresses, printed as the programs' usage texts show them. *)
Inductive addr := ClientA | ClientB | Server.
#[global] Instance addr_eq_dec : EqDecision addr.
Proof. solve_decision. Defined.

Definition addr_string (a : addr) : string :=
  match a with
  | ClientA => "17-ffaa:1:1,[127.0.0.1]:5001"
  | ClientB => "17-ffaa:1:1,[127.0.0.1]:5002"
  | Server => "17-ffaa:1:2,[127.0.0.1]:1337"
  end.

Definition pan : Pan := {|
  UDPAddr := addr; IA := string; ForwardingPath := option nat; Time := Z;
  UDPAddr_String := addr_string; IA_String := λ s, s; Time_String := λ t, pretty t;
  zero_ForwardingPath := None; UDPAddr_eq_dec := addr_eq_dec |}.

(** Any text is an address: what a user can configure. *)
Definition text_pan : Pan := {|
  UDPAddr := string; IA := string; ForwardingPath := option nat; Time := Z;
  UDPAddr_String := λ s, s; IA_String := λ s, s; Time_String := λ t, pretty t;
  zero_ForwardingPath := None; UDPAddr_eq_dec := _ |}.

Definition path (fp : string) (fwd : nat) : @PanPath pan :=
  @mkPanPath pan "17-ffaa:1:1" "17-ffaa:1:2" None fp (Some fwd) 0%Z.
End SamplePan.
