(* ===== verification/GobRpc.v ===== *)
(** * encoding/gob and net/rpc, as far as the daemon's protocol uses them

    gob flattens pointers: it sends what a pointer points to, and it omits a
    field that has its type's zero value. A pointer to a zero string, number or
    byte slice is therefore received as nil, while a pointer to a struct always
    arrives. net/rpc sends a call's arguments to the method its name selects in
    the server's registry and sends back the text of the error, or the reply if
    that text is empty; a panic in a method ends the server process. *)

From S2P Require Import Prelude.

(** ** gob *)

(** A codec: what the receiver decodes, or [None] when Encode fails. *)
Definition codec (A : Type) : Type := A → option A.

Definition faithful {A} (c : codec A) : Prop := ∀ a, c a = Some a.

(** A pointer field to a struct. *)
Definition gob_struct_ptr {A} (c : codec A) : codec (option A) := λ p,
  match p with None => Some None | Some a => Some <$> c a end.

(** A pointer field to a type with a zero value that gob omits. *)
Definition gob_flat_ptr {A} (is_zero : A → bool) (p : option A) : option A :=
  match p with
  | Some a => if is_zero a then None else Some a
  | None => None
  end.

(** A slice of pointers to structs: a nil element cannot be encoded. *)
Fixpoint gob_ptr_slice {A} (c : codec A) (l : list (option A)) : option (list (option A)) :=
  match l with
  | [] => Some []
  | None :: _ => None
  | Some a :: l => a' ← c a; l' ← gob_ptr_slice c l; Some (Some a' :: l')
  end.

Definition string_zero (s : string) : bool := bool_decide (s = ""%string).
Definition list_zero {A} (l : list A) : bool := match l with [] => true | _ => false end.

Lemma gob_struct_ptr_faithful {A} (c : codec A) : faithful c → faithful (gob_struct_ptr c).
Proof. intros Hc [a|]; [|done]. simpl. by rewrite Hc. Qed.

Lemma gob_ptr_slice_Some {A} (c : codec A) (l : list A) :
  faithful c → gob_ptr_slice c (Some <$> l) = Some (Some <$> l).
Proof.
  intros Hc. induction l as [|a l IH]; [done|].
  rewrite fmap_cons. cbn [gob_ptr_slice]. by rewrite Hc, IH.
Qed.

(** ** net/rpc *)

(** The connection to a server in state [S]. [up] becomes false when the server
    dies, when a request cannot be encoded (its header has been written, so the
    stream is unusable), and on Close. [close_error] is what closing the
    underlying connection returns; [dead] says that the server's process has
    ended during a call over this connection. *)
Record Link (S : Type) := mkLink {
  server : S; up : bool; closing : bool; close_error : error; dead : bool }.
Arguments mkLink {S} _ _ _ _ _.
Arguments server {S} _.
Arguments up {S} _.
Arguments closing {S} _.
Arguments close_error {S} _.
Arguments dead {S} _.
#[export] Instance eta_Link S : Eta (Link S) := λ l,
  mkLink (server l) (up l) (closing l) (close_error l) (dead l).

(** A registered method: it gets the decoded arguments and leaves a reply. *)
Definition method (S A B : Type) : Type := A → GoM S (error * B).

Definition shut_down : string := "connection is shut down".
Definition unexpected_EOF : string := "unexpected EOF".
Definition encode_error : string := "gob: cannot encode".

(** The error the caller sees: net/rpc sends the text, and an empty text means
    success. *)
Definition wire_error (e : error) : error :=
  match e with
  | Some s => if string_zero s then None else Some s
  | None => None
  end.

Section Calls.
Context {S A B : Type}.
Context (enc : codec A) (enc_reply : codec B) (registry : string → option (method S A B)).

(** [client.Call(name, args, &reply)] with a fresh reply [zero]. *)
Definition rpc_Call (zero : B) (name : string) (args : A) : GoM (Link S) (error * B) := λ l,
  if negb (up l) || closing l then (Ok (Some shut_down, zero), l) else
  match enc args with
  | None => (Ok (Some encode_error, zero), l <| up := false |>)
  | Some args' =>
      match registry name with
      | None => (Ok (Some ("rpc: can't find method " +:+ name), zero), l)
      | Some meth =>
          match meth args' (server l) with
          | (Ok (err, reply), s') =>
              match wire_error err with
              | Some e => (Ok (Some e, zero), l <| server := s' |>)
              | None =>
                  match enc_reply reply with
                  | Some reply' => (Ok (None, reply'), l <| server := s' |>)
                  | None => (Ok (Some unexpected_EOF, zero), l <| server := s' |> <| up := false |>)
                  end
              end
          | (Panics _, s') | (Exits _, s') =>
              (Ok (Some unexpected_EOF, zero), l <| server := s' |> <| up := false |> <| dead := true |>)
          | (Deadlocks, s') => (Deadlocks, l <| server := s' |>)
          end
      end
  end.
End Calls.

(** [client.Close()] *)
Definition rpc_Close {S} : GoM (Link S) error := λ l,
  if closing l then (Ok (Some shut_down), l)
  else (Ok (close_error l), l <| closing := true |> <| up := false |>).

(** ** Services that hand a call on

    The handlers of the tracing services return what a method of their tracer
    returns and leave the reply at its zero value, or reject the message. *)
Definition ErrDeref : string := "Can not dereference Nil value".

Section Delivery.
Context {S A B : Type}.
Context (enc : codec A) (registry : string → option (method S A B)) (zero : B).

(** [return tracer.Method(...)] *)
Definition returning (m : GoM S error) : GoM S (error * B) := e ← m; mret (e, zero).

(** What is to happen at the other end of a link: [None] when gob cannot send
    the message, [Some None] when the server rejects it. *)
Abbreviation delivery_to := (option (option (GoM S error))).

Definition carry (d : delivery_to) : GoM (Link S) (error * B) := λ lk,
  if negb (up lk) || closing lk then (Ok (Some shut_down, zero), lk) else
  match d with
  | None => (Ok (Some encode_error, zero), lk <| up := false |>)
  | Some None => (Ok (Some ErrDeref, zero), lk)
  | Some (Some m) =>
      match m (server lk) with
      | (Ok e, t) => (Ok (wire_error e, zero), lk <| server := t |>)
      | (Panics _, t) | (Exits _, t) =>
          (Ok (Some unexpected_EOF, zero), lk <| server := t |> <| up := false |> <| dead := true |>)
      | (Deadlocks, t) => (Deadlocks, lk <| server := t |>)
      end
  end.

(** What a handler does with the arguments gob delivers, against a delivery. *)
Definition handles (h : method S A B) (args : option A) (d : delivery_to) : Prop :=
  match args, d with
  | None, None => True
  | Some args, Some (Some m) => h args = returning m
  | Some args, Some None => h args = returning (mret (Some ErrDeref))
  | _, _ => False
  end.

Lemma call_carries (enc_reply : codec B) name h msg d lk :
  enc_reply zero = Some zero → registry name = Some h → handles h (enc msg) d →
  rpc_Call enc enc_reply registry zero name msg lk = carry d lk.
Proof.
  intros Hz Hr Hh. unfold carry, rpc_Call. rewrite Hr.
  destruct (negb (up lk) || closing lk); [done|]. unfold handles in Hh.
  destruct (enc msg) as [args|], d as [[m|]|]; try done;
    rewrite Hh; unfold returning, mbind, GoM_bind; [|by destruct lk].
  destruct (m (server lk)) as [[[e|]| | |] t]; simpl; rewrite ?Hz; try done.
  by destruct (string_zero e); rewrite ?Hz.
Qed.
End Delivery.

(** ** rpc.go: the client wrapper

    The IDServer call that would set the id is commented out, so every client
    has id 42. *)
Record Client := mkClient { Client_id : Z }.

(** [create] is the result of creating the log file. *)
Definition NewClient (create : error) : option Client * error :=
  match create with
  | Some e => (None, Some e)
  | None => (Some (mkClient 42), None)
  end.

(** The call of a method by a client that ends the process on an error
    ([if err != nil { l.Fatalln(err) }]). *)
Definition or_fatal {S B} (m : GoM S (error * B)) : GoM S B :=
  '(err, reply) ← m;
  match err with Some e => fatal e | None => mret reply end.

(** ** IDServer (rpc.go)

    The server's counter lives at an address: a reply's Value points to it. *)
Record IDServer := mkIDServer { ints : gmap loc Z; id_addr : loc }.
#[export] Instance eta_IDServer : Eta IDServer := λ s, mkIDServer (ints s) (id_addr s).

Definition int64 (z : Z) : Z := (z + 2 ^ 63) mod 2 ^ 64 - 2 ^ 63.

(** [resp.Value = &s.id; s.id += 1]: the new reply. *)
Definition GetID : GoM IDServer (option loc) :=
  s ← get_state;
  let resp := Some (id_addr s) in
  id ← load ints (Some (id_addr s));
  store ints (Some (id_addr s)) (int64 (id + 1));;
  mret resp.

Section Lemmas.
Context {S A B : Type}.
Context (enc : codec A) (enc_reply : codec B) (registry : string → option (method S A B)).

(** A call over a working link, when arguments and reply survive the codec. *)
Lemma rpc_Call_up zero name args args' meth l :
  up l = true → closing l = false → enc args = Some args' → registry name = Some meth →
  rpc_Call enc enc_reply registry zero name args l =
  match meth args' (server l) with
  | (Ok (err, reply), s') =>
      match wire_error err with
      | Some e => (Ok (Some e, zero), l <| server := s' |>)
      | None =>
          match enc_reply reply with
          | Some reply' => (Ok (None, reply'), l <| server := s' |>)
          | None => (Ok (Some unexpected_EOF, zero), l <| server := s' |> <| up := false |>)
          end
      end
  | (Panics _, s') | (Exits _, s') =>
      (Ok (Some unexpected_EOF, zero), l <| server := s' |> <| up := false |> <| dead := true |>)
  | (Deadlocks, s') => (Deadlocks, l <| server := s' |>)
  end.
Proof. intros Hup Hc He Hm. unfold rpc_Call. by rewrite Hup, Hc, He, Hm. Qed.

End Lemmas.

(** ** Properties of IDServer *)

(** Any number of calls. *)
Fixpoint GetIDs (n : nat) : GoM IDServer (list (option loc)) :=
  match n with
  | O => mret []
  | Datatypes.S n => r ← GetID; rs ← GetIDs n; mret (r :: rs)
  end.

(** What a reply reads as. *)
Definition read_reply (s : IDServer) (r : option loc) : option Z := r ≫= λ l, ints s !! l.

Lemma GetID_run s id :
  ints s !! id_addr s = Some id →
  GetID s = (Ok (Some (id_addr s)), s <| ints := <[id_addr s := int64 (id + 1)]> (ints s) |>).
Proof.
  intros Hid. unfold GetID. go_exec by reflexivity. go_exec by (by apply load_ok).
  unfold store, mbind, GoM_bind. by rewrite Hid.
Qed.

Lemma int64_small z : (- 2 ^ 63 ≤ z < 2 ^ 63)%Z → int64 z = z.
Proof. intros Hz. unfold int64. rewrite Z.mod_small; lia. Qed.

Lemma GetIDs_run n s id :
  ints s !! id_addr s = Some id → (- 2 ^ 63 ≤ id)%Z → (id + Z.of_nat n < 2 ^ 63)%Z →
  ∃ s', GetIDs n s = (Ok (replicate n (Some (id_addr s))), s') ∧
    id_addr s' = id_addr s ∧ ints s' !! id_addr s = Some (id + Z.of_nat n)%Z.
Proof.
  revert s id. induction n as [|n IH]; intros s id Hid Hlo Hhi.
  { exists s. split_and!; [done..|]. by rewrite Z.add_0_r. }
  simpl. go_exec by (by apply GetID_run).
  edestruct (IH (s <| ints := <[id_addr s := int64 (id + 1)]> (ints s) |>) (id + 1)%Z)
    as (s' & R & Ha & Hv); [|lia|lia|].
  { simpl. rewrite lookup_insert_eq. f_equal. apply int64_small. lia. }
  exists s'. go_exec by exact R. split_and!; [done..|].
  simpl in Hv. rewrite Hv. f_equal. lia.
Qed.

(** The replies of IDServer all point at the one counter: after any number
    of calls every reply, the first ones included, reads as the initial value
    plus the number of calls. *)
Theorem GetID_aliases n s id :
  ints s !! id_addr s = Some id → (- 2 ^ 63 ≤ id)%Z → (id + Z.of_nat n < 2 ^ 63)%Z →
  ∃ rs s', GetIDs n s = (Ok rs, s') ∧ length rs = n ∧
    Forall (λ r, read_reply s' r = Some (id + Z.of_nat n)%Z) rs.
Proof.
  intros Hid Hlo Hhi. destruct (GetIDs_run n s id Hid Hlo Hhi) as (s' & R & Ha & Hv).
  eexists _, s'. split; [exact R|]. split; [apply length_replicate|].
  apply Forall_replicate. exact Hv.
Qed.

Lemma GetID_aliases_witness :
  let s := mkIDServer {[1%positive := 42%Z]} 1%positive in
  ∃ rs s', GetIDs 2 s = (Ok rs, s') ∧ length rs = 2 ∧
    Forall (λ r, read_reply s' r = Some 44%Z) rs.
Proof. apply (GetID_aliases 2 (mkIDServer {[1%positive := 42%Z]} 1%positive) 42%Z); [reflexivity|lia|lia]. Defined.
