(* ===== verification/Process.v ===== *)
(** * Services and log files of a process (rpc/rpc.go, rpc/tracer.go)

    NewServer registers the three services with net/rpc's default server, of
    which a process has one; NewTracerServer and NewClient create a log file each
    and start a goroutine that flushes it every second. Files and the clock are
    parameters. *)

From S2P Require Import Prelude GobRpc.

(** Package os and time: [os_Create] truncates an existing file; [minute] is the
    time as the names of the log files have it. *)
Class FileSystem (O : Type) := {
  os_Create : string → GoM O error;
  Sync : string → GoM O error;
  minute : GoM O string
}.

Section Process.
Context {O : Type} `{!FileSystem O}.

(** The services of the default server, and the files that goroutines flush. *)
Record Process := mkProcess { services : list string; syncing : list string; os : O }.
#[export] Instance eta_Process : Eta Process := λ p, mkProcess (services p) (syncing p) (os p).

Definition on_os {A} (m : GoM O A) : GoM Process A := zoom os (λ o p, p <| os := o |>) m.

(** [rpc.Register]: a name can be taken once. *)
Definition Register (name : string) : GoM Process error :=
  p ← get_state;
  if bool_decide (name ∈ services p) then mret (Some ("rpc: service already defined: " +:+ name))
  else modify (λ p, p <| services := services p ++ [name] |>);; mret None.

(** Create a log file and start the goroutine that flushes it. *)
Definition log_file (suffix : string) : GoM Process error :=
  t ← on_os minute;
  let fname := "/tmp/" +:+ t +:+ suffix in
  err ← on_os (os_Create fname);
  match err with
  | Some e => mret (Some e)
  | None => modify (λ p, p <| syncing := syncing p ++ [fname] |>);; mret None
  end.

(** [for f.Sync() == nil { time.Sleep(time.Second) }]: a round of the [k]-th
    goroutine, which ends at the first error. *)
Definition sync_round (k : nat) : GoM Process unit :=
  p ← get_state;
  match syncing p !! k with
  | None => mret tt
  | Some f =>
      err ← on_os (Sync f);
      match err with
      | None => mret tt
      | Some _ => modify (λ p, p <| syncing := delete k (syncing p) |>)
      end
  end.

Definition NewTracerServer : GoM Process unit :=
  err ← log_file "-quic-server.log";
  match err with Some e => panic e | None => mret tt end.

(** NewServer up to its result: the error of a registration, if any. *)
Definition NewServer_registers : GoM Process error :=
  err ← Register "SelectorServer";
  match err with
  | Some e => mret (Some e)
  | None =>
      NewTracerServer;;
      err ← Register "TracerServer";
      match err with
      | Some e => mret (Some e)
      | None => Register "ConnectionTracerServer"
      end
  end.

Definition NewClient_logging : GoM Process (option Client * error) :=
  NewClient <$> log_file "-quic-rpc-client.log".

(** The function main gives qlog.NewTracer: the file of a connection. The daemon
    itself never asks the tracer for one. *)
Definition hex_digit (n : N) : ascii :=
  default "0"%char (String.get (N.to_nat n) "0123456789abcdef").
Definition hex_byte (c : ascii) : string :=
  String (hex_digit (N_of_ascii c / 16)) (String (hex_digit (N_of_ascii c mod 16)) "").

(** [%x] of a slice of bytes. *)
Definition hex (id : list ascii) : string := foldr (λ c s, hex_byte c +:+ s) "" id.

Definition qlog_name (p : Z) (connectionID : list ascii) : string :=
  "/tmp/quic-tracer-" +:+ pretty p +:+ "-" +:+ hex connectionID +:+ ".log".

Definition qlog_file (p : Z) (connectionID : list ascii) : GoM Process string :=
  let fname := qlog_name p connectionID in
  err ← on_os (os_Create fname);
  match err with Some e => panic e | None => mret fname end.

(** ** Lemmas *)

(** Two connections of the same or of different perspectives never share a file:
    the perspective of a server is 1, that of a client 2. *)
Lemma hex_byte_inj : ∀ c d s t, hex_byte c +:+ s = hex_byte d +:+ t → c = d ∧ s = t.
Proof.
  assert (∀ c d, (hex_digit (N_of_ascii c / 16) = hex_digit (N_of_ascii d / 16) →
    hex_digit (N_of_ascii c mod 16) = hex_digit (N_of_ascii d mod 16) → c = d)) as Hd.
  { assert (Forall (λ n, Forall (λ m, hex_digit n = hex_digit m → n = m) (N.of_nat <$> seq 0 16)) (N.of_nat <$> seq 0 16)) as Hall.
    { apply (bool_decide_unpack _). vm_compute. exact I. }
    assert (∀ n m, (n < 16)%N → (m < 16)%N → hex_digit n = hex_digit m → n = m) as Hinj.
    { intros n m Hn Hm. assert (∀ k, (k < 16)%N → k ∈ N.of_nat <$> seq 0 16) as Hin.
      { intros k Hk. apply list_elem_of_fmap. exists (N.to_nat k). rewrite elem_of_seq. split; lia. }
      rewrite Forall_forall in Hall. specialize (Hall n (Hin n Hn)). rewrite Forall_forall in Hall. by apply Hall, Hin. }
    intros c d H1 H2. pose proof (N_ascii_bounded c) as Bc. pose proof (N_ascii_bounded d) as Bd.
    apply Hinj in H1; [|apply N.Div0.div_lt_upper_bound; lia..]. apply Hinj in H2; [|apply N.mod_lt; lia..].
    rewrite <-(ascii_N_embedding c), <-(ascii_N_embedding d). f_equal.
    rewrite (N.div_mod (N_of_ascii c) 16), (N.div_mod (N_of_ascii d) 16) by lia. congruence. }
  intros c d s t E. injection E as E1 E2 E3. split; [by apply Hd|done].
Qed.

Lemma hex_inj a b : hex a +:+ ".log" = hex b +:+ ".log" → a = b.
Proof.
  assert (∀ c s, hex (c :: s) +:+ ".log" = hex_byte c +:+ hex s +:+ ".log") as Hc by done.
  assert (∀ c, hex_digit (N_of_ascii c / 16) ≠ "."%char) as Hdot.
  { intros c E. destruct c as [[] [] [] [] [] [] [] []]; vm_compute in E; discriminate E. }
  revert b. induction a as [|c a IH]; intros [|d b]; rewrite ?Hc; intros E.
  - done.
  - injection E as E _. by destruct (Hdot d).
  - injection E as E _. by destruct (Hdot c).
  - apply hex_byte_inj in E as [-> E]. f_equal. by apply IH.
Qed.

Lemma qlog_names_distinct p p' id id' :
  p ∈ [1; 2]%Z → p' ∈ [1; 2]%Z → qlog_name p id = qlog_name p' id' → p = p' ∧ id = id'.
Proof.
  rewrite !elem_of_cons, !elem_of_nil. intros [->|[->|[]]] [->|[->|[]]] E; try discriminate E;
    (split; [done|]; apply hex_inj; by injection E).
Qed.

(** A process has one server: NewServer fails when it has been called before, and
    does nothing. *)
Lemma NewServer_again (p p' : Process) :
  NewServer_registers p = (Ok None, p') →
  NewServer_registers p' = (Ok (Some "rpc: service already defined: SelectorServer"%string), p').
Proof.
  intros (e & p1 & R & R')%bind_inv. destruct e as [e|]; [done|].
  assert ("SelectorServer"%string ∈ services p1) as Hin.
  { unfold Register in R. apply bind_inv in R as (q & p2 & [= <- <-] & R). case_bool_decide; [done|].
    injection R as <-. simpl. set_solver. }
  assert (∀ name, within (λ p p' : Process, services p ⊆ services p') (Register name)) as Hreg.
  { intros name q. unfold Register, mbind, GoM_bind, get_state. case_bool_decide; simpl; set_solver. }
  assert (services p1 ⊆ services p') as Hs.
  { apply bind_inv in R' as ([] & p2 & R2 & R'). apply bind_inv in R' as (e & p3 & R3 & R').
    assert (services p2 = services p1) as E2.
    { unfold NewTracerServer, log_file in R2. unfold mbind, GoM_bind, on_os, zoom in R2.
      destruct (minute _) as [[t| | |] o1]; try done. simpl in R2.
      destruct (os_Create _ o1) as [[[e1|]| | |] o2]; try done. by injection R2 as <-. }
    pose proof (Hreg "TracerServer"%string p2) as H3. rewrite R3 in H3. simpl in H3. rewrite E2 in H3.
    destruct e as [e|]; [by apply ret_inv in R' as [? ->]|].
    pose proof (Hreg "ConnectionTracerServer"%string p3) as H4. rewrite R' in H4. simpl in H4. set_solver. }
  unfold NewServer_registers, Register. unfold mbind, GoM_bind, get_state.
  rewrite bool_decide_true by set_solver. done.
Qed.

(** Two clients of one minute share a log file, which the second truncates. *)
Lemma clients_share_log t (p p1 p2 : Process) c1 c2 :
  (∀ o, minute o = (Ok t, o)) →
  NewClient_logging p = (Ok (Some c1, None), p1) → NewClient_logging p1 = (Ok (Some c2, None), p2) →
  ∃ f, syncing p2 = syncing p ++ [f; f].
Proof.
  intros Hm R1 R2.
  assert (∀ (q q' : Process) c, NewClient_logging q = (Ok (Some c, None), q') →
    syncing q' = syncing q ++ [("/tmp/" +:+ t +:+ "-quic-rpc-client.log")%string]) as Hc.
  { intros q q' c. unfold NewClient_logging, log_file, fmap, GoM_fmap, mbind, GoM_bind, on_os, zoom.
    rewrite Hm. simpl. destruct (os_Create _ _) as [[[e|]| | |] o2]; try done. by intros [= _ <-]. }
  rewrite (Hc _ _ _ R2), (Hc _ _ _ R1), <-app_assoc. by eexists.
Qed.
End Process.
Arguments Process : clear implicits.
