(* ===== verification/ServerSelector.v ===== *)
(** * The daemon's selector interface and the per-connection selector (rpc/selector.go)

    [ServerSelector] is the interface the RPC server works against.
    [serverSelector], the implementation the daemon falls back to, keeps one
    path selector per connection in a map keyed by the two printed addresses.
    Its specification keys the selectors by the pair of addresses itself; the
    refinement theorem says when the two agree, and the collision theorem what
    happens when they do not. *)

From S2P Require Import Prelude Enums Taps PanPath.

(** ** Interfaces *)

(** rpc.ServerSelector, over the state [S] of an implementation. *)
Class ServerSelector `{Pan} (S : Type) := {
  ss_Initialize : option ConnectionPreferences → UDPAddr → UDPAddr →
                  list (option PanPath) → GoM S error;
  ss_SetPreferences : option ConnectionPreferences → UDPAddr → UDPAddr → GoM S error;
  ss_Path : UDPAddr → UDPAddr → GoM S (option PanPath * error);
  ss_PathDown : UDPAddr → UDPAddr → PathFingerprint → PathInterface → GoM S error;
  ss_Refresh : UDPAddr → UDPAddr → list (option PanPath) → GoM S error;
  ss_Close : UDPAddr → UDPAddr → GoM S error
}.

(** taps.Selector: selector objects [Sel], whose state is in [W]. *)
Class SelectorObject `{Pan} (W Sel : Type) := {
  obj_Initialize : Sel → UDPAddr → UDPAddr → list (option PanPath) → GoM W unit;
  obj_SetPreferences : Sel → option ConnectionPreferences → GoM W error;
  obj_Path : Sel → GoM W (option PanPath);
  obj_PathDown : Sel → PathFingerprint → PathInterface → GoM W unit;
  obj_Refresh : Sel → list (option PanPath) → GoM W unit;
  obj_Close : Sel → GoM W error
}.

(** ** serverSelector *)
Section ServerSelectorFunc.
Context `{Pan} {W Sel : Type} `{!SelectorObject W Sel}.
Context (fn : UDPAddr → UDPAddr → GoM W Sel).

Record serverSelector := mk_serverSelector { selectors : gmap string Sel; objects : W }.
#[export] Instance eta_serverSelector : Eta serverSelector := λ s,
  mk_serverSelector (selectors s) (objects s).

Definition NewServerSelectorFunc (w : W) : serverSelector := mk_serverSelector ∅ w.

Definition on_objects {A} (m : GoM W A) : GoM serverSelector A :=
  zoom objects (λ w s, s <| objects := w |>) m.

Definition addr_key (local remote : UDPAddr) : string :=
  UDPAddr_String local +:+ UDPAddr_String remote.

Definition getSelector (local remote : UDPAddr) : GoM serverSelector Sel :=
  let addr := addr_key local remote in
  sels ← gets selectors;
  match sels !! addr with
  | Some selector => mret selector
  | None =>
      selector ← on_objects (fn local remote);
      modify (λ s, s <| selectors := <[addr := selector]> (selectors s) |>);;
      mret selector
  end.

Definition serverSelector_Initialize (prefs : option ConnectionPreferences)
    (local remote : UDPAddr) (paths : list (option PanPath)) : GoM serverSelector error :=
  sel ← getSelector local remote;
  on_objects (obj_Initialize sel local remote paths);; mret None.

Definition serverSelector_SetPreferences (prefs : option ConnectionPreferences)
    (local remote : UDPAddr) : GoM serverSelector error :=
  sel ← getSelector local remote; on_objects (obj_SetPreferences sel prefs).

Definition serverSelector_Path (local remote : UDPAddr)
    : GoM serverSelector (option PanPath * error) :=
  sel ← getSelector local remote;
  p ← on_objects (obj_Path sel); mret (p, None).

Definition serverSelector_PathDown (local remote : UDPAddr) (fp : PathFingerprint)
    (pi : PathInterface) : GoM serverSelector error :=
  sel ← getSelector local remote; on_objects (obj_PathDown sel fp pi);; mret None.

Definition serverSelector_Refresh (local remote : UDPAddr) (paths : list (option PanPath))
    : GoM serverSelector error :=
  sel ← getSelector local remote; on_objects (obj_Refresh sel paths);; mret None.

Definition serverSelector_Close (local remote : UDPAddr) : GoM serverSelector error :=
  sel ← getSelector local remote;
  err ← on_objects (obj_Close sel);
  modify (λ s, s <| selectors := delete (addr_key local remote) (selectors s) |>);;
  mret err.

#[export] Instance serverSelector_interface : ServerSelector serverSelector := {
  ss_Initialize := serverSelector_Initialize;
  ss_SetPreferences := serverSelector_SetPreferences;
  ss_Path := serverSelector_Path;
  ss_PathDown := serverSelector_PathDown;
  ss_Refresh := serverSelector_Refresh;
  ss_Close := serverSelector_Close
}.
End ServerSelectorFunc.
Arguments mk_serverSelector {W Sel} _ _.
Arguments selectors {W Sel} _.
Arguments objects {W Sel} _.

(** ** Specification: one selector per connection *)
Section Specification.
Context `{Pan} {W Sel : Type} `{!SelectorObject W Sel}.
Context (fn : UDPAddr → UDPAddr → GoM W Sel).

(** The requests of the interface, with what each returns. *)
Inductive request : Type :=
  | RInitialize (prefs : option ConnectionPreferences) (paths : list (option PanPath))
  | RSetPreferences (prefs : option ConnectionPreferences)
  | RPath
  | RPathDown (fp : PathFingerprint) (pi : PathInterface)
  | RRefresh (paths : list (option PanPath))
  | RClose.

Definition serve {S} `{!ServerSelector S} (q : request) (local remote : UDPAddr)
    : GoM S (option PanPath * error) :=
  match q with
  | RInitialize prefs paths => pair None <$> ss_Initialize prefs local remote paths
  | RSetPreferences prefs => pair None <$> ss_SetPreferences prefs local remote
  | RPath => ss_Path local remote
  | RPathDown fp pi => pair None <$> ss_PathDown local remote fp pi
  | RRefresh paths => pair None <$> ss_Refresh local remote paths
  | RClose => pair None <$> ss_Close local remote
  end.

(** What the request does to the connection's own selector. *)
Definition serve_object (sel : Sel) (q : request) (local remote : UDPAddr)
    : GoM W (option PanPath * error) :=
  match q with
  | RInitialize _ paths => obj_Initialize sel local remote paths;; mret (None, None)
  | RSetPreferences prefs => pair None <$> obj_SetPreferences sel prefs
  | RPath => p ← obj_Path sel; mret (p, None)
  | RPathDown fp pi => obj_PathDown sel fp pi;; mret (None, None)
  | RRefresh paths => obj_Refresh sel paths;; mret (None, None)
  | RClose => pair None <$> obj_Close sel
  end.

(** The specification's state: the selector of each open connection. *)
Record per_connection := mk_per_connection {
  bound : UDPAddr → UDPAddr → option Sel;
  spec_objects : W
}.

Definition bind_connection (local remote : UDPAddr) (sel : option Sel) (b : UDPAddr → UDPAddr → option Sel)
    : UDPAddr → UDPAddr → option Sel :=
  λ l r, if decide (l = local ∧ r = remote) then sel else b l r.

Definition on_spec_objects {A} (m : GoM W A) : GoM per_connection A :=
  zoom spec_objects (λ w s, mk_per_connection (bound s) w) m.

Definition set_bound (f : (UDPAddr → UDPAddr → option Sel) → UDPAddr → UDPAddr → option Sel)
    : GoM per_connection unit :=
  modify (λ s, mk_per_connection (f (bound s)) (spec_objects s)).

(** The connection's selector, made by [fn] at the first request. *)
Definition spec_selector (local remote : UDPAddr) : GoM per_connection Sel :=
  b ← gets bound;
  match b local remote with
  | Some sel => mret sel
  | None =>
      sel ← on_spec_objects (fn local remote);
      set_bound (bind_connection local remote (Some sel));; mret sel
  end.

(** A request goes to the connection's selector; Close forgets it. *)
Definition spec_serve (q : request) (local remote : UDPAddr)
    : GoM per_connection (option PanPath * error) :=
  sel ← spec_selector local remote;
  r ← on_spec_objects (serve_object sel q local remote);
  match q with
  | RClose => set_bound (bind_connection local remote None)
  | _ => mret tt
  end;;
  mret r.

(** The map represents the bindings. *)
Definition represents (s : serverSelector (W := W) (Sel := Sel)) (a : per_connection) : Prop :=
  objects s = spec_objects a ∧
  ∀ l r, selectors s !! addr_key l r = bound a l r.
End Specification.

(** ** Lemmas *)
Section Lemmas.
Context `{Pan} {W Sel : Type} `{!SelectorObject W Sel}.
Context (fn : UDPAddr → UDPAddr → GoM W Sel).
#[local] Existing Instance serverSelector_interface.
Abbreviation SS := (serverSelector (W := W) (Sel := Sel)).

(** Every request finds or makes the selector of its key, runs the selector's
    own operation, and Close removes the entry. *)
Lemma serve_alt q l r (s : SS) :
  serve (S := SS) (ServerSelector0 := serverSelector_interface fn) q l r s
  = (sel ← getSelector fn l r;
     res ← on_objects (serve_object sel q l r);
     match q with
     | RClose => modify (λ s, s <| selectors := delete (addr_key l r) (selectors s) |>)
     | _ => mret tt
     end;;
     mret res) s.
Proof.
  destruct q; simpl; unfold serverSelector_Initialize, serverSelector_SetPreferences,
    serverSelector_Path, serverSelector_PathDown, serverSelector_Refresh, serverSelector_Close,
    on_objects, zoom, modify; unfold fmap, GoM_fmap, mbind, GoM_bind;
    destruct (getSelector fn l r s) as [[sel| | |] s']; try done;
    match goal with |- context [?m (objects s')] => destruct (m (objects s')) as [[]?] end; done.
Qed.

Lemma sim_on_objects {A} (m : GoM W A) (s : SS) a :
  represents s a → sim_at represents (on_objects m) (on_spec_objects m) s a.
Proof.
  intros [Ho Hb]. unfold sim_at, on_objects, on_spec_objects, zoom. rewrite Ho.
  by destruct (m (spec_objects a)).
Qed.
End Lemmas.

(** ** Properties *)
Section Claims.
Context `{Pan} {W Sel : Type} `{!SelectorObject W Sel}.
Context (fn : UDPAddr → UDPAddr → GoM W Sel).
Abbreviation SS := (serverSelector (W := W) (Sel := Sel)).

(** The key tells connections apart. *)
Definition key_injective : Prop :=
  ∀ l r l' r', addr_key l r = addr_key l' r' → l = l' ∧ r = r'.

Lemma represents_update (s : SS) a l r sel :
  key_injective → represents s a →
  represents (s <| selectors := partial_alter (λ _, sel) (addr_key l r) (selectors s) |>)
    (mk_per_connection (bind_connection l r sel (bound a)) (spec_objects a)).
Proof.
  intros Hinj [Ho Hb]. split; [done|]. intros l' r'. simpl. unfold bind_connection.
  case_decide as Hd.
  - destruct Hd as [-> ->]. by rewrite lookup_partial_alter_eq.
  - rewrite lookup_partial_alter_ne; [apply Hb|]. intros Hk. apply Hd.
    apply Hinj in Hk as [-> ->]. done.
Qed.

Lemma sim_getSelector (s : SS) a l r :
  key_injective → represents s a →
  sim_at represents (getSelector fn l r) (spec_selector fn l r) s a.
Proof.
  intros Hinj HR. pose proof HR as [Ho Hb]. unfold getSelector, spec_selector, sim_at.
  rewrite (bind_ok (gets selectors) _ s (selectors s) s) by done.
  rewrite (bind_ok (gets bound) _ a (bound a) a) by done.
  rewrite Hb. destruct (bound a l r); [by apply sim_ret|].
  apply sim_bind; [by apply sim_on_objects|]. intros sel s1 a1 HR1.
  split; [done|]. simpl. by apply represents_update.
Qed.

Lemma sim_serve q l r (s : SS) a :
  key_injective → represents s a →
  sim_at represents (serve (ServerSelector0 := serverSelector_interface fn) q l r)
    (spec_serve fn q l r) s a.
Proof.
  intros Hinj HR. unfold sim_at. rewrite serve_alt. unfold spec_serve.
  apply sim_bind; [by apply sim_getSelector|]. intros sel s1 a1 HR1.
  apply sim_bind; [by apply sim_on_objects|]. intros res s2 a2 HR2.
  apply sim_bind; [|intros ? ???; by apply sim_ret].
  destruct q; try by apply sim_ret. split; [done|]. simpl. by apply represents_update.
Qed.

(** C2: serverSelector implements one selector per connection: when the printed
    pair of addresses identifies the connection, any sequence of requests from
    any connections has the same results as the specification, in which every
    connection has its own selector from its first request to its Close. *)
Theorem serverSelector_refines (w : W) (reqs : list (request * UDPAddr * UDPAddr)) :
  key_injective →
  (go_map (λ '(q, l, r), serve (ServerSelector0 := serverSelector_interface fn) q l r) reqs
     (NewServerSelectorFunc w)).1
  = (go_map (λ '(q, l, r), spec_serve fn q l r) reqs
       (mk_per_connection (λ _ _, None) w)).1.
Proof.
  intros Hinj. eapply (sim_go_map represents).
  - split; [done|]. intros l r. apply lookup_empty.
  - intros [[q l] r] s a HR. by apply sim_serve.
Qed.

(** Two connections whose printed addresses concatenate to the same text
    share one selector: whatever the first was bound to, the request of the
    second goes to it. *)
Theorem serverSelector_collision (s : SS) l r l' r' sel q :
  addr_key l r = addr_key l' r' → selectors s !! addr_key l r = Some sel → q ≠ RClose →
  serve (ServerSelector0 := serverSelector_interface fn) q l' r' s
  = on_objects (serve_object sel q l' r') s.
Proof.
  intros Hk Hsel Hq. rewrite serve_alt. unfold getSelector. go_exec by reflexivity.
  rewrite <- Hk, Hsel. rewrite bind_ret_l.
  unfold mbind, GoM_bind. destruct (on_objects _ s) as [[]?]; [|done..].
  by destruct q.
Qed.
End Claims.

(** ** Witnesses

    Selectors that remember the paths and the preferences they were given and
    select the first path. *)
Module SampleSelector.
Section Selectors.
Context `{Pan}.

Record sel_state := mk_sel_state {
  known : list (option PanPath); preferences : option ConnectionPreferences }.
Definition world : Type := gmap nat sel_state.

Definition fn (l r : UDPAddr) : GoM world nat := λ w,
  (Ok (size w), <[size w := mk_sel_state [] None]> w).

#[global] Instance object : SelectorObject world nat := {
  obj_Initialize n _ _ ps := modify (alter (λ st, mk_sel_state ps (preferences st)) n);
  obj_SetPreferences n p := modify (alter (λ st, mk_sel_state (known st) p) n);; mret None;
  obj_Path n := gets (λ w, w !! n ≫= λ st, mjoin (head (known st)));
  obj_PathDown n fp _ :=
    modify (alter (λ st, mk_sel_state
      (filter (λ p, pp_Fingerprint <$> p ≠ Some fp) (known st)) (preferences st)) n);
  obj_Refresh n ps := modify (alter (λ st, mk_sel_state ps (preferences st)) n);
  obj_Close n := mret None
}.
End Selectors.
End SampleSelector.

Lemma sample_key_injective : @key_injective SamplePan.pan.
Proof. intros [] [] [] []; cbn; intros Hk; try discriminate Hk; done. Qed.

Lemma serverSelector_refines_witness :
  let reqs := [(@RInitialize SamplePan.pan None [Some (SamplePan.path "x" 7)],
                SamplePan.ClientA, SamplePan.Server);
               (RInitialize None [Some (SamplePan.path "y" 8)], SamplePan.ClientB, SamplePan.Server);
               (RPath, SamplePan.ClientA, SamplePan.Server)] in
  @key_injective SamplePan.pan ∧
  (go_map (λ '(q, l, r),
      serve (ServerSelector0 := serverSelector_interface SampleSelector.fn) q l r) reqs
     (NewServerSelectorFunc ∅)).1
  = Ok [(None, None); (None, None); (Some (SamplePan.path "x" 7), None)].
Proof.
  intros reqs. split; [exact sample_key_injective|].
  rewrite (serverSelector_refines SampleSelector.fn ∅ reqs sample_key_injective).
  reflexivity.
Defined.

(** Local port 8 with a remote in ISD 11, and local port 81 with a remote in
    ISD 1. *)
Lemma serverSelector_collision_witness :
  let l := "17-ffaa:1:1,[127.0.0.1]:8"%string in
  let r := "11-ffaa:1:2,[127.0.0.1]:1337"%string in
  let l' := "17-ffaa:1:1,[127.0.0.1]:81"%string in
  let r' := "1-ffaa:1:2,[127.0.0.1]:1337"%string in
  let s := mk_serverSelector {[(l +:+ r) := 0]} {[0 := SampleSelector.mk_sel_state [] None]} in
  @addr_key SamplePan.text_pan l r = @addr_key SamplePan.text_pan l' r' ∧ l ≠ l' ∧ r ≠ r' ∧
  serve (ServerSelector0 := serverSelector_interface (H := SamplePan.text_pan) SampleSelector.fn)
    RPath l' r' s
  = on_objects (serve_object (H := SamplePan.text_pan) 0 RPath l' r') s.
Proof.
  intros l r l' r' s. split; [reflexivity|]. split; [discriminate|]. split; [discriminate|].
  apply (serverSelector_collision (H := SamplePan.text_pan) SampleSelector.fn s l r l' r' 0 RPath);
    [reflexivity|reflexivity|discriminate].
Defined.
