(* ===== verification/ServerThreads.v ===== *)
(** * The default selector under concurrent requests (rpc/selector.go)

    serverSelector keeps its map without a mutex. Its methods are cut into their
    accesses of the map and of the selector objects; alone they do what the
    methods of ServerSelector do, but two of them can get in each other's way:
    they can race for the map, and even without a race one can undo the other's
    work. *)

From S2P Require Import Prelude Threads Races Enums Taps PanPath ServerSelector.

(** ** The methods in actions *)
Section Actions.
Context `{Pan} {W Sel : Type} `{!SelectorObject W Sel}.
Context (fn : UDPAddr → UDPAddr → GoM W Sel).
Abbreviation SS := (serverSelector (W := W) (Sel := Sel)).
Abbreviation prog := (prog SS (option PanPath * error)).
#[local] Notation "x <~ m ; k" := (Act NoMap m (λ x, k))
  (at level 100, m at next level, k at level 200, right associativity).
#[local] Notation "x <~[ a ] m ; k" := (Act a m (λ x, k))
  (at level 100, m at next level, k at level 200, right associativity).

Definition getSelector_actions (local remote : UDPAddr) (k : Sel → prog) : prog :=
  let addr := addr_key local remote in
  sels <~[Reads] gets selectors;
  match sels !! addr with
  | Some selector => k selector
  | None =>
      selector <~ on_objects (fn local remote);
      _ <~[Writes] modify (λ s, s <| selectors := <[addr := selector]> (selectors s) |>);
      k selector
  end.

(** All six methods: they get the selector, call its method of the same name,
    and Close deletes the entry. *)
Definition method_actions (q : request) (local remote : UDPAddr) : prog :=
  getSelector_actions local remote (λ selector,
    res <~ on_objects (serve_object selector q local remote);
    match q with
    | RClose =>
        _ <~[Writes] modify (λ s, s <| selectors := delete (addr_key local remote) (selectors s) |>);
        Done res
    | _ => Done res
    end).

(** Alone, the actions are the method. *)
Lemma method_actions_run q l r (s : SS) :
  run (method_actions q l r) s = serve (ServerSelector0 := serverSelector_interface fn) q l r s.
Proof.
  rewrite serve_alt. unfold method_actions, getSelector_actions, getSelector. cbn [run].
  rewrite !bind_assoc. apply bind_ext. intros sels s1.
  destruct (sels !! addr_key l r) as [sel|]; [by destruct q|]. cbn [run].
  rewrite !bind_assoc. apply bind_ext. intros sel s2.
  rewrite !bind_assoc. apply bind_ext. intros u s3. by destruct q.
Qed.
End Actions.

Lemma on_objects_ok {W Sel A} (m : GoM W A) x w w' (f : gmap string Sel) :
  m w = (Ok x, w') → on_objects m (mk_serverSelector f w) = (Ok x, mk_serverSelector f w').
Proof. intros R. unfold on_objects, zoom. simpl. by rewrite R. Qed.

(** The goroutine at [i] takes its next action, whose result [tac] finds. *)
Tactic Notation "goes" constr(i) "by" tactic3(tac) :=
  eapply rtc_l;
  [eapply (step_act _ _ i);
   [reflexivity|cbn [advance]; erewrite bind_ok by tac; reflexivity]
  |simpl].

(** ** Properties *)
Section Claims.
Context `{Pan} {W Sel : Type} `{!SelectorObject W Sel}.
Context (fn : UDPAddr → UDPAddr → GoM W Sel).

(** C37: Two requests of a new connection that arrive together can both find no
    selector and make one each, without a race for the map. The first request goes
    to a selector that the second one's replaces in the map, so that no later
    request reaches it. *)
Theorem concurrent_first_requests q1 q2 l r (s : serverSelector) sel1 sel2 w1 w2 a1 w3 a2 w4 :
  selectors s !! addr_key l r = None → q1 ≠ RClose → q2 ≠ RClose →
  fn l r (objects s) = (Ok sel1, w1) → fn l r w1 = (Ok sel2, w2) →
  serve_object sel1 q1 l r w2 = (Ok a1, w3) → serve_object sel2 q2 l r w3 = (Ok a2, w4) →
  ∃ s', rtc step (split <$> [method_actions fn q1 l r; method_actions fn q2 l r], unraced s)
          ([Done a1; Done a2], unraced s') ∧
    selectors s' !! addr_key l r = Some sel2 ∧ objects s' = w4.
Proof.
  intros Hn H1 H2 F1 F2 O1 O2. destruct s as [sels w]. simpl in *.
  exists (mk_serverSelector (<[addr_key l r := sel2]> (<[addr_key l r := sel1]> sels)) w4).
  split; [|split; [apply lookup_insert_eq|done]].
  set (ps := [method_actions fn q1 l r; method_actions fn q2 l r]).
  set (s' := mk_serverSelector (<[addr_key l r := sel2]> (<[addr_key l r := sel1]> sels)) w4).
  enough (rtc step (ps, mk_serverSelector sels w) ([Done a1; Done a2], s')) as R by exact (split_run _ _ R).
  unfold ps, method_actions, getSelector_actions.
  goes 0 by reflexivity. rewrite Hn. goes 1 by reflexivity. rewrite Hn.
  goes 0 by (by apply on_objects_ok). goes 1 by (by apply on_objects_ok). goes 0 by reflexivity. goes 1 by reflexivity.
  goes 0 by (by apply on_objects_ok). goes 1 by (by apply on_objects_ok).
  destruct q1, q2; done.
Qed.
End Claims.

Module SampleRace.
#[global] Existing Instance SamplePan.pan.
End SampleRace.

(** Initialize and SetPreferences of one connection arrive together: the paths of
    Initialize are lost, which cannot happen one after the other. *)
Lemma concurrent_first_requests_witness :
  let serve q := serve (ServerSelector0 := serverSelector_interface SampleSelector.fn) q
                   SamplePan.ClientA SamplePan.Server in
  let init := RInitialize None [Some (SamplePan.path "x" 7)] in
  (∃ s', rtc step (split <$> [method_actions SampleSelector.fn init SamplePan.ClientA SamplePan.Server;
                              method_actions SampleSelector.fn (RSetPreferences None) SamplePan.ClientA SamplePan.Server],
                   unraced (NewServerSelectorFunc ∅)) ([Done (None, None); Done (None, None)], unraced s') ∧
         (serve RPath s').1 = Ok (None, None)) ∧
  (go_map serve [init; RSetPreferences None; RPath] (NewServerSelectorFunc ∅)).1
  = Ok [(None, None); (None, None); (Some (SamplePan.path "x" 7), None)] ∧
  (go_map serve [RSetPreferences None; init; RPath] (NewServerSelectorFunc ∅)).1
  = Ok [(None, None); (None, None); (Some (SamplePan.path "x" 7), None)].
Proof.
  intros serve init. split; [|split; vm_compute; reflexivity].
  edestruct (concurrent_first_requests (H := SamplePan.pan) SampleSelector.fn init (RSetPreferences None)
    SamplePan.ClientA SamplePan.Server (NewServerSelectorFunc ∅) 0 1) as (s' & Hs & Hsel & Hobj);
    [reflexivity|discriminate|discriminate|reflexivity..|].
  exists s'. split; [exact Hs|]. destruct s' as [sels w]. simpl in Hsel, Hobj. subst w.
  unfold serve. simpl. unfold serverSelector_Path, getSelector, mbind, GoM_bind, gets. simpl.
  rewrite Hsel. reflexivity.
Defined.

(** Requests of two connections race: both have found no selector and made one,
    and while the first enters its own into the map the second begins to. *)
Lemma first_requests_race :
  ∃ c, rtc step (split <$> [method_actions (H := SamplePan.pan) SampleSelector.fn RPath SamplePan.ClientA SamplePan.Server;
                            method_actions (H := SamplePan.pan) SampleSelector.fn RPath SamplePan.ClientB SamplePan.Server],
                 unraced (NewServerSelectorFunc ∅)) c ∧ racing c.
Proof.
  set (f := follow [0; 0; 1; 1; 0; 1; 0] (split <$>
    [method_actions (H := SamplePan.pan) SampleSelector.fn RPath SamplePan.ClientA SamplePan.Server;
     method_actions (H := SamplePan.pan) SampleSelector.fn RPath SamplePan.ClientB SamplePan.Server], unraced (NewServerSelectorFunc ∅))).
  assert ((λ c : list _ * _, (λ p, (advance p c.2).1) <$> c.1 !! 1) <$> f = Some (Some (Exits data_race))) as F
    by (vm_compute; reflexivity).
  destruct f as [c|] eqn:E; [|discriminate F]. apply follow_steps in E. exists c. split; [exact E|].
  simpl in F. injection F as F. apply fmap_Some in F as (p & Hp & F). by exists 1, p.
Qed.
