(* ===== verification/Connections.v ===== *)
(** * Connections do not disturb each other (rpc/selector.go, serverSelector)

    When the selector objects are independent, a connection gets from the
    daemon's default selector what it would get if it were alone. *)

From S2P Require Import Prelude Enums Taps PanPath ServerSelector.

(** Selector objects [Sel] with their states [St]: an operation depends on the
    state of its own object and changes no other; [fn] makes a new object. *)
Class IndependentObjects `{Pan} (W Sel St : Type) `{!SelectorObject W Sel}
    (fn : UDPAddr → UDPAddr → GoM W Sel) := {
  cell : W → Sel → option St;
  initial : UDPAddr → UDPAddr → St;
  operate : request → UDPAddr → UDPAddr → St → outcome (option PanPath * error) * St;
  operate_law sel q l r w st : cell w sel = Some st →
    (serve_object sel q l r w).1 = (operate q l r st).1 ∧
    cell (serve_object sel q l r w).2 sel = Some (operate q l r st).2 ∧
    ∀ sel', sel' ≠ sel → cell (serve_object sel q l r w).2 sel' = cell w sel';
  fn_law l r w : ∃ sel w', fn l r w = (Ok sel, w') ∧ cell w sel = None ∧
    cell w' sel = Some (initial l r) ∧ ∀ sel', sel' ≠ sel → cell w' sel' = cell w sel'
}.

Section Connections.
Context `{Pan} {W Sel St : Type} `{!SelectorObject W Sel} (fn : UDPAddr → UDPAddr → GoM W Sel).
Context `{!IndependentObjects W Sel St fn} (Hkey : key_injective).
Abbreviation SS := (serverSelector (W := W) (Sel := Sel)).
Abbreviation served := (serve (ServerSelector0 := serverSelector_interface fn)).

(** The states of the open connections' selectors. *)
Abbreviation states := (UDPAddr → UDPAddr → option St).

Definition set_state (l r : UDPAddr) (o : option St) (f : states) : states :=
  λ l' r', if decide (l' = l ∧ r' = r) then o else f l' r'.

(** The connection's own part of a request. *)
Definition local_serve (q : request) (l r : UDPAddr) (o : option St)
    : outcome (option PanPath * error) * option St :=
  let '(res, st) := operate q l r (default (initial l r) o) in
  (res, match q with RClose => None | _ => Some st end).

(** No two connections have the same selector, and each one's has its state. *)
Definition holds (s : SS) (f : states) : Prop :=
  (∀ l r, match selectors s !! addr_key l r with
          | Some sel => ∃ st, cell (objects s) sel = Some st ∧ f l r = Some st
          | None => f l r = None
          end) ∧
  ∀ l r l' r' sel, selectors s !! addr_key l r = Some sel → selectors s !! addr_key l' r' = Some sel →
    l = l' ∧ r = r'.

Lemma set_state_eq l r o f : set_state l r o f l r = o.
Proof. unfold set_state. by rewrite decide_True. Qed.
Lemma set_state_ne l r l' r' o f : ¬ (l' = l ∧ r' = r) → set_state l r o f l' r' = f l' r'.
Proof. intros Hn. unfold set_state. by rewrite decide_False. Qed.

Lemma key_ne l r l' r' : ¬ (l' = l ∧ r' = r) → addr_key l r ≠ addr_key l' r'.
Proof. intros Hn Hk. apply Hkey in Hk as [-> ->]. by apply Hn. Qed.

(** The selector of a connection's request. *)
Lemma getSelector_holds l r (s : SS) f :
  holds s f → ∃ sel s', getSelector fn l r s = (Ok sel, s') ∧
    holds s' (set_state l r (Some (default (initial l r) (f l r))) f) ∧
    selectors s' !! addr_key l r = Some sel ∧ cell (objects s') sel = Some (default (initial l r) (f l r)).
Proof.
  intros [Hs Hd]. unfold getSelector. rewrite (bind_ok (gets selectors) _ s (selectors s) s) by done.
  pose proof (Hs l r) as Hlr. destruct (selectors s !! addr_key l r) as [sel|] eqn:E.
  - destruct Hlr as (st & Hst & Hf). exists sel, s. rewrite Hf. split_and!; [done| |done..].
    split; [|exact Hd]. intros l' r'. pose proof (Hs l' r') as Hlr'. unfold set_state.
    case_decide as Hd'; [destruct Hd' as [-> ->]|exact Hlr']. rewrite E. eauto.
  - rewrite Hlr. destruct (fn_law l r (objects s)) as (sel & w' & R & Hn & Hnew & Ho).
    assert (on_objects (fn l r) s = (Ok sel, s <| objects := w' |>)) as R' by (unfold on_objects, zoom; by rewrite R).
    rewrite (bind_ok _ _ _ _ _ R'). do 2 eexists. split; [reflexivity|]. simpl.
    split_and!; [|by rewrite lookup_insert_eq|done].
    assert (∀ l' r' sel', selectors s !! addr_key l' r' = Some sel' → sel' ≠ sel) as Hne.
    { intros l' r' sel' E' ->. pose proof (Hs l' r') as Hlr'. rewrite E' in Hlr'.
      destruct Hlr' as (st & Hst & _). by rewrite Hst in Hn. }
    split; simpl.
    + intros l' r'. unfold set_state. case_decide as Hd'.
      * destruct Hd' as [-> ->]. rewrite lookup_insert_eq. eauto.
      * rewrite lookup_insert_ne by by apply key_ne. pose proof (Hs l' r') as Hlr'.
        destruct (selectors s !! addr_key l' r') as [sel'|] eqn:E'; [|done].
        rewrite Ho by by eapply Hne. done.
    + intros l1 r1 l2 r2 sel'. destruct (decide (l1 = l ∧ r1 = r)) as [[-> ->]|N1], (decide (l2 = l ∧ r2 = r)) as [[-> ->]|N2];
        rewrite ?lookup_insert_eq, ?(lookup_insert_ne _ _ (addr_key l1 r1)), ?(lookup_insert_ne _ _ (addr_key l2 r2)) by by apply key_ne.
      * done.
      * intros [= <-] E2. by destruct (Hne _ _ _ E2).
      * intros E1 [= <-]. by destruct (Hne _ _ _ E1).
      * apply Hd.
Qed.

Lemma serve_holds q l r (s : SS) f :
  holds s f →
  (served q l r s).1 = (local_serve q l r (f l r)).1 ∧
  ∀ a s', served q l r s = (Ok a, s') → holds s' (set_state l r (local_serve q l r (f l r)).2 f).
Proof.
  intros Hs. rewrite serve_alt. destruct (getSelector_holds l r s f Hs) as (sel & s1 & R & [H1 D1] & Hsel & Hc).
  rewrite (bind_ok _ _ _ _ _ R). set (st := default (initial l r) (f l r)) in *.
  destruct (operate_law sel q l r (objects s1) st Hc) as (Ho & Hst & Hne).
  unfold local_serve. fold st. destruct (operate q l r st) as [res' st'] eqn:Eo. simpl in Ho, Hst.
  unfold mbind, GoM_bind, on_objects, zoom.
  destruct (serve_object sel q l r (objects s1)) as [res w'] eqn:Es. simpl in *. subst res'.
  destruct res as [a| | |]; [|by split..]. split; [by destruct q|]. intros a' s' R'.
  assert (∀ o, (o = Some sel ∨ o = None) → ∀ s2 : SS, objects s2 = w' →
    selectors s2 = partial_alter (λ _, o) (addr_key l r) (selectors s1) →
    holds s2 (set_state l r ((λ _, st') <$> o) f)) as Hres.
  { intros o Ho s2 E1 E2. split.
    - intros l' r'. rewrite E1, E2. destruct (decide (l' = l ∧ r' = r)) as [[-> ->]|N].
      + rewrite lookup_partial_alter_eq, set_state_eq. destruct Ho as [->| ->]; simpl; eauto.
      + rewrite lookup_partial_alter_ne, set_state_ne by (done || by apply key_ne).
        pose proof (H1 l' r') as Hl. rewrite set_state_ne in Hl by done.
        destruct (selectors s1 !! addr_key l' r') as [sel'|] eqn:E'; [|done]. rewrite Hne; [done|].
        intros ->. destruct (D1 l r l' r' sel Hsel E') as [-> ->]. by apply N.
    - intros l1 r1 l2 r2 sel'. rewrite E2. destruct Ho as [->| ->].
      + change (partial_alter _ _ _) with (<[addr_key l r := sel]> (selectors s1)). rewrite insert_id by done. apply D1.
      + intros [_ E1']%lookup_delete_Some [_ E2']%lookup_delete_Some. by eapply D1. }
  destruct q; injection R' as <- <-;
    try exact (Hres (Some sel) (or_introl eq_refl) (mk_serverSelector (selectors s1) w') eq_refl (eq_sym (insert_id (selectors s1) _ _ Hsel))).
  exact (Hres None (or_intror eq_refl) (mk_serverSelector (delete (addr_key l r) (selectors s1)) w') eq_refl eq_refl).
Qed.

Definition answers (reqs : list (request * UDPAddr * UDPAddr)) : GoM SS (list (option PanPath * error)) :=
  go_map (λ '(q, l, r), served q l r) reqs.

(** A connection's own requests, and the answers to them. *)
Definition of_connection (l r : UDPAddr) (q : request * UDPAddr * UDPAddr) : Prop := q.1.2 = l ∧ q.2 = r.
#[export] Instance of_connection_dec l r q : Decision (of_connection l r q).
Proof. unfold of_connection. apply _. Defined.
Definition own_answers (l r : UDPAddr) (reqs : list (request * UDPAddr * UDPAddr))
    (rs : list (option PanPath * error)) : list (option PanPath * error) :=
  (filter (λ x, of_connection l r x.1) (zip reqs rs)).*2.

Lemma answers_alone l r reqs (s t : SS) f g rs s' :
  holds s f → holds t g → f l r = g l r → answers reqs s = (Ok rs, s') →
  (answers (filter (of_connection l r) reqs) t).1 = Ok (own_answers l r reqs rs).
Proof.
  revert s t f g rs s'. induction reqs as [|[[q l'] r'] reqs IH]; intros s t f g rs s' Hs Ht Hfg R.
  { apply ret_inv in R as [-> _]. done. }
  unfold answers in R. cbn [go_map] in R.
  apply bind_inv in R as (a & s1 & R1 & R). apply bind_inv in R as (rs1 & s2 & R2 & [-> ->]%ret_inv).
  destruct (serve_holds q l' r' s f Hs) as [Ha Hs1]. specialize (Hs1 _ _ R1). rewrite R1 in Ha. simpl in Ha.
  unfold own_answers. cbn [zip zip_with]. rewrite filter_cons. destruct (decide (of_connection l r (q, l', r'))) as [[E1 E2]|N].
  - simpl in E1, E2. subst l' r'. rewrite filter_cons_True by done.
    destruct (serve_holds q l r t g Ht) as [Hb Ht1]. rewrite <-Hfg in Hb, Ht1. rewrite <-Ha in Hb.
    destruct (served q l r t) as [res t1] eqn:Et. simpl in Hb. subst res. specialize (Ht1 _ _ eq_refl).
    assert (set_state l r (local_serve q l r (f l r)).2 f l r
            = set_state l r (local_serve q l r (f l r)).2 g l r) as Hfg1 by by rewrite !set_state_eq.
    specialize (IH _ _ _ _ _ _ Hs1 Ht1 Hfg1 R2).
    unfold answers. cbn [go_map]. rewrite (bind_ok _ _ _ _ _ Et). unfold mbind, GoM_bind.
    fold (answers (filter (of_connection l r) reqs)). destruct (answers _ t1) as [res t2]. simpl in IH. by subst res.
  - rewrite filter_cons_False by done.
    apply (IH s1 t _ g rs1 s2 Hs1 Ht); [|exact R2]. rewrite set_state_ne; [exact Hfg|].
    intros [-> ->]. by apply N.
Qed.

Lemma holds_new w : holds (NewServerSelectorFunc w) (λ _ _, None).
Proof. split; [intros l r; simpl; by rewrite lookup_empty|]. intros l r l' r' sel E. simpl in E. by rewrite lookup_empty in E. Qed.
End Connections.

(** ** Property *)
Section Claims.
Context `{Pan} {W Sel St : Type} `{!SelectorObject W Sel} (fn : UDPAddr → UDPAddr → GoM W Sel).
Context `{!IndependentObjects W Sel St fn}.

(** Connections do not disturb each other at the daemon's default selector:
    when the selector objects are independent and the printed pair of addresses
    identifies a connection, the answers a connection gets among any requests of
    any other connections are those its own requests get alone. *)
Theorem connections_independent w (reqs : list (request * UDPAddr * UDPAddr)) rs s l r :
  key_injective → answers fn reqs (NewServerSelectorFunc w) = (Ok rs, s) →
  (answers fn (filter (of_connection l r) reqs) (NewServerSelectorFunc w)).1 = Ok (own_answers l r reqs rs).
Proof.
  intros Hk R. by eapply (answers_alone fn Hk l r reqs _ _ (λ _ _, None) (λ _ _, None)); [apply holds_new..| |].
Qed.
End Claims.

(** ** Witness: selectors in a list *)
Module SampleConnections.
#[global] Existing Instance SamplePan.pan.
Abbreviation paths := (list (option PanPath)).

Definition fn (l r : UDPAddr) : GoM (list paths) nat := λ w, (Ok (length w), w ++ [[]]).

#[global] Instance object : SelectorObject (list paths) nat := {
  obj_Initialize n _ _ ps := modify (alter (λ _, ps) n);
  obj_SetPreferences n p := mret None;
  obj_Path n := gets (λ w, w !! n ≫= λ ps, mjoin (head ps));
  obj_PathDown n fp _ := modify (alter (filter (λ p, pp_Fingerprint <$> p ≠ Some fp)) n);
  obj_Refresh n ps := modify (alter (λ _, ps) n);
  obj_Close n := mret None
}.

Definition operate (q : request) (l r : UDPAddr) (st : paths)
    : outcome (option PanPath * error) * paths :=
  match q with
  | RInitialize _ ps | RRefresh ps => (Ok (None, None), ps)
  | RPath => (Ok (mjoin (head st), None), st)
  | RPathDown fp _ => (Ok (None, None), filter (λ p, pp_Fingerprint <$> p ≠ Some fp) st)
  | _ => (Ok (None, None), st)
  end.

#[global] Instance independent : IndependentObjects (list paths) nat paths fn.
Proof.
  refine {| cell w n := w !! n; initial _ _ := []; Connections.operate := operate |}.
  - intros n q l r w st Hst. destruct q; simpl; rewrite ?Hst; split_and!; try done;
      rewrite ?list_lookup_alter_eq, ?Hst; try done; intros n' Hn; by rewrite list_lookup_alter_ne.
  - intros l r w. exists (length w), (w ++ [[]]). split_and!; [done|by apply lookup_ge_None_2| |].
    + by apply list_lookup_middle.
    + intros n' Hn. destruct (decide (n' < length w)) as [Hl|Hl]; [by apply lookup_app_l|].
      rewrite !lookup_ge_None_2; [done|lia|rewrite length_app; simpl; lia].
Defined.

(** A client and another one, in turns. *)
Definition requests : list (request * UDPAddr * UDPAddr) := [
  (RInitialize None [Some (SamplePan.path "x" 7)], SamplePan.ClientA, SamplePan.Server);
  (RInitialize None [Some (SamplePan.path "y" 8)], SamplePan.ClientB, SamplePan.Server);
  (RPath, SamplePan.ClientA, SamplePan.Server);
  (RClose, SamplePan.ClientB, SamplePan.Server);
  (RPath, SamplePan.ClientA, SamplePan.Server)
].
End SampleConnections.

Lemma connections_independent_witness :
  let alone := filter (of_connection SamplePan.ClientA SamplePan.Server) SampleConnections.requests in
  length alone = 3 ∧
  (answers SampleConnections.fn alone (NewServerSelectorFunc [])).1
  = Ok [(None, None); (Some (SamplePan.path "x" 7), None); (Some (SamplePan.path "x" 7), None)].
Proof.
  intros alone. split; [vm_compute; reflexivity|].
  set (rs := [(None, None); (None, None); (Some (SamplePan.path "x" 7), None); (None, None);
              (Some (SamplePan.path "x" 7), None)] : list (option PanPath * error)).
  set (run := answers SampleConnections.fn SampleConnections.requests (NewServerSelectorFunc [])).
  assert (run.1 = Ok rs) as R by (vm_compute; reflexivity).
  refine (connections_independent SampleConnections.fn [] SampleConnections.requests rs run.2
    SamplePan.ClientA SamplePan.Server sample_key_injective _).
  apply injective_projections; [exact R|reflexivity].
Defined.
