(* ===== verification/Sessions.v ===== *)
(** * Sessions that run at the same time (rpc/selector.go, serverSelector)

    net/rpc serves every request in a goroutine of its own, and nothing guards
    the map of serverSelector. A connection that waits for the answer to a request
    before it sends the next is one goroutine, its session. Sessions of different
    connections can race for the map (first_requests_race). As long as they do not,
    they do not disturb each other, however their actions interleave. *)

From S2P Require Import Prelude Threads Races Enums Taps PanPath ServerSelector ServerThreads Connections.

(** ** Sequencing of programs *)
Section Sequencing.
Context {S A B : Type}.

Fixpoint prog_bind (p : prog S A) (f : A → prog S B) : prog S B :=
  match p with
  | Done a => f a
  | Act x m k => Act x m (λ b, prog_bind (k b) f)
  end.

Lemma run_prog_bind p f s : run (prog_bind p f) s = (run p ≫= λ a, run (f a)) s.
Proof.
  revert s. induction p as [a|T x m k IH]; intros s; [done|]. simpl. rewrite bind_assoc.
  apply bind_ext. intros b s1. apply IH.
Qed.
End Sequencing.

(** ** The sessions *)
Section Sessions.
Context `{Pan} {W Sel St : Type} `{!SelectorObject W Sel} (fn : UDPAddr → UDPAddr → GoM W Sel).
Abbreviation SS := (serverSelector (W := W) (Sel := Sel)).
Abbreviation results := (list (option PanPath * error)).

(** The requests of a connection, each sent when the one before is answered. *)
Fixpoint session_from (l r : UDPAddr) (qs : list request) (answered : results) : prog SS results :=
  match qs with
  | [] => Done answered
  | q :: qs => prog_bind (method_actions fn q l r) (λ a, session_from l r qs (answered ++ [a]))
  end.
Definition session (l r : UDPAddr) (qs : list request) : prog SS results := session_from l r qs [].

(** A connection: its addresses and its requests. *)
Abbreviation connection := (UDPAddr * UDPAddr * list request)%type.
Definition session_of (c : connection) : prog SS results := session c.1.1 c.1.2 c.2.

(** What the connection's requests get alone. *)
Definition alone (c : connection) (w : W) : outcome results :=
  (run (session_of c) (NewServerSelectorFunc w)).1.

Context `{!IndependentObjects W Sel St fn} (Hkey : key_injective).

(** The session on the state of its own selector. *)
Fixpoint local_from (l r : UDPAddr) (qs : list request) (answered : results) : GoM (option St) results :=
  match qs with
  | [] => mret answered
  | q :: qs => a ← local_serve fn q l r; local_from l r qs (answered ++ [a])
  end.

Lemma session_local l r qs answered (s : SS) f :
  holds fn s f → (run (session_from l r qs answered) s).1 = (local_from l r qs answered (f l r)).1.
Proof.
  revert answered s f. induction qs as [|q qs IH]; intros answered s f Hs; [done|].
  cbn [session_from local_from]. rewrite run_prog_bind. unfold mbind at 1, GoM_bind at 1.
  rewrite method_actions_run. destruct (serve_holds fn Hkey q l r s f Hs) as [H1 H2].
  unfold mbind, GoM_bind. destruct (local_serve fn q l r (f l r)) as [res o] eqn:El. cbn [fst snd] in H1, H2.
  destruct (serve (ServerSelector0 := serverSelector_interface fn) q l r s) as [res' s1]. cbn [fst] in H1. subst res'. destruct res as [a| | |]; [|done..].
  specialize (H2 _ _ eq_refl). rewrite (IH _ _ _ H2). by rewrite set_state_eq.
Qed.

Lemma alone_local c w : alone c w = (local_from c.1.1 c.1.2 c.2 [] None).1.
Proof. unfold alone, session_of, session. by rewrite (session_local _ _ _ _ _ _ (holds_new fn w)). Qed.

(** ** A session among others *)

(** A request's actions once it has its selector. *)
Definition call (q : request) (l r : UDPAddr) (selector : Sel) : prog SS (option PanPath * error) :=
  Act NoMap (on_objects (serve_object selector q l r)) (λ res,
    match q with
    | RClose => Act Writes (modify (λ s, s <| selectors := delete (addr_key l r) (selectors s) |>)) (λ _, Done res)
    | _ => Done res
    end).
Definition next_requests (l r : UDPAddr) (qs : list request) (answered : results)
    (a : option PanPath * error) : prog SS results := session_from l r qs (answered ++ [a]).

Definition enter (l r : UDPAddr) (sel : Sel) : GoM SS unit :=
  modify (λ s, s <| selectors := <[addr_key l r := sel]> (selectors s) |>).

(** What the state has of a connection: its entry, and the state of its selector. *)
Definition entry (l r : UDPAddr) (s : SS) (own : option Sel) (o : option St) : Prop :=
  selectors s !! addr_key l r = own ∧
  match own with
  | Some sel => is_Some o ∧ cell (objects s) sel = o
  | None => o = None
  end.

(** How far the session is, which selector is its own, and that it is on the way
    to the results [T]: before a request, having found no selector, having made
    one, having got one, and having closed it. *)
Inductive phase (l r : UDPAddr) (T : outcome results) (s : SS) : option Sel → prog SS results → Prop :=
  | phase_ready qs answered own o p :
      p = session_from l r qs answered → entry l r s own o →
      T = (local_from l r qs answered o).1 → phase l r T s own p
  | phase_missing q qs answered p :
      p = Act NoMap (on_objects (fn l r)) (λ sel, Act Writes (enter l r sel) (λ _,
            prog_bind (call q l r sel) (next_requests l r qs answered))) →
      entry l r s None None → T = (local_from l r (q :: qs) answered None).1 → phase l r T s None p
  | phase_made q qs answered sel p :
      p = Act Writes (enter l r sel) (λ _, prog_bind (call q l r sel) (next_requests l r qs answered)) →
      entry l r s None None → cell (objects s) sel = Some (initial l r) →
      T = (local_from l r (q :: qs) answered None).1 → phase l r T s (Some sel) p
  | phase_called q qs answered sel o p :
      p = prog_bind (call q l r sel) (next_requests l r qs answered) →
      entry l r s (Some sel) (Some (default (initial l r) o)) →
      T = (local_from l r (q :: qs) answered o).1 → phase l r T s (Some sel) p
  | phase_closed qs answered a sel p :
      p = Act Writes (modify (λ s, s <| selectors := delete (addr_key l r) (selectors s) |>))
            (λ _, next_requests l r qs answered a) →
      is_Some (cell (objects s) sel) →
      T = (local_from l r qs (answered ++ [a]) None).1 → phase l r T s (Some sel) p.

Lemma phase_owns l r T s sel p : phase l r T s (Some sel) p → is_Some (cell (objects s) sel).
Proof.
  intros Hp. remember (Some sel) as own eqn:E. destruct Hp as [? ? ? o ? ? [_ H2]| |? ? ? ? ? ? ? H2|? ? ? ? ? ? ? [_ H2]|];
    simplify_eq; [by destruct H2 as [Ho ->]|by rewrite H2|by destruct H2 as [_ ->]|done].
Qed.

(** Other sessions do not touch the entry and the selector. *)
Lemma phase_frame l r T s s' own p :
  phase l r T s own p → selectors s' !! addr_key l r = selectors s !! addr_key l r →
  (∀ sel, own = Some sel → cell (objects s') sel = cell (objects s) sel) → phase l r T s' own p.
Proof.
  intros Hp Hk Hc.
  assert (∀ own' o, own' = own ∨ own' = None → entry l r s own' o → entry l r s' own' o) as He.
  { intros own' o Ho [H1 H2]. split; [by rewrite Hk|]. destruct own' as [sel|]; [|done].
    destruct Ho as [Ho|]; [|done]. by rewrite (Hc sel (eq_sym Ho)). }
  destruct Hp; [eapply phase_ready|eapply phase_missing|eapply phase_made|eapply phase_called|eapply phase_closed];
    eauto; by rewrite Hc.
Qed.

Lemma local_from_call q l r qs answered o a st :
  operate q l r (default (initial l r) o) = (Ok a, st) →
  (local_from l r (q :: qs) answered o).1
  = (local_from l r qs (answered ++ [a]) (match q with RClose => None | _ => Some st end)).1.
Proof. intros R. simpl. unfold mbind, GoM_bind, local_serve. by rewrite R. Qed.

(** What an action of the session [l, r] leaves to the others. *)
Definition apart (l r : UDPAddr) (own own' : option Sel) (s s' : SS) : Prop :=
  (∀ l' r', ¬ (l' = l ∧ r' = r) → selectors s' !! addr_key l' r' = selectors s !! addr_key l' r') ∧
  (∀ sel, is_Some (cell (objects s) sel) → own ≠ Some sel → cell (objects s') sel = cell (objects s) sel) ∧
  (∀ sel, own' = Some sel → own = Some sel ∨ cell (objects s) sel = None).

Lemma apart_refl l r own s : apart l r own own s s.
Proof. split_and!; auto. Qed.

Lemma apart_entry l r (f : option Sel → option Sel) own own' s :
  (own' = own ∨ own' = None) →
  apart l r own own' s (s <| selectors := partial_alter f (addr_key l r) (selectors s) |>).
Proof.
  intros Ho. split_and!; simpl; [|done|intros sel ->; destruct Ho; [by left|done]].
  intros l' r' Hn. apply lookup_partial_alter_ne. intros [-> ->]%Hkey. by apply Hn.
Qed.

Lemma phase_step l r T s own p p' s' :
  phase l r T s own p → advance p s = (Ok p', s') →
  ∃ own', phase l r T s' own' p' ∧ apart l r own own' s s'.
Proof.
  intros Hp R. destruct Hp as [qs ans own o p -> He HT|q qs ans p -> He HT|q qs ans sel p -> He Hc HT
                              |q qs ans sel o p -> He HT|qs ans a sel p -> Hc HT].
  - destruct qs as [|q qs]; [discriminate R|]. injection R as <- <-. destruct He as [H1 H2]. rewrite H1.
    exists own. split; [|apply apart_refl]. destruct own as [sel|].
    + eapply (phase_called _ _ _ _ q qs ans sel o); [done|split; [done|]|done]. destruct H2 as [[st ->] H2]. eauto.
    + subst o. by eapply (phase_missing _ _ _ _ q qs ans).
  - apply bind_inv in R as (sel & s1 & R & [-> ->]%ret_inv). unfold on_objects, zoom in R.
    destruct (fn_law l r (objects s)) as (sel' & w' & R' & Hn & Hnew & Ho). rewrite R' in R. injection R as <- <-.
    exists (Some sel'). split; [by eapply (phase_made _ _ _ _ q qs ans sel')|].
    split_and!; simpl; [done| |intros sel [= <-]; by right].
    intros sel Hs _. apply Ho. intros ->. rewrite Hn in Hs. by destruct Hs.
  - injection R as <- <-. exists (Some sel). split; [|by apply (apart_entry l r (λ _, Some sel)); left].
    eapply (phase_called _ _ _ _ q qs ans sel None); [done| |done]. split; simpl; [apply lookup_insert_eq|eauto].
  - destruct He as [H1 [_ H2]]. destruct (operate_law sel q l r (objects s) _ H2) as (E1 & E2 & E3).
    apply bind_inv in R as (a & s1 & R & [-> ->]%ret_inv). unfold on_objects, zoom in R.
    destruct (serve_object sel q l r (objects s)) as [res w'] eqn:Es. injection R as -> <-. simpl in E1, E2, E3.
    destruct (operate q l r (default (initial l r) o)) as [res' st] eqn:Eo. simpl in E1, E2. subst res'.
    rewrite (local_from_call _ _ _ _ _ _ _ _ Eo) in HT.
    exists (Some sel). split; [|split_and!; simpl; [done| |by left]].
    2: { intros sel' _ Hne. apply E3. intros ->. by apply Hne. }
    assert (entry l r (s <| objects := w' |>) (Some sel) (Some st)) as He by (split; simpl; eauto).
    destruct q; [by eapply phase_ready..|]. by eapply phase_closed; [done|eexists|].
  - injection R as <- <-. exists None. split; [|by apply (apart_entry l r (λ _, None)); right].
    eapply (phase_ready _ _ _ _ qs (ans ++ [a]) None None); [done| |done]. split; simpl; [apply lookup_delete_eq|done].
Qed.

(** A session that alone gets its results is never stuck. *)
Lemma phase_progress l r T s own p :
  phase l r T s own p → is_Some (match T with Ok rs => Some rs | _ => None end) →
  (∃ rs, p = Done rs ∧ T = Ok rs) ∨ ∃ p' s', advance p s = (Ok p', s').
Proof.
  intros Hp [rs HT]. destruct T as [rs'| | |] eqn:ET; try discriminate HT.
  destruct Hp as [qs ans own o p -> He HT'|q qs ans p -> He HT'|q qs ans sel p -> He Hc HT'
                 |q qs ans sel o p -> He HT'|qs ans a sel p -> Hc HT'].
  - destruct qs as [|q qs]; [left; by eexists|right; do 2 eexists; reflexivity].
  - right. destruct (fn_law l r (objects s)) as (sel & w' & R & _). cbn [advance].
    do 2 eexists. unfold mbind, GoM_bind, on_objects, zoom. rewrite R. reflexivity.
  - right. do 2 eexists. reflexivity.
  - right. destruct He as [H1 [_ H2]]. destruct (operate_law sel q l r (objects s) _ H2) as (E1 & _).
    simpl in HT'. unfold mbind, GoM_bind, local_serve in HT'.
    destruct (operate q l r (default (initial l r) o)) as [res st]. simpl in E1.
    destruct res as [a| | |]; [|discriminate HT'..]. cbn [call prog_bind advance]. unfold mbind, GoM_bind, on_objects, zoom.
    destruct (serve_object sel q l r (objects s)) as [res' w']. simpl in E1. subst res'. eauto.
  - right. do 2 eexists. reflexivity.
Qed.

(** ** All sessions *)

(** Every session is in a phase, and no two have the same selector. *)
Definition in_phases (w : W) (jobs : list connection) (c : list (prog SS results) * SS) : Prop :=
  length c.1 = length jobs ∧ ∃ owns : nat → option Sel,
    (∀ i j p, jobs !! i = Some j → c.1 !! i = Some p →
       phase j.1.1 j.1.2 (alone j w) c.2 (owns i) p) ∧
    (∀ i j sel, is_Some (jobs !! i) → is_Some (jobs !! j) →
       owns i = Some sel → owns j = Some sel → i = j).

Lemma in_phases_start w jobs : in_phases w jobs (session_of <$> jobs, NewServerSelectorFunc w).
Proof.
  split; [apply length_fmap|]. exists (λ _, None). split; [|done]. intros i j p Hj Hp. simpl in Hp.
  rewrite list_lookup_fmap, Hj in Hp. injection Hp as <-.
  by apply (phase_ready _ _ _ _ j.2 [] None None); [|split; [apply lookup_empty|]|apply alone_local].
Qed.

Lemma in_phases_step w jobs c c' :
  NoDup jobs.*1 → in_phases w jobs c → step c c' → in_phases w jobs c'.
Proof.
  intros Hnd [Hl (owns & Hp & Hd)] Hs. destruct Hs as [ts s i p p' s' Hi R]. simpl in *.
  assert (is_Some (jobs !! i)) as [[[l r] qs] Hj].
  { apply lookup_lt_is_Some. rewrite <-Hl. by eapply lookup_lt_Some. }
  destruct (phase_step _ _ _ _ _ _ _ _ (Hp i _ p Hj Hi) R) as (own' & Hp' & Hk & Hc & Hn). simpl in *.
  split; [simpl; by rewrite length_insert|]. exists (λ k, if decide (k = i) then own' else owns k). simpl.
  assert (∀ k sel, is_Some (jobs !! k) → k ≠ i → owns k = Some sel →
    is_Some (cell (objects s) sel) ∧ owns i ≠ Some sel ∧ own' ≠ Some sel) as Hother.
  { intros k sel [j Hjk] Hne Hk'. destruct (lookup_lt_is_Some_2 ts k) as [q Hq].
    { rewrite Hl. by eapply lookup_lt_Some. }
    pose proof (Hp k j q Hjk Hq) as Hph. rewrite Hk' in Hph. apply phase_owns in Hph.
    assert (owns i ≠ Some sel) as Hi' by (intros Hi'; apply Hne; eapply Hd; eauto).
    split_and!; [done..|]. intros [Ho|Ho]%Hn; [done|]. rewrite Ho in Hph. by destruct Hph. }
  split.
  - intros k j q Hjk Hq. case_decide as Hki.
    + subst k. rewrite list_lookup_insert_eq in Hq by by eapply lookup_lt_Some. by simplify_eq.
    + rewrite list_lookup_insert_ne in Hq by done. eapply phase_frame; [by apply Hp| |].
      * apply Hk. intros [E1 E2]. apply Hki. eapply (NoDup_lookup jobs.*1); [done|..];
          rewrite list_lookup_fmap, ?Hjk, ?Hj; [|done]. simpl. rewrite <-E1, <-E2. by destruct j.1.
      * intros sel Ho. destruct (Hother k sel) as (? & ? & _); eauto.
  - intros k1 k2 sel H1 H2. case_decide as E1; case_decide as E2; intros O1 O2; [congruence|..|by eapply Hd].
    + destruct (Hother k2 sel H2 E2 O2) as (_ & _ & Hf). by destruct Hf.
    + destruct (Hother k1 sel H1 E1 O1) as (_ & _ & Hf). by destruct Hf.
Qed.

Lemma in_phases_run w jobs c c' :
  NoDup jobs.*1 → rtc step c c' → in_phases w jobs c → in_phases w jobs c'.
Proof. intros Hnd Hs. induction Hs; eauto using in_phases_step. Qed.

(** A session that has finished has the results it gets alone. *)
Lemma phase_done l r T s own rs : phase l r T s own (Done rs) → T = Ok rs.
Proof.
  intros Hp. remember (Done rs : prog SS results) as p eqn:E. destruct Hp as [qs ans own o p -> He ->|q qs ans p Ep|q qs ans sel p Ep
    |q qs ans sel o p Ep|qs ans a sel p Ep]; [|rewrite Ep in E; discriminate E..].
  destruct qs as [|q qs]; [by injection E as <-|discriminate E].
Qed.
End Sessions.

(** ** Property *)
Section Claims.
Context `{Pan} {W Sel St : Type} `{!SelectorObject W Sel} (fn : UDPAddr → UDPAddr → GoM W Sel).
Context `{!IndependentObjects W Sel St fn}.

(** C16: Sessions of different connections at the daemon's default selector, each
    of which sends a request when the one before is answered, run at the same time
    and interleave in any order. Its map has no mutex: an access of it begins and
    ends, and one that begins while a conflicting one is under way is a data race,
    which Go may answer by ending the process, so that nothing is said of what
    follows. In every run up to a race, with independent selector objects and
    printed pairs of addresses that identify a connection: a session that has
    finished has got exactly the answers its requests get alone; and if all
    sessions return alone, there is always a way for some session to go on without
    a race, until all have finished. *)
Theorem sessions_independent w jobs ts s :
  key_injective → NoDup jobs.*1 →
  rtc step (split <$> (session_of fn <$> jobs), unraced (NewServerSelectorFunc w)) (ts, s) →
  (∀ i c rs, jobs !! i = Some c → ts !! i = Some (Done rs) → alone fn c w = Ok rs) ∧
  ((∀ c, c ∈ jobs → ∃ rs, alone fn c w = Ok rs) →
   Forall (λ p, ∃ rs, p = Done rs) ts ∨ ∃ c', step (ts, s) c').
Proof.
  intros Hk Hnd R. destruct (tracks_run _ _ _ _ (tracks_start _ _) R) as (qs & xs & Ht & Ra).
  pose proof (in_phases_run fn Hk w jobs _ _ Hnd Ra (in_phases_start fn Hk w jobs)) as [Hl (owns & Hp & _)].
  simpl in *. destruct (tracks_length _ _ _ Ht) as [_ H2]. simpl in H2. split.
  - intros i c rs Hc Hi. destruct (lookup_lt_is_Some_2 qs i) as [q Hq]; [rewrite <-H2; by eapply lookup_lt_Some|].
    pose proof (tracks_done _ _ _ _ _ _ _ Ht Hi Hq) as ->. eapply phase_done, Hp; done.
  - intros Hret. apply (tracks_live _ _ _ _ Ht). intros i q Hq.
    destruct (lookup_lt_is_Some_2 jobs i) as [c Hc]; [rewrite <-Hl; by eapply lookup_lt_Some|].
    destruct (Hret c) as [rs Hrs]; [by eapply list_elem_of_lookup_2|]. pose proof (Hp i c q Hc Hq) as Hph. rewrite Hrs in Hph.
    destruct (phase_progress _ _ _ _ _ _ _ Hph) as [(rs' & -> & _)|Ha]; [by eexists|left; by eexists|by right].
Qed.
End Claims.

(** ** Witness: two new connections *)
Module SampleSessions.
Abbreviation jobs := [
  (SamplePan.ClientA, SamplePan.Server, [RInitialize None [Some (SamplePan.path "x" 7)]; RPath]);
  (SamplePan.ClientB, SamplePan.Server, [RInitialize None [Some (SamplePan.path "y" 8)]; RClose])
].

(** Both look into the map before either has made a selector, and so on. *)
Definition order : list nat := [0; 1; 0; 1; 1; 0; 0; 1; 1; 0; 1; 0; 1].

Definition results_a : list (option PanPath * error) := [(None, None); (Some (SamplePan.path "x" 7), None)].
Definition results_b : list (option PanPath * error) := [(None, None); (None, None)].

Abbreviation start := (session_of SampleConnections.fn <$> jobs, NewServerSelectorFunc []).

Lemma sessions_followed : fst <$> follow order start = Some [Done results_a; Done results_b].
Proof. vm_compute. reflexivity. Qed.
End SampleSessions.

Lemma sessions_independent_witness :
  ∃ s, rtc step (split <$> (session_of SampleConnections.fn <$> SampleSessions.jobs), unraced (NewServerSelectorFunc []))
         ([Done SampleSessions.results_a; Done SampleSessions.results_b], s) ∧
    alone SampleConnections.fn
      (SamplePan.ClientA, SamplePan.Server, [RInitialize None [Some (SamplePan.path "x" 7)]; RPath]) []
    = Ok SampleSessions.results_a.
Proof.
  pose proof SampleSessions.sessions_followed as F.
  destruct (follow SampleSessions.order SampleSessions.start) as [[ts s]|] eqn:E; [|discriminate F].
  injection F as ->. apply follow_steps, split_run in E. exists (unraced s). split; [exact E|].
  refine (proj1 (sessions_independent SampleConnections.fn [] SampleSessions.jobs _ (unraced s)
    sample_key_injective _ E) 0 _ _ _ _); [|reflexivity|reflexivity].
  apply (bool_decide_unpack _). vm_compute. exact I.
Defined.
