(* ===== verification/SelectorServer.v ===== *)
(** * The RPC-facing selector service (rpc/selector.go)

    [SelectorMsg], what gob makes of it on the wire, the six handlers of
    [SelectorServer] and the registry net/rpc builds from them. The handlers
    are stated against any implementation of [ServerSelector]. *)

From S2P Require Import Prelude Enums Taps PanPath GobRpc ServerSelector.

Section Messages.
Context `{Pan}.

Record SelectorMsg := mkSelectorMsg {
  Local_ : option UDPAddr;
  Remote_ : option UDPAddr;
  Msg_Fingerprint : option PathFingerprint;
  Msg_PathInterface : option PathInterface;
  Msg_Preferences : option ConnectionPreferences;
  Msg_Paths : list (option Path)
}.
#[export] Instance eta_SelectorMsg : Eta SelectorMsg := λ m,
  mkSelectorMsg (Local_ m) (Remote_ m) (Msg_Fingerprint m) (Msg_PathInterface m)
    (Msg_Preferences m) (Msg_Paths m).

(** [SelectorMsg{}] *)
Definition empty_SelectorMsg : SelectorMsg := mkSelectorMsg None None None None None [].

(** How gob sends the types of pan: parameters. *)
Class PanCodecs := {
  gob_UDPAddr : codec UDPAddr;
  gob_PathInterface : codec PathInterface;
  gob_Path : codec Path
}.

(** They arrive as they were sent. *)
Class PanFaithful `{PanCodecs} : Prop := {
  UDPAddr_faithful : faithful gob_UDPAddr;
  PathInterface_faithful : faithful gob_PathInterface;
  Path_faithful : faithful gob_Path
}.

(** gob on a SelectorMsg. The fingerprint is a pointer to a string and is lost
    when the string is empty; ConnectionPreferences is a struct of numbers and
    a flag and always arrives. *)
Definition gob_SelectorMsg `{PanCodecs} : codec SelectorMsg := λ m,
  l ← gob_struct_ptr gob_UDPAddr (Local_ m);
  r ← gob_struct_ptr gob_UDPAddr (Remote_ m);
  pi ← gob_struct_ptr gob_PathInterface (Msg_PathInterface m);
  ps ← gob_ptr_slice gob_Path (Msg_Paths m);
  Some (mkSelectorMsg l r (gob_flat_ptr string_zero (Msg_Fingerprint m)) pi (Msg_Preferences m) ps).

(** A message with non-nil paths that gob delivers unchanged but for an empty
    fingerprint. *)
Lemma gob_SelectorMsg_faithful `{PanFaithful} m ps :
  Msg_Paths m = Some <$> ps →
  gob_SelectorMsg m
  = Some (m <| Msg_Fingerprint := gob_flat_ptr string_zero (Msg_Fingerprint m) |>).
Proof.
  intros Hps. destruct m as [l r fp pi prefs ps']. simpl in Hps. subst ps'.
  unfold gob_SelectorMsg. simpl.
  rewrite !(gob_struct_ptr_faithful _ UDPAddr_faithful),
    (gob_struct_ptr_faithful _ PathInterface_faithful). simpl.
  by rewrite (gob_ptr_slice_Some _ _ Path_faithful).
Qed.
End Messages.

Section Server.
Context `{Pan} {S : Type} `{!ServerSelector S}.

Abbreviation handler := (method S SelectorMsg SelectorMsg).

Definition SelectorServer_Initialize : handler := λ args,
  paths ← PanPaths (Msg_Paths args);
  match Local_ args, Remote_ args with
  | Some local, Some remote =>
      err ← ss_Initialize (Msg_Preferences args) local remote paths;
      mret (err, empty_SelectorMsg)
  | _, _ => mret (Some ErrDeref, empty_SelectorMsg)
  end.

Definition SelectorServer_SetPreferences : handler := λ args,
  match Local_ args, Remote_ args with
  | Some local, Some remote =>
      err ← ss_SetPreferences (Msg_Preferences args) local remote;
      mret (err, empty_SelectorMsg)
  | _, _ => mret (Some ErrDeref, empty_SelectorMsg)
  end.

Definition SelectorServer_Path : handler := λ args,
  match Remote_ args with
  | None => mret (Some ErrDeref, empty_SelectorMsg)
  | Some remote =>
      local ← deref (Local_ args);
      '(p, err) ← ss_Path local remote;
      mret (err, match p with
                 | Some p => empty_SelectorMsg <| Msg_Fingerprint := Some (pp_Fingerprint p) |>
                 | None => empty_SelectorMsg
                 end)
  end.

Definition SelectorServer_PathDown : handler := λ args,
  match Remote_ args, Msg_Fingerprint args, Msg_PathInterface args with
  | Some remote, Some fp, Some pi =>
      local ← deref (Local_ args);
      err ← ss_PathDown local remote fp pi;
      mret (err, empty_SelectorMsg)
  | _, _, _ => mret (Some ErrDeref, empty_SelectorMsg)
  end.

Definition SelectorServer_Refresh : handler := λ args,
  paths ← PanPaths (Msg_Paths args);
  match Remote_ args with
  | None => mret (Some ErrDeref, empty_SelectorMsg)
  | Some remote =>
      local ← deref (Local_ args);
      err ← ss_Refresh local remote paths;
      mret (err, empty_SelectorMsg)
  end.

Definition SelectorServer_Close : handler := λ args,
  match Remote_ args with
  | None => mret (Some ErrDeref, empty_SelectorMsg)
  | Some remote =>
      local ← deref (Local_ args);
      err ← ss_Close local remote;
      mret (err, empty_SelectorMsg)
  end.

(** [rpc.Register(NewSelectorServer(selector))]: net/rpc's method table. *)
Definition SelectorServer_registry (name : string) : option handler :=
  if decide (name = "SelectorServer.Initialize")%string then Some SelectorServer_Initialize else
  if decide (name = "SelectorServer.SetPreferences")%string then Some SelectorServer_SetPreferences else
  if decide (name = "SelectorServer.Path")%string then Some SelectorServer_Path else
  if decide (name = "SelectorServer.PathDown")%string then Some SelectorServer_PathDown else
  if decide (name = "SelectorServer.Refresh")%string then Some SelectorServer_Refresh else
  if decide (name = "SelectorServer.Close")%string then Some SelectorServer_Close else None.

(** ** Which messages a handler rejects, and on which it panics *)
Inductive service : Set :=
  | SvcInitialize | SvcSetPreferences | SvcPath | SvcPathDown | SvcRefresh | SvcClose.

Definition service_name (m : service) : string :=
  match m with
  | SvcInitialize => "SelectorServer.Initialize"
  | SvcSetPreferences => "SelectorServer.SetPreferences"
  | SvcPath => "SelectorServer.Path"
  | SvcPathDown => "SelectorServer.PathDown"
  | SvcRefresh => "SelectorServer.Refresh"
  | SvcClose => "SelectorServer.Close"
  end.

(** The fields whose absence the handler reports. *)
Definition guarded_absent (m : service) (args : SelectorMsg) : bool :=
  bool_decide (Remote_ args = None) ||
  match m with
  | SvcInitialize | SvcSetPreferences => bool_decide (Local_ args = None)
  | SvcPathDown =>
      match Msg_Fingerprint args, Msg_PathInterface args with Some _, Some _ => false | _, _ => true end
  | _ => false
  end.

(** The handlers that convert the message's paths before any guard. *)
Definition reads_paths (m : service) : bool :=
  match m with SvcInitialize | SvcRefresh => true | _ => false end.

(** The request a complete message stands for. *)
Definition service_request (m : service) (args : SelectorMsg) (paths : list (option PanPath))
    : request :=
  match m with
  | SvcInitialize => RInitialize (Msg_Preferences args) paths
  | SvcSetPreferences => RSetPreferences (Msg_Preferences args)
  | SvcPath => RPath
  | SvcPathDown =>
      match Msg_Fingerprint args, Msg_PathInterface args with
      | Some fp, Some pi => RPathDown fp pi
      | _, _ => RClose
      end
  | SvcRefresh => RRefresh paths
  | SvcClose => RClose
  end.

(** The reply to a request's result. *)
Definition service_reply (r : option PanPath * error) : error * SelectorMsg :=
  (r.2, match r.1 with
        | Some p => empty_SelectorMsg <| Msg_Fingerprint := Some (pp_Fingerprint p) |>
        | None => empty_SelectorMsg
        end).
End Server.

(** ** Properties *)
Section Claims.
Context `{Pan} {S : Type} `{!ServerSelector S}.

(** C22: Each of the six handlers, on every message: a nil path among those it
    converts panics first; then an absent guarded field gives ErrDeref and
    leaves the selector alone; then an absent local address panics (four of the
    handlers dereference it without a guard); and a complete message becomes
    exactly one request to the selector, whose result is the reply. *)
Theorem handler_spec (m : service) (args : SelectorMsg) (s : S) :
  ∃ h, SelectorServer_registry (service_name m) = Some h ∧
  h args s =
  match (if reads_paths m then PanPaths (Msg_Paths args) s else (Ok [], s)) with
  | (Ok paths, s) =>
      if guarded_absent m args then (Ok (Some ErrDeref, empty_SelectorMsg), s) else
      match Local_ args, Remote_ args with
      | Some local, Some remote =>
          (service_reply <$> serve (service_request m args paths) local remote) s
      | _, _ => (Panics nil_deref, s)
      end
  | (Panics w, s) => (Panics w, s)
  | (Exits w, s) => (Exits w, s)
  | (Deadlocks, s) => (Deadlocks, s)
  end.
Proof.
  destruct m; (eexists; split; [reflexivity|]);
    unfold SelectorServer_Initialize, SelectorServer_SetPreferences, SelectorServer_Path,
      SelectorServer_PathDown, SelectorServer_Refresh, SelectorServer_Close, guarded_absent,
      service_request, serve, fmap, GoM_fmap, mbind, GoM_bind; simpl;
    try destruct (PanPaths (Msg_Paths args) s) as [[] s'];
    destruct (Remote_ args) as [remote|], (Local_ args) as [local|]; try done;
    try (destruct (Msg_Fingerprint args), (Msg_PathInterface args); try done); simpl;
    match goal with
    | |- context [ss_Path ?l ?r ?s] => by destruct (ss_Path l r s) as [[[]| | |] ?]
    | |- context [match ?m ?s with (_, _) => _ end] => by destruct (m s) as [[]?]
    end.
Qed.
End Claims.
