(* ===== verification/SelectorClient.v ===== *)
(** * The application's side of path selection (rpc/selector.go, SelectorClient)

    The client keeps the paths it was given in a table by fingerprint, sends
    the daemon copies without their forwarding information, and answers Path
    with its own object for the fingerprint the daemon picked. Its state holds
    the link to the server; an RPC error ends the application's process. *)

From S2P Require Import Prelude Enums Taps PanPath GobRpc ServerSelector SelectorServer.

Section Client.
Context `{PanCodecs} {S : Type} `{!ServerSelector S}.

(** [connectionPreferences] is the caller's pointer; [prefs] are the
    preferences objects of the application. *)
Record SelectorClient := mkSelectorClient {
  connectionPreferences : option loc;
  paths : gmap PathFingerprint (option PanPath);
  local : option UDPAddr;
  remote : option UDPAddr;
  prefs : gmap loc ConnectionPreferences;
  link : Link S
}.
#[export] Instance eta_SelectorClient : Eta SelectorClient := λ c,
  mkSelectorClient (connectionPreferences c) (paths c) (local c) (remote c) (prefs c) (link c).

Definition NewSelectorClient (prefs : gmap loc ConnectionPreferences) (l : Link S) : SelectorClient :=
  mkSelectorClient None ∅ None None prefs l.

Definition on_link {A} (m : GoM (Link S) A) : GoM SelectorClient A :=
  zoom link (λ l c, c <| link := l |>) m.

Definition Call (name : string) (msg : SelectorMsg) : GoM SelectorClient (error * SelectorMsg) :=
  on_link (rpc_Call gob_SelectorMsg gob_SelectorMsg SelectorServer_registry empty_SelectorMsg name msg).

(** The preferences a message carries: the object as it is at the call. *)
Definition current_preferences (c : SelectorClient) : option ConnectionPreferences :=
  connectionPreferences c ≫= λ l, prefs c !! l.

(** [for i, p := range paths { s.paths[p.Fingerprint] = p; ps[i] = NewPathFrom(p) }] *)
Definition remember_path (p : option PanPath) : GoM SelectorClient (option Path) :=
  v ← deref p;
  modify (λ c, c <| paths := <[pp_Fingerprint v := p]> (paths c) |>);;
  Some <$> NewPathFrom p.

Definition SelectorClient_Initialize (local_ remote_ : UDPAddr) (ps : list (option PanPath))
    : GoM SelectorClient unit :=
  modify (λ c, c <| remote := Some remote_ |>);;
  modify (λ c, c <| local := Some local_ |>);;
  rps ← go_map remember_path ps;
  c ← get_state;
  or_fatal (Call "SelectorServer.Initialize"
    (mkSelectorMsg (local c) (remote c) None None (current_preferences c) rps));;
  mret tt.

Definition SelectorClient_SetPreferences (p : option loc) : GoM SelectorClient error :=
  modify (λ c, c <| connectionPreferences := p |>);;
  c ← get_state;
  match local c, remote c with
  | Some _, Some _ =>
      fst <$> Call "SelectorServer.SetPreferences"
        (mkSelectorMsg (local c) (remote c) None None (current_preferences c) [])
  | _, _ => mret None
  end.

Definition SelectorClient_Path : GoM SelectorClient (option PanPath) :=
  c ← get_state;
  msg ← or_fatal (Call "SelectorServer.Path"
    (mkSelectorMsg (local c) (remote c) None None None []));
  match Msg_Fingerprint msg with
  | Some fp => c ← get_state; mret (mjoin (paths c !! fp))
  | None => mret None
  end.

Definition SelectorClient_PathDown (fp : PathFingerprint) (pi : PathInterface)
    : GoM SelectorClient unit :=
  modify (λ c, c <| paths := <[fp := None]> (paths c) |>);;
  c ← get_state;
  or_fatal (Call "SelectorServer.PathDown"
    (mkSelectorMsg (local c) (remote c) (Some fp) (Some pi) None []));;
  mret tt.

Definition SelectorClient_Refresh (ps : list (option PanPath)) : GoM SelectorClient unit :=
  rps ← go_map remember_path ps;
  c ← get_state;
  or_fatal (Call "SelectorServer.Refresh" (mkSelectorMsg (local c) (remote c) None None None rps));;
  mret tt.

Definition SelectorClient_Close : GoM SelectorClient error :=
  c ← get_state;
  '(err, _) ← Call "SelectorServer.Close" (mkSelectorMsg (local c) (remote c) None None None []);
  match err with
  | Some e => on_link rpc_Close;; mret (Some e)
  | None => on_link rpc_Close
  end.

(** ** Sequences of operations *)
Inductive operation : Type :=
  | OpInitialize (local remote : UDPAddr) (ps : list (option PanPath))
  | OpSetPreferences (p : option loc)
  | OpPath
  | OpPathDown (fp : PathFingerprint) (pi : PathInterface)
  | OpRefresh (ps : list (option PanPath))
  | OpClose.

(** Run an operation: the result of Path, the error of SetPreferences and of
    Close. *)
Definition perform (o : operation) : GoM SelectorClient (option PanPath * error) :=
  match o with
  | OpInitialize l r ps => SelectorClient_Initialize l r ps;; mret (None, None)
  | OpSetPreferences p => pair None <$> SelectorClient_SetPreferences p
  | OpPath => p ← SelectorClient_Path; mret (p, None)
  | OpPathDown fp pi => SelectorClient_PathDown fp pi;; mret (None, None)
  | OpRefresh ps => SelectorClient_Refresh ps;; mret (None, None)
  | OpClose => pair None <$> SelectorClient_Close
  end.

(** The application has performed [tr] from a new client and is still running;
    between operations it may change its preferences objects, and others use the
    daemon and the link: other applications, this one's tracers. *)
Inductive reaches : list operation → SelectorClient → Prop :=
  | reaches_new ps l : reaches [] (NewSelectorClient ps l)
  | reaches_write tr c ps : reaches tr c → reaches tr (c <| prefs := ps |>)
  | reaches_link tr c lk : reaches tr c → reaches tr (c <| link := lk |>)
  | reaches_step tr c o r c' :
      reaches tr c → perform o c = (Ok r, c') → reaches (tr ++ [o]) c'.

(** *** Which paths are current

    An offer makes a path current for its fingerprint, until the next offer or
    withdrawal of that fingerprint. *)
Inductive event : Type := Offer (p : PanPath) | Withdraw (fp : PathFingerprint).

Definition event_key (e : event) : PathFingerprint :=
  match e with Offer p => pp_Fingerprint p | Withdraw fp => fp end.

Definition event_value (e : event) : option PanPath :=
  match e with Offer p => Some p | Withdraw _ => None end.

Definition events (o : operation) : list event :=
  match o with
  | OpInitialize _ _ ps | OpRefresh ps => omap (option_map Offer) ps
  | OpPathDown fp _ => [Withdraw fp]
  | _ => []
  end.

Definition history (tr : list operation) : list event := mjoin (events <$> tr).

Definition current (es : list event) (p : PanPath) : Prop :=
  ∃ es1 es2, es = es1 ++ Offer p :: es2 ∧ ∀ e, e ∈ es2 → event_key e ≠ pp_Fingerprint p.

(** *** What an operation asks of the daemon *)

(** The operation's effect on the client itself. *)
Definition record_event (t : gmap PathFingerprint (option PanPath)) (e : event)
    : gmap PathFingerprint (option PanPath) := <[event_key e := event_value e]> t.

Definition bookkeeping (o : operation) (c : SelectorClient) : SelectorClient :=
  let c := c <| paths := foldl record_event (paths c) (events o) |> in
  match o with
  | OpInitialize l r _ => c <| remote := Some r |> <| local := Some l |>
  | OpSetPreferences p => c <| connectionPreferences := p |>
  | _ => c
  end.

Definition addresses (c : SelectorClient) : option (UDPAddr * UDPAddr) :=
  l ← local c; r ← remote c; Some (l, r).

(** The request to the daemon's selector, if the message can carry it: paths
    without their forwarding information, no empty fingerprint. *)
Definition operation_request (o : operation) (c : SelectorClient) : option request :=
  match o with
  | OpInitialize _ _ ps => Some (RInitialize (current_preferences c) (option_map without_forwarding <$> ps))
  | OpSetPreferences _ => Some (RSetPreferences (current_preferences c))
  | OpPath => Some RPath
  | OpPathDown fp pi => if string_zero fp then None else Some (RPathDown fp pi)
  | OpRefresh ps => Some (RRefresh (option_map without_forwarding <$> ps))
  | OpClose => Some RClose
  end.

(** A request to a selector at the other end of a link: the error and the
    fingerprint that come back. The daemon's death is an error. *)
Definition serve_remotely (q : option request) (a : option (UDPAddr * UDPAddr))
    : GoM (Link S) (error * option PathFingerprint) := λ lk,
  if negb (up lk) || closing lk then (Ok (Some shut_down, None), lk) else
  match q, a with
  | Some q, Some (l, r) =>
      match serve q l r (server lk) with
      | (Ok (p, e), s) =>
          (Ok (match wire_error e with
               | Some e => (Some e, None)
               | None => (None, gob_flat_ptr string_zero (pp_Fingerprint <$> p))
               end), lk <| server := s |>)
      | (Panics _, s) | (Exits _, s) =>
          (Ok (Some unexpected_EOF, None), lk <| server := s |> <| up := false |> <| dead := true |>)
      | (Deadlocks, s) => (Deadlocks, lk <| server := s |>)
      end
  | _, _ => (Ok (Some ErrDeref, None), lk)
  end.

(** What the operation makes of the answer. *)
Definition conclude (o : operation) (answer : error * option PathFingerprint)
    : GoM SelectorClient (option PanPath * error) :=
  let '(err, fp) := answer in
  match o with
  | OpSetPreferences _ => mret (None, err)
  | OpClose =>
      closed ← on_link rpc_Close;
      mret (None, match err with Some e => Some e | None => closed end)
  | OpPath =>
      match err with
      | Some e => fatal e
      | None => c ← get_state; mret (fp ≫= λ fp, mjoin (paths c !! fp), None)
      end
  | _ => match err with Some e => fatal e | None => mret (None, None) end
  end.

Definition perform_by (call : SelectorClient → GoM (Link S) (error * option PathFingerprint))
    (o : operation) : GoM SelectorClient (option PanPath * error) :=
  modify (bookkeeping o);;
  c ← get_state;
  match o, addresses c with
  | OpSetPreferences _, None => mret (None, None)
  | _, _ => on_link (call c) ≫= conclude o
  end.

(** The specification of an operation: bookkeeping, then one request. *)
Definition perform_spec (o : operation) : GoM SelectorClient (option PanPath * error) :=
  perform_by (λ c, serve_remotely (operation_request o c) (addresses c)) o.

(** No nil path among the operation's arguments. *)
Definition paths_given (o : operation) : Prop :=
  match o with OpInitialize _ _ ps | OpRefresh ps => None ∉ ps | _ => True end.
End Client.
Arguments SelectorClient {_} S.
Arguments mkSelectorClient {_ S} _ _ _ _ _ _.

(** ** Lemmas *)
Section Lemmas.
Context `{PanCodecs} {S : Type} `{!ServerSelector S}.
Abbreviation SC := (SelectorClient S).

#[export] Instance nil_given_dec {A} (ps : list (option A)) : Decision (None ∈ ps).
Proof.
  induction ps as [|[p|] ps [IH|IH]].
  - right. apply not_elem_of_nil.
  - left. by right.
  - right. intros [|]%elem_of_cons; [discriminate|done].
  - left. by left.
  - left. by left.
Defined.

Lemma omap_Offer (qs : list PanPath) : omap (option_map Offer) (Some <$> qs) = Offer <$> qs.
Proof. induction qs as [|q qs IH]; [done|]. simpl. f_equal. exact IH. Qed.

(** The loops of Initialize and Refresh. *)
Lemma remember_paths_run qs (c : SC) :
  go_map remember_path (Some <$> qs) c
  = (Ok (Some ∘ to_rpc <$> qs),
     c <| paths := foldl record_event (paths c) (Offer <$> qs) |>).
Proof.
  revert c. induction qs as [|q qs IH]; intros c; [by destruct c|].
  rewrite !fmap_cons. cbn [go_map]. go_exec by reflexivity. by go_exec by (apply IH).
Qed.

Lemma remember_paths_ok ps (c : SC) ys c' :
  go_map remember_path ps c = (Ok ys, c') → None ∉ ps.
Proof.
  revert c ys c'. induction ps as [|[p|] ps IH]; intros c ys c'; [intros _; apply not_elem_of_nil| |discriminate].
  cbn [go_map]. intros (y & c1 & _ & R)%bind_inv. apply bind_inv in R as (ys' & c2 & R & _).
  apply IH in R. intros [|]%elem_of_cons; [discriminate|done].
Qed.

Lemma or_fatal_inv {B} (m : GoM SC (error * B)) c b c' :
  or_fatal m c = (Ok b, c') → m c = (Ok (None, b), c').
Proof. unfold or_fatal. intros ([[e|] r] & c1 & E & R)%bind_inv; [done|]. apply ret_inv in R as [-> ->]. done. Qed.

(** Only the link changes in a call. *)
Lemma on_link_frame {A} (m : GoM (Link S) A) (c : SC) r c' :
  on_link m c = (r, c') → ∃ lk, c' = c <| link := lk |>.
Proof. unfold on_link, zoom. destruct (m (link c)) as [r' lk]. intros; simplify_eq. eauto. Qed.

(** What each operation sends. *)
Definition operation_call (o : operation) (c : SC) : GoM (Link S) (error * option PathFingerprint) :=
  let call name msg :=
    prod_map id Msg_Fingerprint <$>
      rpc_Call gob_SelectorMsg gob_SelectorMsg SelectorServer_registry empty_SelectorMsg name msg in
  let msg := mkSelectorMsg (local c) (remote c) in
  match o with
  | OpInitialize _ _ ps => call "SelectorServer.Initialize"%string
      (msg None None (current_preferences c) (option_map to_rpc <$> ps))
  | OpSetPreferences _ => call "SelectorServer.SetPreferences"%string
      (msg None None (current_preferences c) [])
  | OpPath => call "SelectorServer.Path"%string (msg None None None [])
  | OpPathDown fp pi => call "SelectorServer.PathDown"%string (msg (Some fp) (Some pi) None [])
  | OpRefresh ps => call "SelectorServer.Refresh"%string (msg None None None (option_map to_rpc <$> ps))
  | OpClose => call "SelectorServer.Close"%string (msg None None None [])
  end.

(** A call whose reply is only asked for its error and its fingerprint. *)
Lemma call_bind {A} name msg (k : error * SelectorMsg → GoM SC A) k' (c : SC) :
  (∀ e m c', k (e, m) c' = k' (e, Msg_Fingerprint m) c') →
  (Call name msg ≫= k) c
  = (on_link (prod_map id Msg_Fingerprint <$>
      rpc_Call gob_SelectorMsg gob_SelectorMsg SelectorServer_registry empty_SelectorMsg name msg)
     ≫= k') c.
Proof.
  intros Hk. unfold Call, on_link, zoom, fmap, GoM_fmap, mbind, GoM_bind.
  destruct (rpc_Call _ _ _ _ name msg (link c)) as [[[e m]| | |] lk]; [apply Hk|done..].
Qed.

Lemma perform_by_run (call : SC → GoM (Link S) (error * option PathFingerprint)) o c :
  perform_by call o c =
  match o, addresses (bookkeeping o c) with
  | OpSetPreferences _, None => mret (None, None)
  | _, _ => on_link (call (bookkeeping o c)) ≫= conclude o
  end (bookkeeping o c).
Proof. by destruct o. Qed.

(** Every operation is its bookkeeping, a call and its conclusion. *)
Lemma perform_alt o (c : SC) :
  paths_given o → perform o c = perform_by (operation_call o) o c.
Proof.
  intros Hps. rewrite perform_by_run.
  destruct o as [l r ps|p| |fp pi|ps|]; unfold perform, bookkeeping, events; simpl.
  - destruct (no_nil ps Hps) as [qs ->]. unfold SelectorClient_Initialize, or_fatal.
    rewrite omap_Offer. do 2 go_exec by reflexivity.
    go_exec by (apply remember_paths_run). rewrite <-list_fmap_compose.
    go_exec by reflexivity. rewrite ?bind_assoc. apply call_bind. by intros [].
  - unfold SelectorClient_SetPreferences, fmap, GoM_fmap. do 2 go_exec by reflexivity.
    unfold addresses. simpl. destruct (local c), (remote c); try done. simpl.
    rewrite ?bind_assoc. apply call_bind. by intros [].
  - unfold SelectorClient_Path, or_fatal. destruct c. go_exec by reflexivity.
    rewrite ?bind_assoc. apply call_bind. intros [] m c'; [done|]. simpl. rewrite bind_ret_l.
    by destruct (Msg_Fingerprint m).
  - unfold SelectorClient_PathDown, or_fatal. do 2 go_exec by reflexivity.
    rewrite ?bind_assoc. apply call_bind. by intros [].
  - destruct (no_nil ps Hps) as [qs ->]. unfold SelectorClient_Refresh, or_fatal.
    rewrite omap_Offer. go_exec by (apply remember_paths_run). rewrite <-list_fmap_compose.
    go_exec by reflexivity. rewrite ?bind_assoc. apply call_bind. by intros [].
  - unfold SelectorClient_Close, fmap, GoM_fmap. destruct c. go_exec by reflexivity.
    rewrite ?bind_assoc. apply call_bind. intros [e|] m c'; simpl; [|done].
    unfold mbind, GoM_bind. destruct (on_link rpc_Close c') as [[]?]; done.
Qed.

(** An operation that returns was given its paths and has done its bookkeeping;
    what else it changed is the link. *)
Lemma perform_ok o (c : SC) r c' : perform o c = (Ok r, c') → paths_given o.
Proof.
  destruct o as [? ? ps| | | |ps|]; try done; simpl.
  - unfold SelectorClient_Initialize. do 2 go_exec by reflexivity. rewrite ?bind_assoc.
    intros (ys & c1 & R & _)%bind_inv. by apply remember_paths_ok in R.
  - unfold SelectorClient_Refresh. rewrite ?bind_assoc.
    intros (ys & c1 & R & _)%bind_inv. by apply remember_paths_ok in R.
Qed.

Lemma conclude_frame o answer (c : SC) r c' :
  conclude o answer c = (Ok r, c') → ∃ lk, c' = c <| link := lk |>.
Proof.
  assert (∀ d : SC, d = c → ∃ lk, d = c <| link := lk |>) as Hc.
  { intros d ->. exists (link c). by destruct c. }
  destruct answer as [[e|] fp], o; simpl; try done;
    try (intros [_ ->]%ret_inv; by apply Hc).
  - intros (cl & c1 & [lk ->]%on_link_frame & [_ ->]%ret_inv)%bind_inv. eauto.
  - intros (cl & c1 & [lk ->]%on_link_frame & [_ ->]%ret_inv)%bind_inv. eauto.
Qed.

Lemma perform_frame o (c : SC) r c' :
  perform o c = (Ok r, c') → ∃ lk, c' = bookkeeping o c <| link := lk |>.
Proof.
  intros R. rewrite perform_alt, perform_by_run in R by (by eapply perform_ok).
  assert (∀ d : SC, (on_link (operation_call o d) ≫= conclude o) d = (Ok r, c') →
    ∃ lk, c' = d <| link := lk |>) as Hd.
  { intros d (a & c1 & [lk ->]%on_link_frame & [lk' ->]%conclude_frame)%bind_inv. eauto. }
  destruct o; try exact (Hd _ R). destruct (addresses (bookkeeping _ c)); [exact (Hd _ R)|].
  apply ret_inv in R as [_ ->]. exists (link c). by destruct c.
Qed.

(** The table is the record of the history. *)
Lemma reaches_paths tr (c : SC) : reaches tr c → paths c = foldl record_event ∅ (history tr).
Proof.
  induction 1 as [| | |tr c o r c' _ IH R]; [done..|].
  apply perform_frame in R as [lk ->]. unfold history in *.
  rewrite fmap_app, join_app, foldl_app, <-IH. simpl. rewrite app_nil_r. by destruct o.
Qed.

(** Both addresses are known or neither is. *)
Lemma reaches_addresses tr (c : SC) :
  reaches tr c →
  (local c = None ∧ remote c = None) ∨ ∃ l r, local c = Some l ∧ remote c = Some r.
Proof.
  induction 1 as [| | |tr c o r c' _ IH R]; [by left|done|done|].
  apply perform_frame in R as [lk ->]. destruct o; simpl in *; eauto.
Qed.

(** Looking up the record finds the current path. *)
Lemma record_current es fp p :
  mjoin (foldl record_event ∅ es !! fp) = Some p ↔ current es p ∧ pp_Fingerprint p = fp.
Proof.
  induction es as [|e es IH] using rev_ind.
  { split; [done|]. intros [(es1 & es2 & E & _) _]. by destruct es1. }
  rewrite foldl_app. simpl. unfold record_event at 1.
  assert (current (es ++ [e]) p ↔
    e = Offer p ∨ event_key e ≠ pp_Fingerprint p ∧ current es p) as ->.
  { split.
    - intros (es1 & es2 & E & Hn). destruct es2 as [|e2 es2 _] using rev_ind.
      { apply app_inj_tail in E as [-> ->]. by left. }
      rewrite app_comm_cons, app_assoc in E. apply app_inj_tail in E as [-> ->].
      right. split; [apply Hn; set_solver|]. exists es1, es2. split; [done|]. set_solver.
    - intros [->|[Hk (es1 & es2 & -> & Hn)]].
      { exists es, []. split; [done|]. set_solver. }
      exists es1, (es2 ++ [e]). rewrite <-app_assoc. split; [done|]. set_solver. }
  destruct (decide (event_key e = fp)) as [<-|Hne].
  - rewrite lookup_insert_eq. destruct e as [q|fp]; simpl; intuition (congruence || auto).
  - rewrite lookup_insert_ne, IH by done. destruct e as [q|fp']; simpl in *; intuition (congruence || auto).
Qed.
End Lemmas.

(** ** The calls are requests *)
Section Calls.
Context `{PanFaithful} {S : Type} `{!ServerSelector S}.
Abbreviation SC := (SelectorClient S).

(** A call whose handler makes one request, or answers ErrDeref. *)
Lemma call_served name h msg args q a (lk : Link S) :
  SelectorServer_registry name = Some h → gob_SelectorMsg msg = Some args →
  h args (server lk)
  = match q, a with
    | Some q, Some (l, r) => service_reply <$> serve q l r
    | _, _ => mret (Some ErrDeref, empty_SelectorMsg)
    end (server lk) →
  (prod_map id Msg_Fingerprint <$>
     rpc_Call gob_SelectorMsg gob_SelectorMsg SelectorServer_registry empty_SelectorMsg name msg) lk
  = serve_remotely q a lk.
Proof.
  intros Hh Hm Hrun. unfold serve_remotely.
  destruct (negb (up lk) || closing lk) eqn:Hup.
  { unfold fmap, GoM_fmap, mbind, GoM_bind, rpc_Call. by rewrite Hup. }
  apply orb_false_iff in Hup as [Hup%negb_false_iff Hc].
  unfold fmap at 1, GoM_fmap at 1, mbind, GoM_bind.
  rewrite (rpc_Call_up _ _ _ _ _ _ args h) by done. rewrite Hrun.
  assert ((mret (Some ErrDeref, empty_SelectorMsg) : GoM S _) (server lk)
    = (Ok (Some ErrDeref, empty_SelectorMsg), server lk)) as Hret by done.
  destruct q as [q|], a as [[l r]|]; try (rewrite Hret; by destruct lk).
  unfold fmap, GoM_fmap, mbind, GoM_bind.
  destruct (serve q l r (server lk)) as [[[p e]| | |] s]; [|done..].
  simpl. destruct (wire_error e); [done|].
  rewrite (gob_SelectorMsg_faithful _ []) by (by destruct p). by destruct p.
Qed.

Lemma operation_served o (c : SC) lk :
  paths_given o →
  (local c = None ∧ remote c = None) ∨ (∃ l r, local c = Some l ∧ remote c = Some r) →
  operation_call o c lk = serve_remotely (operation_request o c) (addresses c) lk.
Proof.
  intros Hps Ha. unfold addresses.
  destruct o as [l r ps|p| |fp pi|ps|]; cbn [operation_call operation_request];
    try (destruct (no_nil ps Hps) as [qs ->]; rewrite <-!list_fmap_compose);
    (eapply call_served; [reflexivity| |]).
  all: lazymatch goal with
    | |- gob_SelectorMsg (mkSelectorMsg _ _ _ _ _ []) = _ => by apply (gob_SelectorMsg_faithful _ [])
    | |- gob_SelectorMsg _ = Some _ =>
        apply (gob_SelectorMsg_faithful _ (to_rpc <$> qs)); by rewrite <-list_fmap_compose
    | _ => idtac
    end.
  all: destruct Ha as [[El Er]|(l0 & r0 & El & Er)]; rewrite ?El, ?Er; cbn -[PanPaths]; try done.
  all: unfold SelectorServer_Initialize, SelectorServer_Refresh.
  all: try (erewrite bind_ok by (apply PanPaths_to_rpc)); simpl.
  all: change (option_map without_forwarding ∘ Some) with (Some (A:=PanPath) ∘ without_forwarding).
  all: try destruct (string_zero fp); simpl; try done.
  all: unfold fmap, GoM_fmap; rewrite ?bind_assoc, ?bind_ret_l; unfold mbind, GoM_bind.
  all: match goal with
    | |- context [ss_Path ?l ?r ?s] => by destruct (ss_Path l r s) as [[[]| | |] ?]
    | |- context [match ?m (server ?k) with (_, _) => _ end] => by destruct (m (server k)) as [[]?]
    end.
Qed.

Lemma bookkeeping_addresses tr o (c : SC) :
  reaches tr c →
  let c := bookkeeping o c in
  (local c = None ∧ remote c = None) ∨ (∃ l r, local c = Some l ∧ remote c = Some r).
Proof. intros Ha%reaches_addresses. destruct o; simpl; eauto. Qed.

Lemma perform_served tr o (c : SC) :
  reaches tr c → paths_given o → perform o c = perform_spec o c.
Proof.
  intros Hr Hps. rewrite perform_alt by done. unfold perform_spec. rewrite !perform_by_run.
  assert (on_link (operation_call o (bookkeeping o c)) (bookkeeping o c)
    = on_link (serve_remotely (operation_request o (bookkeeping o c))
        (addresses (bookkeeping o c))) (bookkeeping o c)) as E.
  { unfold on_link, zoom.
    by rewrite operation_served by eauto using bookkeeping_addresses. }
  destruct o; try destruct (addresses _); unfold mbind, GoM_bind; by rewrite ?E.
Qed.

(** The loops stop at a nil path. *)
Lemma remember_paths_nil ps (c : SC) :
  None ∈ ps → ∃ c', go_map remember_path ps c = (Panics nil_deref, c') ∧ link c' = link c.
Proof.
  revert c. induction ps as [|[p|] ps IH]; intros c Hin; [by apply not_elem_of_nil in Hin| |].
  - apply elem_of_cons in Hin as [|Hin]; [done|].
    cbn [go_map]. go_exec by reflexivity. 
    destruct (IH (c <| paths := <[pp_Fingerprint p := Some p]> (paths c) |>) Hin) as (c' & E & El).
    exists c'. split; [by erewrite bind_panics by exact E|exact El].
  - by exists c.
Qed.

Lemma perform_nil o (c : SC) :
  ¬ paths_given o → ∃ c', perform o c = (Panics nil_deref, c') ∧ link c' = link c.
Proof.
  intros Hn. destruct o as [l r ps| | | |ps|]; simpl in *; try by destruct Hn.
  - destruct (remember_paths_nil ps (c <| remote := Some r |> <| local := Some l |>))
      as (c' & E & El); [by apply dec_stable|].
    exists c'. split; [|done]. unfold SelectorClient_Initialize. do 2 go_exec by reflexivity.
    rewrite ?bind_assoc. by apply bind_panics.
  - destruct (remember_paths_nil ps c) as (c' & E & El); [by apply dec_stable|].
    exists c'. split; [|done]. unfold SelectorClient_Refresh.
    rewrite ?bind_assoc. by apply bind_panics.
Qed.
End Calls.

(** ** Properties *)
Section Claims.
Context `{PanFaithful} {S : Type} `{!ServerSelector S}.
Abbreviation SC := (SelectorClient S).

(** C1: The RPC layer is transparent. After any history, an operation of the
    application does its bookkeeping and then exactly one request to the
    daemon's selector, with the connection's addresses, the preferences object
    as it is now and the paths without their forwarding information; what it
    returns is the selector's answer, looked up in the table. An error, a panic
    of the daemon or a dead link ends the application, except that
    SetPreferences and Close return it; an operation given a nil path panics
    without a request. *)
Theorem client_refines tr o (c : SC) :
  reaches tr c →
  (paths_given o → perform o c = perform_spec o c) ∧
  (¬ paths_given o → ∃ c', perform o c = (Panics nil_deref, c') ∧ link c' = link c).
Proof. intros Hr. split; [by eapply perform_served|apply perform_nil]. Qed.

(** C3: Path returns a path exactly when the daemon named its fingerprint and it
    is the path the application last gave for that fingerprint, with no
    PathDown of the fingerprint since. *)
Theorem Path_current tr (c : SC) r e c' :
  reaches tr c → perform OpPath c = (Ok (r, e), c') →
  ∃ msg, Call "SelectorServer.Path" (mkSelectorMsg (local c) (remote c) None None None []) c
           = (Ok (None, msg), c') ∧
    ∀ p, r = Some p ↔
      Msg_Fingerprint msg = Some (pp_Fingerprint p) ∧ current (history tr) p.
Proof.
  intros Hr Hrun. pose proof (perform_frame _ _ _ _ Hrun) as [lk Hc'].
  simpl in Hrun. unfold SelectorClient_Path in Hrun.
  apply bind_inv in Hrun as (p0 & c1 & Hrun & [[= -> ->] <-]%ret_inv).
  apply bind_inv in Hrun as (c2 & c3 & [= <- <-] & Hrun).
  apply bind_inv in Hrun as (msg & c4 & Hcall%or_fatal_inv & Hrun).
  exists msg. assert (c4 = c') as ->.
  { destruct (Msg_Fingerprint msg); [by injection Hrun|by apply ret_inv in Hrun as [_ ->]]. }
  split; [done|]. intros p.
  assert (paths c' = foldl record_event ∅ (history tr)) as Hpaths.
  { rewrite Hc'. simpl. by apply reaches_paths. }
  destruct (Msg_Fingerprint msg) as [fp|].
  - injection Hrun as <-. rewrite Hpaths, record_current. naive_solver.
  - apply ret_inv in Hrun as [-> _]. naive_solver.
Qed.
End Claims.

(** ** With the daemon's default selector *)
Section DefaultSelector.
Context `{PanFaithful} {W Sel : Type} `{!SelectorObject W Sel}.
Context (fn : UDPAddr → UDPAddr → GoM W Sel).
#[local] Existing Instance serverSelector_interface.
Abbreviation SC := (SelectorClient (serverSelector (W := W) (Sel := Sel))).
Abbreviation perform' := (perform (ServerSelector0 := serverSelector_interface fn)).
Abbreviation reaches' := (reaches (ServerSelector0 := serverSelector_interface fn)).

Lemma SetPreferences_early p (c : SC) :
  addresses c = None →
  perform' (OpSetPreferences p) c = (Ok (None, None), c <| connectionPreferences := p |>).
Proof.
  intros Ha. simpl. unfold SelectorClient_SetPreferences, fmap, GoM_fmap.
  do 2 go_exec by reflexivity. unfold addresses in Ha. by destruct (local c), (remote c).
Qed.

(** C40: Preferences set before Initialize are lost when the daemon runs its
    default selector: SetPreferences keeps them for Initialize to send, but
    serverSelector.Initialize does not hand them on. For every client whose
    addresses are not known yet, calling SetPreferences first changes neither
    the outcome of Initialize nor anything at the daemon. *)
Theorem early_preferences_lost tr (c : SC) p l r ps :
  reaches' tr c → addresses c = None → None ∉ ps →
  let early := (perform' (OpSetPreferences p);; perform' (OpInitialize l r ps)) c in
  let plain := perform' (OpInitialize l r ps) c in
  early.1 = plain.1 ∧ link early.2 = link plain.2.
Proof.
  intros Hr Ha Hps early plain. pose proof (SetPreferences_early p c Ha) as Hset.
  unfold early, plain. rewrite (bind_ok _ _ _ _ _ Hset).
  rewrite (perform_served (tr ++ [OpSetPreferences p])), (perform_served tr _ c) by
    (done || by eapply reaches_step).
  unfold perform_spec. rewrite !perform_by_run. unfold on_link, zoom, mbind, GoM_bind.
  unfold serve_remotely. cbn -[serverSelector_Initialize].
  destruct (negb (up (link c)) || closing (link c)); [done|].
  unfold serverSelector_Initialize, fmap, GoM_fmap, mbind, GoM_bind.
  destruct (getSelector fn l r (server (link c))) as [[sel| | |] s]; [|done..].
  by destruct (on_objects _ s) as [[]?].
Qed.
End DefaultSelector.

(** ** Witnesses *)
Module SampleClient.
#[global] Existing Instance SamplePan.pan.
#[global] Instance codecs : PanCodecs := {|
  gob_UDPAddr := Some; gob_PathInterface := Some; gob_Path := Some |}.
#[global] Instance codecs_faithful : PanFaithful.
Proof. by split. Qed.
#[global] Instance selector : ServerSelector (serverSelector (W := SampleSelector.world) (Sel := nat)) :=
  serverSelector_interface SampleSelector.fn.

(** A new client, linked to a daemon that has no selectors yet. *)
Definition client : SelectorClient (serverSelector (W := SampleSelector.world) (Sel := nat)) :=
  NewSelectorClient {[1%positive := mkConnectionPreferences 9 Scavenger Handover true]}
    (mkLink (NewServerSelectorFunc ∅) true false None false).

Definition x := SamplePan.path "x" 7.
Definition open := OpInitialize SamplePan.ClientA SamplePan.Server [Some x].
End SampleClient.

Lemma client_refines_witness :
  perform SampleClient.open SampleClient.client = perform_spec SampleClient.open SampleClient.client.
Proof.
  apply (client_refines [] SampleClient.open SampleClient.client); [apply reaches_new|].
  apply (bool_decide_unpack _). reflexivity.
Defined.

Lemma Path_current_witness :
  let c := (perform SampleClient.open SampleClient.client).2 in
  ∃ c' msg, perform OpPath c = (Ok (Some SampleClient.x, None), c') ∧
    Msg_Fingerprint msg = Some "x"%string ∧ current (history [SampleClient.open]) SampleClient.x.
Proof.
  intros c. set (c' := (perform OpPath c).2).
  destruct (Path_current [SampleClient.open] c (Some SampleClient.x) None c') as (msg & _ & Hp).
  - apply (reaches_step [] SampleClient.client _ (None, None)); [apply reaches_new|reflexivity].
  - reflexivity.
  - exists c', msg. split; [reflexivity|]. exact (proj1 (Hp SampleClient.x) eq_refl).
Defined.

Lemma early_preferences_lost_witness :
  let early := (perform (OpSetPreferences (Some 1%positive));; perform SampleClient.open)
                 SampleClient.client in
  let plain := perform SampleClient.open SampleClient.client in
  early.1 = plain.1 ∧ link early.2 = link plain.2.
Proof.
  apply (early_preferences_lost SampleSelector.fn []); [apply reaches_new|reflexivity|].
  apply (bool_decide_unpack _). reflexivity.
Defined.
