(* ===== verification/ClientThreads.v ===== *)
(** * The client under concurrent use (rpc/selector.go, SelectorClient)

    A connection's selector is called from several goroutines: Path by those that
    send, PathDown and Refresh by those that watch the paths. The client has no
    mutex. Its operations are cut into their accesses of the client's fields and
    table and their calls of the daemon; alone they do what the operations of
    SelectorClient do. An access of the table, a Go map, begins and ends (Races),
    and may race; the fields are single words. *)

From S2P Require Import Prelude Threads Races Enums Taps PanPath GobRpc ServerSelector SelectorServer SelectorClient.

(** ** The operations in actions *)
Section Actions.
Context `{PanCodecs} {S : Type} `{!ServerSelector S}.
Abbreviation SC := (SelectorClient S).
Abbreviation prog := (prog SC (option PanPath * error)).
#[local] Notation "x <~ m ; k" := (Act NoMap m (λ x, k))
  (at level 100, m at next level, k at level 200, right associativity).
#[local] Notation "x <~[ a ] m ; k" := (Act a m (λ x, k))
  (at level 100, m at next level, k at level 200, right associativity).

(** The loop over the paths; [sent] is the slice filled so far. *)
Fixpoint remember_actions (ps : list (option PanPath)) (sent : list (option Path))
    (k : list (option Path) → prog) : prog :=
  match ps with
  | [] => k sent
  | p :: ps => y <~[Writes] remember_path p; remember_actions ps (sent ++ [y]) k
  end.

(** A call with the preferences object at [p], encoded as it is then. *)
Definition Call_preferences (name : string) (l r : option UDPAddr) (p : option loc)
    (rps : list (option Path)) : GoM SC (error * SelectorMsg) :=
  c ← get_state; Call name (mkSelectorMsg l r None None (p ≫= λ x, prefs c !! x) rps).

(** [s.paths[fp]] *)
Definition table_path (fp : PathFingerprint) (c : SC) : option PanPath := mjoin (paths c !! fp).

Definition operation_actions (o : operation) : prog :=
  match o with
  | OpInitialize local_ remote_ ps =>
      _ <~ modify (λ c : SC, c <| remote := Some remote_ |>);
      _ <~ modify (λ c : SC, c <| local := Some local_ |>);
      remember_actions ps [] (λ rps,
        l <~ gets local; r <~ gets remote; p <~ gets connectionPreferences;
        _ <~ or_fatal (Call_preferences "SelectorServer.Initialize" l r p rps);
        Done (None, None))
  | OpSetPreferences p =>
      _ <~ modify (λ c : SC, c <| connectionPreferences := p |>);
      l <~ gets local;
      match l with
      | None => Done (None, None)
      | Some _ =>
          r <~ gets remote;
          match r with
          | None => Done (None, None)
          | Some _ =>
              l <~ gets local; r <~ gets remote; p <~ gets connectionPreferences;
              res <~ Call_preferences "SelectorServer.SetPreferences" l r p [];
              Done (None, res.1)
          end
      end
  | OpPath =>
      l <~ gets local; r <~ gets remote;
      msg <~ or_fatal (Call "SelectorServer.Path" (mkSelectorMsg l r None None None []));
      match Msg_Fingerprint msg with
      | Some fp => p <~[Reads] gets (λ c : SC, table_path fp c); Done (p, None)
      | None => Done (None, None)
      end
  | OpPathDown fp pi =>
      _ <~[Writes] modify (λ c : SC, c <| paths := <[fp := None]> (paths c) |>);
      l <~ gets local; r <~ gets remote;
      _ <~ or_fatal (Call "SelectorServer.PathDown" (mkSelectorMsg l r (Some fp) (Some pi) None []));
      Done (None, None)
  | OpRefresh ps =>
      remember_actions ps [] (λ rps,
        l <~ gets local; r <~ gets remote;
        _ <~ or_fatal (Call "SelectorServer.Refresh" (mkSelectorMsg l r None None None rps));
        Done (None, None))
  | OpClose =>
      l <~ gets local; r <~ gets remote;
      res <~ Call "SelectorServer.Close" (mkSelectorMsg l r None None None []);
      match res.1 with
      | Some e => _ <~ on_link rpc_Close; Done (None, Some e)
      | None => e <~ on_link rpc_Close; Done (None, e)
      end
  end.

(** Alone, the actions are the operation. *)
Lemma run_remember_actions ps sent k (c : SC) :
  run (remember_actions ps sent k) c = (go_map remember_path ps ≫= λ ys, run (k (sent ++ ys))) c.
Proof.
  revert sent c. induction ps as [|p ps IH]; intros sent c; cbn [remember_actions go_map run];
    [by rewrite bind_ret_l, app_nil_r|].
  rewrite bind_assoc. apply bind_ext. intros y c1. rewrite IH, bind_assoc. apply bind_ext. intros ys c2.
  by rewrite bind_ret_l, <-app_assoc.
Qed.

Lemma operation_actions_run o (c : SC) : run (operation_actions o) c = perform o c.
Proof.
  destruct o as [l r ps|p| |fp pi|ps|]; cbn [operation_actions run perform].
  - unfold SelectorClient_Initialize. rewrite !bind_assoc. apply bind_ext. intros _ c1.
    rewrite !bind_assoc. apply bind_ext. intros _ c2. rewrite run_remember_actions, !bind_assoc.
    apply bind_ext. intros rps c3. cbn [run]. unfold or_fatal, Call_preferences, current_preferences, mbind, GoM_bind, gets, get_state.
    simpl. by destruct (Call _ _ c3) as [[[[e|] msg]| | |] c4].
  - unfold SelectorClient_SetPreferences, current_preferences. unfold fmap, GoM_fmap. rewrite !bind_assoc.
    apply bind_ext. intros _ c1. unfold mbind, GoM_bind, gets, get_state.
    destruct (local c1) as [l|] eqn:El; [|done]. cbn [run]. unfold mbind, GoM_bind, gets.
    destruct (remote c1) as [r|] eqn:Er; [|done]. cbn [run]. unfold mbind, GoM_bind, gets, Call_preferences, get_state. rewrite El, Er.
    unfold mbind, GoM_bind. by destruct (Call _ _ c1) as [[[e msg]| | |] c2].
  - unfold SelectorClient_Path, mbind, GoM_bind, gets, get_state.
    destruct (or_fatal _ c) as [[msg| | |] c1]; [|done..]. by destruct (Msg_Fingerprint msg).
  - unfold SelectorClient_PathDown. rewrite !bind_assoc. apply bind_ext. intros _ c1.
    unfold mbind, GoM_bind, gets, get_state. by destruct (or_fatal _ c1) as [[msg| | |] c2].
  - rewrite run_remember_actions. unfold SelectorClient_Refresh. rewrite !bind_assoc. apply bind_ext. intros rps c1.
    cbn [run]. unfold mbind, GoM_bind, gets, get_state. by destruct (or_fatal _ c1) as [[msg| | |] c2].
  - unfold SelectorClient_Close, fmap, GoM_fmap, mbind, GoM_bind, gets, get_state.
    destruct (Call _ _ c) as [[[[e|] msg]| | |] c1]; [|done..]; simpl; unfold mbind, GoM_bind;
      by destruct (on_link rpc_Close c1) as [[| | |] c2].
Qed.
End Actions.

(** ** What the goroutines do to the table *)
Section Table.
Context `{PanCodecs} {S : Type} `{!ServerSelector S}.
Abbreviation SC := (SelectorClient S).
Abbreviation prog := (prog SC (option PanPath * error)).
Abbreviation table := (gmap PathFingerprint (option PanPath)).

(** The program makes the changes [rest] to the table, in this order, one action
    some of them; a path it returns is in [seen] or in the table at one of its
    actions. *)
Fixpoint emits (seen : PanPath → Prop) (rest : list event) (p : prog) : Prop :=
  match p with
  | Done a => rest = [] ∧ ∀ x, a.1 = Some x → seen x
  | Act _ m k => ∃ now later, rest = now ++ later ∧ ∀ c b c', m c = (Ok b, c') →
      paths c' = foldl record_event (paths c) now ∧
      emits (λ x, seen x ∨ ∃ fp, table_path fp c = Some x) later (k b)
  end.

Lemma emits_mono p : ∀ (seen seen' : PanPath → Prop) rest,
  (∀ x, seen x → seen' x) → emits seen rest p → emits seen' rest p.
Proof.
  induction p as [a|B ac m k IH]; simpl; intros seen seen' rest Hs.
  - intros [-> Ha]. eauto.
  - intros (now & later & -> & Hm). exists now, later. split; [done|]. intros c b c' R.
    destruct (Hm c b c' R) as [Hp He]. split; [done|]. eapply IH; [|exact He]. naive_solver.
Qed.

Definition leaves_table {A} (m : GoM SC A) : Prop := ∀ c b c', m c = (Ok b, c') → paths c' = paths c.

Lemma emits_quiet {B} x (m : GoM SC B) k seen rest :
  leaves_table m → (∀ seen' b, emits seen' rest (k b)) → emits seen rest (Act x m k).
Proof. intros Hm Hk. exists [], rest. split; [done|]. intros c b c' R. split; [by eapply Hm|apply Hk]. Qed.

Lemma emits_none seen err : emits seen [] (Done (None, err)).
Proof. by split. Qed.

Lemma leaves_gets {A} (f : SC → A) : leaves_table (gets f).
Proof. by intros c b c' [= _ <-]. Qed.
Lemma leaves_on_link {A} (m : GoM (Link S) A) : leaves_table (on_link m).
Proof. intros c b c' R. by apply on_link_frame in R as [lk ->]. Qed.
Lemma leaves_or_fatal {B} (m : GoM SC (error * B)) : leaves_table m → leaves_table (or_fatal m).
Proof. intros Hm c b c' R%or_fatal_inv. by eapply Hm. Qed.
Lemma leaves_Call_preferences name l r p rps : leaves_table (Call_preferences name l r p rps).
Proof. intros c b c' (c1 & c2 & [= <- <-] & R)%bind_inv. by eapply leaves_on_link. Qed.

Lemma emits_remember ps sent seen later k :
  (∀ seen' rps, emits seen' later (k rps)) →
  emits seen (omap (option_map Offer) ps ++ later) (remember_actions ps sent k).
Proof.
  intros Hk. revert sent seen. induction ps as [|[p|] ps IH]; intros sent seen; [apply Hk|..]; simpl.
  - exists [Offer p], (omap (option_map Offer) ps ++ later). split; [done|]. intros c b c' R.
    injection R as <- <-. split; [done|apply IH].
  - exists [], (omap (option_map Offer) ps ++ later). split; [done|]. discriminate 1.
Qed.

Create HintDb table.
#[local] Hint Resolve leaves_gets leaves_on_link leaves_or_fatal leaves_Call_preferences emits_none : table.
#[local] Hint Extern 0 (leaves_table (Call _ _)) => apply leaves_on_link : table.
Ltac quietly := repeat (apply emits_quiet; [solve [auto with table | by intros ? ? ? [= _ <-]]|intros ? ?]).

Lemma operation_emits o seen : emits seen (events o) (operation_actions o).
Proof.
  destruct o as [l r ps|p| |fp pi|ps|]; simpl operation_actions; simpl events.
  - quietly. rewrite <-(app_nil_r (omap _ ps)). apply emits_remember. intros ? rps. quietly. auto with table.
  - quietly. match goal with |- context [match ?x with _ => _ end] => destruct x; [|auto with table] end.
    quietly. match goal with |- context [match ?x with _ => _ end] => destruct x; [|auto with table] end.
    quietly. auto with table.
  - quietly. match goal with |- context [Msg_Fingerprint ?m] => destruct (Msg_Fingerprint m) as [fp|]; [|auto with table] end.
    exists [], []. split; [done|]. intros c p c' [= <- <-]. split; [done|]. split; [done|]. simpl. eauto.
  - exists [Withdraw fp], []. split; [done|]. intros c b c' [= <- <-]. split; [done|]. quietly. auto with table.
  - rewrite <-(app_nil_r (omap _ ps)). apply emits_remember. intros ? rps. quietly. auto with table.
  - quietly. match goal with |- context [match ?x with _ => _ end] => destruct x end; quietly; auto with table.
Qed.

(** *** The log

    The changes to the table in the order in which they were made, each with the
    goroutine that made it. *)
Abbreviation log := (list (nat * event)).
Implicit Types (es : log).

Definition own (i : nat) es : list event := (filter (λ x, x.1 = i) es).*2.

Lemma own_app i j es now :
  own i (es ++ (pair j <$> now)) = own i es ++ (if decide (j = i) then now else []).
Proof.
  unfold own. rewrite filter_app, fmap_app. f_equal. case_decide as Hj.
  - induction now as [|e now IH]; [done|]. rewrite fmap_cons, filter_cons_True by done. rewrite fmap_cons. by f_equal.
  - induction now as [|e now IH]; [done|]. by rewrite fmap_cons, filter_cons_False.
Qed.

(** The paths the table had at some time. *)
Definition known (t : table) es (x : PanPath) : Prop :=
  ∃ es' fp, es' `prefix_of` es ∧ mjoin (foldl record_event t es'.*2 !! fp) = Some x.

Lemma known_app t es es2 x : known t es x → known t (es ++ es2) x.
Proof. intros (es' & fp & Hp & Hx). exists es', fp. split; [by apply prefix_app_r|done]. Qed.

Definition logged (t : table) (os : list operation) es (c : list prog * SC) : Prop :=
  length c.1 = length os ∧ paths c.2 = foldl record_event t es.*2 ∧
  Forall (λ x, is_Some (os !! x.1)) es ∧
  ∀ i o p, os !! i = Some o → c.1 !! i = Some p →
    ∃ rest, events o = own i es ++ rest ∧ emits (known t es) rest p.

Lemma logged_start os (c : SC) : logged (paths c) os [] (operation_actions <$> os, c).
Proof.
  split_and!; [apply length_fmap|done|constructor|]. intros i o p Ho Hp. simpl in Hp.
  rewrite list_lookup_fmap, Ho in Hp. injection Hp as <-. exists (events o). split; [done|apply operation_emits].
Qed.

Lemma logged_step t os es c c' :
  logged t os es c → step c c' → ∃ now, logged t os (es ++ now) c'.
Proof.
  intros (Hl & Ht & Hes & Hp) Hs. destruct Hs as [ts s i p p' s' Hi R]. simpl in *.
  destruct (lookup_lt_is_Some_2 os i) as [o Ho]; [rewrite <-Hl; by eapply lookup_lt_Some|].
  destruct (Hp i o p Ho Hi) as (rest & Hrest & He). destruct p as [a|B ac m k]; [discriminate R|].
  apply bind_inv in R as (b & s1 & R & [-> ->]%ret_inv).
  destruct He as (now & later & -> & He). destruct (He _ _ _ R) as [Hpaths Hk].
  exists (pair i <$> now). split_and!; simpl.
  - by rewrite length_insert.
  - rewrite fmap_app, foldl_app, <-Ht, Hpaths. f_equal. clear. induction now as [|e now IH]; [done|].
    rewrite !fmap_cons. by f_equal.
  - apply Forall_app. split; [done|]. apply Forall_fmap, Forall_true. intros e. simpl. by exists o.
  - intros j o' q Ho' Hq. rewrite own_app. case_decide as Hij.
    + subst j. rewrite list_lookup_insert_eq in Hq by by eapply lookup_lt_Some. simplify_eq.
      exists later. rewrite <-app_assoc. split; [done|]. eapply emits_mono; [|exact Hk].
      intros x [Hx|[fp Hx]]; [by apply known_app|]. exists es, fp. split; [by apply prefix_app_r|].
      rewrite <-Ht. exact Hx.
    + rewrite list_lookup_insert_ne in Hq by done. destruct (Hp j o' q Ho' Hq) as (rest' & E & He').
      exists rest'. rewrite app_nil_r. split; [done|]. eapply emits_mono; [|exact He']. intros x. apply known_app.
Qed.

Lemma logged_run t os c c' : rtc step c c' → ∀ es, logged t os es c → ∃ es', logged t os es' c'.
Proof.
  induction 1 as [c|c c1 c2 Hs _ IH]; intros es Hl; [by exists es|].
  destruct (logged_step _ _ _ _ _ Hl Hs) as [now Hl']. by eapply IH.
Qed.
End Table.

(** ** Property *)
Section Claims.
Context `{PanCodecs} {S : Type} `{!ServerSelector S}.

(** C18: The client's table under concurrent use. A client that has performed
    [tr] performs any operations at the same time, which interleave in any order.
    Its table is a Go map without a mutex: an access of it begins and ends, and
    nothing is said of a run from a data race on, that is, once an access begins
    while a conflicting one is under way. At every moment of every run up to a
    race there is an order of the changes made to the table, in which each
    operation's are in the operation's order and complete when it has finished, so
    that the table is the record of that history; and a path that Path has returned
    was current in the history as it was at some moment: the application had given
    it for its fingerprint and not withdrawn or replaced it. *)
Theorem concurrent_Path_current tr (c : SelectorClient S) os ts c' :
  reaches tr c → rtc step (split <$> (operation_actions <$> os), unraced c) (ts, c') →
  ∃ es : list (nat * event),
    paths (contents c') = foldl record_event ∅ (history tr ++ es.*2) ∧
    Forall (λ x, is_Some (os !! x.1)) es ∧
    ∀ i o p, os !! i = Some o → ts !! i = Some p →
      own i es `prefix_of` events o ∧
      ∀ a, p = Done a → own i es = events o ∧
        ∀ x, a.1 = Some x → ∃ es', es' `prefix_of` es ∧ current (history tr ++ es'.*2) x.
Proof.
  intros Hr R. apply reaches_paths in Hr.
  destruct (tracks_run _ _ _ _ (tracks_start _ _) R) as (qs & xs & Htr & Ra). simpl in Ra.
  destruct (logged_run _ os _ _ Ra [] (logged_start os c)) as (es & Hl & Ht & Hes & Hp). simpl in *.
  destruct (tracks_length _ _ _ Htr) as [_ H2]. simpl in H2.
  exists es. rewrite foldl_app, <-Hr. split_and!; [done..|]. intros i o p Ho Hi.
  destruct (lookup_lt_is_Some_2 qs i) as [q Hq]; [rewrite <-H2; by eapply lookup_lt_Some|].
  destruct (Hp i o q Ho Hq) as (rest & E & He). split; [by exists rest|]. intros a ->.
  pose proof (tracks_done _ _ _ _ _ _ _ Htr Hi Hq) as ->. destruct He as [-> Ha].
  rewrite app_nil_r in E. split; [done|]. intros x Hx. destruct (Ha x Hx) as (es' & fp & Hpre & Hm).
  exists es'. split; [done|]. rewrite Hr, <-foldl_app in Hm. by apply record_current in Hm as [Hc _].
Qed.
End Claims.

(** ** Witnesses *)
Module SampleGoroutines.
Definition y := SamplePan.path "y" 8.
Definition failed : PathInterface := mkPathInterface "17-ffaa:1:1" 3.
Definition open := OpInitialize SamplePan.ClientA SamplePan.Server [Some SampleClient.x; Some y].
Definition opened := (perform open SampleClient.client).2.

Lemma opened_reached : reaches [open] opened.
Proof.
  apply (reaches_step [] SampleClient.client open (None, None)); [apply reaches_new|].
  apply injective_projections; [vm_compute; reflexivity|reflexivity].
Qed.

Definition refresh := OpRefresh [Some SampleClient.x; Some y].
Definition down := OpPathDown "x"%string failed.
Abbreviation operations := [refresh; down; OpPath].

(** Path asks the daemon; PathDown withdraws the path it names; Refresh gives it
    again; Path looks it up; the others go on. *)
Definition order : list nat := [2; 2; 2; 1; 0; 2; 0; 1; 1; 0; 1; 0; 0].

Abbreviation start := (operation_actions <$> operations, opened).

Lemma operations_followed :
  fst <$> follow order start = Some [Done (None, None); Done (None, None); Done (Some SampleClient.x, None)].
Proof. vm_compute. reflexivity. Qed.

(** In the middle of a Refresh. *)
Definition late : list nat := [0; 0; 0; 0; 1; 1; 1; 1; 0].
End SampleGoroutines.

Lemma concurrent_Path_current_witness :
  ∃ es : list (nat * event),
    own 0 es = [Offer SampleClient.x; Offer SampleGoroutines.y] ∧ own 1 es = [Withdraw "x"%string] ∧
    ∃ es', es' `prefix_of` es ∧ current (history [SampleGoroutines.open] ++ es'.*2) SampleClient.x.
Proof.
  pose proof SampleGoroutines.operations_followed as F.
  destruct (follow SampleGoroutines.order SampleGoroutines.start) as [[ts c']|] eqn:E; [|discriminate F].
  injection F as ->. apply follow_steps, split_run in E.
  destruct (concurrent_Path_current [SampleGoroutines.open] SampleGoroutines.opened
    SampleGoroutines.operations _ (unraced c')
    SampleGoroutines.opened_reached E)
    as (es & _ & _ & Hall).
  exists es. split; [exact (proj1 (proj2 (Hall 0 _ _ eq_refl eq_refl) _ eq_refl))|].
  split; [exact (proj1 (proj2 (Hall 1 _ _ eq_refl eq_refl) _ eq_refl))|].
  exact (proj2 (proj2 (Hall 2 _ _ eq_refl eq_refl) _ eq_refl) _ eq_refl).
Defined.

(** A PathDown in the middle of a Refresh: the daemon has the path on offer again
    and names it, the client has withdrawn it, and Path returns nil although
    another path is up. No two accesses overlap. In either order, one after the
    other, Path returns a path. *)
Lemma refresh_overtaken :
  let c := SampleGoroutines.opened in
  let path m := (perform OpPath (m c).2).1 in
  (∃ c', rtc step (split <$> (operation_actions <$> [SampleGoroutines.refresh; SampleGoroutines.down]), unraced c)
           ([Done (None, None); Done (None, None)], unraced c') ∧
     (perform OpPath c').1 = Ok (None, None)) ∧
  path (perform SampleGoroutines.refresh;; perform SampleGoroutines.down) = Ok (Some SampleGoroutines.y, None) ∧
  path (perform SampleGoroutines.down;; perform SampleGoroutines.refresh) = Ok (Some SampleClient.x, None).
Proof.
  intros c path. split; [|split; vm_compute; reflexivity].
  set (f := follow SampleGoroutines.late (operation_actions <$> [SampleGoroutines.refresh; SampleGoroutines.down], c)).
  assert ((λ x, (x.1, (perform OpPath x.2).1)) <$> f = Some ([Done (None, None); Done (None, None)], Ok (None, None)))
    as F by (vm_compute; reflexivity).
  destruct f as [[ts c']|] eqn:E; [|discriminate F]. apply follow_steps, split_run in E. injection F as -> F. by exists c'.
Qed.

(** The goroutine that watches the paths withdraws one while a sender looks one
    up: a data race. *)
Lemma lookup_races :
  ∃ c, rtc step (split <$> (operation_actions <$> [OpPath; SampleGoroutines.down]), unraced SampleGoroutines.opened) c ∧
    racing c.
Proof.
  set (f := follow [0; 0; 0; 1] (split <$> (operation_actions <$> [OpPath; SampleGoroutines.down]), unraced SampleGoroutines.opened)).
  assert ((λ c : list _ * _, (λ p, (advance p c.2).1) <$> c.1 !! 0) <$> f = Some (Some (Exits data_race))) as F
    by (vm_compute; reflexivity).
  destruct f as [c|] eqn:E; [|discriminate F]. apply follow_steps in E. exists c. split; [exact E|].
  simpl in F. injection F as F. apply fmap_Some in F as (p & Hp & F). by exists 0, p.
Qed.
