(* ===== verification/TracerMsg.v ===== *)
(** * The messages of the QUIC connection tracer (rpc/connection_tracer.go)

    Data: the types taken from quic-go's logging package (parameters where the
    program only hands them on), [RTTStats], [ConnectionTracerMsg] with its
    [String], and what gob delivers of a message. *)

From S2P Require Import Prelude PanPath GobRpc SelectorServer.

(** Types of quic-go that the program passes through, and the accessors of
    logging.RTTStats. Enumerations and counters are numbers. *)
Class Quic := {
  TransportParameters : Type;
  Header : Type;
  ExtendedHeader : Type;
  AckFrame : Type;
  Frame : Type;
  logging_RTTStats : Type;
  stats_LatestRTT : logging_RTTStats → Z;
  stats_MaxAckDelay : logging_RTTStats → Z;
  stats_MeanDeviation : logging_RTTStats → Z;
  stats_MinRTT : logging_RTTStats → Z;
  stats_PTO : logging_RTTStats → bool → Z;
  stats_SmoothedRTT : logging_RTTStats → Z
}.

(** A connection ID is a byte slice. *)
Abbreviation ConnectionID := (list ascii).

Section Messages.
Context `{Pan} `{Quic}.

Record RTTStats := mkRTTStats {
  LatestRTT : Z; MaxAckDelay : Z; MeanDeviation : Z; MinRTT : Z; PTO : Z; SmoothedRTT : Z
}.

Definition NewRTTStats {S} (stats : option logging_RTTStats) : GoM S RTTStats :=
  stats ← deref stats;
  mret (mkRTTStats (stats_LatestRTT stats) (stats_MaxAckDelay stats) (stats_MeanDeviation stats)
          (stats_MinRTT stats) (stats_PTO stats false) (stats_SmoothedRTT stats)).

Record ConnectionTracerMsg := mkConnectionTracerMsg {
  m_Local : option UDPAddr; m_Remote : option UDPAddr;
  m_OdcID : option ConnectionID; m_SrcConnID : option ConnectionID; m_DestConnID : option ConnectionID;
  m_Chosen : Z;
  m_Versions : list Z; m_ClientVersions : list Z; m_ServerVersions : list Z;
  m_ErrorMsg : option string; m_Key : option string; m_Value : option string;
  m_Parameters : option TransportParameters;
  m_ByteCount : Z; m_Cwnd : Z;
  m_Packets : Z; m_ID : Z;
  m_Header : option Header;
  m_ExtendedHeader : option ExtendedHeader;
  m_Frames : list Frame;
  m_AckFrame : option AckFrame;
  m_PacketType : Z;
  m_DropReason : Z;
  m_LossReason : Z;
  m_EncryptionLevel : Z;
  m_PacketNumber : Z;
  m_CongestionState : Z;
  m_PTOCount : Z;
  m_TracingID : Z;
  m_Perspective : Z;
  m_Bool : bool;
  m_Generation : Z;
  m_TimerType : Z;
  m_Time : option Time;
  m_RTTStats : option RTTStats
}.
#[export] Instance eta_ConnectionTracerMsg : Eta ConnectionTracerMsg := λ m,
  mkConnectionTracerMsg (m_Local m) (m_Remote m) (m_OdcID m) (m_SrcConnID m) (m_DestConnID m)
    (m_Chosen m) (m_Versions m) (m_ClientVersions m) (m_ServerVersions m) (m_ErrorMsg m)
    (m_Key m) (m_Value m) (m_Parameters m) (m_ByteCount m) (m_Cwnd m) (m_Packets m) (m_ID m)
    (m_Header m) (m_ExtendedHeader m) (m_Frames m) (m_AckFrame m) (m_PacketType m)
    (m_DropReason m) (m_LossReason m) (m_EncryptionLevel m) (m_PacketNumber m)
    (m_CongestionState m) (m_PTOCount m) (m_TracingID m) (m_Perspective m) (m_Bool m)
    (m_Generation m) (m_TimerType m) (m_Time m) (m_RTTStats m).

(** [ConnectionTracerMsg{}] *)
Definition empty_ConnectionTracerMsg : ConnectionTracerMsg :=
  mkConnectionTracerMsg None None None None None 0 [] [] [] None None None None 0 0 0 0 None None
    [] None 0 0 0 0 0 0 0 0 0 false 0 0 None None.

(** ** Printing *)

(** The dynamic values String passes as [interface{}]. An interface holding a
    nil pointer is not the nil interface. *)
Inductive any : Type :=
  | any_ConnectionID (p : option ConnectionID)
  | any_UDPAddr (p : option UDPAddr)
  | any_string (p : option string)
  | any_Parameters (p : option TransportParameters)
  | any_Header (p : option Header)
  | any_ExtendedHeader (p : option ExtendedHeader)
  | any_AckFrame (p : option AckFrame)
  | any_Versions (l : list Z)
  | any_Frames (l : list Frame)
  | any_number (type : string) (z : Z).

Section Printing.
(** fmt's [%+v] *)
Context (sprint : any → string).

Definition non_nil_string (name : string) (i : option any) : string :=
  match i with
  | Some v => name +:+ ": " +:+ sprint v +:+ newline
  | None => ""
  end.

Definition ConnectionTracerMsg_String (m : ConnectionTracerMsg) : string :=
  let s := ""%string in
  let s := s +:+ non_nil_string "OdcID" (Some (any_ConnectionID (m_OdcID m))) in
  let s := s +:+ non_nil_string "Perspective" (Some (any_number "logging.Perspective" (m_Perspective m))) in
  let s := s +:+ non_nil_string "ID" (Some (any_number "int" (m_ID m))) in
  let s := s +:+ non_nil_string "TracingID" (Some (any_number "uint64" (m_TracingID m))) in
  let s := s +:+ non_nil_string "Local" (Some (any_UDPAddr (m_Local m))) in
  let s := s +:+ non_nil_string "Remote" (Some (any_UDPAddr (m_Remote m))) in
  let s := s +:+ non_nil_string "Chosen" (Some (any_number "logging.VersionNumber" (m_Chosen m))) in
  let s := s +:+ non_nil_string "Versions" (Some (any_Versions (m_Versions m))) in
  let s := s +:+ non_nil_string "ClientVersions" (Some (any_Versions (m_ClientVersions m))) in
  let s := s +:+ non_nil_string "ServerVersions" (Some (any_Versions (m_ServerVersions m))) in
  let s := s +:+ non_nil_string "ErrorMsg" (Some (any_string (m_ErrorMsg m))) in
  let s := s +:+ non_nil_string "Parameters" (Some (any_Parameters (m_Parameters m))) in
  let s := s +:+ non_nil_string "ByteCount" (Some (any_number "logging.ByteCount" (m_ByteCount m))) in
  let s := s +:+ non_nil_string "Cwnd" (Some (any_number "logging.ByteCount" (m_Cwnd m))) in
  let s := s +:+ non_nil_string "Packets" (Some (any_number "int" (m_Packets m))) in
  let s := s +:+ non_nil_string "Header" (Some (any_Header (m_Header m))) in
  let s := s +:+ non_nil_string "ExtendedHeader" (Some (any_ExtendedHeader (m_ExtendedHeader m))) in
  let s := s +:+ non_nil_string "Frames" (Some (any_Frames (m_Frames m))) in
  let s := s +:+ non_nil_string "AckFrame" (Some (any_AckFrame (m_AckFrame m))) in
  let s := s +:+ non_nil_string "PacketType" (Some (any_number "logging.PacketType" (m_PacketType m))) in
  let s := s +:+ non_nil_string "DropReason" (Some (any_number "logging.PacketDropReason" (m_DropReason m))) in
  let s := s +:+ non_nil_string "TimerType" (Some (any_number "logging.TimerType" (m_TimerType m))) in
  let s := s +:+ non_nil_string "CongestionState" (Some (any_number "logging.CongestionState" (m_CongestionState m))) in
  s.

(** The lines of a text. *)
Fixpoint newlines (s : string) : nat :=
  match s with
  | EmptyString => 0
  | String a s => (if decide (a = Ascii.ascii_of_nat 10) then 1 else 0) + newlines s
  end.

Lemma newlines_app s t : newlines (s +:+ t) = newlines s + newlines t.
Proof. induction s as [|a s IH]; [done|]. simpl. rewrite IH. lia. Qed.

Lemma non_nil_string_line name v : 1 ≤ newlines (non_nil_string name (Some v)).
Proof. simpl. rewrite !newlines_app. simpl. lia. Qed.

(** String prints a line for every one of its 23 fields, whatever is nil:
    the test of non_nil_string is on an interface that holds a pointer, which is
    never the nil interface. *)
Theorem String_prints_nil m : 23 ≤ newlines (ConnectionTracerMsg_String m).
Proof.
  unfold ConnectionTracerMsg_String. rewrite !newlines_app.
  repeat match goal with
  | |- context [newlines (non_nil_string ?n (Some ?v))] =>
      let Hl := fresh in pose proof (non_nil_string_line n v) as Hl;
      revert Hl; generalize (newlines (non_nil_string n (Some v))); intros ? ?
  end. lia.
Qed.
End Printing.

(** ** gob *)

(** How gob sends the types that are handed on: parameters. *)
Class QuicCodecs := {
  gob_TransportParameters : codec TransportParameters;
  gob_Header : codec Header;
  gob_ExtendedHeader : codec ExtendedHeader;
  gob_AckFrame : codec AckFrame;
  gob_Time : codec Time
}.

(** Frames are interface values; an empty slice is the only one gob sends
    without the dynamic types being registered, which the program does not do. *)
Definition gob_Frames (fs : list Frame) : option (list Frame) :=
  match fs with [] => Some [] | _ => None end.

(** Strings and byte slices behind pointers are lost when empty; numbers and
    slices of numbers arrive; structs behind pointers arrive. *)
Definition gob_ConnectionTracerMsg `{!PanCodecs} `{!QuicCodecs} : codec ConnectionTracerMsg := λ m,
  l ← gob_struct_ptr gob_UDPAddr (m_Local m);
  r ← gob_struct_ptr gob_UDPAddr (m_Remote m);
  tp ← gob_struct_ptr gob_TransportParameters (m_Parameters m);
  hd ← gob_struct_ptr gob_Header (m_Header m);
  eh ← gob_struct_ptr gob_ExtendedHeader (m_ExtendedHeader m);
  fs ← gob_Frames (m_Frames m);
  ack ← gob_struct_ptr gob_AckFrame (m_AckFrame m);
  t ← gob_struct_ptr gob_Time (m_Time m);
  Some (m <| m_Local := l |> <| m_Remote := r |>
          <| m_OdcID := gob_flat_ptr list_zero (m_OdcID m) |>
          <| m_SrcConnID := gob_flat_ptr list_zero (m_SrcConnID m) |>
          <| m_DestConnID := gob_flat_ptr list_zero (m_DestConnID m) |>
          <| m_ErrorMsg := gob_flat_ptr string_zero (m_ErrorMsg m) |>
          <| m_Key := gob_flat_ptr string_zero (m_Key m) |>
          <| m_Value := gob_flat_ptr string_zero (m_Value m) |>
          <| m_Parameters := tp |> <| m_Header := hd |> <| m_ExtendedHeader := eh |>
          <| m_Frames := fs |> <| m_AckFrame := ack |> <| m_Time := t |>).
End Messages.
