(* ===== verification/ConnTracer.v ===== *)
(** * The QUIC connection tracer over RPC (rpc/connection_tracer.go)

    The client turns every callback of quic-go into a message to the daemon;
    the server calls the method of the same name of its [ServerConnectionTracer]
    with the message's fields. The specification says what reaches that tracer,
    callback by callback, and the theorem that the RPC layer delivers exactly
    that or ends the application. *)

From S2P Require Import Prelude PanPath GobRpc SelectorServer TracerMsg.

(** rpc.ServerConnectionTracer, over the state [T] of an implementation. *)
Class ServerConnectionTracer `{Pan} `{Quic} (T : Type) := {
  ct_TracerForConnection : Z → Z → ConnectionID → GoM T error;
  ct_StartedConnection : option UDPAddr → option UDPAddr → ConnectionID → ConnectionID → GoM T error;
  ct_NegotiatedVersion : option UDPAddr → option UDPAddr → Z → list Z → list Z → GoM T error;
  ct_ClosedConnection : option UDPAddr → option UDPAddr → error → GoM T error;
  ct_SentTransportParameters : option UDPAddr → option UDPAddr → option TransportParameters → GoM T error;
  ct_ReceivedTransportParameters : option UDPAddr → option UDPAddr → option TransportParameters → GoM T error;
  ct_RestoredTransportParameters : option UDPAddr → option UDPAddr → option TransportParameters → GoM T error;
  ct_SentPacket : option UDPAddr → option UDPAddr → option ExtendedHeader → Z → option AckFrame → list Frame → GoM T error;
  ct_ReceivedVersionNegotiationPacket : option UDPAddr → option UDPAddr → option Header → list Z → GoM T error;
  ct_ReceivedRetry : option UDPAddr → option UDPAddr → option Header → GoM T error;
  ct_ReceivedPacket : option UDPAddr → option UDPAddr → option ExtendedHeader → Z → list Frame → GoM T error;
  ct_BufferedPacket : option UDPAddr → option UDPAddr → Z → GoM T error;
  ct_DroppedPacket : option UDPAddr → option UDPAddr → Z → Z → Z → GoM T error;
  ct_UpdatedMetrics : option UDPAddr → option UDPAddr → option RTTStats → Z → Z → Z → GoM T error;
  ct_AcknowledgedPacket : option UDPAddr → option UDPAddr → Z → Z → GoM T error;
  ct_LostPacket : option UDPAddr → option UDPAddr → Z → Z → Z → GoM T error;
  ct_UpdatedCongestionState : option UDPAddr → option UDPAddr → Z → GoM T error;
  ct_UpdatedPTOCount : option UDPAddr → option UDPAddr → Z → GoM T error;
  ct_UpdatedKeyFromTLS : option UDPAddr → option UDPAddr → Z → Z → GoM T error;
  ct_UpdatedKey : option UDPAddr → option UDPAddr → Z → bool → GoM T error;
  ct_DroppedEncryptionLevel : option UDPAddr → option UDPAddr → Z → GoM T error;
  ct_DroppedKey : option UDPAddr → option UDPAddr → Z → GoM T error;
  ct_SetLossTimer : option UDPAddr → option UDPAddr → Z → Z → Time → GoM T error;
  ct_LossTimerExpired : option UDPAddr → option UDPAddr → Z → Z → GoM T error;
  ct_LossTimerCanceled : option UDPAddr → option UDPAddr → GoM T error;
  ct_Close : option UDPAddr → option UDPAddr → GoM T error;
  ct_Debug : option UDPAddr → option UDPAddr → string → string → GoM T error
}.

(** ** The server *)
Section Server.
Context `{Pan} `{Quic} {T : Type} `{!ServerConnectionTracer T}.
Abbreviation handler := (method T ConnectionTracerMsg unit).

(** The reply is the empty NilMsg. *)
Abbreviation returning := (returning tt).

Definition cts_NewTracerForConnection : handler := λ args,
  match m_OdcID args with
  | None => returning (mret (Some ErrDeref))
  | Some odcid => returning (ct_TracerForConnection (m_TracingID args) (m_Perspective args) odcid)
  end.

Definition cts_StartedConnection : handler := λ args,
  match m_Local args, m_Remote args, m_SrcConnID args, m_DestConnID args with
  | Some _, Some _, Some src, Some dest =>
      returning (ct_StartedConnection (m_Local args) (m_Remote args) src dest)
  | _, _, _, _ => returning (mret (Some ErrDeref))
  end.

Definition cts_NegotiatedVersion : handler := λ args,
  returning (ct_NegotiatedVersion (m_Local args) (m_Remote args)
    (m_Chosen args) (m_ClientVersions args) (m_ServerVersions args)).

(** errors.New of a text is never nil. *)
Definition cts_ClosedConnection : handler := λ args,
  match m_ErrorMsg args with
  | None => returning (ct_ClosedConnection (m_Local args) (m_Remote args) None)
  | Some s => returning (ct_ClosedConnection (m_Local args) (m_Remote args) (Some s))
  end.

Definition cts_SentTransportParameters : handler := λ args,
  returning (ct_SentTransportParameters (m_Local args) (m_Remote args) (m_Parameters args)).

Definition cts_ReceivedTransportParameters : handler := λ args,
  returning (ct_ReceivedTransportParameters (m_Local args) (m_Remote args) (m_Parameters args)).

Definition cts_RestoredTransportParameters : handler := λ args,
  returning (ct_RestoredTransportParameters (m_Local args) (m_Remote args) (m_Parameters args)).

Definition cts_SentPacket : handler := λ args,
  returning (ct_SentPacket (m_Local args) (m_Remote args)
    (m_ExtendedHeader args) (m_ByteCount args) (m_AckFrame args) (m_Frames args)).

Definition cts_ReceivedVersionNegotiationPacket : handler := λ args,
  returning (ct_ReceivedVersionNegotiationPacket (m_Local args) (m_Remote args)
    (m_Header args) (m_Versions args)).

Definition cts_ReceivedRetry : handler := λ args,
  returning (ct_ReceivedRetry (m_Local args) (m_Remote args) (m_Header args)).

Definition cts_ReceivedPacket : handler := λ args,
  returning (ct_ReceivedPacket (m_Local args) (m_Remote args)
    (m_ExtendedHeader args) (m_ByteCount args) (m_Frames args)).

Definition cts_BufferedPacket : handler := λ args,
  returning (ct_BufferedPacket (m_Local args) (m_Remote args) (m_PacketType args)).

Definition cts_DroppedPacket : handler := λ args,
  returning (ct_DroppedPacket (m_Local args) (m_Remote args)
    (m_PacketType args) (m_ByteCount args) (m_DropReason args)).

Definition cts_UpdatedMetrics : handler := λ args,
  returning (ct_UpdatedMetrics (m_Local args) (m_Remote args)
    (m_RTTStats args) (m_Cwnd args) (m_ByteCount args) (m_Packets args)).

Definition cts_AcknowledgedPacket : handler := λ args,
  returning (ct_AcknowledgedPacket (m_Local args) (m_Remote args)
    (m_EncryptionLevel args) (m_PacketNumber args)).

Definition cts_LostPacket : handler := λ args,
  returning (ct_LostPacket (m_Local args) (m_Remote args)
    (m_EncryptionLevel args) (m_PacketNumber args) (m_LossReason args)).

Definition cts_UpdatedCongestionState : handler := λ args,
  returning (ct_UpdatedCongestionState (m_Local args) (m_Remote args) (m_CongestionState args)).

Definition cts_UpdatedPTOCount : handler := λ args,
  returning (ct_UpdatedPTOCount (m_Local args) (m_Remote args) (m_PTOCount args)).

Definition cts_UpdatedKeyFromTLS : handler := λ args,
  returning (ct_UpdatedKeyFromTLS (m_Local args) (m_Remote args)
    (m_EncryptionLevel args) (m_Perspective args)).

Definition cts_UpdatedKey : handler := λ args,
  returning (ct_UpdatedKey (m_Local args) (m_Remote args) (m_Generation args) (m_Bool args)).

Definition cts_DroppedEncryptionLevel : handler := λ args,
  returning (ct_DroppedEncryptionLevel (m_Local args) (m_Remote args) (m_EncryptionLevel args)).

Definition cts_DroppedKey : handler := λ args,
  returning (ct_DroppedKey (m_Local args) (m_Remote args) (m_Generation args)).

Definition cts_SetLossTimer : handler := λ args,
  match m_Time args with
  | None => returning (mret (Some ErrDeref))
  | Some t => returning (ct_SetLossTimer (m_Local args) (m_Remote args)
                (m_TimerType args) (m_EncryptionLevel args) t)
  end.

Definition cts_LossTimerExpired : handler := λ args,
  returning (ct_LossTimerExpired (m_Local args) (m_Remote args)
    (m_TimerType args) (m_EncryptionLevel args)).

Definition cts_LossTimerCanceled : handler := λ args,
  returning (ct_LossTimerCanceled (m_Local args) (m_Remote args)).

Definition cts_Close : handler := λ args,
  returning (ct_Close (m_Local args) (m_Remote args)).

Definition cts_Debug : handler := λ args,
  match m_Key args, m_Value args with
  | Some name, Some msg => returning (ct_Debug (m_Local args) (m_Remote args) name msg)
  | _, _ => returning (mret (Some ErrDeref))
  end.

(** [rpc.Register(NewConnectionTracerServer(ct))]: the methods by name. *)
Definition ConnectionTracerServer_methods : list (string * handler) := [
  ("ConnectionTracerServer.NewTracerForConnection"%string, cts_NewTracerForConnection);
  ("ConnectionTracerServer.StartedConnection"%string, cts_StartedConnection);
  ("ConnectionTracerServer.NegotiatedVersion"%string, cts_NegotiatedVersion);
  ("ConnectionTracerServer.ClosedConnection"%string, cts_ClosedConnection);
  ("ConnectionTracerServer.SentTransportParameters"%string, cts_SentTransportParameters);
  ("ConnectionTracerServer.ReceivedTransportParameters"%string, cts_ReceivedTransportParameters);
  ("ConnectionTracerServer.RestoredTransportParameters"%string, cts_RestoredTransportParameters);
  ("ConnectionTracerServer.SentPacket"%string, cts_SentPacket);
  ("ConnectionTracerServer.ReceivedVersionNegotiationPacket"%string, cts_ReceivedVersionNegotiationPacket);
  ("ConnectionTracerServer.ReceivedRetry"%string, cts_ReceivedRetry);
  ("ConnectionTracerServer.ReceivedPacket"%string, cts_ReceivedPacket);
  ("ConnectionTracerServer.BufferedPacket"%string, cts_BufferedPacket);
  ("ConnectionTracerServer.DroppedPacket"%string, cts_DroppedPacket);
  ("ConnectionTracerServer.UpdatedMetrics"%string, cts_UpdatedMetrics);
  ("ConnectionTracerServer.AcknowledgedPacket"%string, cts_AcknowledgedPacket);
  ("ConnectionTracerServer.LostPacket"%string, cts_LostPacket);
  ("ConnectionTracerServer.UpdatedCongestionState"%string, cts_UpdatedCongestionState);
  ("ConnectionTracerServer.UpdatedPTOCount"%string, cts_UpdatedPTOCount);
  ("ConnectionTracerServer.UpdatedKeyFromTLS"%string, cts_UpdatedKeyFromTLS);
  ("ConnectionTracerServer.UpdatedKey"%string, cts_UpdatedKey);
  ("ConnectionTracerServer.DroppedEncryptionLevel"%string, cts_DroppedEncryptionLevel);
  ("ConnectionTracerServer.DroppedKey"%string, cts_DroppedKey);
  ("ConnectionTracerServer.SetLossTimer"%string, cts_SetLossTimer);
  ("ConnectionTracerServer.LossTimerExpired"%string, cts_LossTimerExpired);
  ("ConnectionTracerServer.LossTimerCanceled"%string, cts_LossTimerCanceled);
  ("ConnectionTracerServer.Close"%string, cts_Close);
  ("ConnectionTracerServer.Debug"%string, cts_Debug)
].

Definition ConnectionTracerServer_registry (name : string) : option handler :=
  (λ m, m.2.2) <$> list_find (λ m, m.1 = name) ConnectionTracerServer_methods.
End Server.

(** ** The client *)

(** A net.Addr holds a pan.UDPAddr or some other type. *)
Inductive NetAddr `{Pan} : Type := PanAddr (a : UDPAddr) | OtherAddr (text : string).

Definition bad_assertion : string := "interface conversion: net.Addr is not pan.UDPAddr".

(** [a.(pan.UDPAddr)] *)
Definition as_UDPAddr `{Pan} {S} (a : NetAddr) : GoM S UDPAddr :=
  match a with PanAddr a => mret a | OtherAddr _ => panic bad_assertion end.

Section Client.
Context `{Pan} `{Quic} `{!PanCodecs} `{!QuicCodecs} {T : Type} `{!ServerConnectionTracer T}.

Record ConnectionTracerClient := mkConnectionTracerClient {
  c_rpc : Client;
  c_p : Z;
  c_odcid : ConnectionID;
  c_tracing_id : Z;
  c_local : option UDPAddr;
  c_remote : option UDPAddr
}.
#[export] Instance eta_ConnectionTracerClient : Eta ConnectionTracerClient := λ c,
  mkConnectionTracerClient (c_rpc c) (c_p c) (c_odcid c) (c_tracing_id c) (c_local c) (c_remote c).

(** A tracer and the RPC connection it shares with the application's other
    tracers. *)
Record tracing := mk_tracing { t_tracer : ConnectionTracerClient; t_link : Link T }.
#[export] Instance eta_tracing : Eta tracing := λ c, mk_tracing (t_tracer c) (t_link c).

Definition on_tracer {A} (m : GoM ConnectionTracerClient A) : GoM tracing A :=
  zoom t_tracer (λ t c, c <| t_tracer := t |>) m.
Definition on_link {A} (m : GoM (Link T) A) : GoM tracing A :=
  zoom t_link (λ l c, c <| t_link := l |>) m.

Definition new_msg (c : ConnectionTracerClient) : ConnectionTracerMsg :=
  empty_ConnectionTracerMsg <| m_Perspective := c_p c |> <| m_OdcID := Some (c_odcid c) |>
    <| m_ID := Client_id (c_rpc c) |> <| m_TracingID := c_tracing_id c |>
    <| m_Local := c_local c |> <| m_Remote := c_remote c |>.

Definition tracer_call (name : string) (msg : ConnectionTracerMsg) : GoM (Link T) (error * unit) :=
  rpc_Call gob_ConnectionTracerMsg Some ConnectionTracerServer_registry tt name msg.

(** [err := c.rpc.Call(name, msg, &NilMsg{}); if err != nil { c.l.Fatalln(err) }] *)
Definition call_or_fatal (name : string) (msg : ConnectionTracerMsg) : GoM tracing unit :=
  or_fatal (on_link (tracer_call name msg)).

Definition NewConnectionTracerClient (client : Client) (id : Z) (p : Z) (odcid : ConnectionID)
    : GoM (Link T) ConnectionTracerClient :=
  or_fatal (tracer_call "ConnectionTracerServer.NewTracerForConnection"
    (empty_ConnectionTracerMsg <| m_Perspective := p |> <| m_OdcID := Some odcid |>
       <| m_ID := Client_id client |> <| m_TracingID := id |>));;
  mret (mkConnectionTracerClient client p odcid id None None).

Definition ctc_StartedConnection (local : NetAddr) (remote : NetAddr) (srcConnID : ConnectionID) (destConnID : ConnectionID)
    : GoM tracing unit :=
  msg ← on_tracer (gets new_msg);
  l ← as_UDPAddr local;
  r ← as_UDPAddr remote;
  on_tracer (modify (λ c, c <| c_local := Some l |>));;
  on_tracer (modify (λ c, c <| c_remote := Some r |>));;
  call_or_fatal "ConnectionTracerServer.StartedConnection"
    (msg <| m_Local := Some l |> <| m_Remote := Some r |>
         <| m_SrcConnID := Some srcConnID |> <| m_DestConnID := Some destConnID |>).

Definition ctc_NegotiatedVersion (chosen : Z) (clientVersions : list Z) (serverVersions : list Z)
    : GoM tracing unit :=
  msg ← on_tracer (gets new_msg);
  call_or_fatal "ConnectionTracerServer.NegotiatedVersion"
    (msg <| m_Chosen := chosen |> <| m_ClientVersions := clientVersions |> <| m_ServerVersions := serverVersions |>).

Definition ctc_ClosedConnection (e : error) : GoM tracing unit :=
  s ← deref e;
  msg ← on_tracer (gets new_msg);
  call_or_fatal "ConnectionTracerServer.ClosedConnection" (msg <| m_ErrorMsg := Some s |>).

Definition ctc_SentTransportParameters (parameters : option TransportParameters)
    : GoM tracing unit :=
  msg ← on_tracer (gets new_msg);
  call_or_fatal "ConnectionTracerServer.SentTransportParameters"
    (msg <| m_Parameters := parameters |>).

Definition ctc_ReceivedTransportParameters (parameters : option TransportParameters)
    : GoM tracing unit :=
  msg ← on_tracer (gets new_msg);
  call_or_fatal "ConnectionTracerServer.ReceivedTransportParameters"
    (msg <| m_Parameters := parameters |>).

Definition ctc_RestoredTransportParameters (parameters : option TransportParameters)
    : GoM tracing unit :=
  msg ← on_tracer (gets new_msg);
  call_or_fatal "ConnectionTracerServer.RestoredTransportParameters"
    (msg <| m_Parameters := parameters |>).

Definition ctc_SentPacket (hdr : option ExtendedHeader) (size : Z) (ack : option AckFrame) (frames : list Frame)
    : GoM tracing unit :=
  msg ← on_tracer (gets new_msg);
  call_or_fatal "ConnectionTracerServer.SentPacket"
    (msg <| m_ExtendedHeader := hdr |> <| m_ByteCount := size |> <| m_AckFrame := ack |>).

Definition ctc_ReceivedVersionNegotiationPacket (hdr : option Header) (versions : list Z)
    : GoM tracing unit :=
  msg ← on_tracer (gets new_msg);
  call_or_fatal "ConnectionTracerServer.ReceivedVersionNegotiationPacket"
    (msg <| m_Header := hdr |> <| m_Versions := versions |>).

Definition ctc_ReceivedRetry (hdr : option Header) : GoM tracing unit :=
  msg ← on_tracer (gets new_msg);
  call_or_fatal "ConnectionTracerServer.ReceivedRetry" (msg <| m_Header := hdr |>).

Definition ctc_ReceivedPacket (hdr : option ExtendedHeader) (size : Z) (frames : list Frame)
    : GoM tracing unit :=
  msg ← on_tracer (gets new_msg);
  call_or_fatal "ConnectionTracerServer.ReceivedPacket"
    (msg <| m_ExtendedHeader := hdr |> <| m_ByteCount := size |>).

Definition ctc_BufferedPacket (ptype : Z) : GoM tracing unit :=
  msg ← on_tracer (gets new_msg);
  call_or_fatal "ConnectionTracerServer.BufferedPacket" (msg <| m_PacketType := ptype |>).

Definition ctc_DroppedPacket (ptype : Z) (size : Z) (reason : Z) : GoM tracing unit :=
  msg ← on_tracer (gets new_msg);
  call_or_fatal "ConnectionTracerServer.DroppedPacket"
    (msg <| m_PacketType := ptype |> <| m_ByteCount := size |> <| m_DropReason := reason |>).

Definition ctc_UpdatedMetrics (rttStats : option logging_RTTStats) (cwnd : Z) (bytesInFlight : Z) (packetsInFlight : Z)
    : GoM tracing unit :=
  msg ← on_tracer (gets new_msg);
  let msg := msg <| m_Cwnd := cwnd |> <| m_ByteCount := bytesInFlight |>
                 <| m_Packets := packetsInFlight |> in
  stats ← NewRTTStats rttStats;
  call_or_fatal "ConnectionTracerServer.UpdatedMetrics" (msg <| m_RTTStats := Some stats |>).

Definition ctc_AcknowledgedPacket (level : Z) (pnum : Z) : GoM tracing unit :=
  msg ← on_tracer (gets new_msg);
  call_or_fatal "ConnectionTracerServer.AcknowledgedPacket"
    (msg <| m_EncryptionLevel := level |> <| m_PacketNumber := pnum |>).

Definition ctc_LostPacket (level : Z) (pnum : Z) (reason : Z) : GoM tracing unit :=
  msg ← on_tracer (gets new_msg);
  call_or_fatal "ConnectionTracerServer.LostPacket"
    (msg <| m_EncryptionLevel := level |> <| m_PacketNumber := pnum |> <| m_LossReason := reason |>).

Definition ctc_UpdatedCongestionState (state : Z) : GoM tracing unit :=
  msg ← on_tracer (gets new_msg);
  call_or_fatal "ConnectionTracerServer.UpdatedCongestionState"
    (msg <| m_CongestionState := state |>).

Definition ctc_UpdatedPTOCount (value : Z) : GoM tracing unit :=
  msg ← on_tracer (gets new_msg);
  call_or_fatal "ConnectionTracerServer.UpdatedPTOCount" (msg <| m_PTOCount := value |>).

Definition ctc_UpdatedKeyFromTLS (level : Z) (p : Z) : GoM tracing unit :=
  msg ← on_tracer (gets new_msg);
  call_or_fatal "ConnectionTracerServer.UpdatedKeyFromTLS"
    (msg <| m_EncryptionLevel := level |> <| m_Perspective := p |>).

Definition ctc_UpdatedKey (generation : Z) (remote : bool) : GoM tracing unit :=
  msg ← on_tracer (gets new_msg);
  call_or_fatal "ConnectionTracerServer.UpdatedKey"
    (msg <| m_Generation := generation |> <| m_Bool := remote |>).

Definition ctc_DroppedEncryptionLevel (level : Z) : GoM tracing unit :=
  msg ← on_tracer (gets new_msg);
  call_or_fatal "ConnectionTracerServer.DroppedEncryptionLevel"
    (msg <| m_EncryptionLevel := level |>).

Definition ctc_DroppedKey (generation : Z) : GoM tracing unit :=
  msg ← on_tracer (gets new_msg);
  call_or_fatal "ConnectionTracerServer.DroppedKey" (msg <| m_Generation := generation |>).

Definition ctc_SetLossTimer (ttype : Z) (level : Z) (t : Time) : GoM tracing unit :=
  msg ← on_tracer (gets new_msg);
  call_or_fatal "ConnectionTracerServer.SetLossTimer"
    (msg <| m_TimerType := ttype |> <| m_EncryptionLevel := level |> <| m_Time := Some t |>).

Definition ctc_LossTimerExpired (ttype : Z) (level : Z) : GoM tracing unit :=
  msg ← on_tracer (gets new_msg);
  call_or_fatal "ConnectionTracerServer.LossTimerExpired"
    (msg <| m_TimerType := ttype |> <| m_EncryptionLevel := level |>).

Definition ctc_LossTimerCanceled : GoM tracing unit :=
  msg ← on_tracer (gets new_msg);
  call_or_fatal "ConnectionTracerServer.LossTimerCanceled" msg.

Definition ctc_Close : GoM tracing unit :=
  msg ← on_tracer (gets new_msg);
  call_or_fatal "ConnectionTracerServer.Close" msg.

Definition ctc_Debug (name : string) (msg : string) : GoM tracing unit :=
  mesg ← on_tracer (gets new_msg);
  call_or_fatal "ConnectionTracerServer.Debug"
    (mesg <| m_Key := Some name |> <| m_Value := Some msg |>).

(** ** Callbacks *)
Inductive callback : Type :=
  | OnStartedConnection (local : NetAddr) (remote : NetAddr) (srcConnID : ConnectionID) (destConnID : ConnectionID)
  | OnNegotiatedVersion (chosen : Z) (clientVersions : list Z) (serverVersions : list Z)
  | OnClosedConnection (e : error)
  | OnSentTransportParameters (parameters : option TransportParameters)
  | OnReceivedTransportParameters (parameters : option TransportParameters)
  | OnRestoredTransportParameters (parameters : option TransportParameters)
  | OnSentPacket (hdr : option ExtendedHeader) (size : Z) (ack : option AckFrame) (frames : list Frame)
  | OnReceivedVersionNegotiationPacket (hdr : option Header) (versions : list Z)
  | OnReceivedRetry (hdr : option Header)
  | OnReceivedPacket (hdr : option ExtendedHeader) (size : Z) (frames : list Frame)
  | OnBufferedPacket (ptype : Z)
  | OnDroppedPacket (ptype : Z) (size : Z) (reason : Z)
  | OnUpdatedMetrics (rttStats : option logging_RTTStats) (cwnd : Z) (bytesInFlight : Z) (packetsInFlight : Z)
  | OnAcknowledgedPacket (level : Z) (pnum : Z)
  | OnLostPacket (level : Z) (pnum : Z) (reason : Z)
  | OnUpdatedCongestionState (state : Z)
  | OnUpdatedPTOCount (value : Z)
  | OnUpdatedKeyFromTLS (level : Z) (p : Z)
  | OnUpdatedKey (generation : Z) (remote : bool)
  | OnDroppedEncryptionLevel (level : Z)
  | OnDroppedKey (generation : Z)
  | OnSetLossTimer (ttype : Z) (level : Z) (t : Time)
  | OnLossTimerExpired (ttype : Z) (level : Z)
  | OnLossTimerCanceled
  | OnClose
  | OnDebug (name : string) (msg : string).

Definition report (cb : callback) : GoM tracing unit :=
  match cb with
  | OnStartedConnection local remote srcConnID destConnID => ctc_StartedConnection local remote srcConnID destConnID
  | OnNegotiatedVersion chosen clientVersions serverVersions => ctc_NegotiatedVersion chosen clientVersions serverVersions
  | OnClosedConnection e => ctc_ClosedConnection e
  | OnSentTransportParameters parameters => ctc_SentTransportParameters parameters
  | OnReceivedTransportParameters parameters => ctc_ReceivedTransportParameters parameters
  | OnRestoredTransportParameters parameters => ctc_RestoredTransportParameters parameters
  | OnSentPacket hdr size ack frames => ctc_SentPacket hdr size ack frames
  | OnReceivedVersionNegotiationPacket hdr versions => ctc_ReceivedVersionNegotiationPacket hdr versions
  | OnReceivedRetry hdr => ctc_ReceivedRetry hdr
  | OnReceivedPacket hdr size frames => ctc_ReceivedPacket hdr size frames
  | OnBufferedPacket ptype => ctc_BufferedPacket ptype
  | OnDroppedPacket ptype size reason => ctc_DroppedPacket ptype size reason
  | OnUpdatedMetrics rttStats cwnd bytesInFlight packetsInFlight => ctc_UpdatedMetrics rttStats cwnd bytesInFlight packetsInFlight
  | OnAcknowledgedPacket level pnum => ctc_AcknowledgedPacket level pnum
  | OnLostPacket level pnum reason => ctc_LostPacket level pnum reason
  | OnUpdatedCongestionState state => ctc_UpdatedCongestionState state
  | OnUpdatedPTOCount value => ctc_UpdatedPTOCount value
  | OnUpdatedKeyFromTLS level p => ctc_UpdatedKeyFromTLS level p
  | OnUpdatedKey generation remote => ctc_UpdatedKey generation remote
  | OnDroppedEncryptionLevel level => ctc_DroppedEncryptionLevel level
  | OnDroppedKey generation => ctc_DroppedKey generation
  | OnSetLossTimer ttype level t => ctc_SetLossTimer ttype level t
  | OnLossTimerExpired ttype level => ctc_LossTimerExpired ttype level
  | OnLossTimerCanceled => ctc_LossTimerCanceled
  | OnClose => ctc_Close
  | OnDebug name msg => ctc_Debug name msg
  end.

(** ** Specification *)

(** What must reach the daemon's tracer for a callback: [None] when gob cannot
    send it, [Some None] when the server has to reject it. Frames are not sent;
    an empty error text arrives as a nil error. *)
Definition delivery (cb : callback) (l r : option UDPAddr) : option (option (GoM T error)) :=
  match cb with
  | OnStartedConnection _ _ srcConnID destConnID => Some (
      if list_zero srcConnID || list_zero destConnID then None
      else Some (ct_StartedConnection l r srcConnID destConnID))
  | OnNegotiatedVersion chosen clientVersions serverVersions =>
      Some (Some (ct_NegotiatedVersion l r chosen clientVersions serverVersions))
  | OnClosedConnection e => Some (Some (
      ct_ClosedConnection l r (gob_flat_ptr string_zero e)))
  | OnSentTransportParameters parameters =>
      parameters ← gob_struct_ptr gob_TransportParameters parameters; Some (Some (ct_SentTransportParameters l r parameters))
  | OnReceivedTransportParameters parameters =>
      parameters ← gob_struct_ptr gob_TransportParameters parameters; Some (Some (ct_ReceivedTransportParameters l r parameters))
  | OnRestoredTransportParameters parameters =>
      parameters ← gob_struct_ptr gob_TransportParameters parameters; Some (Some (ct_RestoredTransportParameters l r parameters))
  | OnSentPacket hdr size ack _ =>
      hdr ← gob_struct_ptr gob_ExtendedHeader hdr; ack ← gob_struct_ptr gob_AckFrame ack; Some (Some (ct_SentPacket l r hdr size ack []))
  | OnReceivedVersionNegotiationPacket hdr versions =>
      hdr ← gob_struct_ptr gob_Header hdr; Some (Some (ct_ReceivedVersionNegotiationPacket l r hdr versions))
  | OnReceivedRetry hdr =>
      hdr ← gob_struct_ptr gob_Header hdr; Some (Some (ct_ReceivedRetry l r hdr))
  | OnReceivedPacket hdr size _ =>
      hdr ← gob_struct_ptr gob_ExtendedHeader hdr; Some (Some (ct_ReceivedPacket l r hdr size []))
  | OnBufferedPacket ptype =>
      Some (Some (ct_BufferedPacket l r ptype))
  | OnDroppedPacket ptype size reason =>
      Some (Some (ct_DroppedPacket l r ptype size reason))
  | OnUpdatedMetrics rttStats cwnd bytesInFlight packetsInFlight => Some (Some (
      ct_UpdatedMetrics l r
        ((λ s, mkRTTStats (stats_LatestRTT s) (stats_MaxAckDelay s) (stats_MeanDeviation s)
                 (stats_MinRTT s) (stats_PTO s false) (stats_SmoothedRTT s)) <$> rttStats)
        cwnd bytesInFlight packetsInFlight))
  | OnAcknowledgedPacket level pnum =>
      Some (Some (ct_AcknowledgedPacket l r level pnum))
  | OnLostPacket level pnum reason =>
      Some (Some (ct_LostPacket l r level pnum reason))
  | OnUpdatedCongestionState state =>
      Some (Some (ct_UpdatedCongestionState l r state))
  | OnUpdatedPTOCount value =>
      Some (Some (ct_UpdatedPTOCount l r value))
  | OnUpdatedKeyFromTLS level p =>
      Some (Some (ct_UpdatedKeyFromTLS l r level p))
  | OnUpdatedKey generation remote =>
      Some (Some (ct_UpdatedKey l r generation remote))
  | OnDroppedEncryptionLevel level =>
      Some (Some (ct_DroppedEncryptionLevel l r level))
  | OnDroppedKey generation =>
      Some (Some (ct_DroppedKey l r generation))
  | OnSetLossTimer ttype level t =>
      t ← gob_Time t; Some (Some (ct_SetLossTimer l r ttype level t))
  | OnLossTimerExpired ttype level =>
      Some (Some (ct_LossTimerExpired l r ttype level))
  | OnLossTimerCanceled =>
      Some (Some (ct_LossTimerCanceled l r))
  | OnClose =>
      Some (Some (ct_Close l r))
  | OnDebug name msg => Some (
      if string_zero name || string_zero msg then None else Some (ct_Debug l r name msg))
  end.

(** The addresses the connection has from the callback on; the callback panics
    when its arguments are not usable. *)
Definition acquaint (cb : callback) : GoM tracing unit :=
  match cb with
  | OnStartedConnection local remote _ _ =>
      l ← as_UDPAddr local; r ← as_UDPAddr remote;
      on_tracer (modify (λ c, c <| c_local := Some l |> <| c_remote := Some r |>))
  | OnClosedConnection e => deref e;; mret tt
  | OnUpdatedMetrics rttStats _ _ _ => deref rttStats;; mret tt
  | _ => mret tt
  end.

Definition report_spec (cb : callback) : GoM tracing unit :=
  acquaint cb;;
  c ← on_tracer get_state;
  or_fatal (on_link (carry tt (delivery cb (c_local c) (c_remote c)))).
End Client.
Arguments tracing {_} T.
Arguments mk_tracing {_ T} _ _.

(** ** Lemmas *)
Section Lemmas.
Context `{Pan} `{Quic} `{!PanCodecs} `{!PanFaithful} `{!QuicCodecs} {T : Type}
  `{!ServerConnectionTracer T}.

(** gob on a message, the addresses arriving as they are. *)
Lemma gob_msg m :
  gob_ConnectionTracerMsg m =
  (tp ← gob_struct_ptr gob_TransportParameters (m_Parameters m);
   hd ← gob_struct_ptr gob_Header (m_Header m);
   eh ← gob_struct_ptr gob_ExtendedHeader (m_ExtendedHeader m);
   fs ← gob_Frames (m_Frames m);
   ack ← gob_struct_ptr gob_AckFrame (m_AckFrame m);
   t ← gob_struct_ptr gob_Time (m_Time m);
   Some (m <| m_OdcID := gob_flat_ptr list_zero (m_OdcID m) |>
           <| m_SrcConnID := gob_flat_ptr list_zero (m_SrcConnID m) |>
           <| m_DestConnID := gob_flat_ptr list_zero (m_DestConnID m) |>
           <| m_ErrorMsg := gob_flat_ptr string_zero (m_ErrorMsg m) |>
           <| m_Key := gob_flat_ptr string_zero (m_Key m) |>
           <| m_Value := gob_flat_ptr string_zero (m_Value m) |>
           <| m_Parameters := tp |> <| m_Header := hd |> <| m_ExtendedHeader := eh |>
           <| m_Frames := fs |> <| m_AckFrame := ack |> <| m_Time := t |>)).
Proof.
  unfold gob_ConnectionTracerMsg.
  by rewrite !(gob_struct_ptr_faithful _ UDPAddr_faithful).
Qed.

(** A callback that calls after its bookkeeping. *)
Lemma call_or_fatal_carries name msg d c :
  (∀ lk, tracer_call name msg lk = carry tt d lk) →
  call_or_fatal name msg c = or_fatal (on_link (carry tt d)) c.
Proof. intros Hc. unfold call_or_fatal, or_fatal, on_link, zoom, mbind, GoM_bind. by rewrite Hc. Qed.

Lemma with_new_msg {A} (f : ConnectionTracerMsg → GoM (tracing T) A) c :
  (on_tracer (gets new_msg) ≫= f) c = f (new_msg (t_tracer c)) c.
Proof. by destruct c. Qed.

(** A callback that makes its call in state [c'] brings its delivery there. *)
Lemma report_carries cb name h msg (c c' : tracing T) :
  report cb c = call_or_fatal name msg c' →
  acquaint cb c = (Ok tt, c') →
  ConnectionTracerServer_registry name = Some h →
  handles tt h (gob_ConnectionTracerMsg msg)
    (delivery cb (c_local (t_tracer c')) (c_remote (t_tracer c'))) →
  report cb c = report_spec cb c.
Proof.
  intros Hc Ha Hr Hh. unfold report_spec. rewrite Hc, (bind_ok _ _ _ _ _ Ha).
  rewrite (call_or_fatal_carries _ _ _ _ (λ lk, call_carries _ _ _ Some _ _ _ _ lk eq_refl Hr Hh)).
  by destruct c'.
Qed.
Lemma report_run (cb : callback) (c : tracing T) : report cb c = report_spec cb c.
Proof.
  destruct cb as [local remote src dest| |e| | | | | | | | | |rttStats| | | | | | | | | | | | |].
  2,4-12,14-26: eapply (report_carries _ _ _ _ c c);
    [exact (with_new_msg _ c)|reflexivity|reflexivity|rewrite gob_msg; cbn]; try reflexivity.
  all: try (repeat match goal with
    | |- context [gob_Time ?t] => destruct (gob_Time t); simpl
    | x : option _ |- handles _ _ _ _ => destruct x; simpl
    | |- context [?codec ?x ≫= _] => destruct (codec x); simpl
    end; done).
  - destruct local as [l|], remote as [r|]; [|by destruct c..].
    destruct c as [t lk]. eapply (report_carries _ _ _ _ _
      (mk_tracing (t <| c_local := Some l |> <| c_remote := Some r |>) lk));
      [reflexivity|reflexivity|reflexivity|rewrite gob_msg; cbn].
    by destruct src, dest.
  - by destruct (string_zero name), (string_zero msg).
  - destruct e as [e|]; [|by destruct c].
    eapply (report_carries _ _ _ _ c c);
      [exact (with_new_msg _ c)|by destruct c|reflexivity|rewrite gob_msg; cbn].
    by destruct (string_zero e).
  - destruct rttStats as [stats|]; [|by destruct c].
    eapply (report_carries _ _ _ _ c c);
      [exact (with_new_msg _ c)|by destruct c|reflexivity|rewrite gob_msg; reflexivity].
Qed.
End Lemmas.

(** ** Properties *)
Section Claims.
Context `{Pan} `{Quic} `{!PanCodecs} `{!PanFaithful} `{!QuicCodecs} {T : Type}
  `{!ServerConnectionTracer T}.

(** C5: Every callback of quic-go reaches the daemon's tracer: it calls the
    method of its own name, once, with the connection's addresses and its own
    arguments as gob delivers them. The exceptions are the specification's: a
    callback gob cannot send, an empty connection ID, an empty debug text, an
    error of the tracer, a dead daemon or link, each of which ends the
    application, and a callback with unusable arguments, which panics. *)
Theorem report_refines (cb : callback) (c : tracing T) : report cb c = report_spec cb c.
Proof. apply report_run. Qed.

(** A new tracer announces its connection: TracerForConnection gets the
    tracing id, the perspective and the connection ID; an empty connection ID,
    an error of the tracer or a dead link ends the application. *)
Theorem NewConnectionTracerClient_refines client id p odcid (lk : Link T) :
  NewConnectionTracerClient client id p odcid lk
  = (or_fatal (carry tt (Some (if list_zero odcid then None
                            else Some (ct_TracerForConnection id p odcid))));;
     mret (mkConnectionTracerClient client p odcid id None None)) lk.
Proof.
  unfold NewConnectionTracerClient, or_fatal, mbind, GoM_bind.
  unfold tracer_call. erewrite call_carries; [done|reflexivity|reflexivity|]. by destruct odcid.
Qed.
End Claims.

(** ** Witnesses: a tracer that writes down the names of its methods *)
Module SampleTracer.
#[global] Existing Instance SamplePan.pan.
#[global] Instance quic : Quic := {|
  TransportParameters := nat; Header := nat; ExtendedHeader := nat; AckFrame := nat; Frame := nat;
  logging_RTTStats := Z; stats_LatestRTT := id; stats_MaxAckDelay := id; stats_MeanDeviation := id;
  stats_MinRTT := id; stats_PTO := λ s _, s; stats_SmoothedRTT := id |}.
#[global] Instance pan_codecs : PanCodecs := {|
  gob_UDPAddr := Some; gob_PathInterface := Some; gob_Path := Some |}.
#[global] Instance pan_faithful : PanFaithful.
Proof. by split. Qed.
#[global] Instance quic_codecs : QuicCodecs := {|
  gob_TransportParameters := Some; gob_Header := Some; gob_ExtendedHeader := Some;
  gob_AckFrame := Some; gob_Time := Some |}.

Definition note (name : string) : GoM (list string) error := modify (cons name);; mret None.

#[global] Instance tracer : ServerConnectionTracer (list string) := {|
  ct_TracerForConnection _ _ _ := note "TracerForConnection";
  ct_StartedConnection _ _ _ _ := note "StartedConnection";
  ct_NegotiatedVersion _ _ _ _ _ := note "NegotiatedVersion";
  ct_ClosedConnection _ _ _ := note "ClosedConnection";
  ct_SentTransportParameters _ _ _ := note "SentTransportParameters";
  ct_ReceivedTransportParameters _ _ _ := note "ReceivedTransportParameters";
  ct_RestoredTransportParameters _ _ _ := note "RestoredTransportParameters";
  ct_SentPacket _ _ _ _ _ _ := note "SentPacket";
  ct_ReceivedVersionNegotiationPacket _ _ _ _ := note "ReceivedVersionNegotiationPacket";
  ct_ReceivedRetry _ _ _ := note "ReceivedRetry";
  ct_ReceivedPacket _ _ _ _ _ := note "ReceivedPacket";
  ct_BufferedPacket _ _ _ := note "BufferedPacket";
  ct_DroppedPacket _ _ _ _ _ := note "DroppedPacket";
  ct_UpdatedMetrics _ _ _ _ _ _ := note "UpdatedMetrics";
  ct_AcknowledgedPacket _ _ _ _ := note "AcknowledgedPacket";
  ct_LostPacket _ _ _ _ _ := note "LostPacket";
  ct_UpdatedCongestionState _ _ _ := note "UpdatedCongestionState";
  ct_UpdatedPTOCount _ _ _ := note "UpdatedPTOCount";
  ct_UpdatedKeyFromTLS _ _ _ _ := note "UpdatedKeyFromTLS";
  ct_UpdatedKey _ _ _ _ := note "UpdatedKey";
  ct_DroppedEncryptionLevel _ _ _ := note "DroppedEncryptionLevel";
  ct_DroppedKey _ _ _ := note "DroppedKey";
  ct_SetLossTimer _ _ _ _ _ := note "SetLossTimer";
  ct_LossTimerExpired _ _ _ _ := note "LossTimerExpired";
  ct_LossTimerCanceled _ _ := note "LossTimerCanceled";
  ct_Close _ _ := note "Close";
  ct_Debug _ _ _ _ := note "Debug" |}.

Definition start : tracing (list string) :=
  mk_tracing (mkConnectionTracerClient (mkClient 42) 1 ["a"%char] 7 None None)
    (mkLink [] true false None false).
End SampleTracer.

(** The tracer hears of a lost packet; an empty debug text ends the
    application. *)
Lemma report_refines_witness :
  report (OnLostPacket 1 2 3) SampleTracer.start
  = (Ok tt, SampleTracer.start <| t_link := mkLink ["LostPacket"%string] true false None false |>) ∧
  (report (OnDebug "key" "") SampleTracer.start).1 = Exits ErrDeref.
Proof.
  rewrite (report_refines (OnLostPacket 1 2 3)), (report_refines (OnDebug "key" "")).
  split; reflexivity.
Defined.
