(* ===== verification/QuicTracer.v ===== *)
(** * The QUIC transport tracer over RPC (rpc/tracer.go)

    [TracerClient] makes a connection tracer per connection and reports the
    packets that belong to no connection; it ignores the errors of those
    reports. [TracerServer] hands them to the daemon's own tracer, a value of
    quic-go's logging.Tracer. *)

From S2P Require Import Prelude PanPath GobRpc SelectorServer TracerMsg ConnTracer.

(** logging.Tracer, over the state [W] of an implementation. *)
Class LoggingTracer `{Pan} `{Quic} (W : Type) := {
  lt_SentPacket : NetAddr → option Header → Z → list Frame → GoM W unit;
  lt_DroppedPacket : NetAddr → Z → Z → Z → GoM W unit
}.

Section Messages.
Context `{Pan} `{Quic}.

Record TracerMsg := mkTracerMsg {
  tm_ID : option Z;
  tm_TracingID : option Z;
  tm_Perspective : option Z;
  tm_ConnectionID : option ConnectionID;
  tm_Addr : option NetAddr;
  tm_Header : option Header;
  tm_ByteCount : option Z;
  tm_Frames : list Frame;
  tm_PacketType : option Z;
  tm_DropReason : option Z
}.

Definition empty_TracerMsg : TracerMsg :=
  mkTracerMsg None None None None None None None [] None None.

Definition Z_zero (z : Z) : bool := bool_decide (z = 0%Z).

(** [gob_Addr] sends the value of the net.Addr interface; it fails for a type
    that is not registered with gob. Numbers behind pointers are lost when they
    are zero. *)
Definition gob_TracerMsg `{!QuicCodecs} (gob_Addr : codec NetAddr) : codec TracerMsg := λ m,
  a ← gob_struct_ptr gob_Addr (tm_Addr m);
  h ← gob_struct_ptr gob_Header (tm_Header m);
  fs ← gob_Frames (tm_Frames m);
  Some (mkTracerMsg (gob_flat_ptr Z_zero (tm_ID m)) (gob_flat_ptr Z_zero (tm_TracingID m))
    (gob_flat_ptr Z_zero (tm_Perspective m)) (gob_flat_ptr list_zero (tm_ConnectionID m))
    a h (gob_flat_ptr Z_zero (tm_ByteCount m)) fs
    (gob_flat_ptr Z_zero (tm_PacketType m)) (gob_flat_ptr Z_zero (tm_DropReason m))).
End Messages.

(** ** The server *)
Section Server.
Context `{Pan} `{Quic} {W : Type} `{!LoggingTracer W}.
Abbreviation handler := (method W TracerMsg TracerMsg).
Abbreviation returning := (returning empty_TracerMsg).

Definition TracerServer_SentPacket : handler := λ args,
  match tm_Addr args, tm_ByteCount args with
  | Some addr, Some n => returning (lt_SentPacket addr (tm_Header args) n (tm_Frames args);; mret None)
  | _, _ => returning (mret (Some ErrDeref))
  end.

Definition TracerServer_DroppedPacket : handler := λ args,
  match tm_Addr args, tm_PacketType args, tm_ByteCount args, tm_DropReason args with
  | Some addr, Some tp, Some n, Some r => returning (lt_DroppedPacket addr tp n r;; mret None)
  | _, _, _, _ => returning (mret (Some ErrDeref))
  end.

Definition TracerServer_registry (name : string) : option handler :=
  if decide (name = "TracerServer.SentPacket")%string then Some TracerServer_SentPacket else
  if decide (name = "TracerServer.DroppedPacket")%string then Some TracerServer_DroppedPacket else
  None.
End Server.

(** ** The client *)
Section Client.
Context `{Pan} `{Quic} `{!QuicCodecs} (gob_Addr : codec NetAddr) {W : Type} `{!LoggingTracer W}.

(** [c.rpc.Call(...)] as a statement: the error is dropped. *)
Definition call_ignoring (name : string) (msg : TracerMsg) : GoM (Link W) unit :=
  rpc_Call (gob_TracerMsg gob_Addr) (gob_TracerMsg gob_Addr) TracerServer_registry
    empty_TracerMsg name msg;;
  mret tt.

Definition TracerClient_SentPacket (client : Client) (addr : option NetAddr) (hdr : option Header)
    (n : Z) (fs : list Frame) : GoM (Link W) unit :=
  call_ignoring "TracerServer.SentPacket"
    (mkTracerMsg (Some (Client_id client)) None None None addr hdr (Some n) fs None None).

Definition TracerClient_DroppedPacket (client : Client) (addr : option NetAddr) (tp n r : Z)
    : GoM (Link W) unit :=
  call_ignoring "TracerServer.DroppedPacket"
    (mkTracerMsg (Some (Client_id client)) None None None addr None (Some n) [] (Some tp) (Some r)).
End Client.

(** [ctx.Value(quic.SessionTracingKey).(uint64)]: [id] is the value if the
    context holds a uint64 under the key. *)
Definition TracerClient_TracerForConnection `{Pan} `{Quic} `{!PanCodecs} `{!QuicCodecs} {T : Type}
    `{!ServerConnectionTracer T} (client : Client) (id : option Z) (p : Z) (odcid : ConnectionID)
    : GoM (Link T) ConnectionTracerClient :=
  match id with
  | None => fatal "cast failed"
  | Some id => NewConnectionTracerClient client id p odcid
  end.

(** ** Specification *)
Section Specification.
Context `{Pan} `{Quic} `{!QuicCodecs} (gob_Addr : codec NetAddr) {W : Type} `{!LoggingTracer W}.

(** What reaches the daemon's tracer. A packet of zero bytes, or one whose type
    or drop reason has the number zero, is rejected; a packet with frames, or an
    address of a type unknown to gob, cannot be sent. *)
Definition SentPacket_delivery (addr : option NetAddr) (hdr : option Header) (n : Z)
    (fs : list Frame) : option (option (GoM W error)) :=
  a ← gob_struct_ptr gob_Addr addr;
  h ← gob_struct_ptr gob_Header hdr;
  fs ← gob_Frames fs;
  Some (match a with
        | Some a => if Z_zero n then None else Some (lt_SentPacket a h n fs;; mret None)
        | None => None
        end).

Definition DroppedPacket_delivery (addr : option NetAddr) (tp n r : Z)
    : option (option (GoM W error)) :=
  a ← gob_struct_ptr gob_Addr addr;
  Some (match a with
        | Some a => if Z_zero tp || Z_zero n || Z_zero r then None
                    else Some (lt_DroppedPacket a tp n r;; mret None)
        | None => None
        end).
End Specification.

(** ** Lemmas *)
Section Lemmas.
Context `{Pan} `{Quic} `{!QuicCodecs} (gob_Addr : codec NetAddr) {W : Type} `{!LoggingTracer W}.

(** A report that gob cannot encode goes unnoticed, and the link is down. *)
Lemma unencodable_run client addr hdr n fs (lk : Link W) :
  SentPacket_delivery (W := W) gob_Addr addr hdr n fs = None → closing lk = false →
  ∃ lk', TracerClient_SentPacket gob_Addr client addr hdr n fs lk = (Ok tt, lk') ∧
    up lk' = false ∧ server lk' = server lk ∧ dead lk' = dead lk.
Proof.
  intros Hd Hc. unfold TracerClient_SentPacket, call_ignoring, mbind, GoM_bind.
  unfold SentPacket_delivery in Hd. unfold rpc_Call, gob_TracerMsg. simpl.
  destruct (negb (up lk) || closing lk) eqn:E.
  { exists lk. rewrite Hc, orb_false_r in E. apply negb_true_iff in E. by split_and!. }
  exists (lk <| up := false |>). split; [|done].
  destruct (gob_struct_ptr gob_Addr addr) as [a|]; [|done]. simpl in *.
  destruct (gob_struct_ptr gob_Header hdr) as [h|]; [|done]. simpl in *.
  by destruct (gob_Frames fs).
Qed.
End Lemmas.

(** ** Properties *)
Section Claims.
Context `{Pan} `{Quic} `{!QuicCodecs} (gob_Addr : codec NetAddr) {W : Type} `{!LoggingTracer W}.

(** C29: The two packet reports: the daemon's tracer gets exactly the packets the
    specification delivers, and whatever happens to a report, an error included,
    the application does not see it. *)
Theorem packet_reports_refine client addr hdr n fs tp r (lk : Link W) :
  TracerClient_SentPacket gob_Addr client addr hdr n fs lk
  = (carry empty_TracerMsg (SentPacket_delivery gob_Addr addr hdr n fs);; mret tt) lk ∧
  TracerClient_DroppedPacket gob_Addr client addr tp n r lk
  = (carry empty_TracerMsg (DroppedPacket_delivery gob_Addr addr tp n r);; mret tt) lk.
Proof.
  unfold TracerClient_SentPacket, TracerClient_DroppedPacket, call_ignoring, mbind, GoM_bind.
  split; (erewrite call_carries; [done|reflexivity|reflexivity|]);
    unfold SentPacket_delivery, DroppedPacket_delivery, gob_TracerMsg; simpl.
  - destruct (gob_struct_ptr gob_Addr addr) as [[a|]|]; simpl; [| |done];
      (destruct (gob_struct_ptr gob_Header hdr) as [h|]; simpl; [|done]);
      (destruct fs; simpl; [|done]); by destruct (Z_zero n).
  - destruct (gob_struct_ptr gob_Addr addr) as [[a|]|]; simpl; [| |done];
      by destruct (Z_zero tp), (Z_zero n), (Z_zero r).
Qed.

End Claims.
