(* ===== verification/System.v ===== *)
(** * Several applications and one daemon

    Every application has one connection to the daemon, which its selector and
    its tracers share; the daemon serves all of them from one state. Here the
    applications take turns, in any order: an operation of the selector, a
    callback of quic-go, a report of a packet. When a handler panics the daemon's
    process ends, and with it every connection. *)

From S2P Require Import Prelude Enums Taps PanPath GobRpc ServerSelector SelectorServer SelectorClient.
From S2P Require Import TracerMsg ConnTracer QuicTracer.

(** The result of Path, the error of SetPreferences and Close. *)
Abbreviation answer := (option PanPath * error)%type.

(** ** The system *)
Section System.
Context `{Pan} `{Quic} `{!PanCodecs} `{!QuicCodecs} (gob_Addr : codec NetAddr).
Context {D : Type} `{!ServerSelector D} `{!ServerConnectionTracer D} `{!LoggingTracer D}.
(** What the daemon does by itself. *)
Context {E : Type} (housekeeping : E → GoM D unit).

(** An application: its selector, which holds the link to the daemon, the client
    with its connection tracers, the operations it has performed, and whether it
    has ended. *)
Record application := mk_application {
  selector : SelectorClient D;
  client : Client;
  tracers : list ConnectionTracerClient;
  trace : list operation;
  ended : bool
}.
#[export] Instance eta_application : Eta application := λ a,
  mk_application (selector a) (client a) (tracers a) (trace a) (ended a).

Definition set_link (lk : Link D) (a : application) : application :=
  a <| selector := (selector a) <| link := lk |> |>.
Definition app_link (a : application) : Link D := link (selector a).

Definition over_link {A} (m : GoM (Link D) A) : GoM application A := zoom app_link set_link m.
Definition on_selector {A} (m : GoM (SelectorClient D) A) : GoM application A :=
  zoom selector (λ c a, a <| selector := c |>) m.

(** The [k]-th connection tracer, over the application's link. *)
Definition on_tracing {A} (k : nat) (t : ConnectionTracerClient) (m : GoM (tracing D) A) : GoM application A :=
  zoom (λ a, mk_tracing t (app_link a))
    (λ c a, set_link (t_link c) a <| tracers := <[k := t_tracer c]> (tracers a) |>) m.

(** What an application does in a turn. [Objects]: it writes to its preferences
    objects. *)
Inductive action : Type :=
  | Operate (o : operation)
  | Objects (ps : gmap loc ConnectionPreferences)
  | NewTracer (id : option Z) (p : Z) (odcid : ConnectionID)
  | Callback (k : nat) (cb : callback)
  | SentPacket (addr : option NetAddr) (hdr : option Header) (n : Z) (fs : list Frame)
  | DroppedPacket (addr : option NetAddr) (tp n r : Z).

Definition act (x : action) : GoM application answer :=
  match x with
  | Operate o =>
      modify (λ a, a <| trace := trace a ++ [o] |>);;
      on_selector (perform o)
  | Objects ps => on_selector (modify (λ c, c <| prefs := ps |>));; mret (None, None)
  | NewTracer id p odcid =>
      a ← get_state;
      t ← over_link (TracerClient_TracerForConnection (client a) id p odcid);
      modify (λ a, a <| tracers := tracers a ++ [t] |>);;
      mret (None, None)
  | Callback k cb =>
      a ← get_state;
      match tracers a !! k with
      | Some t => on_tracing k t (report cb);; mret (None, None)
      | None => mret (None, None)
      end
  | SentPacket addr hdr n fs =>
      a ← get_state;
      over_link (TracerClient_SentPacket gob_Addr (client a) addr hdr n fs);; mret (None, None)
  | DroppedPacket addr tp n r =>
      a ← get_state;
      over_link (TracerClient_DroppedPacket gob_Addr (client a) addr tp n r);; mret (None, None)
  end.

(** The daemon's state and whether its process is alive. [stuck]: a handler waits
    for ever. *)
Record system := mk_system {
  daemon : D;
  alive : bool;
  stuck : bool;
  applications : list application
}.
#[export] Instance eta_system : Eta system := λ s,
  mk_system (daemon s) (alive s) (stuck s) (applications s).

(** The application's link leads to the daemon as it is now. *)
Definition attach (s : system) (a : application) : application :=
  let lk := app_link a in
  set_link (lk <| server := daemon s |> <| up := up lk && alive s |> <| dead := false |>) a.

Definition blocked {A} (r : outcome A) : bool := match r with Deadlocks => true | _ => false end.
Definition returned {A} (r : outcome A) : bool := match r with Ok _ => true | _ => false end.

(** The daemon after the turn is the one at the end of the link; an application
    whose action does not return has ended. *)
Definition detach {A} (i : nat) (r : outcome A) (a : application) (s : system) : system :=
  mk_system (server (app_link a)) (alive s && negb (dead (app_link a))) (stuck s || blocked r)
    (<[i := a <| ended := negb (returned r) |>]> (applications s)).

Inductive event : Type :=
  | Turn (i : nat) (x : action)
  | Connect (ps : gmap loc ConnectionPreferences) (close_error : error)
  | Housekeep (e : E).

(** A new application reaches the daemon if it is alive: [RPCClientHelper]. *)
Definition connect (ps : gmap loc ConnectionPreferences) (close_error : error) (s : system) : system :=
  if alive s then
    s <| applications := applications s ++
      [mk_application (NewSelectorClient ps (mkLink (daemon s) true false close_error false))
         (mkClient 42) [] [] false] |>
  else s.

Definition happens (e : event) (s : system) : option (outcome answer) * system :=
  match e with
  | Turn i x =>
      match applications s !! i with
      | Some a =>
          if ended a then (None, s)
          else let '(r, a') := act x (attach s a) in (Some r, detach i r a' s)
      | None => (None, s)
      end
  | Connect ps ce => (None, connect ps ce s)
  | Housekeep e =>
      if alive s then
        let '(r, d) := housekeeping e (daemon s) in
        (None, mk_system d (match r with Panics _ | Exits _ => false | _ => true end)
                 (stuck s || blocked r) (applications s))
      else (None, s)
  end.

Definition after (evs : list event) (s : system) : system := foldl (λ s e, (happens e s).2) s evs.

Definition start (d : D) : system := mk_system d true false [].
End System.
Arguments application {_} D.
Arguments system {_} D.

(** ** Lemmas *)
Section Lemmas.
Context `{PanFaithful} `{Quic} `{!QuicCodecs} (gob_Addr : codec NetAddr).
Context {D : Type} `{!ServerSelector D} `{!ServerConnectionTracer D} `{!LoggingTracer D}.
Context {E : Type} (housekeeping : E → GoM D unit).
Implicit Types (a : application D) (s : system D).
Abbreviation act := (act gob_Addr).
Abbreviation happens := (happens gob_Addr housekeeping).
Abbreviation after := (after gob_Addr housekeeping).

(** Only the link of the selector changes. *)
Definition link_only a a' : Prop :=
  trace a' = trace a ∧ ∃ lk, selector a' = (selector a) <| link := lk |>.
#[export] Instance link_only_preorder : PreOrder link_only.
Proof.
  split; [intros [[] ? ? ? ?]; split; [done|by eexists]|].
  intros a1 a2 a3 [T1 [lk1 E1]] [T2 [lk2 E2]]. split; [congruence|]. exists lk2. by rewrite E2, E1.
Qed.

Lemma link_only_over_link {A} (m : GoM (Link D) A) : within link_only (over_link m).
Proof. intros a. unfold over_link, zoom. destruct (m (app_link a)) as [r lk]. split; [done|by exists lk]. Qed.

Lemma link_only_on_tracing {A} k t (m : GoM (tracing D) A) : within link_only (on_tracing k t m).
Proof.
  intros a. unfold on_tracing, zoom. destruct (m _) as [r c]. split; [done|by exists (t_link c)].
Qed.

Lemma link_only_set lk a : link_only a (set_link lk a).
Proof. split; [done|by exists lk]. Qed.

Lemma act_link_only x :
  match x with Operate _ | Objects _ => True | _ => within link_only (act x) end.
Proof.
  destruct x; [done|done|..]; unfold System.act;
    (apply within_bind; [apply _|apply within_get_state; apply _|intros a]).
  - apply within_bind; [apply _|apply link_only_over_link|intros t].
    apply within_bind; [apply _|intros a'; split; [done|exists (app_link a'); by destruct a' as [[]]]|intros _].
    apply within_ret; apply _.
  - destruct (tracers a !! k); [|apply within_ret; apply _].
    apply within_bind; [apply _|apply link_only_on_tracing|intros _; apply within_ret; apply _].
  - apply within_bind; [apply _|apply link_only_over_link|intros _; apply within_ret; apply _].
  - apply within_bind; [apply _|apply link_only_over_link|intros _; apply within_ret; apply _].
Qed.

Lemma act_operate o a :
  act (Operate o) a
  = let '(r, c) := perform o (selector a) in
    (r, a <| trace := trace a ++ [o] |> <| selector := c |>).
Proof. done. Qed.

(** What an application has been through is a history of its selector. *)
Lemma act_reaches x a r a' :
  reaches (trace a) (selector a) → act x a = (Ok r, a') → reaches (trace a') (selector a').
Proof.
  intros Hr R. pose proof (act_link_only x) as Hl.
  destruct x as [o|ps| | | |].
  - rewrite act_operate in R. destruct (perform o (selector a)) as [r' c] eqn:Rp.
    injection R as -> <-. simpl. by eapply reaches_step.
  - injection R as <- <-. simpl. by apply reaches_write.
  - apply (within_run _ _ _ _ _ Hl) in R as [-> [lk ->]]. by apply reaches_link.
  - apply (within_run _ _ _ _ _ Hl) in R as [-> [lk ->]]. by apply reaches_link.
  - apply (within_run _ _ _ _ _ Hl) in R as [-> [lk ->]]. by apply reaches_link.
  - apply (within_run _ _ _ _ _ Hl) in R as [-> [lk ->]]. by apply reaches_link.
Qed.

(** Every application that has not ended has such a history. *)
Definition well_behaved s : Prop :=
  ∀ i a, applications s !! i = Some a → ended a = false → reaches (trace a) (selector a).

Lemma attach_reaches s a :
  reaches (trace a) (selector a) → reaches (trace (attach s a)) (selector (attach s a)).
Proof. apply reaches_link. Qed.

Lemma happens_well_behaved e s : well_behaved s → well_behaved (happens e s).2.
Proof.
  intros Hs. destruct e as [i x|ps ce|e]; simpl.
  - destruct (applications s !! i) as [a|] eqn:Ha; [|done].
    destruct (ended a) eqn:He; [done|].
    pose proof (attach_reaches s a (Hs i a Ha He)) as Hr.
    destruct (act x (attach s a)) as [r a'] eqn:R. simpl. intros j b Hb Hbe. simpl in Hb.
    apply list_lookup_insert_Some in Hb as [(-> & <- & _)|[_ Hb]]; [|by eapply Hs].
    destruct r; [exact (act_reaches _ _ _ _ Hr R)|discriminate Hbe..].
  - unfold connect. destruct (alive s); [|done]. intros i a Ha He. simpl in Ha.
    apply lookup_app_Some in Ha as [Ha|[_ Ha]]; [by eapply Hs|].
    apply list_lookup_singleton_Some in Ha as [_ <-]. apply reaches_new.
  - destruct (alive s); [|done]. by destruct (housekeeping e (daemon s)).
Qed.

Lemma after_well_behaved evs s : well_behaved s → well_behaved (after evs s).
Proof.
  revert s. induction evs as [|e evs IH]; intros s Hs; [done|]. apply IH, happens_well_behaved, Hs.
Qed.

Lemma start_well_behaved d : well_behaved (start d).
Proof. intros i a Ha%list_elem_of_lookup_2. by apply elem_of_nil in Ha. Qed.

(** *** The daemon's death *)
Lemma happens_dead e s : alive s = false → alive (happens e s).2 = false.
Proof.
  intros Hs. destruct e as [i x|ps ce|e]; simpl.
  - destruct (applications s !! i) as [a|]; [|done]. destruct (ended a); [done|].
    destruct (act x (attach s a)). simpl. by rewrite Hs.
  - unfold connect. by rewrite Hs.
  - by rewrite Hs.
Qed.

Lemma after_dead evs s : alive s = false → alive (after evs s) = false.
Proof. revert s. induction evs as [|e evs IH]; intros s Hs; [done|]. apply IH, happens_dead, Hs. Qed.

Lemma attach_down s a : alive s = false → up (app_link (attach s a)) = false.
Proof. intros Hs. simpl. by rewrite Hs, andb_false_r. Qed.

(** Over a link that is down every call fails at once. *)
Lemma serve_remotely_down q ad (lk : Link D) :
  up lk = false → serve_remotely q ad lk = (Ok (Some shut_down, None), lk).
Proof. intros Hu. unfold serve_remotely. by rewrite Hu. Qed.

(** What an operation gives when the daemon is gone. *)
Definition bereft (o : operation) (c : SelectorClient D) : outcome answer :=
  match o with
  | OpSetPreferences _ =>
      Ok (None, match addresses c with Some _ => Some shut_down | None => None end)
  | OpClose => Ok (None, Some shut_down)
  | _ => Exits shut_down
  end.

Lemma perform_down tr o (c : SelectorClient D) :
  reaches tr c → paths_given o → up (link c) = false → (perform o c).1 = bereft o (bookkeeping o c).
Proof.
  intros Hr Hps Hu. rewrite (perform_served tr) by done. unfold perform_spec. rewrite perform_by_run.
  assert (∀ c' : SelectorClient D, up (link c') = false →
    SelectorClient.on_link (serve_remotely (operation_request o c') (addresses c')) c' = (Ok (Some shut_down, None), c')) as Hc.
  { intros c' Hu'. unfold SelectorClient.on_link, zoom. rewrite serve_remotely_down by done. by destruct c'. }
  specialize (Hc (bookkeeping o c)). destruct o; simpl in *;
    try (by rewrite (bind_ok _ _ _ _ _ (Hc Hu))).
  - unfold addresses in *. destruct (local c), (remote c); simpl in *;
      try (by rewrite (bind_ok _ _ _ _ _ (Hc Hu))); done.
  - rewrite (bind_ok _ _ _ _ _ (Hc Hu)). simpl. unfold SelectorClient.on_link, zoom, rpc_Close, mbind, GoM_bind.
    by destruct (closing _).
Qed.

(** The outcome of a turn. *)
Lemma happens_turn i x s a :
  applications s !! i = Some a → ended a = false →
  (happens (Turn i x) s).1 = Some (act x (attach s a)).1.
Proof. intros Ha He. simpl. rewrite Ha, He. by destruct (act x (attach s a)). Qed.

(** A callback over a link that is down. *)
Lemma happens_callback_down i k cb s a t :
  up (app_link (attach s a)) = false → applications s !! i = Some a → ended a = false → tracers a !! k = Some t →
  (happens (Turn i (Callback k cb)) s).1
  = Some (match (acquaint cb (mk_tracing t (app_link (attach s a)))).1 with
          | Ok _ => Exits shut_down | Panics w => Panics w | Exits w => Exits w | Deadlocks => Deadlocks end).
Proof.
  intros Hup Ha He Ht. rewrite (happens_turn _ _ _ _ Ha He). f_equal.
  unfold System.act, mbind, GoM_bind, get_state. change (tracers (attach s a)) with (tracers a). rewrite Ht.
  unfold on_tracing, zoom. rewrite report_run. unfold report_spec.
  assert (∀ c : tracing D, up (t_link c) = false →
    up (t_link (acquaint cb c).2) = false) as Hq.
  { intros c Hc. destruct cb as [[l|] [r|] ? ?| |[e|]| | | | | | | | | |[st|]| | | | | | | | | | | | |]; exact Hc. }
  set (c0 := mk_tracing t (app_link (attach s a))). specialize (Hq c0 Hup).
  unfold mbind at 1, GoM_bind at 1. destruct (acquaint cb c0) as [[u| | |] c1]; try reflexivity.
  cbn [snd] in Hq. unfold or_fatal, ConnTracer.on_tracer, ConnTracer.on_link, zoom, carry, mbind, GoM_bind. simpl.
  by rewrite Hq.
Qed.
(** *** A link that is down stays down *)
Definition stays_down (lk lk' : Link D) : Prop := up lk = false → up lk' = false.
#[export] Instance stays_down_preorder : PreOrder stays_down.
Proof. split; unfold stays_down; [by intros lk|]. intros l1 l2 l3; auto. Qed.

Lemma down_rpc_Call {A B} (enc : codec A) (enc_reply : codec B) registry zero name args :
  within stays_down (rpc_Call (S := D) enc enc_reply registry zero name args).
Proof. intros lk Hu. unfold rpc_Call. by rewrite Hu. Qed.

Lemma down_rpc_Close : within stays_down (rpc_Close (S := D)).
Proof. intros lk Hu. unfold rpc_Close. by destruct (closing lk). Qed.

Lemma down_or_fatal {T B} (R : T → T → Prop) `{!PreOrder R} (m : GoM T (error * B)) :
  within R m → within R (or_fatal m).
Proof. intros Hm. apply within_bind; [apply _|done|]. intros [[e|] b] t; simpl; reflexivity. Qed.

Definition selector_down (c c' : SelectorClient D) : Prop := stays_down (link c) (link c').
#[export] Instance selector_down_preorder : PreOrder selector_down.
Proof. unfold selector_down. split; [intros c|intros c1 c2 c3 E1 E2]; [done|by etrans]. Qed.

Lemma down_Call name msg : within selector_down (Call (S := D) name msg).
Proof.
  intros c. unfold Call, SelectorClient.on_link, zoom. pose proof (down_rpc_Call gob_SelectorMsg gob_SelectorMsg SelectorServer_registry empty_SelectorMsg name msg (link c)) as Hd.
  by destruct (rpc_Call _ _ _ _ name msg (link c)).
Qed.

Lemma down_on_link {A} (m : GoM (Link D) A) : within stays_down m → within selector_down (SelectorClient.on_link m).
Proof. intros Hm c. unfold SelectorClient.on_link, zoom. specialize (Hm (link c)). by destruct (m (link c)). Qed.

Lemma down_remember ps : within selector_down (go_map (remember_path (S := D)) ps).
Proof.
  apply within_go_map; [apply _|]. intros p. destruct p as [p|]; [|by intros c].
  intros c. unfold selector_down. done.
Qed.

Lemma down_modify (f : SelectorClient D → SelectorClient D) :
  (∀ c, link (f c) = link c) → within selector_down (modify f).
Proof. intros Hf c. unfold selector_down, stays_down. simpl. by rewrite Hf. Qed.

Lemma down_perform o : within selector_down (perform (S := D) o).
Proof.
  destruct o; unfold perform, SelectorClient_Initialize, SelectorClient_SetPreferences,
    SelectorClient_Path, SelectorClient_PathDown, SelectorClient_Refresh, SelectorClient_Close, fmap, GoM_fmap;
    repeat first
      [ progress intros
      | apply within_ret; apply _ | apply within_get_state; apply _ | apply down_remember | apply down_Call
      | by apply down_modify
      | apply down_on_link, down_rpc_Close
      | apply within_bind; [apply _| |] | progress case_match ].
Qed.

(** Tracers and packet reports use the same link. *)
Definition tracing_down (c c' : tracing D) : Prop := stays_down (t_link c) (t_link c').
#[export] Instance tracing_down_preorder : PreOrder tracing_down.
Proof. unfold tracing_down. split; [intros c|intros c1 c2 c3 E1 E2]; [done|by etrans]. Qed.

Lemma down_report cb : within tracing_down (report (T := D) cb).
Proof.
  intros c Hu. rewrite report_run. unfold report_spec.
  assert (up (t_link (acquaint cb c).2) = false) as Hq.
  { destruct cb as [[l|] [r|] ? ?| |[e|]| | | | | | | | | |[st|]| | | | | | | | | | | | |]; exact Hu. }
  unfold mbind at 1, GoM_bind at 1. destruct (acquaint cb c) as [[u| | |] c1]; try exact Hq.
  cbn [snd] in Hq. unfold or_fatal, ConnTracer.on_tracer, ConnTracer.on_link, zoom, carry, mbind, GoM_bind. simpl.
  by rewrite Hq.
Qed.

Definition app_down a a' : Prop := stays_down (app_link a) (app_link a').
#[export] Instance app_down_preorder : PreOrder app_down.
Proof. unfold app_down. split; [intros c|intros c1 c2 c3 E1 E2]; [done|by etrans]. Qed.

Lemma down_over_link {A} (m : GoM (Link D) A) : within stays_down m → within app_down (over_link m).
Proof. intros Hm a. unfold over_link, zoom. specialize (Hm (app_link a)). by destruct (m (app_link a)). Qed.

Lemma down_packet name msg : within app_down (over_link (call_ignoring (W := D) gob_Addr name msg)).
Proof.
  apply down_over_link, within_bind; [apply _|apply down_rpc_Call|intros _]. apply within_ret; apply _.
Qed.

Lemma down_act x : within app_down (act x).
Proof.
  destruct x as [o|ps|id p odcid|k cb|addr hdr n fs|addr tp n r].
  - intros a. rewrite act_operate. pose proof (down_perform o (selector a)) as Hd.
    by destruct (perform o (selector a)).
  - intros a Hu. exact Hu.
  - apply within_bind; [apply _|intros a0 Hu; exact Hu|intros a']. apply within_bind; [apply _| |intros t].
    + apply down_over_link. destruct id as [id|]; [|intros lk Hu; exact Hu].
      apply within_bind; [apply _|apply down_or_fatal; [apply _|apply down_rpc_Call]|intros _].
      apply within_ret; apply _.
    + apply within_bind; [apply _|intros a0 Hu; exact Hu|intros _]. apply within_ret; apply _.
  - apply within_bind; [apply _|intros a0 Hu; exact Hu|intros a']. destruct (tracers a' !! k) as [t|]; [|intros a0 Hu; exact Hu].
    apply within_bind; [apply _| |intros _ a0 Hu; exact Hu]. intros a. unfold on_tracing, zoom.
    pose proof (down_report cb (mk_tracing t (app_link a))) as Hd. by destruct (report cb _).
  - apply within_bind; [apply _|intros a0 Hu; exact Hu|intros a']. apply within_bind; [apply _|apply down_packet|intros _ a0 Hu; exact Hu].
  - apply within_bind; [apply _|intros a0 Hu; exact Hu|intros a']. apply within_bind; [apply _|apply down_packet|intros _ a0 Hu; exact Hu].
Qed.

(** An application that has lost its link. *)
Definition cut_off i s : Prop := ∃ a, applications s !! i = Some a ∧ up (app_link a) = false.

Lemma happens_cut_off i e s : cut_off i s → cut_off i (happens e s).2.
Proof.
  intros (a & Ha & Hu). destruct e as [j x|ps ce|e]; simpl.
  - destruct (applications s !! j) as [b|] eqn:Hb; [|by exists a]. destruct (ended b); [by exists a|].
    destruct (act x (attach s b)) as [r b'] eqn:R. destruct (decide (i = j)) as [->|Hij].
    + rewrite Ha in Hb. injection Hb as <-. eexists. split.
      * simpl. apply list_lookup_insert_eq. by eapply lookup_lt_Some.
      * pose proof (down_act x (attach s a)) as Hd. rewrite R in Hd. apply Hd. simpl. by rewrite Hu.
    + exists a. split; [|done]. simpl. by rewrite list_lookup_insert_ne.
  - unfold connect. destruct (alive s); [|by exists a]. exists a. split; [|done]. simpl.
    by apply lookup_app_l_Some.
  - destruct (alive s); [|by exists a]. destruct (housekeeping e (daemon s)). by exists a.
Qed.

Lemma after_cut_off i evs s : cut_off i s → cut_off i (after evs s).
Proof. revert s. induction evs as [|e evs IH]; intros s Hs; [done|]. apply IH, happens_cut_off, Hs. Qed.

(** The path an application gets is the current one with the fingerprint of the
    daemon's answer. *)
Lemma perform_Path_answer tr (c : SelectorClient D) p e c' :
  reaches tr c → perform OpPath c = (Ok (Some p, e), c') →
  up (link c) = true ∧ closing (link c) = false ∧ current (history tr) p ∧
  ∃ l r q e' d', serve RPath l r (server (link c)) = (Ok (Some q, e'), d') ∧
    pp_Fingerprint q = pp_Fingerprint p.
Proof.
  intros Hr R. rewrite (perform_served tr) in R by done. unfold perform_spec in R. rewrite perform_by_run in R.
  assert (bookkeeping OpPath c = c) as Hc by by destruct c. rewrite Hc in R.
  apply bind_inv in R as ([err fp] & c1 & R1 & R). simpl in R.
  destruct err as [err|]; [done|]. injection R as R _ _.
  unfold SelectorClient.on_link, zoom, serve_remotely in R1. simpl in R1.
  destruct (up (link c)), (closing (link c)); try (by destruct (addresses c) as [[]|]). simpl in R1.
  destruct (addresses c) as [[l r]|]; [|done].
  destruct (ss_Path l r (server (link c))) as [[[q e']| | |] d'] eqn:Hs; try done.
  simpl in R1. destruct (wire_error e'); [by injection R1|]. injection R1 as <- <-.
  simpl in R. rewrite (reaches_paths _ _ Hr) in R.
  split_and!; [done..| |].
  - destruct (gob_flat_ptr _ _) as [fp|]; [|done]. by apply record_current in R as [? _].
  - destruct q as [q|]; [|done]. exists l, r, q, e', d'. split; [done|].
    simpl in R. destruct (string_zero _); [done|]. by apply record_current in R as [_ <-].
Qed.

Lemma happens_operation i o s a :
  applications s !! i = Some a → ended a = false →
  (happens (Turn i (Operate o)) s).1 = Some (perform o (selector (attach s a))).1.
Proof.
  intros Ha He. rewrite (happens_turn _ _ _ _ Ha He), act_operate. by destruct (perform o _) as [r c].
Qed.

Lemma turn_length i x s : length (applications (happens (Turn i x) s).2) = length (applications s).
Proof.
  simpl. destruct (applications s !! i) as [a|]; [|done]. destruct (ended a); [done|].
  destruct (act x (attach s a)). apply length_insert.
Qed.

(** Without a daemon no application connects. *)
Lemma happens_dead_length e s :
  alive s = false → length (applications (happens e s).2) = length (applications s).
Proof.
  intros Hs. destruct e as [i x|ps ce|e]; [apply turn_length|simpl..].
  - unfold connect. by rewrite Hs.
  - by rewrite Hs.
Qed.

Lemma after_dead_length evs s :
  alive s = false → length (applications (after evs s)) = length (applications s).
Proof.
  revert s. induction evs as [|e evs IH]; intros s Hs; [done|].
  rewrite <-(happens_dead_length e s Hs). apply IH, happens_dead, Hs.
Qed.
End Lemmas.

(** *** Invariants of the daemon

    What every request, every tracing message and the housekeeping preserve, when
    they return, holds of the daemon in the system as long as it is alive and no
    handler waits for ever. *)
Section Invariant.
Context `{PanFaithful} `{Quic} `{!QuicCodecs} (gob_Addr : codec NetAddr).
Context {D : Type} `{!ServerSelector D} `{!ServerConnectionTracer D} `{!LoggingTracer D}.
Context {E : Type} (housekeeping : E → GoM D unit).
Context (I : D → Prop) (admissible : request → Prop).
Abbreviation act := (act gob_Addr).
Abbreviation happens := (happens gob_Addr housekeeping).
Abbreviation after := (after gob_Addr housekeeping).

Definition lasting {A B} (m : method D A B) : Prop :=
  ∀ args d res d', I d → m args d = (Ok res, d') → I d'.

Context (I_serve : ∀ q l r d res d', admissible q → I d → serve q l r d = (Ok res, d') → I d').
Context (I_tracing : ∀ name h, ConnectionTracerServer_registry name = Some h → lasting h).
Context (I_packets : ∀ name h, TracerServer_registry name = Some h → lasting h).
Context (I_housekeeping : ∀ e d u d', I d → housekeeping e d = (Ok u, d') → I d').

(** A run that reaches the daemon over the link [v t]. *)
Definition keeps {T A} (v : T → Link D) (m : GoM T A) : Prop :=
  ∀ t, let '(r, t') := m t in
  dead (v t') = false → dead (v t) = false ∧ (I (server (v t)) → r ≠ Deadlocks → I (server (v t'))).

Lemma keeps_bind {T A B} (v : T → Link D) (m : GoM T A) (f : A → GoM T B) :
  keeps v m → (∀ a, keeps v (f a)) → keeps v (m ≫= f).
Proof.
  intros Hm Hf t. specialize (Hm t). unfold mbind, GoM_bind. destruct (m t) as [[a| | |] t1];
    [|intros Hd; destruct (Hm Hd) as [? Hi]; split; [done|]; by intros ? Hr; apply Hi..].
  specialize (Hf a t1). destruct (f a t1) as [r t2]. intros Hd.
  destruct (Hf Hd) as [Hd1 Hi2]. destruct (Hm Hd1) as [Hd0 Hi1]. split; [done|].
  intros Hi Hr. apply Hi2; [by apply Hi1|done].
Qed.

Lemma keeps_same {T A} (v : T → Link D) (m : GoM T A) : (∀ t, v (m t).2 = v t) → keeps v m.
Proof. intros Hm t. specialize (Hm t). destruct (m t) as [r t']. simpl in Hm. by rewrite Hm. Qed.

Lemma keeps_zoom {T U A} (v : T → Link D) (w : U → Link D) view upd (m : GoM U A) :
  (∀ t, w (view t) = v t) → (∀ t u, v (upd u t) = w u) → keeps w m → keeps v (zoom view upd m : GoM T A).
Proof.
  intros Hv Hu Hm t. unfold zoom. specialize (Hm (view t)). destruct (m (view t)) as [r u].
  by rewrite Hu, <-Hv.
Qed.

Lemma keeps_or_fatal {T B} (v : T → Link D) (m : GoM T (error * B)) : keeps v m → keeps v (or_fatal m).
Proof. intros Hm. apply keeps_bind; [done|]. intros [[e|] b]; by apply keeps_same. Qed.

Lemma keeps_rpc_Call {A B} (enc : codec A) (enc_reply : codec B) registry zero name args :
  (∀ name h, registry name = Some h → lasting h) →
  keeps id (rpc_Call (S := D) enc enc_reply registry zero name args).
Proof.
  intros Hreg lk. unfold rpc_Call. destruct (negb (up lk) || _); [done|].
  destruct (enc args) as [args'|]; [|done]. destruct (registry name) as [h|] eqn:Hh; [|done].
  pose proof (λ res d', Hreg name h Hh args' (server lk) res d') as Hl.
  destruct (h args' (server lk)) as [[[err reply]| | |] d']; [|done..].
  destruct (wire_error err); [|destruct (enc_reply reply)]; simpl; eauto.
Qed.

Lemma keeps_serve_remotely q ad :
  match q with Some q => admissible q | None => True end → keeps id (serve_remotely (S := D) q ad).
Proof.
  intros Hq lk. unfold serve_remotely. destruct (negb (up lk) || _); [done|].
  destruct q as [q|], ad as [[l r]|]; try done.
  pose proof (λ res d', I_serve q l r (server lk) res d' Hq) as Hl.
  destruct (serve q l r (server lk)) as [[[p e]| | |] d']; [|done..]. simpl. eauto.
Qed.

Lemma keeps_rpc_Close : keeps id (rpc_Close (S := D)).
Proof. intros lk. unfold rpc_Close. by destruct (closing lk). Qed.

Lemma keeps_call_or_fatal name msg : keeps t_link (call_or_fatal (T := D) name msg).
Proof.
  apply keeps_or_fatal. apply (keeps_zoom t_link id); [done..|].
  by apply keeps_rpc_Call.
Qed.

Lemma keeps_on_tracer {A} (m : GoM ConnectionTracerClient A) : keeps t_link (ConnTracer.on_tracer (T := D) m).
Proof. apply keeps_same. intros c. unfold ConnTracer.on_tracer, zoom. by destruct (m (t_tracer c)). Qed.

Lemma keeps_report cb : keeps t_link (report (T := D) cb).
Proof.
  destruct cb as [[l|] [r|] ? ?| |[e|]| | | | | | | | | |[stats|]| | | | | | | | | | | | |];
    repeat (apply keeps_call_or_fatal || (apply keeps_bind; [apply keeps_on_tracer || by apply keeps_same|intros ?])
            || by apply keeps_same).
Qed.

Lemma keeps_tracer client id p odcid :
  keeps Datatypes.id (TracerClient_TracerForConnection (T := D) client id p odcid).
Proof.
  destruct id as [id|]; [|by apply keeps_same].
  apply keeps_bind; [|intros _; by apply keeps_same].
  apply keeps_or_fatal. by apply keeps_rpc_Call.
Qed.
Lemma keeps_over_link {A} (m : GoM (Link D) A) : keeps id m → keeps app_link (over_link m).
Proof. by apply keeps_zoom. Qed.

Lemma keeps_on_tracing {A} k t (m : GoM (tracing D) A) : keeps t_link m → keeps app_link (on_tracing k t m).
Proof.
  intros Hm a. unfold on_tracing, zoom. specialize (Hm (mk_tracing t (app_link a))).
  destruct (m _) as [r c]. exact Hm.
Qed.

(** A request is admissible whatever the client adds to it. *)
Definition admissible_operation (o : operation) : Prop :=
  ∀ (c : SelectorClient D) q, operation_request o c = Some q → admissible q.

Definition admissible_event (e : event (E := E)) : Prop :=
  match e with Turn _ (Operate o) => admissible_operation o | _ => True end.

Lemma keeps_conclude o answer : keeps link (conclude (S := D) o answer).
Proof.
  destruct answer as [[e|] fp], o; try (by apply keeps_same);
    (apply keeps_bind; [apply (keeps_zoom link id); [done..|apply keeps_rpc_Close]|intros ?; by apply keeps_same]).
Qed.

Lemma keeps_perform_by o call :
  (∀ c, keeps id (call c)) → keeps link (perform_by (S := D) call o).
Proof.
  intros Hc. apply keeps_bind; [apply keeps_same; by destruct o|intros _].
  apply keeps_bind; [by apply keeps_same|intros c].
  assert (keeps link (SelectorClient.on_link (call c) ≫= conclude o)) as Hk.
  { apply keeps_bind; [apply (keeps_zoom link id); [done..|apply Hc]|apply keeps_conclude]. }
  destruct o; try exact Hk. destruct (addresses c); [exact Hk|by apply keeps_same].
Qed.

#[export] Instance paths_given_dec (o : operation) : Decision (paths_given o).
Proof. destruct o; simpl; apply _. Defined.

(** A turn of an application. *)
Lemma act_keeps x a :
  match x with Operate o => admissible_operation o | _ => True end →
  reaches (trace a) (selector a) →
  let '(r, a') := act x a in
  dead (app_link a') = false → dead (app_link a) = false ∧
    (I (server (app_link a)) → r ≠ Deadlocks → I (server (app_link a'))).
Proof.
  intros Hx Hr. assert (∀ m : GoM (application D) answer, keeps app_link m →
    let '(r, a') := m a in dead (app_link a') = false → dead (app_link a) = false ∧
    (I (server (app_link a)) → r ≠ Deadlocks → I (server (app_link a')))) as Hk by (intros m Hm; apply Hm).
  destruct x as [o|ps|id p odcid|k cb|addr hdr n fs|addr tp n r].
  - rewrite act_operate. destruct (decide (paths_given o)) as [Hps|Hn].
    + rewrite (perform_served _ _ _ Hr Hps).
      assert (∀ c : SelectorClient D, keeps id (serve_remotely (S := D) (operation_request o c) (addresses c))) as Hc.
      { intros c. apply keeps_serve_remotely. destruct (operation_request o c) eqn:Hq; [by eapply Hx|done]. }
      pose proof (keeps_perform_by o _ Hc (selector a)) as K.
      unfold perform_spec. by destruct (perform_by _ o (selector a)).
    + destruct (perform_nil o (selector a) Hn) as (c' & -> & Hl). unfold app_link. simpl. by rewrite Hl.
  - by apply Hk.
  - apply Hk. apply keeps_bind; [by apply keeps_same|intros a'].
    apply keeps_bind; [apply keeps_over_link, keeps_tracer|intros t].
    apply keeps_bind; [by apply keeps_same|intros _]. by apply keeps_same.
  - apply Hk. apply keeps_bind; [by apply keeps_same|intros a'].
    destruct (tracers a' !! k); [|by apply keeps_same].
    apply keeps_bind; [apply keeps_on_tracing, keeps_report|intros _; by apply keeps_same].
  - apply Hk. apply keeps_bind; [by apply keeps_same|intros a'].
    apply keeps_bind; [apply keeps_over_link|intros _; by apply keeps_same].
    apply keeps_bind; [by apply keeps_rpc_Call|intros _; by apply keeps_same].
  - apply Hk. apply keeps_bind; [by apply keeps_same|intros a'].
    apply keeps_bind; [apply keeps_over_link|intros _; by apply keeps_same].
    apply keeps_bind; [by apply keeps_rpc_Call|intros _; by apply keeps_same].
Qed.

Definition stands (s : system D) : Prop := alive s = true → stuck s = false → I (daemon s).

Lemma happens_stands e s : admissible_event e → well_behaved s → stands s → stands (happens e s).2.
Proof.
  intros He Hb Hs. destruct e as [i x|ps ce|e]; simpl.
  - destruct (applications s !! i) as [a|] eqn:Ha; [|done].
    destruct (ended a) eqn:Hend; [done|].
    pose proof (act_keeps x (attach s a) He (attach_reaches s a (Hb i a Ha Hend))) as K.
    destruct (act x (attach s a)) as [r a']. simpl. intros [Hal Hd%negb_true_iff]%andb_prop [Hst Hbl]%orb_false_iff.
    destruct (K Hd) as [_ Hi]. apply Hi; [by apply Hs|by intros ->].
  - unfold connect. by destruct (alive s) eqn:Hal; [exact Hs|].
  - destruct (alive s) eqn:Hal; [|by intros].
    destruct (housekeeping e (daemon s)) as [r d] eqn:R. simpl. unfold stands. simpl. intros Hr [Hst Hbl]%orb_false_iff.
    destruct r as [u| | |]; try done. simpl. eapply I_housekeeping; [by apply Hs|exact R].
Qed.

Lemma after_stands evs d : Forall admissible_event evs → I d → stands (after evs (start d)).
Proof.
  intros He Hd. unfold System.after.
  assert (stands (start d)) as Hs by (intros _ _; exact Hd).
  pose proof (start_well_behaved d) as Hb.
  revert Hs Hb. generalize (start d). induction He as [|e evs He _ IH]; intros s Hs Hb; [done|].
  apply IH; [by apply happens_stands|by apply happens_well_behaved].
Qed.
End Invariant.

(** ** Property *)
Section Claims.
Context `{PanFaithful} `{Quic} `{!QuicCodecs} (gob_Addr : codec NetAddr).
Context {D : Type} `{!ServerSelector D} `{!ServerConnectionTracer D} `{!LoggingTracer D}.
Context {E : Type} (housekeeping : E → GoM D unit).
Abbreviation happens := (happens gob_Addr housekeeping).
Abbreviation after := (after gob_Addr housekeeping).

(** C27: One report of a packet can cut an application off from the daemon. When gob
    cannot send the report (its address is of a type nobody registers, or it has
    frames) the report itself returns, and neither the daemon nor any other
    application notices; but from then on, whatever happens, every operation and
    every callback of the application gets what it gets without a daemon: all but
    SetPreferences and Close end it. *)
Theorem report_cuts_off evs (d : D) i a addr hdr n fs :
  let s := after evs (start d) in
  let R := happens (Turn i (SentPacket addr hdr n fs)) s in let s' := R.2 in
  applications s !! i = Some a → ended a = false → closing (app_link a) = false →
  SentPacket_delivery (W := D) gob_Addr addr hdr n fs = None →
  R.1 = Some (Ok (None, None)) ∧ daemon s' = daemon s ∧ alive s' = alive s ∧
  (∀ j, j ≠ i → applications s' !! j = applications s !! j) ∧
  ∀ evs', let s2 := after evs' s' in ∀ b, applications s2 !! i = Some b → ended b = false →
  (∀ o, paths_given o →
    (happens (Turn i (Operate o)) s2).1 = Some (bereft o (bookkeeping o (selector b)))) ∧
  (∀ k c cb, tracers b !! k = Some c → (∀ c' : tracing D, (acquaint cb c').1 = Ok tt) →
    (happens (Turn i (Callback k cb)) s2).1 = Some (Exits shut_down)).
Proof.
  intros s R0 s0 Ha He Hcl Hd. unfold s0. clear s0. destruct R0 as [r s'] eqn:R. unfold R0 in R. clear R0.
  assert (well_behaved s) as Hw by apply after_well_behaved, start_well_behaved.
  destruct (unencodable_run gob_Addr (client a) addr hdr n fs (app_link (attach s a)) Hd Hcl)
    as (lk' & Rp & Hup & Hsv & Hde).
  pose proof (happens_well_behaved gob_Addr housekeeping (Turn i (SentPacket addr hdr n fs)) s Hw) as Hw'.
  rewrite R in Hw'. simpl in Hw'.
  simpl in R. rewrite Ha, He in R. unfold act, mbind, GoM_bind, get_state, over_link, zoom in R.
  change (client (attach s a)) with (client a) in R. rewrite Rp in R. simpl in R.
  injection R as <- <-. unfold app_link in Hsv, Hde, Hup. simpl in Hsv, Hde.
  split_and!; [done|exact Hsv|..].
  { change (alive s && negb (dead lk') = alive s). by rewrite Hde, andb_true_r. }
  { intros j Hj. simpl. by rewrite list_lookup_insert_ne. }
  intros evs' b Hb Hbe. cbn [snd] in *. set (s1 := detach i _ _ _) in *.
  assert (cut_off i s1) as Hc.
  { eexists. split; [simpl; apply list_lookup_insert_eq; by eapply lookup_lt_Some|exact Hup]. }
  destruct (after_cut_off gob_Addr housekeeping i evs' s1 Hc) as (b' & Hb' & Hub).
  rewrite Hb in Hb'. injection Hb' as <-.
  assert (up (app_link (attach (after evs' s1) b)) = false) as Hua by (simpl; by rewrite Hub).
  split.
  - intros o Hps. rewrite (happens_operation _ _ _ _ _ _ Hb Hbe). f_equal.
    pose proof (after_well_behaved gob_Addr housekeeping evs' s1 Hw' i b Hb Hbe) as Hr.
    rewrite (perform_down _ _ _ (attach_reaches _ b Hr) Hps Hua). by destruct o.
  - intros k c cb Hk Hq. rewrite (happens_callback_down _ _ _ _ _ _ _ _ Hua Hb Hbe Hk). by rewrite Hq.
Qed.
End Claims.

(** ** Witness: a daemon that writes down what it is asked *)
Module SampleApplications.
#[global] Existing Instances SamplePan.pan SampleTracer.quic SampleTracer.pan_codecs
  SampleTracer.pan_faithful SampleTracer.quic_codecs SampleTracer.tracer.

Definition noting {A} (name : string) (a : A) : GoM (list string) A := modify (cons name);; mret a.
#[global] Instance selector : ServerSelector (list string) := {|
  ss_Initialize _ _ _ _ := noting "Initialize" None;
  ss_SetPreferences _ _ _ := noting "SetPreferences" None;
  ss_Path _ _ := noting "Path" (Some (SamplePan.path "x" 7), None);
  ss_PathDown _ _ _ _ := noting "PathDown" None;
  ss_Refresh _ _ _ := noting "Refresh" None;
  ss_Close _ _ := noting "Close" None |}.
#[global] Instance logging : LoggingTracer (list string) := {|
  lt_SentPacket _ _ _ _ := noting "SentPacket" tt;
  lt_DroppedPacket _ _ _ _ := noting "DroppedPacket" tt |}.

(** A SCION address, which no code registers with gob. *)
Definition gob_Addr : codec NetAddr := λ _, None.
Definition housekeeping (e : unit) : GoM (list string) unit := mret tt.

(** Two applications with a path each. *)
Definition opening (i : nat) : event (E := unit) :=
  Turn i (Operate (OpInitialize SamplePan.ClientA SamplePan.Server [Some (SamplePan.path "x" 7)])).
Definition arrivals : list (event (E := unit)) := [Connect ∅ None; Connect ∅ None; opening 0; opening 1].
Abbreviation before := (after gob_Addr housekeeping arrivals (start ([] : list string))).
Definition report : event (E := unit) := Turn 0 (SentPacket (Some (PanAddr SamplePan.Server)) None 1200 []).
Definition ask (i : nat) : event (E := unit) := Turn i (Operate OpPath).
End SampleApplications.

Lemma report_cuts_off_witness :
  let happens := happens SampleApplications.gob_Addr SampleApplications.housekeeping in
  let s' := (happens SampleApplications.report SampleApplications.before).2 in
  (happens (SampleApplications.ask 0) SampleApplications.before).1
    = Some (Ok (Some (SamplePan.path "x" 7), None)) ∧
  (happens (SampleApplications.ask 0)
     (after SampleApplications.gob_Addr SampleApplications.housekeeping [SampleApplications.ask 1] s')).1
    = Some (Exits shut_down).
Proof.
  intros happens s'. split; [vm_compute; reflexivity|].
  assert (∃ a, applications SampleApplications.before !! 0 = Some a ∧ ended a = false ∧
    closing (app_link a) = false) as (a & Ha & He & Hc).
  { destruct (applications SampleApplications.before !! 0) as [a|] eqn:Ha; [|vm_compute in Ha; discriminate Ha].
    exists a. split; [reflexivity|]. change a with (default a (Some a)). rewrite <-Ha. split; vm_compute; reflexivity. }
  assert (∃ b, applications (after SampleApplications.gob_Addr SampleApplications.housekeeping [SampleApplications.ask 1] s') !! 0
    = Some b ∧ ended b = false) as (b & Hb & Hbe).
  { destruct (applications (after SampleApplications.gob_Addr SampleApplications.housekeeping [SampleApplications.ask 1] s') !! 0)
      as [b|] eqn:Hb; [|vm_compute in Hb; discriminate Hb].
    exists b. split; [reflexivity|]. change b with (default b (Some b)). rewrite <-Hb. vm_compute. reflexivity. }
  pose proof (report_cuts_off SampleApplications.gob_Addr SampleApplications.housekeeping SampleApplications.arrivals []
    0 a (Some (PanAddr SamplePan.Server)) None 1200 [] Ha He Hc eq_refl) as (_ & _ & _ & _ & Hall).
  exact (proj1 (Hall [SampleApplications.ask 1] b Hb Hbe) OpPath Logic.I).
Defined.
