(* ===== verification/LuaApi.v ===== *)
(** * The Lua state (lua/lua.go, and what the program uses of gopher-lua)

    Lua tables live in a store: the program hands them to the script by
    address, keeps addresses as keys of its own maps, and the script may change
    their contents. The script itself is a parameter. [State] is the state of
    the virtual machine with the mutex that guards it. *)

From Stdlib Require Export Floats.SpecFloat.
From S2P Require Import Prelude.

(** ** Values *)

(** A Go function registered in a module, or a function of the script. *)
Inductive LFunction : Type :=
  | Unimplemented (msg : string)
  | Noop
  | Log
  | Now
  | Script (f : nat).

(** lua.LValue. A table is a pointer, which Go code can pass as nil. *)
Inductive LValue : Type :=
  | LNil
  | LBool (b : bool)
  | LNumber (x : spec_float)
  | LString (s : string)
  | LTab (t : option loc)
  | LFunc (f : LFunction).

(** The float64 nearest to an integer, [lua.LNumber(n)]. *)
Definition float64 (n : Z) : spec_float := binary_normalize 53 1024 n 0 false.

(** [time.Duration.Seconds] of a number of nanoseconds. *)
Definition Seconds (d : Z) : spec_float :=
  SFadd 53 1024 (float64 (Z.quot d 1000000000))
    (SFdiv 53 1024 (float64 (Z.rem d 1000000000)) (float64 1000000000)).

Record LTable := mkLTable { strdict : gmap string LValue; array : list LValue }.
#[export] Instance eta_LTable : Eta LTable := λ t, mkLTable (strdict t) (array t).

(** [lua.LTable{}] *)
Definition empty_LTable : LTable := mkLTable ∅ [].

(** ** The virtual machine *)

(** Running a function of the script: it may change every table and its own
    state [X], and it gives results or raises an error. *)
Class LuaVM (X : Type) := {
  run_script : nat → list LValue → GoM (gmap loc LTable * X) (string + list LValue);
  load_script : string → GoM (gmap loc LTable * X) (string + nat);
  clock : X → spec_float
}.

(** A table that the program knows stays where it is while a script runs. *)
Class LuaMemory (X : Type) `{!LuaVM X} : Prop := {
  run_script_keeps f args h : dom h.1 ⊆ dom (run_script f args h).2.1;
  load_script_keeps file h : dom h.1 ⊆ dom (load_script file h).2.1
}.

Record State (X : Type) := mkState {
  tables : gmap loc LTable;
  stack : list LValue;
  mutex : bool;
  vm : X
}.
Arguments mkState {X} _ _ _ _.
Arguments tables {X} _.
Arguments stack {X} _.
Arguments mutex {X} _.
Arguments vm {X} _.
#[export] Instance eta_State X : Eta (State X) := λ s,
  mkState (tables s) (stack s) (mutex s) (vm s).

Section Operations.
Context {X : Type} `{!LuaVM X}.

(** sync.Mutex: Lock blocks when the mutex is held. *)
Definition Lock : GoM (State X) unit := λ s,
  if mutex s then (Deadlocks, s) else (Ok tt, s <| mutex := true |>).
Definition Unlock : GoM (State X) unit := λ s,
  if mutex s then (Ok tt, s <| mutex := false |>)
  else (Exits "sync: unlock of unlocked mutex", s).

(** ** Tables *)
Definition new_table : GoM (State X) loc := alloc tables empty_LTable.

Definition RawSetString (t : loc) (k : string) (v : LValue) : GoM (State X) unit :=
  tab ← load tables (Some t);
  store tables (Some t) (tab <| strdict := <[k := v]> (strdict tab) |>).

Definition Append (t : loc) (v : LValue) : GoM (State X) unit :=
  tab ← load tables (Some t);
  store tables (Some t) (tab <| array := array tab ++ [v] |>).

Definition RawGetString (t : loc) (k : string) : GoM (State X) LValue :=
  tab ← load tables (Some t);
  mret (default LNil (strdict tab !! k)).

(** A slice as an array table. *)
Definition array_table {A} (f : A → GoM (State X) LValue) (xs : list A) : GoM (State X) loc :=
  t ← new_table;
  go_for (λ x, v ← f x; Append t v) xs;;
  mret t.

(** ** The stack *)
Definition push (vs : list LValue) : GoM (State X) unit :=
  modify (λ s, s <| stack := rev vs ++ stack s |>).
Definition Pop (n : nat) : GoM (State X) unit :=
  modify (λ s, s <| stack := drop n (stack s) |>).

(** [ToTable(-1)]: nil unless the top of the stack is a table. *)
Definition ToTable : GoM (State X) (option loc) :=
  gets (λ s, match stack s with LTab t :: _ => t | _ => None end).

(** Exactly [nret] results: surplus ones are dropped, missing ones are nil. *)
Definition adjust (nret : nat) (vs : list LValue) : list LValue :=
  take nret (vs ++ replicate nret LNil).

Definition on_vm {A} (m : GoM (gmap loc LTable * X) A) : GoM (State X) A :=
  zoom (λ s, (tables s, vm s)) (λ h s, s <| tables := h.1 |> <| vm := h.2 |>) m.

Definition not_a_function : string := "attempt to call a non-function object".

(** [CallByParam(P{Fn: fn, NRet: nret, Protect: true}, args...)]: an error or a
    panic of the callee becomes the returned error and leaves the stack as it
    was; otherwise the results are pushed. *)
Definition CallByParam (fn : LValue) (nret : nat) (args : list LValue) : GoM (State X) error :=
  match fn with
  | LFunc (Unimplemented msg) => mret (Some msg)
  | LFunc Noop | LFunc Log => push (adjust nret []);; mret None
  | LFunc Now => t ← gets (λ s, clock (vm s)); push (adjust nret [LNumber t]);; mret None
  | LFunc (Script f) => λ s,
      match on_vm (run_script f args) s with
      | (Ok (inl e), s') | (Panics e, s') => (Ok (Some e), s')
      | (Ok (inr vs), s') => (push (adjust nret vs);; mret None) s'
      | (Exits w, s') => (Exits w, s')
      | (Deadlocks, s') => (Deadlocks, s')
      end
  | _ => mret (Some not_a_function)
  end.

(** ** lua.go *)
Definition NewState (x : X) : State X := mkState ∅ [] false x.

(** [opened] is the result of opening the file, [file] its contents. The chunk
    runs with [MultRet]: everything it returns stays on the stack. *)
Definition LoadScript (opened : error) (file : string) : GoM (State X) error :=
  match opened with
  | Some e => mret (Some e)
  | None =>
      r ← on_vm (load_script file);
      match r with
      | inl e => mret (Some e)
      | inr fn => λ s,
          match on_vm (run_script fn []) s with
          | (Ok (inl e), s') | (Panics e, s') => (Ok (Some e), s')
          | (Ok (inr vs), s') => (push vs;; mret None) s'
          | (Exits w, s') => (Exits w, s')
          | (Deadlocks, s') => (Deadlocks, s')
          end
      end
  end.

(** [RegisterModule]: a new table holding the functions. *)
Definition RegisterModule (fns : list (string * LFunction)) : GoM (State X) loc :=
  t ← new_table;
  go_for (λ '(k, f), RawSetString t k (LFunc f)) fns;;
  mret t.

End Operations.

(** [s.Lock(); defer s.Unlock(); body] *)
Definition guarded {S A} (lock unlock : GoM S unit) (body : GoM S A) : GoM S A :=
  lock;; deferring unlock body.

(** ** Lemmas *)

(** What building tables may do: make tables and change them, nothing else. *)
Definition builds {X} (s s' : State X) : Prop :=
  dom (tables s) ⊆ dom (tables s') ∧ stack s' = stack s ∧ mutex s' = mutex s ∧ vm s' = vm s.

#[export] Instance builds_preorder {X} : PreOrder (@builds X).
Proof.
  split; [by intros s|]. intros s1 s2 s3 (D1 & S1 & M1 & V1) (D2 & S2 & M2 & V2).
  split_and!; [set_solver|congruence..].
Qed.

Section Lemmas.
Context {X : Type}.
Implicit Types s : State X.

Lemma within_new_table : within builds (new_table (X := X)).
Proof. intros s. split_and!; [|done..]. simpl. set_solver. Qed.

Lemma within_set_table t (f : LTable → LTable) :
  within (S := State X) builds (tab ← load tables (Some t); store tables (Some t) (f tab)).
Proof.
  intros s. unfold load, store, mbind, GoM_bind.
  destruct (tables s !! t) as [tab|] eqn:E; [|reflexivity]. rewrite E.
  split_and!; [|done..]. simpl. set_solver.
Qed.

Lemma within_RawSetString t k v : within builds (RawSetString (X := X) t k v).
Proof. apply (within_set_table t (λ tab, tab <| strdict := <[k := v]> (strdict tab) |>)). Qed.

Lemma within_Append t v : within builds (Append (X := X) t v).
Proof. apply (within_set_table t (λ tab, tab <| array := array tab ++ [v] |>)). Qed.

Lemma within_pure_call {A} (o : outcome A) : within builds (pure_call o : GoM (State X) A).
Proof. intros s. reflexivity. Qed.

Lemma within_array_table {A} (f : A → GoM (State X) LValue) xs :
  (∀ x, within builds (f x)) → within builds (array_table f xs).
Proof.
  intros Hf. apply within_bind; [apply _|apply within_new_table|]. intros t.
  apply within_bind; [apply _| |intros _; by apply within_ret, _].
  apply within_go_for; [apply _|]. intros x. apply within_bind; [apply _|apply Hf|].
  intros v. apply within_Append.
Qed.

(** A function that makes a table, fills it and returns it. *)
Lemma new_table_fresh {A} (fill : loc → GoM (State X) A) s l s' :
  (∀ t, within builds (fill t)) →
  (t ← new_table; fill t;; mret t) s = (Ok l, s') →
  (l ∉ dom (tables s)) ∧ l ∈ dom (tables s').
Proof.
  intros Hf. unfold new_table. erewrite (bind_ok (alloc tables _)) by reflexivity.
  intros (a & s1 & R & [-> ->]%ret_inv)%bind_inv.
  apply (within_run _ _ _ _ _ (Hf _)) in R as (Hd & _).
  simpl in *. split; [apply is_fresh|set_solver].
Qed.

(** Filling one table leaves the others as they are. *)
Definition fills (t : loc) (s s' : State X) : Prop :=
  builds s s' ∧ ∀ l, l ≠ t → l ∈ dom (tables s) → tables s' !! l = tables s !! l.

#[export] Instance fills_preorder t : PreOrder (fills t).
Proof.
  split; [by intros s; split|]. intros s1 s2 s3 [B1 F1] [B2 F2]. split; [by transitivity s2|].
  intros l Hl Hd. rewrite F2, F1; [done..|]. destruct B1 as (? & _). set_solver.
Qed.

(** A run that succeeds in filling a table that exists. *)
Definition fill_ok {A} (t : loc) (m : GoM (State X) A) : Prop :=
  ∀ s, t ∈ dom (tables s) → ∃ a s', m s = (Ok a, s') ∧ fills t s s'.

Lemma fill_ok_set_table t (f : LTable → LTable) :
  fill_ok t (tab ← load tables (Some t); store tables (Some t) (f tab)).
Proof.
  intros s [tab Hin]%elem_of_dom. pose proof (within_set_table t f s) as Hb.
  unfold load, store, mbind, GoM_bind in *. rewrite Hin in *. rewrite Hin in *.
  eexists _, _. split; [done|]. split; [exact Hb|]. intros l Hl _. simpl.
  by rewrite lookup_insert_ne.
Qed.

Lemma fill_ok_RawSetString t k v : fill_ok t (RawSetString t k v).
Proof. apply (fill_ok_set_table t (λ tab, tab <| strdict := <[k := v]> (strdict tab) |>)). Qed.

Lemma fill_ok_Append t v : fill_ok t (Append t v).
Proof. apply (fill_ok_set_table t (λ tab, tab <| array := array tab ++ [v] |>)). Qed.

Lemma fill_ok_ret {A} t (a : A) : fill_ok t (mret a).
Proof. intros s _. by exists a, s. Qed.

Lemma fill_ok_bind {A B} t (m : GoM (State X) A) (k : A → GoM (State X) B) :
  fill_ok t m → (∀ a, fill_ok t (k a)) → fill_ok t (m ≫= k).
Proof.
  intros Hm Hk s Hs. destruct (Hm s Hs) as (a & s1 & R1 & F1).
  destruct (Hk a s1) as (b & s2 & R2 & F2).
  { destruct F1 as [(Hd & _) _]. set_solver. }
  exists b, s2. rewrite (bind_ok _ _ _ _ _ R1). split; [done|]. by transitivity s1.
Qed.

(** Tables only come into being. *)
Definition creates (s s' : State X) : Prop :=
  builds s s' ∧ ∀ l, l ∈ dom (tables s) → tables s' !! l = tables s !! l.

#[export] Instance creates_preorder : PreOrder creates.
Proof.
  split; [by intros s; split|]. intros s1 s2 s3 [B1 F1] [B2 F2]. split; [by transitivity s2|].
  intros l Hd. rewrite F2, F1; [done..|]. destruct B1 as (? & _). set_solver.
Qed.

(** A run that succeeds and only makes tables. *)
Definition create_ok {A} (m : GoM (State X) A) : Prop :=
  ∀ s, ∃ a s', m s = (Ok a, s') ∧ creates s s'.

Lemma create_ok_ret {A} (a : A) : create_ok (mret a).
Proof. intros s. by exists a, s. Qed.

Lemma create_ok_bind {A B} (m : GoM (State X) A) (k : A → GoM (State X) B) :
  create_ok m → (∀ a, create_ok (k a)) → create_ok (m ≫= k).
Proof.
  intros Hm Hk s. destruct (Hm s) as (a & s1 & R1 & F1). destruct (Hk a s1) as (b & s2 & R2 & F2).
  exists b, s2. rewrite (bind_ok _ _ _ _ _ R1). split; [done|]. by transitivity s1.
Qed.

Lemma create_ok_table {A} (fill : loc → GoM (State X) A) :
  (∀ t, fill_ok t (fill t)) → create_ok (new_table ≫= fill).
Proof.
  intros Hf s. unfold new_table. erewrite (bind_ok (alloc tables _)) by reflexivity.
  destruct (Hf (fresh (dom (tables s)))
    (s <| tables := <[fresh (dom (tables s)) := empty_LTable]> (tables s) |>))
    as (a & s' & R & Hb & Ho); [simpl; set_solver|].
  exists a, s'. split; [exact R|]. split.
  - etransitivity; [apply (within_new_table s)|exact Hb].
  - intros l Hl. assert (l ≠ fresh (dom (tables s))) as Hne.
    { intros ->. by apply is_fresh in Hl. }
    rewrite Ho; [|done|simpl; set_solver]. simpl. by rewrite lookup_insert_ne.
Qed.

Lemma create_ok_array {A} (f : A → LValue) xs : create_ok (array_table (λ x, mret (f x)) xs).
Proof.
  apply create_ok_table. intros t. apply fill_ok_bind; [|intros; apply fill_ok_ret].
  induction xs as [|x xs IH]; simpl; [apply fill_ok_ret|].
  apply fill_ok_bind; [apply fill_ok_Append|by intros].
Qed.

(** RegisterModule makes a table of the functions. *)
Lemma RegisterModule_run fns s :
  ∃ m s', RegisterModule fns s = (Ok m, s') ∧ creates s s' ∧
    tables s' !! m = Some (mkLTable (foldl (λ d '(k, f), <[k := LFunc f]> d) ∅ fns) []).
Proof.
  unfold RegisterModule, new_table. erewrite (bind_ok (alloc tables _)) by reflexivity.
  set (m := fresh (dom (tables s))).
  assert (∀ d s, tables s !! m = Some (mkLTable d []) →
    ∃ s', go_for (λ '(k, f), RawSetString m k (LFunc f)) fns s = (Ok tt, s') ∧
      tables s' !! m = Some (mkLTable (foldl (λ d '(k, f), <[k := LFunc f]> d) d fns) [])) as Hfor.
  { induction fns as [|[k f] fns IH]; intros d s0 Hs0; [by exists s0|]. cbn [go_for foldl].
    destruct (IH (<[k := LFunc f]> d) (s0 <| tables := <[m := mkLTable (<[k := LFunc f]> d) []]> (tables s0) |>))
      as (s1 & R & Hs1); [apply lookup_insert_eq|].
    exists s1. split; [|done]. erewrite (bind_ok (RawSetString m k (LFunc f))); [exact R|].
    unfold RawSetString, load, store, mbind, GoM_bind. by rewrite Hs0, Hs0. }
  destruct (Hfor ∅ (s <| tables := <[m := empty_LTable]> (tables s) |>)) as (s' & R & Hs');
    [apply lookup_insert_eq|].
  exists m, s'. split; [by rewrite (bind_ok _ _ _ _ _ R)|]. split; [|done].
  destruct (create_ok_table (λ t, go_for (λ '(k, f), RawSetString t k (LFunc f)) fns)) with (s := s)
    as (a & s1 & R1 & Hc).
  { intros t. clear. induction fns as [|[k f] fns IH]; [apply fill_ok_ret|].
    apply fill_ok_bind; [apply fill_ok_RawSetString|by intros]. }
  unfold new_table in R1. erewrite (bind_ok (alloc tables _)) in R1 by reflexivity.
  assert ((Ok a, s1) = (Ok tt, s')) as [= _ ->]; [|done].
  etransitivity; [symmetry; exact R1|exact R].
Qed.
End Lemmas.
#[export] Hint Resolve fill_ok_RawSetString fill_ok_ret create_ok_ret create_ok_array : go.
#[export] Hint Resolve within_new_table within_RawSetString within_Append within_pure_call
  within_array_table : go.

(** ** Calls of the script *)
Section Calls.
Context {X : Type} `{!LuaVM X}.
Implicit Types s : State X.

(** Whatever a call does, tables stay in memory. *)
Lemma CallByParam_tables `{!LuaMemory X} fn nret args s :
  dom (tables s) ⊆ dom (tables (CallByParam fn nret args s).2).
Proof.
  destruct fn as [| | | | |[| | | |f]]; try done. simpl. unfold on_vm, zoom.
  pose proof (run_script_keeps f args (tables s, vm s)) as Hk.
  destruct (run_script f args (tables s, vm s)) as [[[e|vs]| | |] [h x]]; done.
Qed.

(** A script cannot reach the mutex. *)
Lemma CallByParam_mutex fn nret args s : mutex (CallByParam fn nret args s).2 = mutex s.
Proof.
  destruct fn as [| | | | |[| | | |f]]; try done. simpl. unfold on_vm, zoom.
  destruct (run_script f args (tables s, vm s)) as [[[e|vs]| | |] [h x]]; done.
Qed.

Lemma adjust_length nret vs : length (adjust nret vs) = nret.
Proof. unfold adjust. rewrite length_take, length_app, length_replicate. lia. Qed.

(** A call that returns has pushed its results, or nothing if it failed. *)
Lemma CallByParam_stack fn nret args s e s' :
  CallByParam fn nret args s = (Ok e, s') →
  ∃ vs, stack s' = vs ++ stack s ∧ length vs = match e with None => nret | Some _ => 0 end.
Proof.
  assert (∀ vs, length (rev (adjust nret vs)) = nret) as Hl.
  { intros vs. by rewrite length_rev, adjust_length. }
  destruct fn as [| | | | |[| | | |f]]; simpl;
    try (intros [-> ->]%ret_inv; by exists []); try (intros [= <- <-]; eexists; split; [done|apply Hl]).
  unfold on_vm, zoom.
  destruct (run_script f args (tables s, vm s)) as [[[err|vs]| | |] [h x]]; intros [= <- <-];
    try (by exists []). eexists. split; [done|apply Hl].
Qed.
End Calls.

(** Split a run that only builds tables. *)
Ltac builds :=
  repeat first
    [ progress intros
    | solve [auto with go]
    | apply within_ret; apply _
    | apply within_array_table
    | apply within_fmap; [apply _|]
    | apply within_bind; [apply _| |]
    | progress case_match ].

(** Split a run that fills a table. *)
Ltac fills :=
  repeat first
    [ progress intros
    | solve [auto with go]
    | apply fill_ok_bind
    | progress case_match ].
