(* ===== verification/LuaSelector.v ===== *)
(** * Path selection by a Lua script (lua/selector.go)

    The selector turns paths into Lua tables for the script and keeps, for every
    table it made, the path it stands for: the script selects a path by
    returning its table. [lpaths] holds the current tables by remote address and
    fingerprint, [ppaths] the paths by table. Every operation runs under the
    mutex of the Lua state. *)

From Stdlib Require Import Floats.SpecFloat.
From S2P Require Import Prelude Enums Taps PanPath ServerSelector LuaApi.

(** ** Conversion to Lua *)
Section Conversion.
Context `{Pan} {X : Type} `{!LuaVM X}.

(** [time.Duration.String] of the standard library. *)
Context (Duration_String : Z → string).

Definition newLuaPathInterface (intf : PathInterface) : GoM (State X) loc :=
  iface ← new_table;
  RawSetString iface "IA" (LString (IA_String (pi_IA intf)));;
  RawSetString iface "IfID" (LNumber (float64 (pi_IfID intf)));;
  mret iface.

Definition newLuaPreferences (prefs : option ConnectionPreferences) : GoM (State X) loc :=
  t ← new_table;
  match prefs with
  | Some p =>
      RawSetString t "ConnTimeout" (LString (Duration_String (ConnTimeout p)));;
      profile ← pure_call (CapacityProfile_String (ConnCapacityProfile p));
      RawSetString t "ConnCapacityProfile" (LString profile);;
      policy ← pure_call (MultipathPolicy_String (MultipathPolicy_ p));
      RawSetString t "MultipathPolicy" (LString policy);;
      RawSetString t "IsolateSession" (LBool (IsolateSession p))
  | None => mret tt
  end;;
  mret t.

Definition newLuaGeo (g : GeoCoordinates) : GoM (State X) LValue :=
  pos ← new_table;
  RawSetString pos "Latitude" (LNumber (Latitude g));;
  RawSetString pos "Longitude" (LNumber (Longitude g));;
  RawSetString pos "Address" (LString (geo_Address g));;
  mret (LTab (Some pos)).

Definition numbers (xs : list Z) : GoM (State X) loc :=
  array_table (λ x, mret (LNumber (float64 x))) xs.

Definition newLuaMetadata (m : PathMetadata) : GoM (State X) loc :=
  meta ← new_table;
  RawSetString meta "MTU" (LNumber (float64 (MTU m)));;
  ifaces ← array_table (λ i, LTab ∘ Some <$> newLuaPathInterface i) (Interfaces m);
  RawSetString meta "Interfaces" (LTab (Some ifaces));;
  latencies ← numbers (Latency m);
  RawSetString meta "Latency" (LTab (Some latencies));;
  bandwidths ← numbers (Bandwidth m);
  RawSetString meta "Bandwidth" (LTab (Some bandwidths));;
  linktypes ← numbers (LinkType m);
  RawSetString meta "LinkType" (LTab (Some linktypes));;
  internalhops ← numbers (InternalHops m);
  RawSetString meta "InternalHops" (LTab (Some internalhops));;
  notes ← array_table (λ n, mret (LString n)) (Notes m);
  RawSetString meta "Notes" (LTab (Some notes));;
  geo ← array_table newLuaGeo (Geo m);
  RawSetString meta "Geo" (LTab (Some geo));;
  mret meta.

Definition newLuaPath (path : option PanPath) : GoM (State X) loc :=
  t ← new_table;
  match path with
  | Some p =>
      RawSetString t "Source" (LString (IA_String (pp_Source p)));;
      RawSetString t "Destination" (LString (IA_String (pp_Destination p)));;
      RawSetString t "Fingerprint" (LString (pp_Fingerprint p));;
      RawSetString t "Expiry" (LString (Time_String (pp_Expiry p)));;
      match pp_Metadata p with
      | Some m => meta ← newLuaMetadata m; RawSetString t "Metadata" (LTab (Some meta))
      | None => mret tt
      end
  | None => mret tt
  end;;
  mret t.

Definition lua_table_slice_to_table (s : list loc) : GoM (State X) loc :=
  array_table (λ t, mret (LTab (Some t))) s.
End Conversion.

(** ** The selector *)
Section Selector.
Context `{Pan} {X : Type} `{!LuaVM X}.
Context (Duration_String : Z → string).

(** The field [d], the pause of the goroutine of NewSelector, is left out: the
    goroutine may run at any time here. *)
Record LuaSelector := mkLuaSelector {
  lua : State X;
  lpaths : gmap string (gmap string loc);
  ppaths : gmap loc (option PanPath);
  module : loc
}.
#[export] Instance eta_LuaSelector : Eta LuaSelector := λ s,
  mkLuaSelector (lua s) (lpaths s) (ppaths s) (module s).

Definition on_lua {A} (m : GoM (State X) A) : GoM LuaSelector A :=
  zoom lua (λ l s, s <| lua := l |>) m.

(** [s.ppaths[lpath]] *)
Definition get_pan_path (lpath : option loc) : GoM LuaSelector (option PanPath) :=
  gets (λ s, lpath ≫= λ l, mjoin (ppaths s !! l)).

Definition clear_addr (addr : UDPAddr) : GoM LuaSelector unit :=
  let raddr := UDPAddr_String addr in
  lps ← gets (λ s, default ∅ (lpaths s !! raddr));
  go_for (λ lt, modify (λ s, s <| ppaths := <[lt := None]> (ppaths s) |>)) (map_to_list lps).*2;;
  modify (λ s, s <| lpaths := <[raddr := ∅]> (lpaths s) |>).

(** [s.lpaths[raddr][fp] = lpath] *)
Definition set_lpath (raddr fp : string) (lpath : loc) : GoM LuaSelector unit :=
  lps ← gets lpaths;
  match lps !! raddr with
  | None => panic nil_map_write
  | Some lp => modify (λ s, s <| lpaths := <[raddr := <[fp := lpath]> lp]> (lpaths s) |>)
  end.

Definition set_path (raddr : string) (ppath : option PanPath) : GoM LuaSelector loc :=
  lpath ← on_lua (newLuaPath ppath);
  p ← deref ppath;
  set_lpath raddr (pp_Fingerprint p) lpath;;
  modify (λ s, s <| ppaths := <[lpath := ppath]> (ppaths s) |>);;
  mret lpath.

Definition set_paths (addr : UDPAddr) (pps : list (option PanPath)) : GoM LuaSelector (list loc) :=
  go_map (set_path (UDPAddr_String addr)) pps.

(** The functions a script has to define. *)
Definition stub (fn : string) : string * LFunction :=
  (fn, Unimplemented ("function " +:+ fn +:+ " not implemented in script")).

Definition panapi_functions : list (string * LFunction) :=
  (stub <$> ["Initialize"; "SetPreferences"; "Path"; "PathDown"; "Refresh"; "Close"; "Periodic"]%string)
  ++ [("Log"%string, Log); ("Now"%string, Now)].

(** The goroutine it starts is [Periodic] below, run at any time. *)
Definition NewSelector (state : State X) : outcome LuaSelector :=
  match guarded Lock Unlock (RegisterModule panapi_functions) state with
  | (Ok panapi, state) => Ok (mkLuaSelector state ∅ ∅ panapi)
  | (Panics w, _) => Panics w
  | (Exits w, _) => Exits w
  | (Deadlocks, _) => Deadlocks
  end.

(** [s.Lock(); defer s.Unlock(); body] *)
Definition locked {A} (body : GoM LuaSelector A) : GoM LuaSelector A :=
  guarded (on_lua Lock) (on_lua Unlock) body.

(** [s.CallByParam(lua.P{Fn: s.mod.RawGetString(fn), NRet: nret, Protect: true}, args...)] *)
Definition call_module (fn : string) (nret : nat) (args : list LValue) : GoM LuaSelector error :=
  s ← get_state;
  f ← on_lua (RawGetString (module s) fn);
  on_lua (CallByParam f nret args).

Definition LuaSelector_Initialize (prefs : option ConnectionPreferences) (local remote : UDPAddr)
    (paths : list (option PanPath)) : GoM LuaSelector error :=
  locked (
    clear_addr remote;;
    lps ← set_paths remote paths;
    s ← get_state;
    f ← on_lua (RawGetString (module s) "Initialize");
    t ← on_lua (newLuaPreferences Duration_String prefs);
    ps ← on_lua (lua_table_slice_to_table lps);
    on_lua (CallByParam f 0
      [LTab (Some t); LString (UDPAddr_String local); LString (UDPAddr_String remote);
       LTab (Some ps)])).

Definition LuaSelector_SetPreferences (prefs : option ConnectionPreferences)
    (local remote : UDPAddr) : GoM LuaSelector error :=
  locked (
    s ← get_state;
    f ← on_lua (RawGetString (module s) "SetPreferences");
    t ← on_lua (newLuaPreferences Duration_String prefs);
    on_lua (CallByParam f 0
      [LTab (Some t); LString (UDPAddr_String local); LString (UDPAddr_String remote)])).

Definition LuaSelector_Path (local remote : UDPAddr) : GoM LuaSelector (option PanPath * error) :=
  locked (
    err ← call_module "Path" 1 [LString (UDPAddr_String local); LString (UDPAddr_String remote)];
    match err with
    | Some e => mret (None, Some e)
    | None =>
        lt ← on_lua ToTable;
        on_lua (Pop 1);;
        p ← get_pan_path lt;
        mret (p, None)
    end).

Definition LuaSelector_PathDown (local remote : UDPAddr) (fp : PathFingerprint)
    (pi : PathInterface) : GoM LuaSelector error :=
  locked (
    s ← get_state;
    f ← on_lua (RawGetString (module s) "PathDown");
    t ← on_lua (newLuaPathInterface pi);
    on_lua (CallByParam f 0
      [LString (UDPAddr_String local); LString (UDPAddr_String remote); LString fp; LTab (Some t)])).

Definition LuaSelector_Refresh (local remote : UDPAddr) (paths : list (option PanPath))
    : GoM LuaSelector error :=
  locked (
    clear_addr remote;;
    lps ← set_paths remote paths;
    s ← get_state;
    f ← on_lua (RawGetString (module s) "Refresh");
    ps ← on_lua (lua_table_slice_to_table lps);
    on_lua (CallByParam f 0
      [LString (UDPAddr_String local); LString (UDPAddr_String remote); LTab (Some ps)])).

Definition LuaSelector_Close (local remote : UDPAddr) : GoM LuaSelector error :=
  locked (
    call_module "Close" 1 [LString (UDPAddr_String local); LString (UDPAddr_String remote)]).

(** One round of the goroutine: the error is ignored, and the mutex is
    released without defer. *)
Definition Periodic (seconds : spec_float) : GoM LuaSelector unit :=
  on_lua Lock;;
  call_module "Periodic" 0 [LNumber seconds];;
  on_lua Unlock.

#[export] Instance LuaSelector_interface : ServerSelector LuaSelector := {
  ss_Initialize := LuaSelector_Initialize;
  ss_SetPreferences := LuaSelector_SetPreferences;
  ss_Path := LuaSelector_Path;
  ss_PathDown := LuaSelector_PathDown;
  ss_Refresh := LuaSelector_Refresh;
  ss_Close := LuaSelector_Close
}.
End Selector.
Arguments LuaSelector {_} X.
Arguments mkLuaSelector {_ X} _ _ _ _.

(** ** Building tables *)
Section Building.
Context `{Pan} {X : Type}.

Lemma within_newLuaPathInterface i : within builds (newLuaPathInterface (X := X) i).
Proof. unfold newLuaPathInterface. builds. Qed.

Lemma within_newLuaPreferences f prefs : within builds (newLuaPreferences (X := X) f prefs).
Proof. unfold newLuaPreferences. builds. Qed.

Lemma within_newLuaGeo g : within builds (newLuaGeo (X := X) g).
Proof. unfold newLuaGeo. builds. Qed.

Lemma within_lua_table_slice l : within builds (lua_table_slice_to_table (X := X) l).
Proof. apply within_array_table. builds. Qed.

#[local] Hint Resolve within_newLuaPathInterface within_newLuaGeo : go.

Lemma within_newLuaMetadata m : within builds (newLuaMetadata (X := X) m).
Proof.
  unfold newLuaMetadata, numbers. builds.
Qed.
#[local] Hint Resolve within_newLuaMetadata : go.

Lemma within_newLuaPath p : within builds (newLuaPath (X := X) p).
Proof. unfold newLuaPath. builds. Qed.

(** The table of a path is a new one. *)
Lemma newLuaPath_fresh p (s : State X) l s' :
  newLuaPath p s = (Ok l, s') →
  builds s s' ∧ (l ∉ dom (tables s)) ∧ l ∈ dom (tables s').
Proof.
  assert (∀ t, within (S := State X) builds
    match p with
    | Some p =>
        RawSetString t "Source" (LString (IA_String (pp_Source p)));;
        RawSetString t "Destination" (LString (IA_String (pp_Destination p)));;
        RawSetString t "Fingerprint" (LString (pp_Fingerprint p));;
        RawSetString t "Expiry" (LString (Time_String (pp_Expiry p)));;
        match pp_Metadata p with
        | Some m => meta ← newLuaMetadata m; RawSetString t "Metadata" (LTab (Some meta))
        | None => mret tt
        end
    | None => mret tt
    end) as Hfill.
  { builds. }
  intros R. split; [|exact (new_table_fresh _ s l s' Hfill R)].
  by eapply within_run, R; apply within_newLuaPath.
Qed.
End Building.

(** ** The tables the script knows, and the paths they stand for *)
Section Consistency.
Context `{Pan} {X : Type} `{!LuaVM X}.
Abbreviation LS := (LuaSelector X).

Definition current_table (s : LS) (raddr fp : string) : option loc :=
  lpaths s !! raddr ≫= λ lp, lp !! fp.

(** [offers] holds the paths last offered for each remote address. The current
    tables stand for exactly the offered paths, every table that stands for a
    path is current, at one address only, and all of them are real tables. *)
Record consistent (offers : gmap string (list PanPath)) (s : LS) : Prop := {
  current_stands r fp lt : current_table s r fp = Some lt →
    ∃ p ps, ppaths s !! lt = Some (Some p) ∧ pp_Fingerprint p = fp ∧ offers !! r = Some ps ∧ p ∈ ps;
  known_current lt p : ppaths s !! lt = Some (Some p) →
    ∃ r, current_table s r (pp_Fingerprint p) = Some lt;
  current_unique r fp r' fp' lt :
    current_table s r fp = Some lt → current_table s r' fp' = Some lt → r = r';
  offered_current r ps p : offers !! r = Some ps → p ∈ ps →
    ∃ lt, current_table s r (pp_Fingerprint p) = Some lt ∧ ppaths s !! lt = Some (Some p);
  known_tables : dom (ppaths s) ⊆ dom (tables (lua s))
}.

(** Only the tables in memory matter of the Lua state. *)
Lemma consistent_lua o (s : LS) l :
  consistent o s → dom (tables (lua s)) ⊆ dom (tables l) → consistent o (s <| lua := l |>).
Proof. intros [] Hd. split; [done..|]. simpl. set_solver. Qed.

Definition forget (lts : list loc) (pp : gmap loc (option PanPath)) : gmap loc (option PanPath) :=
  foldl (λ pp lt, <[lt := None]> pp) pp lts.

Lemma lookup_forget lts pp lt :
  forget lts pp !! lt = if decide (lt ∈ lts) then Some None else pp !! lt.
Proof.
  revert pp. induction lts as [|l lts IH]; intros pp; [done|]. cbn [forget foldl].
  change (foldl _ ?x lts) with (forget lts x). rewrite IH.
  destruct (decide (lt ∈ lts)) as [Hin|Hin], (decide (lt ∈ l :: lts)) as [Hin'|Hin']; try done;
    [set_solver| |].
  - assert (lt = l) as -> by set_solver. by rewrite lookup_insert_eq.
  - rewrite lookup_insert_ne; [done|]. set_solver.
Qed.

Definition tables_at (s : LS) (raddr : string) : list loc :=
  (map_to_list (default ∅ (lpaths s !! raddr))).*2.

Definition cleared (s : LS) (raddr : string) : LS :=
  mkLuaSelector (lua s) (<[raddr := ∅]> (lpaths s)) (forget (tables_at s raddr) (ppaths s)) (module s).

Lemma clear_addr_run a (s : LS) : clear_addr a s = (Ok tt, cleared s (UDPAddr_String a)).
Proof.
  unfold clear_addr, cleared, tables_at. go_exec by reflexivity.
  generalize (map_to_list (default ∅ (lpaths s !! UDPAddr_String a))).*2. intros lts.
  assert (∀ s : LS, go_for (λ lt, modify (λ s, s <| ppaths := <[lt := None]> (ppaths s) |>)) lts s
    = (Ok tt, s <| ppaths := forget lts (ppaths s) |>)) as R.
  { clear s. induction lts as [|lt lts IH]; intros s; [by destruct s|]. cbn [go_for].
    go_exec by reflexivity. by rewrite IH. }
  by rewrite (bind_ok _ _ _ _ _ (R s)).
Qed.

(** The tables of an address. *)
Lemma elem_of_tables_at (s : LS) raddr lt :
  lt ∈ tables_at s raddr ↔ ∃ fp, current_table s raddr fp = Some lt.
Proof.
  unfold current_table, tables_at. rewrite list_elem_of_fmap. split.
  - intros ([fp lt'] & -> & Hin%elem_of_map_to_list). exists fp. simpl in *.
    destruct (lpaths s !! raddr); simpl in *; [done|by rewrite lookup_empty in Hin].
  - intros [fp Hfp]. exists (fp, lt). split; [done|]. apply elem_of_map_to_list.
    by destruct (lpaths s !! raddr).
Qed.

Lemma current_table_clear (s : LS) raddr r fp :
  current_table (cleared s raddr) r fp
  = if decide (r = raddr) then None else current_table s r fp.
Proof.
  unfold current_table. simpl. case_decide as Hr.
  - subst r. by rewrite lookup_insert_eq.
  - by rewrite lookup_insert_ne.
Qed.

Lemma consistent_clear o a (s : LS) :
  consistent o s → consistent (<[UDPAddr_String a := []]> o) (clear_addr a s).2.
Proof.
  intros Hc. rewrite clear_addr_run. set (raddr := UDPAddr_String a). cbn [snd].
  assert (∀ r lt fp, current_table s r fp = Some lt → r ≠ raddr →
    lt ∉ tables_at s raddr) as Hother.
  { intros r lt fp Hlt Hr [fp' Hlt']%elem_of_tables_at. destruct Hr. by eapply (current_unique _ _ Hc). }
  split.
  - intros r fp lt. rewrite current_table_clear. case_decide as Hr; [done|]. intros Hlt.
    destruct (current_stands _ _ Hc _ _ _ Hlt) as (p & ps & Hp & Hfp & Ho & Hin).
    exists p, ps. simpl. rewrite lookup_forget, lookup_insert_ne by done.
    rewrite decide_False by eauto. eauto.
  - intros lt p. simpl. rewrite lookup_forget. case_decide as Hin; [done|]. intros Hp.
    destruct (known_current _ _ Hc _ _ Hp) as [r Hr]. exists r. rewrite current_table_clear.
    rewrite decide_False; [done|]. intros ->. apply Hin, elem_of_tables_at. eauto.
  - intros r fp r' fp' lt. rewrite !current_table_clear.
    do 2 case_decide; try done. apply (current_unique _ _ Hc).
  - intros r ps p Hr Hp. rewrite current_table_clear.
    destruct (decide (r = raddr)) as [->|Hne].
    { rewrite lookup_insert_eq in Hr. simplify_eq. by apply not_elem_of_nil in Hp. }
    rewrite lookup_insert_ne in Hr by done.
    destruct (offered_current _ _ Hc _ _ _ Hr Hp) as (lt & Hlt & Hpp). exists lt. split; [done|].
    simpl. rewrite lookup_forget, decide_False by eauto. done.
  - intros lt. simpl. rewrite elem_of_dom, lookup_forget. intros Hlt.
    apply (known_tables _ _ Hc), elem_of_dom. case_decide as Hin; [|done].
    apply elem_of_tables_at in Hin as [fp Hfp].
    destruct (current_stands _ _ Hc _ _ _ Hfp) as (p & ps & Hp & _). eauto.
Qed.

(** The state after one round of set_paths' loop. *)
Definition added (s : LS) (l : State X) raddr lp lt (p : PanPath) : LS :=
  mkLuaSelector l (<[raddr := <[pp_Fingerprint p := lt]> lp]> (lpaths s))
    (<[lt := Some p]> (ppaths s)) (module s).

Lemma set_path_inv raddr p (s : LS) lt s' lp :
  lpaths s !! raddr = Some lp → set_path raddr (Some p) s = (Ok lt, s') →
  ∃ l, s' = added s l raddr lp lt p ∧ builds (lua s) l ∧
    (lt ∉ dom (tables (lua s))) ∧ lt ∈ dom (tables l).
Proof.
  intros Hlp. unfold set_path, on_lua, zoom. unfold mbind at 1, GoM_bind at 1.
  destruct (newLuaPath (Some p) (lua s)) as [[lt'| | |] l] eqn:E; [|done..].
  apply newLuaPath_fresh in E as (Hb & Hn & Hin).
  unfold set_lpath. cbn. rewrite bind_ret_l. unfold mbind, GoM_bind. simpl. rewrite Hlp. simpl.
  intros [= <- <-]. exists l. done.
Qed.

Lemma current_table_add (s : LS) l raddr lp lt p r fp :
  lpaths s !! raddr = Some lp →
  current_table (added s l raddr lp lt p) r fp
  = if decide (r = raddr ∧ fp = pp_Fingerprint p) then Some lt else current_table s r fp.
Proof.
  intros Hlp. unfold current_table. simpl. case_decide as Hd.
  - destruct Hd as [-> ->]. rewrite lookup_insert_eq. simpl. by rewrite lookup_insert_eq.
  - destruct (decide (r = raddr)) as [->|Hr]; [|by rewrite lookup_insert_ne].
    rewrite lookup_insert_eq, Hlp. simpl. rewrite lookup_insert_ne; [done|naive_solver].
Qed.

Lemma consistent_add o done (s : LS) l raddr lp lt p :
  consistent (<[raddr := done]> o) s → lpaths s !! raddr = Some lp →
  builds (lua s) l → lt ∉ dom (tables (lua s)) → lt ∈ dom (tables l) →
  pp_Fingerprint p ∉ pp_Fingerprint <$> done →
  consistent (<[raddr := done ++ [p]]> o) (added s l raddr lp lt p).
Proof.
  intros Hc Hlp (Hd & _) Hfresh Hlt Hnew.
  assert (ppaths s !! lt = None) as Hpp.
  { apply not_elem_of_dom. intros Hin. by apply Hfresh, (known_tables _ _ Hc). }
  assert (∀ r fp, current_table s r fp ≠ Some lt) as Hcur.
  { intros r fp Hr. destruct (current_stands _ _ Hc _ _ _ Hr) as (? & ? & Hp & _). congruence. }
  assert (∀ r ps q, <[raddr := done]> o !! r = Some ps → q ∈ ps →
    ∃ ps', <[raddr := done ++ [p]]> o !! r = Some ps' ∧ q ∈ ps') as Hmore.
  { intros r ps q. destruct (decide (r = raddr)) as [->|Hr].
    - rewrite !lookup_insert_eq. intros [= <-] Hq. eexists. split; [done|]. set_solver.
    - rewrite !lookup_insert_ne by done. eauto. }
  split.
  - intros r fp lt'. rewrite current_table_add by done. simpl. case_decide as Hdec.
    + destruct Hdec as [-> ->]. intros [= <-]. exists p, (done ++ [p]).
      rewrite !lookup_insert_eq. set_solver.
    + intros Hcurr. destruct (current_stands _ _ Hc _ _ _ Hcurr) as (q & ps & Hq & Hfp & Ho & Hin).
      destruct (Hmore _ _ _ Ho Hin) as (ps' & Ho' & Hin'). exists q, ps'.
      rewrite lookup_insert_ne; [done|]. intros ->. by eapply Hcur.
  - intros lt' q. simpl. destruct (decide (lt = lt')) as [<-|Hne].
    + rewrite lookup_insert_eq. intros [= <-]. exists raddr.
      rewrite current_table_add by done. by rewrite decide_True.
    + rewrite lookup_insert_ne by done. intros Hq.
      destruct (known_current _ _ Hc _ _ Hq) as [r Hr]. exists r.
      rewrite current_table_add, decide_False; [done| |done]. intros [-> Hfp].
      destruct (current_stands _ _ Hc _ _ _ Hr) as (q' & ps & Hq' & Hfp' & Ho & Hin).
      rewrite lookup_insert_eq in Ho. simplify_eq. apply Hnew. rewrite <-Hfp. set_solver.
  - intros r fp r' fp' lt'. rewrite !current_table_add by done.
    case_decide as D1; case_decide as D2; intros H1 H2; simplify_eq; [naive_solver|by destruct (Hcur _ _ H2)|by destruct (Hcur _ _ H1)|].
    by eapply (current_unique _ _ Hc).
  - intros r ps q Hr Hq.
    assert ((r = raddr ∧ q = p) ∨ ∃ ps0, <[raddr := done]> o !! r = Some ps0 ∧ q ∈ ps0) as [[-> ->]|(ps0 & Ho & Hin)].
    { destruct (decide (r = raddr)) as [->|Hne].
      - rewrite lookup_insert_eq in Hr. simplify_eq. rewrite lookup_insert_eq. set_solver.
      - rewrite lookup_insert_ne in Hr by done. right. rewrite lookup_insert_ne by done. eauto. }
    { exists lt. rewrite current_table_add by done. rewrite decide_True by done. split; [done|].
      simpl. by rewrite lookup_insert_eq. }
    destruct (offered_current _ _ Hc _ _ _ Ho Hin) as (lt' & Hlt' & Hq'). exists lt'.
    rewrite current_table_add, decide_False; [|intros [-> Hfp]|done].
    + split; [done|]. simpl. rewrite lookup_insert_ne; [done|]. intros ->. by destruct (Hcur _ _ Hlt').
    + rewrite lookup_insert_eq in Ho. simplify_eq. apply Hnew. rewrite <-Hfp. set_solver.
  - simpl. rewrite dom_insert. pose proof (known_tables _ _ Hc). set_solver.
Qed.

(** The whole of set_paths, on paths with distinct fingerprints. *)
Lemma consistent_set_paths o a done ps (s : LS) lts s' :
  let raddr := UDPAddr_String a in
  consistent (<[raddr := done]> o) s → is_Some (lpaths s !! raddr) →
  NoDup (pp_Fingerprint <$> done ++ ps) →
  set_paths a (Some <$> ps) s = (Ok lts, s') →
  consistent (<[raddr := done ++ ps]> o) s' ∧ mutex (lua s') = mutex (lua s) ∧
  stack (lua s') = stack (lua s) ∧ module s' = module s.
Proof.
  intros raddr. revert done s lts. induction ps as [|p ps IH]; intros done s lts Hc [lp Hlp] Hnd R.
  { apply ret_inv in R as [_ ->]. by rewrite app_nil_r. }
  unfold set_paths in R. rewrite fmap_cons in R. cbn [go_map] in R.
  apply bind_inv in R as (lt & s1 & R1 & R). apply bind_inv in R as (lts' & s2 & R2 & [_ ->]%ret_inv).
  destruct (set_path_inv _ _ _ _ _ _ Hlp R1) as (l & -> & Hb & Hn & Hin).
  destruct (IH (done ++ [p]) (added s l raddr lp lt p) lts') as (Hc' & Hm & Hs & Hmod).
  - apply consistent_add; [done..|].
    rewrite fmap_app in Hnd. apply NoDup_app in Hnd as (_ & Hnot & _).
    intros Hp. apply (Hnot _ Hp). rewrite fmap_cons. by left.
  - simpl. rewrite lookup_insert_eq. eauto.
  - by rewrite <-app_assoc.
  - exact R2.
  - rewrite <-app_assoc in Hc'. destruct Hb as (_ & Hst & Hmu & _).
    split_and!; [done|by rewrite Hm|by rewrite Hs|by rewrite Hmod].
Qed.
End Consistency.

(** ** Operations *)
Section Operations.
Context `{Pan} {X : Type} `{LuaMemory X} (Duration_String : Z → string).
Abbreviation LS := (LuaSelector X).
#[local] Instance lua_interface : ServerSelector LS := LuaSelector_interface Duration_String.

(** The parts of a run that concern the Lua state only. *)
Definition tables_stay (l l' : State X) : Prop := dom (tables l) ⊆ dom (tables l').

Lemma preserves_on_lua {A} o (m : GoM (State X) A) :
  within tables_stay m → preserves (consistent o) (on_lua m).
Proof.
  intros Hm s Hc. unfold on_lua, zoom. specialize (Hm (lua s)).
  destruct (m (lua s)) as [r l]. by apply consistent_lua.
Qed.

Lemma builds_stay {A} (m : GoM (State X) A) : within builds m → within tables_stay m.
Proof. intros Hm s. apply Hm. Qed.

Lemma within_Lock : within tables_stay (Lock (X := X)).
Proof. intros s. unfold Lock, tables_stay. by destruct (mutex s). Qed.

Lemma within_Unlock : within tables_stay (Unlock (X := X)).
Proof. intros s. unfold Unlock, tables_stay. by destruct (mutex s). Qed.

Lemma within_CallByParam fn nret args : within tables_stay (CallByParam fn nret args).
Proof. intros s. by apply CallByParam_tables. Qed.

Lemma within_RawGetString t k : within tables_stay (RawGetString (X := X) t k).
Proof.
  intros s. unfold RawGetString, load, mbind, GoM_bind, tables_stay.
  by destruct (tables s !! t).
Qed.
#[local] Hint Resolve preserves_on_lua builds_stay within_Lock within_Unlock within_CallByParam
  within_RawGetString within_newLuaPreferences within_newLuaPathInterface within_lua_table_slice : go.

Lemma within_ToTable : within tables_stay (ToTable (X := X)).
Proof. intros s. unfold tables_stay. done. Qed.

Lemma within_Pop n : within tables_stay (Pop (X := X) n).
Proof. intros s. unfold tables_stay. done. Qed.

Lemma preserves_get_pan_path o lt : preserves (consistent o) (get_pan_path (X := X) lt).
Proof. apply preserves_gets. Qed.
#[local] Hint Resolve within_ToTable within_Pop preserves_get_pan_path : go.

Lemma preserves_call_module o fn nret args : preserves (consistent o) (call_module fn nret args).
Proof.
  apply preserves_bind; [by intros s|]. intros s.
  apply preserves_bind; [auto with go|]. auto with go.
Qed.

(** What the requests offer. *)
Definition offered (q : request) : option (list (option PanPath)) :=
  match q with RInitialize _ ps | RRefresh ps => Some ps | _ => None end.

Definition offer (q : request) (remote : UDPAddr) (o : gmap string (list PanPath))
    : gmap string (list PanPath) :=
  match offered q with Some ps => <[UDPAddr_String remote := omap id ps]> o | None => o end.

Definition distinct (q : request) : Prop :=
  match offered q with Some ps => NoDup (pp_Fingerprint <$> omap id ps) | None => True end.

(** A run under the mutex. *)
Lemma locked_inv {A} (body : GoM LS A) s a s' :
  locked body s = (Ok a, s') →
  ∃ s1, body (on_lua Lock s).2 = (Ok a, s1) ∧ s' = (on_lua Unlock s1).2 ∧
    mutex (lua s) = false.
Proof.
  unfold locked, guarded. intros (u & s0 & RL & R)%bind_inv.
  assert (s0 = (on_lua Lock s).2 ∧ mutex (lua s) = false) as [-> Hm].
  { rewrite RL. split; [done|]. unfold on_lua, zoom, Lock in RL. by destruct (mutex (lua s)). }
  unfold deferring in R.
  destruct (body (on_lua Lock s).2) as [[b| | |] s1] eqn:E; [|..|done|done].
  - apply bind_inv in R as (v & s2 & RU & [-> ->]%ret_inv). exists s1. by rewrite RU.
  - apply bind_inv in R as (v & s2 & RU & R). done.
Qed.

Lemma consistent_locked {A} o o' (body : GoM LS A) s a s' :
  (∀ s b s', consistent o s → body s = (Ok b, s') → consistent o' s') →
  consistent o s → locked body s = (Ok a, s') → consistent o' s'.
Proof.
  intros Hb Hc (s1 & R & -> & _)%locked_inv.
  apply preserves_on_lua; [apply within_Unlock|]. eapply Hb; [|exact R].
  apply preserves_on_lua; [apply within_Lock|done].
Qed.

Lemma set_paths_ok a ps (s : LS) lts s' : set_paths a ps s = (Ok lts, s') → None ∉ ps.
Proof.
  revert s lts. induction ps as [|[p|] ps IH]; intros s lts.
  - intros _. apply not_elem_of_nil.
  - intros (lt & s1 & _ & R)%bind_inv. apply bind_inv in R as (lts' & s2 & R & [_ ->]%ret_inv).
    apply IH in R. intros [|]%elem_of_cons; [discriminate|done].
  - intros (lt & s1 & R & _)%bind_inv. unfold set_path in R.
    apply bind_inv in R as (? & ? & _ & R). discriminate R.
Qed.

(** The offer of Initialize and Refresh, up to the call of the script. *)
Lemma consistent_offer {A} o remote ps (k : list loc → GoM LS A) s a s' :
  NoDup (pp_Fingerprint <$> omap id ps) →
  (∀ o lts, preserves (consistent o) (k lts)) →
  consistent o s → (clear_addr remote;; lts ← set_paths remote ps; k lts) s = (Ok a, s') →
  consistent (<[UDPAddr_String remote := omap id ps]> o) s'.
Proof.
  intros Hnd Hk Hc (u & s1 & R1 & R)%bind_inv. apply bind_inv in R as (lts & s2 & R2 & R).
  destruct (no_nil ps) as [qs ->]; [by eapply set_paths_ok|].
  assert (omap id (Some <$> qs) = qs) as Hqs.
  { clear. induction qs as [|q qs IH]; [done|]. simpl. f_equal. exact IH. }
  rewrite Hqs in *. rewrite clear_addr_run in R1. injection R1 as _ <-.
  pose proof (consistent_clear o remote s Hc) as Hc1. rewrite clear_addr_run in Hc1.
  destruct (consistent_set_paths o remote [] qs _ lts s2 Hc1) as [Hc2 _]; [|done|exact R2|].
  { simpl. rewrite lookup_insert_eq. eauto. }
  pose proof (Hk _ lts s2 Hc2) as Hc3. by rewrite R in Hc3.
Qed.

(** Every request keeps the tables consistent with what is on offer after it. *)
Lemma serve_consistent o q l r (s : LS) a s' :
  distinct q → consistent o s → serve q l r s = (Ok a, s') → consistent (offer q r o) s'.
Proof.
  intros Hd Hc R. unfold offer, distinct in *.
  destruct q; cbn [offered] in *; cbn [serve lua_interface LuaSelector_interface ss_Initialize
    ss_SetPreferences ss_Path ss_PathDown ss_Refresh ss_Close] in R;
    try (apply bind_inv in R as (e & s1 & R & [_ ->]%ret_inv)).
  all: unfold LuaSelector_Initialize, LuaSelector_SetPreferences, LuaSelector_Path,
    LuaSelector_PathDown, LuaSelector_Refresh, LuaSelector_Close in R.
  all: eapply consistent_locked in R; [exact R| |exact Hc].
  all: clear Hc R; intros s2 b s3 Hc R.
  1,5: eapply consistent_offer; [exact Hd| |exact Hc|exact R]; intros; cbn beta; preserves.
  all: eapply preserves_run; [|exact Hc|exact R]; preserves.
Qed.

(** Path looks the script's table up in the state it leaves behind. *)
Lemma Path_known l r (s : LS) p e s' :
  LuaSelector_Path l r s = (Ok (Some p, e), s') →
  ∃ lt, ppaths s' !! lt = Some (Some p).
Proof.
  intros (s1 & R & -> & _)%locked_inv.
  assert (ppaths (on_lua Unlock s1).2 = ppaths s1) as ->.
  { unfold on_lua, zoom. by destruct (Unlock (lua s1)). }
  apply bind_inv in R as ([err|] & s2 & _ & R); [by apply ret_inv in R as [? _]|].
  apply bind_inv in R as (lt & s3 & _ & R). apply bind_inv in R as (u & s4 & _ & R).
  apply bind_inv in R as (q & s5 & Rq & [[= <- ->] ->]%ret_inv).
  unfold get_pan_path, gets in Rq. injection Rq as Rq <-.
  destruct lt as [lt|]; [|discriminate Rq]. simpl in Rq. exists lt.
  destruct (ppaths s4 !! lt) as [[q|]|]; simpl in Rq; by simplify_eq.
Qed.

(** ** Reachable states *)

(** The daemon has served requests, [offers] being the paths last offered for
    each remote address. In between the Lua state is used by others: the script
    is loaded, the statistics and the goroutine of NewSelector call it. *)
Inductive reachable : gmap string (list PanPath) → LS → Prop :=
  | reachable_new state s : NewSelector state = Ok s → reachable ∅ s
  | reachable_lua o s l : reachable o s → tables_stay (lua s) l → reachable o (s <| lua := l |>)
  | reachable_serve o s q l r a s' :
      reachable o s → distinct q → serve q l r s = (Ok a, s') → reachable (offer q r o) s'.

Lemma consistent_new state (s : LS) : NewSelector state = Ok s → consistent ∅ s.
Proof.
  unfold NewSelector. destruct (guarded _ _ _ state) as [[m| | |] l]; intros [= <-].
  split; unfold current_table; simpl; intros *; rewrite ?lookup_empty; done || set_solver.
Qed.

Lemma reachable_consistent o (s : LS) : reachable o s → consistent o s.
Proof.
  induction 1 as [state s Hs|o s l _ IH Hl|o s q l r a s' _ IH Hd R].
  - by eapply consistent_new.
  - by apply consistent_lua.
  - by eapply serve_consistent.
Qed.

(** What Path returns there is on offer. *)
Lemma reachable_Path o l r (s : LS) p e s' :
  reachable o s → LuaSelector_Path l r s = (Ok (Some p, e), s') →
  ∃ raddr ps, o !! raddr = Some ps ∧ p ∈ ps.
Proof.
  intros Hc%reachable_consistent R. pose proof (Path_known _ _ _ _ _ _ R) as [lt Hlt].
  assert (consistent o s') as Hc' by by apply (serve_consistent o RPath l r s (Some p, e) s').
  destruct (known_current _ _ Hc' _ _ Hlt) as [raddr Hcur].
  destruct (current_stands _ _ Hc' _ _ _ Hcur) as (q & ps & Hq & _ & Ho & Hin). simplify_eq. eauto.
Qed.
End Operations.

(** ** The mutex and the stack *)
Section Discipline.
Context `{Pan} {X : Type} `{LuaMemory X} (Duration_String : Z → string).
Abbreviation LS := (LuaSelector X).

(** Neither the mutex nor the stack is touched. *)
Definition steady (s s' : LS) : Prop :=
  mutex (lua s') = mutex (lua s) ∧ stack (lua s') = stack (lua s).

#[export] Instance steady_preorder : PreOrder steady.
Proof.
  split; [done|]. intros s1 s2 s3 [M1 S1] [M2 S2]. split; congruence.
Qed.

Lemma steady_on_lua {A} (m : GoM (State X) A) : within builds m → within steady (on_lua m).
Proof.
  intros Hm s. unfold on_lua, zoom. specialize (Hm (lua s)).
  destruct (m (lua s)) as [r l]. by destruct Hm as (_ & ? & ? & _).
Qed.

Lemma steady_RawGetString t k : within steady (on_lua (RawGetString t k)).
Proof.
  intros s. unfold on_lua, zoom, RawGetString, load, mbind, GoM_bind.
  by destruct (tables (lua s) !! t).
Qed.

Lemma steady_get_state : within steady get_state.
Proof. by intros s. Qed.

Lemma steady_clear_addr a : within steady (clear_addr (X := X) a).
Proof. intros s. by rewrite clear_addr_run. Qed.

Lemma steady_set_paths a ps : within steady (set_paths (X := X) a ps).
Proof.
  apply within_go_map; [apply _|]. intros p s. unfold set_path, on_lua, zoom, set_lpath.
  unfold mbind at 1, GoM_bind at 1.
  destruct (newLuaPath p (lua s)) as [[lt| | |] l] eqn:E;
    pose proof (within_run _ _ _ _ _ (within_newLuaPath p) E) as (_ & Hs & Hm & _); [|done..].
  destruct p as [p|]; [|done]. unfold deref, mbind, GoM_bind. simpl.
  by destruct (lpaths s !! UDPAddr_String a).
Qed.
#[local] Hint Resolve steady_on_lua steady_RawGetString steady_get_state steady_clear_addr
  steady_set_paths within_newLuaPreferences within_newLuaPathInterface within_lua_table_slice : go.

(** A run that ends with a call: what it leaves on the stack. *)
Definition leaves (n : nat) (m : GoM LS error) : Prop :=
  ∀ s e s', m s = (Ok e, s') →
    ∃ vs, stack (lua s') = vs ++ stack (lua s) ∧ length vs = match e with None => n | Some _ => 0 end.

Lemma leaves_bind {A} n (m : GoM LS A) k :
  within steady m → (∀ a, leaves n (k a)) → leaves n (m ≫= k).
Proof.
  intros Hm Hk s e s' (a & s1 & R1 & R2)%bind_inv.
  destruct (within_run _ _ _ _ _ Hm R1) as [_ <-]. by eapply Hk.
Qed.

Lemma leaves_call f n args : leaves n (on_lua (CallByParam f n args)).
Proof.
  intros s e s'. unfold on_lua, zoom.
  destruct (CallByParam f n args (lua s)) as [r l] eqn:E. intros [= -> <-].
  by apply CallByParam_stack in E.
Qed.

(** Neither does a call touch the mutex. *)
Definition mutex_kept (s s' : LS) : Prop := mutex (lua s') = mutex (lua s).

#[export] Instance mutex_kept_preorder : PreOrder mutex_kept.
Proof. split; [done|]. intros s1 s2 s3 ??. unfold mutex_kept in *. congruence. Qed.

Lemma steady_mutex {A} (m : GoM LS A) : within steady m → within mutex_kept m.
Proof. intros Hm s. apply Hm. Qed.

Lemma mutex_call f n args : within mutex_kept (on_lua (CallByParam f n args)).
Proof.
  intros s. unfold on_lua, zoom. pose proof (CallByParam_mutex f n args (lua s)) as Hs.
  destruct (CallByParam f n args (lua s)) as [r l]. exact Hs.
Qed.

Lemma mutex_ToTable : within mutex_kept (on_lua ToTable).
Proof. by intros s. Qed.

Lemma mutex_Pop n : within mutex_kept (on_lua (Pop n)).
Proof. by intros s. Qed.

Lemma mutex_get_pan_path lt : within mutex_kept (get_pan_path lt).
Proof. by intros s. Qed.
#[local] Hint Resolve steady_mutex mutex_call mutex_ToTable mutex_Pop mutex_get_pan_path : go.

(** The critical sections. *)
Definition releases {A} (m : GoM LS A) : Prop :=
  ∀ s, if mutex (lua s) then m s = (Deadlocks, s) else
    match m s with
    | (Ok _, s') | (Panics _, s') => mutex (lua s') = false
    | _ => True
    end.

Lemma locked_releases {A} (body : GoM LS A) : within mutex_kept body → releases (locked body).
Proof.
  intros Hb s. unfold locked, guarded. destruct (mutex (lua s)) eqn:Hm.
  { unfold on_lua, zoom, Lock, mbind, GoM_bind. rewrite Hm. by destruct s. }
  assert (on_lua Lock s = (Ok tt, s <| lua := (lua s) <| mutex := true |> |>)) as RL.
  { unfold on_lua, zoom, Lock. by rewrite Hm. }
  rewrite (bind_ok _ _ _ _ _ RL). unfold deferring.
  specialize (Hb (s <| lua := (lua s) <| mutex := true |> |>)).
  destruct (body _) as [[] s1]; [| |done..]; unfold mutex_kept in Hb; simpl in Hb;
    unfold on_lua, zoom, Unlock, mbind, GoM_bind; by rewrite Hb.
Qed.

Ltac mutex_steps :=
  repeat first
    [ progress intros
    | solve [auto with go]
    | apply within_ret; apply _
    | apply within_bind; [apply _| |]
    | progress case_match ].

Lemma serve_releases q l r :
  releases (serve (ServerSelector0 := lua_interface Duration_String) q l r).
Proof.
  assert (∀ m : GoM LS error, releases m → releases (pair (A := option PanPath) None <$> m)) as Hf.
  { intros m Hm s. specialize (Hm s). unfold fmap, GoM_fmap, mbind, GoM_bind.
    destruct (mutex (lua s)); [by rewrite Hm|]. by destruct (m s) as [[]?]. }
  destruct q; simpl; try apply Hf; apply locked_releases; unfold call_module; mutex_steps.
Qed.

(** The tables known before are not among those set_paths makes. *)
Lemma set_paths_frame a ps (s : LS) lts s' lt :
  set_paths a ps s = (Ok lts, s') → lt ∈ dom (tables (lua s)) → ppaths s' !! lt = ppaths s !! lt.
Proof.
  revert s lts. induction ps as [|p ps IH]; intros s lts R Hlt.
  { by apply ret_inv in R as [_ ->]. }
  apply bind_inv in R as (lt1 & s1 & R1 & R). apply bind_inv in R as (lts' & s2 & R2 & [_ ->]%ret_inv).
  unfold set_path, on_lua, zoom in R1. unfold mbind at 1, GoM_bind at 1 in R1.
  destruct (newLuaPath p (lua s)) as [[lt2| | |] l] eqn:E; [|done..].
  apply newLuaPath_fresh in E as ((Hd & _) & Hn & _).
  destruct p as [p|]; [|done]. unfold set_lpath, deref, mbind, GoM_bind in R1. simpl in R1.
  destruct (lpaths s !! UDPAddr_String a); [|done]. injection R1 as _ <-.
  rewrite (IH _ _ R2) by (simpl; set_solver). simpl. rewrite lookup_insert_ne; [done|].
  intros ->. done.
Qed.

Lemma locked_leaves n (body : GoM LS error) : leaves n body → leaves n (locked body).
Proof.
  intros Hb s e s' (s1 & R & -> & Hm)%locked_inv.
  destruct (Hb _ _ _ R) as (vs & Hs & Hl). exists vs. split; [|done].
  unfold on_lua, zoom, Lock, Unlock in *. rewrite Hm in Hs. by destruct (mutex (lua s1)).
Qed.

Lemma Path_stack l r (s : LS) p e s' :
  LuaSelector_Path l r s = (Ok (p, e), s') → stack (lua s') = stack (lua s).
Proof.
  intros (s1 & R & -> & Hm)%locked_inv.
  assert (∀ t : LS, stack (lua (on_lua Unlock t).2) = stack (lua t)) as ->.
  { intros t. unfold on_lua, zoom, Unlock. by destruct (mutex (lua t)). }
  assert (stack (lua (on_lua Lock s).2) = stack (lua s)) as <-.
  { unfold on_lua, zoom, Lock. by rewrite Hm. }
  apply bind_inv in R as (err & s2 & Rc & R).
  assert (leaves 1 (call_module "Path" 1
    [LString (UDPAddr_String l); LString (UDPAddr_String r)])) as Hl.
  { unfold call_module. apply leaves_bind; [auto with go|]. intros s0.
    apply leaves_bind; [auto with go|]. intros f. apply leaves_call. }
  destruct (Hl _ _ _ Rc) as (vs & Hs & Hn). destruct err as [err|].
  - apply ret_inv in R as [_ ->]. by destruct vs.
  - unfold get_pan_path, gets, mbind, GoM_bind in R. simpl in R. injection R as _ _ <-.
    simpl. rewrite Hs. by destruct vs as [|v [|]].
Qed.

(** The maps are not touched by what concerns the Lua state only. *)
Definition maps_kept (s s' : LS) : Prop := lpaths s' = lpaths s ∧ ppaths s' = ppaths s.

#[export] Instance maps_kept_preorder : PreOrder maps_kept.
Proof. split; [done|]. intros s1 s2 s3 [L1 P1] [L2 P2]. split; congruence. Qed.

Lemma maps_on_lua {A} (m : GoM (State X) A) : within maps_kept (on_lua m).
Proof. intros s. unfold on_lua, zoom. by destruct (m (lua s)). Qed.

Lemma maps_get_state : within maps_kept get_state.
Proof. by intros s. Qed.
#[local] Hint Resolve maps_on_lua maps_get_state : go.

(** Initialize and Refresh change the maps by clearing and setting. *)
Lemma offer_maps q ps l r (s : LS) a s' :
  offered q = Some ps →
  serve (ServerSelector0 := lua_interface Duration_String) q l r s = (Ok a, s') →
  ∃ s0 lts s1, lua s0 = (lua s) <| mutex := true |> ∧ maps_kept s s0 ∧
    set_paths r ps (cleared s0 (UDPAddr_String r)) = (Ok lts, s1) ∧ maps_kept s1 s'.
Proof.
  intros Hq R. destruct q; simplify_eq/=;
    apply bind_inv in R as (e & s2 & R & [_ ->]%ret_inv);
    apply locked_inv in R as (s1 & R & -> & Hm);
    apply bind_inv in R as (u & s3 & R1 & R); rewrite clear_addr_run in R1; injection R1 as _ <-;
    apply bind_inv in R as (lts & s4 & R2 & R);
    (assert (maps_kept s4 s1) as Hk;
     [eapply within_run; [|exact R]; mutex_steps|]);
    (assert (maps_kept s4 (on_lua Unlock s1).2) as Hk';
     [etransitivity; [exact Hk|apply maps_on_lua]|]);
    exists (on_lua Lock s).2, lts, s4; (split_and!; [|apply maps_on_lua|exact R2|exact Hk']);
    unfold on_lua, zoom, Lock; by rewrite Hm.
Qed.
End Discipline.
#[export] Hint Resolve steady_on_lua steady_RawGetString steady_get_state steady_clear_addr
  steady_set_paths within_newLuaPreferences within_newLuaPathInterface within_lua_table_slice
  within_newLuaPath leaves_call steady_mutex mutex_call mutex_ToTable mutex_Pop mutex_get_pan_path : go.

(** ** Properties *)
Section Claims.
Context `{Pan} {X : Type} `{LuaMemory X} (Duration_String : Z → string).
Abbreviation LS := (LuaSelector X).
Abbreviation lua_serve := (serve (ServerSelector0 := lua_interface Duration_String)).

(** C4: As long as no two paths of one offer have the same fingerprint, and
    whatever the script does then, Path returns only paths on offer: a path of the
    last Initialize or Refresh for some remote address. A table the script kept
    from an earlier offer selects nothing. Conversely every path on offer has a
    table of its own that selects it. With two paths of one fingerprint in an offer
    the first part fails: lua_stale_duplicate. *)
Theorem lua_Path_offered o (s : LuaSelector X) :
  reachable Duration_String o s →
  (∀ l r p e s', LuaSelector_Path l r s = (Ok (Some p, e), s') →
     ∃ raddr ps, o !! raddr = Some ps ∧ p ∈ ps) ∧
  (∀ raddr ps p, o !! raddr = Some ps → p ∈ ps →
     ∃ lt, lt ∈ dom (tables (lua s)) ∧ (get_pan_path (Some lt) s).1 = Ok (Some p)).
Proof.
  intros Hr. pose proof (reachable_consistent _ _ _ Hr) as Hc. split.
  - intros l r p e s'. by apply (reachable_Path Duration_String).
  - intros raddr ps p Ho Hin. destruct (offered_current _ _ Hc _ _ _ Ho Hin) as (lt & _ & Hlt).
    exists lt. split; [apply (known_tables _ _ Hc), elem_of_dom; eauto|].
    simpl. by rewrite Hlt.
Qed.

(** C25: The mutex of the Lua state: a request waits while it is held; a request
    that got it has released it when it returns, and also when it panics. *)
Theorem lua_mutex q l r (s : LuaSelector X) :
  if mutex (lua s)
  then serve (ServerSelector0 := lua_interface Duration_String) q l r s = (Deadlocks, s) else
  match serve (ServerSelector0 := lua_interface Duration_String) q l r s with
  | (Ok _, s') | (Panics _, s') => mutex (lua s') = false
  | _ => True
  end.
Proof. apply (serve_releases Duration_String q l r s). Qed.

(** C34: Every request leaves the Lua stack as it found it, except a Close that
    succeeds: it asks for one result and never pops it, so that each closed
    connection leaves a value on the stack for good. *)
Theorem lua_stack q l r (s : LuaSelector X) p e s' :
  serve (ServerSelector0 := lua_interface Duration_String) q l r s = (Ok (p, e), s') →
  ∃ vs, stack (lua s') = vs ++ stack (lua s) ∧
    length vs = match q, e with RClose, None => 1 | _, _ => 0 end.
Proof.
  assert (∀ n (m : GoM LS error), leaves n m →
    (pair (A := option PanPath) None <$> m) s = (Ok (p, e), s') →
    ∃ vs, stack (lua s') = vs ++ stack (lua s) ∧
      length vs = match e with None => n | Some _ => 0 end) as Hl.
  { intros n m Hm (e' & s1 & R & [[= _ ->] ->]%ret_inv)%bind_inv. by eapply Hm. }
  assert (∀ m : GoM LS error, leaves 0 m →
    (pair (A := option PanPath) None <$> m) s = (Ok (p, e), s') →
    ∃ vs, stack (lua s') = vs ++ stack (lua s) ∧ length vs = 0) as Hl0.
  { intros m Hm R. destruct (Hl 0 m Hm R) as (vs & Hs & Hn). exists vs. by destruct e. }
  destruct q; intros R.
  3: { apply Path_stack in R. by exists []. }
  1-4: apply Hl0 in R; [exact R|].
  5: apply (Hl 1) in R; [exact R|].
  all: apply locked_leaves; unfold call_module;
    repeat (apply leaves_bind; [|intros]); auto with go.
Qed.

(** Initialize and Refresh withdraw every table handed out for the same
    remote address, whichever connection it was handed out for: afterwards those
    tables select no path. *)
Theorem lua_flush o q ps l r (s : LuaSelector X) a s' lt :
  reachable Duration_String o s → offered q = Some ps → lua_serve q l r s = (Ok a, s') →
  lt ∈ tables_at s (UDPAddr_String r) →
  (get_pan_path (Some lt) s').1 = Ok None.
Proof.
  intros Hr Hq R Hlt. pose proof (reachable_consistent _ _ _ Hr) as Hc.
  apply (offer_maps _ _ ps) in R as (s0 & lts & s1 & Hl & [HL HP] & R & [_ HP']); [|done].
  assert (tables_at s0 (UDPAddr_String r) = tables_at s (UDPAddr_String r)) as Hat.
  { unfold tables_at. by rewrite HL. }
  assert (lt ∈ dom (tables (lua s))) as Hdom.
  { apply elem_of_tables_at in Hlt as [fp Hfp].
    destruct (current_stands _ _ Hc _ _ _ Hfp) as (p & ? & Hp & _).
    apply (known_tables _ _ Hc), elem_of_dom. eauto. }
  simpl. rewrite HP', (set_paths_frame _ _ _ _ _ _ R) by (simpl; by rewrite Hl).
  simpl. rewrite lookup_forget, Hat, decide_True by done. done.
Qed.

(** C28: Two paths of one offer with the same fingerprint: the first one's table
    is not remembered for the address, so no later offer withdraws it. After a
    Refresh that offers nothing, it still selects its path. *)
Theorem lua_stale_duplicate prefs l r p1 p2 (s : LuaSelector X) a1 s1 a2 s2 :
  pp_Fingerprint p1 = pp_Fingerprint p2 →
  lua_serve (RInitialize prefs [Some p1; Some p2]) l r s = (Ok a1, s1) →
  lua_serve (RRefresh []) l r s1 = (Ok a2, s2) →
  ∃ lt, (get_pan_path (Some lt) s2).1 = Ok (Some p1).
Proof.
  intros Hfp R1 R2. set (raddr := UDPAddr_String r).
  apply (offer_maps _ _ [Some p1; Some p2]) in R1 as (s0 & lts & t & Hl & _ & R & [HL HP]); [|done].
  apply bind_inv in R as (lt1 & t1 & Ra & R). apply bind_inv in R as (ltr & t2 & R & [_ ->]%ret_inv).
  apply bind_inv in R as (lt2 & t3 & Rb & R). apply bind_inv in R as (? & ? & [-> ->]%ret_inv & [_ ->]%ret_inv).
  apply (set_path_inv _ _ _ _ _ ∅) in Ra as (l1 & -> & Hb1 & Hn1 & Hin1);
    [|apply lookup_insert_eq].
  apply (set_path_inv _ _ _ _ _ (<[pp_Fingerprint p1 := lt1]> ∅)) in Rb as (l2 & -> & Hb2 & Hn2 & Hin2);
    [|apply lookup_insert_eq].
  assert (lt1 ≠ lt2) as Hne by (intros ->; by apply Hn2).
  apply (offer_maps _ _ []) in R2 as (s3 & lts' & t4 & _ & [HL3 HP3] & [_ ->]%ret_inv & [_ HP4]); [|done].
  exists lt1. simpl. rewrite HP4. simpl. rewrite lookup_forget, decide_False.
  - rewrite HP3, HP. simpl. rewrite lookup_insert_ne by done. by rewrite lookup_insert_eq.
  - intros [fp Hcur]%elem_of_tables_at. unfold current_table in Hcur. rewrite HL3, HL in Hcur.
    simpl in Hcur. rewrite lookup_insert_eq in Hcur. simpl in Hcur.
    rewrite Hfp, insert_insert_eq, lookup_insert_Some in Hcur. destruct Hcur as [[_ ?]|[_ Hc]]; [done|].
    by rewrite lookup_empty in Hc.
Qed.
End Claims.

(** ** Witnesses: a script that selects the first path it was ever given *)
Module SampleScript.
#[global] Existing Instance SamplePan.pan.

(** The script's state is the table it selects. Function 0 serves Initialize,
    1 Path, 2 everything else. *)
Definition run (f : nat) (args : list LValue) : GoM (gmap loc LTable * option loc) (string + list LValue) :=
  match f with
  | 0 => λ h,
      let first := match last args with
                   | Some (LTab (Some ps)) =>
                       h.1 !! ps ≫= λ t, match head (array t) with Some (LTab p) => p | _ => None end
                   | _ => None
                   end in
      (Ok (inr []), (h.1, match h.2 with Some t => Some t | None => first end))
  | 1 => λ h, (Ok (inr [LTab h.2]), h)
  | _ => mret (inr [])
  end.

#[global] Instance script : LuaVM (option loc) := {|
  run_script := run; load_script _ := mret (inr 2); clock _ := S754_zero false |}.
#[global] Instance memory : LuaMemory (option loc).
Proof. split; [|done]. by intros [|[|f]] args [h x]. Qed.

Definition functions : LTable := mkLTable
  (list_to_map [("Initialize", LFunc (Script 0)); ("Path", LFunc (Script 1));
                ("Refresh", LFunc (Script 2)); ("Close", LFunc (Script 2))]%string) [].

(** The selector once the script has put its functions into the module. *)
Definition loaded : LuaSelector (option loc) :=
  mkLuaSelector (mkState {[1%positive := functions]} [] false None) ∅ ∅ 1%positive.

Definition text : Z → string := λ d, pretty d.

Lemma loaded_reachable : reachable text ∅ loaded.
Proof.
  apply (reachable_lua text ∅ (mkLuaSelector (mkState {[1%positive :=
    mkLTable (list_to_map (prod_map id LFunc <$> panapi_functions)) []]} [] false None) ∅ ∅ 1%positive)
    (mkState {[1%positive := functions]} [] false None)); [|unfold tables_stay; simpl; set_solver].
  apply (reachable_new _ (NewState None)). vm_compute. reflexivity.
Qed.
End SampleScript.

(** After Initialize with one path, Path returns it. *)
Lemma lua_Path_offered_witness :
  let q := RInitialize None [Some (SamplePan.path "x" 7)] in
  let s := (serve (ServerSelector0 := lua_interface SampleScript.text) q
              SamplePan.ClientA SamplePan.Server SampleScript.loaded).2 in
  (∃ s', LuaSelector_Path SamplePan.ClientA SamplePan.Server s
         = (Ok (Some (SamplePan.path "x" 7), None), s')) ∧
  ∃ raddr ps, offer q SamplePan.Server ∅ !! raddr = Some ps ∧ SamplePan.path "x" 7 ∈ ps.
Proof.
  intros q s.
  assert (∃ s', LuaSelector_Path SamplePan.ClientA SamplePan.Server s
         = (Ok (Some (SamplePan.path "x" 7), None), s')) as HP.
  { eexists. vm_compute. reflexivity. }
  split; [exact HP|]. destruct HP as [s' HP].
  assert (reachable SampleScript.text (offer q SamplePan.Server ∅) s) as Hr.
  { apply (reachable_serve (H := SamplePan.pan) SampleScript.text ∅ SampleScript.loaded q
      SamplePan.ClientA SamplePan.Server (None, None));
      [apply SampleScript.loaded_reachable|apply NoDup_singleton|vm_compute; reflexivity]. }
  apply (proj1 (lua_Path_offered SampleScript.text _ s Hr) _ _ _ _ _ HP).
Defined.

(** Closing leaves a nil on the stack. *)
Lemma lua_stack_witness :
  let run := serve (ServerSelector0 := lua_interface SampleScript.text) RClose
               SamplePan.ClientA SamplePan.Server SampleScript.loaded in
  ∃ vs, stack (lua run.2) = vs ++ [] ∧ length vs = 1.
Proof.
  apply (lua_stack (H := SamplePan.pan) SampleScript.text RClose SamplePan.ClientA SamplePan.Server SampleScript.loaded
    None None). vm_compute. reflexivity.
Defined.

(** Two clients of one server: the second one's Initialize withdraws the table
    the script selects for the first. *)
Lemma lua_flush_witness :
  let init := RInitialize None [Some (SamplePan.path "x" 7)] in
  let go c := serve (ServerSelector0 := lua_interface SampleScript.text) init c SamplePan.Server in
  let s := (go SamplePan.ClientA SampleScript.loaded).2 in
  ∃ lt, lt ∈ tables_at s (UDPAddr_String SamplePan.Server) ∧
    (get_pan_path (Some lt) (go SamplePan.ClientB s).2).1 = Ok None.
Proof.
  intros init go s. exists 2%positive.
  assert (2%positive ∈ tables_at s (UDPAddr_String SamplePan.Server)) as Hlt.
  { apply (bool_decide_unpack _). vm_compute. reflexivity. }
  split; [exact Hlt|].
  apply (lua_flush (H := SamplePan.pan) SampleScript.text (offer init SamplePan.Server ∅) init [Some (SamplePan.path "x" 7)] SamplePan.ClientB
    SamplePan.Server s (None, None)); [|reflexivity|vm_compute; reflexivity|exact Hlt].
  apply (reachable_serve (H := SamplePan.pan) SampleScript.text ∅ SampleScript.loaded init SamplePan.ClientA
    SamplePan.Server (None, None)); [apply SampleScript.loaded_reachable|apply NoDup_singleton|].
  vm_compute. reflexivity.
Defined.

Lemma lua_stale_duplicate_witness :
  let go q := serve (ServerSelector0 := lua_interface SampleScript.text) q
                SamplePan.ClientA SamplePan.Server in
  let init := RInitialize None [Some (SamplePan.path "x" 7); Some (SamplePan.path "x" 8)] in
  let s := (go (RRefresh []) (go init SampleScript.loaded).2).2 in
  ∃ lt, (get_pan_path (Some lt) s).1 = Ok (Some (SamplePan.path "x" 7)).
Proof.
  intros go init s.
  apply (lua_stale_duplicate (H := SamplePan.pan) SampleScript.text None SamplePan.ClientA SamplePan.Server
    (SamplePan.path "x" 7) (SamplePan.path "x" 8) SampleScript.loaded (None, None)
    (go init SampleScript.loaded).2 (None, None)); [reflexivity|vm_compute; reflexivity..].
Defined.
