(* ===== verification/LuaThreads.v ===== *)
(** * The Lua selector under concurrent requests (lua/selector.go, lua/stats.go)

    net/rpc serves every request in a goroutine of its own, the selector's own
    goroutine calls the script as well, and so do the statistics. All take the
    mutex of the Lua state first and release it last. Here each of them is cut
    into the actions between the two, any of which another goroutine may get in
    between of, and the theorems say what the mutex makes of their interleavings. *)

From S2P Require Import Prelude Threads Enums Taps PanPath ServerSelector LuaApi LuaSelector.

(** ** The jobs of the Lua state *)
Section Jobs.
Context `{Pan} {X : Type} `{!LuaVM X} (Duration_String : Z → string).
Abbreviation LS := (LuaSelector X).
Abbreviation answer := (option PanPath * error)%type.
Abbreviation prog := (prog LS answer).
Abbreviation lua_serve := (serve (ServerSelector0 := LuaSelector_interface Duration_String)).

Lemma Lock_spec (s : LS) :
  if mutex (lua s) then on_lua Lock s = (Deadlocks, s)
  else ∃ s', on_lua Lock s = (Ok tt, s') ∧ mutex (lua s') = true.
Proof. unfold on_lua, zoom, Lock. destruct (mutex (lua s)); [by destruct s|eauto]. Qed.

Lemma Unlock_spec (s : LS) :
  mutex (lua s) = true → ∃ s', on_lua Unlock s = (Ok tt, s') ∧ mutex (lua s') = false.
Proof. intros Hs. unfold on_lua, zoom, Unlock. rewrite Hs. eauto. Qed.

#[export] Instance lua_state_mutex : Mutex LS := {|
  acquire := on_lua Lock; release := on_lua Unlock; held s := mutex (lua s);
  acquire_spec := Lock_spec; release_spec := Unlock_spec |}.

(** A request, a round of the selector's goroutine, or a callback of the
    statistics, which calls a function of its module [md] with arguments it
    makes first. *)
Inductive job : Type :=
  | Request (q : request) (local remote : UDPAddr)
  | Round (seconds : spec_float)
  | Callback (md : loc) (fn : string) (args : GoM (State X) (list LValue)).

(** [call_stats] of LuaStats, on the Lua state the selector shares. *)
Definition callback (md : loc) (fn : string) (args : GoM (State X) (list LValue)) : GoM LS error :=
  locked (
    f ← on_lua (RawGetString md fn);
    vs ← on_lua args;
    on_lua (CallByParam f 0 vs)).

Definition work (j : job) : GoM LS answer :=
  match j with
  | Request q l r => lua_serve q l r
  | Round seconds => Periodic seconds;; mret (None, None)
  | Callback md fn args => pair None <$> callback md fn args
  end.

(** ** Their actions *)
#[local] Notation "x <~ m ; k" := (Act NoMap m (λ x, k))
  (at level 100, m at next level, k at level 200, right associativity).

Definition call_actions (fn : string) (nret : nat) (args : list LValue) (k : error → prog) : prog :=
  s <~ get_state;
  f <~ on_lua (RawGetString (module s) fn);
  e <~ on_lua (CallByParam f nret args);
  k e.

Definition failed (e : error) : prog := Done (None, e).

(** The loop of set_paths, a path at a time. *)
Fixpoint set_paths_actions (raddr : string) (pps : list (option PanPath)) (k : list loc → prog) : prog :=
  match pps with
  | [] => k []
  | ppath :: pps =>
      lpath <~ on_lua (newLuaPath ppath);
      p <~ deref ppath;
      _ <~ set_lpath raddr (pp_Fingerprint p) lpath;
      _ <~ modify (λ s, s <| ppaths := <[lpath := ppath]> (ppaths s) |>);
      set_paths_actions raddr pps (λ lpaths, k (lpath :: lpaths))
  end.

Definition request_actions (q : request) (l r : UDPAddr) : prog :=
  let l_s := LString (UDPAddr_String l) in
  let r_s := LString (UDPAddr_String r) in
  match q with
  | RInitialize prefs paths =>
      _ <~ clear_addr r;
      set_paths_actions (UDPAddr_String r) paths (λ lps,
        s <~ get_state;
        f <~ on_lua (RawGetString (module s) "Initialize");
        t <~ on_lua (newLuaPreferences Duration_String prefs);
        ps <~ on_lua (lua_table_slice_to_table lps);
        e <~ on_lua (CallByParam f 0 [LTab (Some t); l_s; r_s; LTab (Some ps)]);
        failed e)
  | RSetPreferences prefs =>
      s <~ get_state;
      f <~ on_lua (RawGetString (module s) "SetPreferences");
      t <~ on_lua (newLuaPreferences Duration_String prefs);
      e <~ on_lua (CallByParam f 0 [LTab (Some t); l_s; r_s]);
      failed e
  | RPath => call_actions "Path" 1 [l_s; r_s] (λ e,
      match e with
      | Some e => failed (Some e)
      | None =>
          lt <~ on_lua ToTable;
          _ <~ on_lua (Pop 1);
          p <~ get_pan_path lt;
          Done (p, None)
      end)
  | RPathDown fp pi =>
      s <~ get_state;
      f <~ on_lua (RawGetString (module s) "PathDown");
      t <~ on_lua (newLuaPathInterface pi);
      e <~ on_lua (CallByParam f 0 [l_s; r_s; LString fp; LTab (Some t)]);
      failed e
  | RRefresh paths =>
      _ <~ clear_addr r;
      set_paths_actions (UDPAddr_String r) paths (λ lps,
        s <~ get_state;
        f <~ on_lua (RawGetString (module s) "Refresh");
        ps <~ on_lua (lua_table_slice_to_table lps);
        e <~ on_lua (CallByParam f 0 [l_s; r_s; LTab (Some ps)]);
        failed e)
  | RClose => call_actions "Close" 1 [l_s; r_s] failed
  end.

Definition actions (j : job) : prog :=
  match j with
  | Request q l r => request_actions q l r
  | Round seconds => call_actions "Periodic" 0 [LNumber seconds] (λ _, failed None)
  | Callback md fn args =>
      f <~ on_lua (RawGetString md fn);
      vs <~ on_lua args;
      e <~ on_lua (CallByParam f 0 vs);
      failed e
  end.
End Jobs.

(** ** Lemmas *)
Section Lemmas.
Context `{Pan} {X : Type} `{!LuaVM X} (Duration_String : Z → string).
Abbreviation LS := (LuaSelector X).

Lemma run_set_paths a pps (k : list loc → prog LS (option PanPath * error)) (s : LS) :
  run (set_paths_actions (UDPAddr_String a) pps k) s = (lts ← set_paths a pps; run (k lts)) s.
Proof.
  revert k s. induction pps as [|p pps IH]; intros k s; [done|].
  unfold set_paths. cbn [go_map set_paths_actions run]. fold (set_paths (X := X) a pps).
  unfold set_path. rewrite !bind_assoc. apply bind_ext. intros lt s1.
  rewrite !bind_assoc. apply bind_ext. intros v s2.
  rewrite !bind_assoc. apply bind_ext. intros u s3.
  rewrite !bind_assoc. apply bind_ext. intros u' s4.
  rewrite IH, bind_ret_l, !bind_assoc. apply bind_ext. by intros lts s5.
Qed.

Lemma fmap_locked {A B} (g : A → B) (m : GoM LS A) (s : LS) :
  (g <$> locked m) s = locked (g <$> m) s.
Proof.
  unfold fmap, GoM_fmap, locked, guarded. rewrite bind_assoc. apply bind_ext. intros _ s1.
  unfold deferring, mbind, GoM_bind. destruct (m s1) as [[a| | |] s2]; simpl; try done.
  - by destruct (on_lua Unlock s2) as [[] s3].
  - by destruct (on_lua Unlock s2) as [[] s3].
Qed.

(** Between Lock and Unlock, the actions do what the method does. *)
Lemma locked_run (b : prog LS (option PanPath * error)) m (s s' : LS) a :
  (∀ s, run b s = m s) → run (critical b) s = (Ok a, s') → locked m s = (Ok a, s').
Proof.
  intros Hb. rewrite run_critical. intros (u & s1 & R1 & R)%bind_inv.
  apply bind_inv in R as (x & s2 & R2 & R). rewrite Hb in R2.
  unfold locked, guarded. rewrite (bind_ok _ _ _ _ _ R1). unfold deferring. by rewrite R2.
Qed.

Ltac same_actions :=
  repeat first [done | rewrite run_set_paths | rewrite ?bind_assoc; apply bind_ext; intros].

Lemma request_cut q l r s a s' :
  run (critical (request_actions Duration_String q l r)) s = (Ok a, s') →
  serve (ServerSelector0 := LuaSelector_interface Duration_String) q l r s = (Ok a, s').
Proof.
  destruct q; intros R; simpl serve.
  3: apply locked_run with (b := request_actions Duration_String RPath l r); [|exact R].
  1,2,4,5,6: (etransitivity; [apply fmap_locked|]); eapply locked_run; [|exact R].
  all: intros s1; cbn [request_actions run]; unfold call_actions, call_module, fmap, GoM_fmap;
    cbn [run]; same_actions.
  by case_match.
Qed.

(** What the actions of a job are expected to keep: arguments of a callback are
    made, and nothing else. *)
Definition orderly (j : job (X := X)) : Prop :=
  match j with Callback _ _ args => within builds args | _ => True end.

Lemma quiet_act {B} (m : GoM LS B) (k : B → prog LS (option PanPath * error)) :
  within mutex_kept m → (∀ x, quiet (k x)) → quiet (Act NoMap m k).
Proof. intros Hm Hk. split; [|done]. intros s Hs. simpl. by rewrite (Hm s). Qed.

Lemma mutex_set_lpath raddr fp lt : within mutex_kept (set_lpath (X := X) raddr fp lt).
Proof. intros s. unfold set_lpath, gets, mbind, GoM_bind. by destruct (lpaths s !! raddr). Qed.

Lemma quiet_set_paths raddr pps (k : list loc → prog LS (option PanPath * error)) :
  (∀ lts, quiet (k lts)) → quiet (set_paths_actions raddr pps k).
Proof.
  revert k. induction pps as [|p pps IH]; intros k Hk; [apply Hk|].
  cbn [set_paths_actions]. apply quiet_act; [auto with go|]. intros lt.
  apply quiet_act; [by destruct p|]. intros v.
  apply quiet_act; [apply mutex_set_lpath|]. intros _.
  apply quiet_act; [by intros s|]. intros _. by apply IH.
Qed.

Lemma actions_cut j : orderly j → cuts (work Duration_String) j (actions Duration_String j).
Proof.
  intros Ho. split.
  - destruct j as [[]| |md fn args]; cbn [actions request_actions]; unfold call_actions, failed.
    all: repeat first [exact I | apply quiet_act; [auto with go|intros] | apply quiet_set_paths; intros
                      | progress case_match].
  - intros s a s' R. destruct j as [q l r|seconds|md fn args]; [by apply request_cut| |].
    + rewrite run_critical in R. simpl. unfold Periodic. rewrite <-R, bind_assoc.
      apply bind_ext. intros _ s1. unfold actions, call_actions, call_module. cbn [run].
      same_actions.
    + simpl. unfold callback. etransitivity; [apply fmap_locked|].
      eapply locked_run; [|exact R]. intros s1. unfold fmap, GoM_fmap. cbn [actions run]. same_actions.
Qed.
End Lemmas.

(** ** Properties *)
Section Claims.
Context `{Pan} {X : Type} `{!LuaVM X} (Duration_String : Z → string).
Abbreviation goroutine := (λ j, critical (actions Duration_String j)).

Lemma orderly_cuts (jobs : list (job (X := X))) :
  Forall orderly jobs → Forall2 (cuts (work Duration_String)) jobs (actions Duration_String <$> jobs).
Proof. induction 1; constructor; [by apply actions_cut|done]. Qed.

Lemma goroutines_start (jobs : list (job (X := X))) :
  goroutine <$> jobs = critical <$> (actions Duration_String <$> jobs).
Proof. by rewrite <-list_fmap_compose. Qed.

(** C8: The mutex makes concurrent requests atomic. However the actions of
    requests, goroutine rounds and callbacks interleave, once all are done their
    results and the state of the selector are those of running them one after
    the other in some order. *)
Theorem lua_serializable (jobs : list job) rs (s s' : LuaSelector X) :
  mutex (lua s) = false → Forall orderly jobs →
  rtc step (goroutine <$> jobs, s) (Done <$> rs, s') →
  ∃ l, l ≡ₚ zip jobs rs ∧ go_map (work Duration_String) l.*1 s = (Ok l.*2, s').
Proof.
  intros Hm Ho Hs. rewrite goroutines_start in Hs.
  eapply serializable; [exact Hm|by apply orderly_cuts|exact Hs].
Qed.

(** C17: Requests do not lock each other out. No interleaving goes on forever, and
    one that cannot go on has finished every job, unless the job that holds the
    mutex is stuck in an action of its own: a call of the script, or a panic,
    which ends the daemon. *)
Theorem lua_progress (jobs : list job) (s : LuaSelector X) ts s' :
  mutex (lua s) = false → Forall orderly jobs → rtc step (goroutine <$> jobs, s) (ts, s') →
  Acc (flip step) (ts, s') ∧
  ((∀ i p, ts !! i = Some p → ∃ a, p = Done a) ∨ (∃ c, step (ts, s') c) ∨
   ∃ i b, ts !! i = Some (releasing b) ∧ mutex (lua s') = true ∧
     ∀ p s2, advance (releasing b) s' ≠ (Ok p, s2)).
Proof.
  intros Hm Ho Hs. split; [apply step_wf|]. rewrite goroutines_start in Hs.
  refine (interleaved_progress _ s ts s' (interleaved_reached _ s _ _ Hm Hs)).
  pose proof (orderly_cuts _ Ho) as Hc. clear -Hc.
  induction Hc as [|j b jobs bs [Hb _] _ IH]; by constructor.
Qed.
End Claims.

(** ** Witnesses *)
Module SampleJobs.
#[global] Existing Instance SamplePan.pan.

(** One connection is set up while another client asks for a path and the
    selector's goroutine wants a round. *)
Definition jobs : list (job (X := option loc)) := [
  Request RPath SamplePan.ClientB SamplePan.Server;
  Request (RInitialize None [Some (SamplePan.path "x" 7)]) SamplePan.ClientA SamplePan.Server;
  Round (S754_zero false)].

Abbreviation start := (λ j, critical (actions SampleScript.text j)).

Definition initial : list (prog (LuaSelector (option loc)) (option PanPath * error)) := start <$> jobs.

(** ClientA's request gets the mutex first, the round last. *)
Definition order : list nat := replicate 12 1 ++ replicate 8 0 ++ replicate 5 2.
Definition results : list (option PanPath * error) :=
  [(Some (SamplePan.path "x" 7), None); (None, None); (None, None)].

Lemma jobs_orderly : Forall orderly jobs.
Proof. by repeat constructor. Qed.
End SampleJobs.

Lemma lua_serializable_witness :
  ∃ s' l, l ≡ₚ zip SampleJobs.jobs SampleJobs.results ∧
    go_map (work SampleScript.text) l.*1 SampleScript.loaded = (Ok l.*2, s').
Proof.
  assert (∃ s', follow SampleJobs.order (SampleJobs.initial, SampleScript.loaded)
    = Some (Done <$> SampleJobs.results, s')) as [s' R] by (eexists; vm_compute; reflexivity).
  exists s'. exact (lua_serializable SampleScript.text _ _ SampleScript.loaded _ eq_refl SampleJobs.jobs_orderly
    (follow_steps _ _ _ R)).
Defined.

(** After Lock, clear_addr and a table of ClientA's request, with the others
    waiting. *)
Lemma lua_progress_witness :
  match follow [1; 1; 1] (SampleJobs.initial, SampleScript.loaded) with
  | None => False
  | Some (ts, s') => Acc (flip step) (ts, s') ∧
      ((∀ i p, ts !! i = Some p → ∃ a, p = Done a) ∨ (∃ c, step (ts, s') c) ∨
       ∃ i b, ts !! i = Some (releasing b) ∧ mutex (lua s') = true ∧
         ∀ p s2, advance (releasing b) s' ≠ (Ok p, s2))
  end.
Proof.
  assert (bool_decide (is_Some (snd <$> follow [1; 1; 1] (SampleJobs.initial, SampleScript.loaded))) = true)
    as Hgo by (vm_compute; reflexivity).
  destruct (follow [1; 1; 1] (SampleJobs.initial, SampleScript.loaded)) as [[ts s']|] eqn:R; [|done].
  exact (lua_progress SampleScript.text _ SampleScript.loaded ts s' eq_refl SampleJobs.jobs_orderly
    (follow_steps _ _ _ R)).
Defined.
