(* ===== verification/LuaPath.v ===== *)
(** * What a script sees of a path (lua/selector.go, newLuaPath)

    The selector hands paths to the script as tables of tables. [is_path m p t]
    says that the table at [t] in memory [m] shows path [p]: its texts, and in
    the field Metadata, if the path has metadata, a table with its numbers and
    lists. The theorem says that newLuaPath builds such a table, all of it in new
    memory, and changes nothing else. *)

From S2P Require Import Prelude Enums Taps PanPath LuaApi LuaSelector.

(** ** Building in new memory *)
Section Making.
Context {X : Type}.
Implicit Types (s : State X) (new : gmap loc LTable).

(** [m] succeeds, puts [new] tables beside the old ones, and they make [P] true
    of its result. *)
Definition makes {A} (P : gmap loc LTable → A → Prop) (m : GoM (State X) A) : Prop :=
  ∀ s, ∃ a new, m s = (Ok a, s <| tables := new ∪ tables s |>) ∧ new ##ₘ tables s ∧ P new a.

(** More memory does not hurt. *)
Definition grows {A} (P : gmap loc LTable → A → Prop) : Prop :=
  ∀ new new' a, new ⊆ new' → P new a → P new' a.

(** The state while table [t] is being filled: it holds [d] and [a], and [new]
    tables have been made for it. *)
Definition filling s t d a new : State X :=
  s <| tables := <[t := mkLTable d a]> (new ∪ tables s) |>.

Definition apart s t new : Prop :=
  new ##ₘ tables s ∧ new !! t = None ∧ tables s !! t = None.

Lemma filling_start s :
  let t := fresh (dom (tables s)) in
  new_table s = (Ok t, filling s t ∅ [] ∅) ∧ apart s t ∅.
Proof.
  intros t. split.
  - unfold filling. by rewrite (left_id_L ∅ (∪)).
  - split_and!; [apply map_disjoint_empty_l|apply lookup_empty|apply alloc_fresh].
Qed.

Lemma filling_set s t d a new k v :
  RawSetString t k v (filling s t d a new) = (Ok tt, filling s t (<[k := v]> d) a new).
Proof.
  unfold RawSetString, load, store, mbind, GoM_bind, filling. simpl.
  rewrite lookup_insert_eq. simpl. rewrite lookup_insert_eq. by rewrite insert_insert_eq.
Qed.

Lemma filling_append s t d a new v :
  Append t v (filling s t d a new) = (Ok tt, filling s t d (a ++ [v]) new).
Proof.
  unfold Append, load, store, mbind, GoM_bind, filling. simpl.
  rewrite lookup_insert_eq. simpl. rewrite lookup_insert_eq. by rewrite insert_insert_eq.
Qed.

(** A part of the table is made while it is being filled. *)
Lemma filling_make {A} (P : gmap loc LTable → A → Prop) m s t d a new :
  makes P m → apart s t new →
  ∃ b new', m (filling s t d a new) = (Ok b, filling s t d a new') ∧ apart s t new' ∧
    new ⊆ new' ∧ ∃ part, part ⊆ new' ∧ P part b.
Proof.
  intros Hm (Hd & Hn & Ht). destruct (Hm (filling s t d a new)) as (b & part & R & Hp & HP).
  unfold filling in Hp. simpl in Hp. apply map_disjoint_insert_r in Hp as [Hpt Hp].
  apply map_disjoint_union_r in Hp as [Hpn Hps].
  exists b, (part ∪ new). rewrite R. split_and!.
  - unfold filling. simpl. f_equal. f_equal.
    by rewrite <-(assoc_L (∪)), (insert_union_r part) by done.
  - split_and!; [|by apply lookup_union_None|done]. by apply map_disjoint_union_l.
  - by apply map_union_subseteq_r.
  - exists part. split; [by apply map_union_subseteq_l|done].
Qed.

(** The table is done. *)
Lemma filling_done s t d a new :
  apart s t new →
  filling s t d a new = s <| tables := <[t := mkLTable d a]> new ∪ tables s |> ∧
  <[t := mkLTable d a]> new ##ₘ tables s.
Proof.
  intros (Hd & Hn & Ht). split.
  - unfold filling. by rewrite insert_union_l.
  - by apply map_disjoint_insert_l.
Qed.

(** ** Arrays *)
Definition lists {A} (P : gmap loc LTable → A → LValue → Prop) m (xs : list A) (t : loc) : Prop :=
  ∃ vs, m !! t = Some (mkLTable ∅ vs) ∧ Forall2 (P m) xs vs.

Lemma grows_lists {A} (P : gmap loc LTable → A → LValue → Prop) xs :
  (∀ x, grows (λ m v, P m x v)) → grows (λ m t, lists P m xs t).
Proof.
  intros HP new new' t Hsub (vs & Ht & Hvs). exists vs.
  split; [by eapply lookup_weaken|]. eapply Forall2_impl; [exact Hvs|].
  intros x v. by apply HP.
Qed.

Lemma makes_array {A} (P : gmap loc LTable → A → LValue → Prop) f (xs : list A) :
  (∀ x, grows (λ m v, P m x v)) → (∀ x, makes (λ m v, P m x v) (f x)) →
  makes (λ m t, lists P m xs t) (array_table f xs).
Proof.
  intros HP Hf s. unfold array_table. destruct (filling_start s) as [R Ha].
  set (t := fresh (dom (tables s))) in *. rewrite (bind_ok _ _ _ _ _ R). clear R.
  assert (∀ done vs new, apart s t new → Forall2 (P new) done vs → ∃ vs' new',
    go_for (λ x, v ← f x; Append t v) xs (filling s t ∅ vs new) = (Ok tt, filling s t ∅ vs' new') ∧
    apart s t new' ∧ Forall2 (P new') (done ++ xs) vs') as Hfor.
  { clear Ha. induction xs as [|x xs IH]; intros done vs new Ha Hvs.
    { exists vs, new. by rewrite app_nil_r. }
    destruct (filling_make _ _ s t ∅ vs new (Hf x) Ha) as (v & new' & R & Ha' & Hn & part & Hp & Hv).
    destruct (IH (done ++ [x]) (vs ++ [v]) new' Ha') as (vs' & new2 & R2 & Ha2 & Hvs').
    { apply Forall2_app; [|by repeat constructor; eapply HP].
      eapply Forall2_impl; [exact Hvs|]. intros ??. by apply HP. }
    exists vs', new2. rewrite <-app_assoc in Hvs'. split_and!; [|done|done].
    cbn [go_for]. rewrite bind_assoc, (bind_ok _ _ _ _ _ R).
    by rewrite (bind_ok _ _ _ _ _ (filling_append s t ∅ vs new' v)). }
  destruct (Hfor [] [] ∅ Ha (List.Forall2_nil _)) as (vs & new & R & Ha' & Hvs).
  rewrite (bind_ok _ _ _ _ _ R). destruct (filling_done s t ∅ vs new Ha') as [-> Hd].
  exists t, (<[t := mkLTable ∅ vs]> new). split_and!; [done|done|].
  exists vs. split; [apply lookup_insert_eq|]. eapply Forall2_impl; [exact Hvs|].
  intros x v. apply HP, insert_subseteq, Ha'.
Qed.

(** A table of fields, filled field by field. *)
Lemma makes_table {A} (P : gmap loc LTable → A → Prop) (fill : loc → GoM (State X) A) :
  (∀ s t, apart s t ∅ → ∃ a d new, fill t (filling s t ∅ [] ∅) = (Ok a, filling s t d [] new) ∧
     apart s t new ∧ ∀ m, new ⊆ m → m !! t = Some (mkLTable d []) → P m a) →
  makes P (new_table ≫= fill).
Proof.
  intros Hf s. destruct (filling_start s) as [R Ha]. rewrite (bind_ok _ _ _ _ _ R).
  destruct (Hf s _ Ha) as (a & d & new & R' & Ha' & HP). rewrite R'.
  destruct (filling_done _ _ d [] new Ha') as [-> Hd].
  do 2 eexists. split_and!; [done..|]. apply HP; [|apply lookup_insert_eq].
  apply insert_subseteq, Ha'.
Qed.

Lemma makes_ret {A} (P : gmap loc LTable → A → Prop) a : P ∅ a → makes P (mret a : GoM (State X) A).
Proof.
  intros Ha s. exists a, ∅. split_and!; [|apply map_disjoint_empty_l|done].
  rewrite (left_id_L ∅ (∪)). by destruct s.
Qed.

(** A field whose value is a table made for it. *)
Lemma filling_field {B} P (m : GoM (State X) loc) k (rest : GoM (State X) B) s t d new :
  makes P m → grows P → apart s t new →
  ∃ l new', (v ← m; RawSetString t k (LTab (Some v));; rest) (filling s t d [] new)
            = rest (filling s t (<[k := LTab (Some l)]> d) [] new') ∧
    apart s t new' ∧ new ⊆ new' ∧ P new' l.
Proof.
  intros Hm HP Ha. destruct (filling_make P m s t d [] new Hm Ha) as (l & new' & R & Ha' & Hs & part & Hp & Hl).
  exists l, new'. rewrite (bind_ok _ _ _ _ _ R), (bind_ok _ _ _ _ _ (filling_set _ _ _ _ _ _ _)). split_and!; [done..|].
  by eapply HP.
Qed.

End Making.

(** Fields set to values at hand, and fields set to tables made for them: [Hm] says
    that the table is made, [Hg] that it stays. *)
Ltac fill_fields :=
  repeat (rewrite ?bind_assoc; rewrite (bind_ok _ _ _ _ _ (filling_set _ _ _ _ _ _ _))).

Ltac field_made Hm Hg :=
  lazymatch goal with
  | Ha : apart ?s ?t ?new |- _ =>
      let l := fresh "l" in let new' := fresh "new" in let R := fresh in
      let Ha' := fresh in let Hs := fresh in let Hl := fresh "Hl" in
      epose proof (filling_field _ _ _ _ s t _ new Hm Hg Ha) as R;
      destruct R as (l & new' & R & Ha' & Hs & Hl);
      rewrite R; clear R Ha
  end.

Ltac larger := repeat first [eassumption | etransitivity; [eassumption|]].


(** ** The tables of a path *)
Section Shown.
Context `{Pan} {X : Type}.

(** The fields set one after the other. *)
Definition fields_map (fields : list (string * LValue)) : gmap string LValue :=
  foldl (λ d '(k, v), <[k := v]> d) ∅ fields.

Definition is_table (m : gmap loc LTable) (fields : list (string * LValue)) (t : loc) : Prop :=
  m !! t = Some (mkLTable (fields_map fields) []).

Definition is_interface m (i : PathInterface) (v : LValue) : Prop :=
  ∃ t, v = LTab (Some t) ∧
    is_table m [("IA", LString (IA_String (pi_IA i))); ("IfID", LNumber (float64 (pi_IfID i)))]%string t.

Definition is_geo m (g : GeoCoordinates) (v : LValue) : Prop :=
  ∃ t, v = LTab (Some t) ∧
    is_table m [("Latitude", LNumber (Latitude g)); ("Longitude", LNumber (Longitude g));
                ("Address", LString (geo_Address g))]%string t.

Definition is_number (m : gmap loc LTable) (x : Z) (v : LValue) : Prop := v = LNumber (float64 x).
Definition is_text (m : gmap loc LTable) (x : string) (v : LValue) : Prop := v = LString x.

Definition is_metadata m (md : PathMetadata) (t : loc) : Prop :=
  ∃ ti tl tb tt th tn tg,
    is_table m [("MTU", LNumber (float64 (MTU md))); ("Interfaces", LTab (Some ti));
      ("Latency", LTab (Some tl)); ("Bandwidth", LTab (Some tb)); ("LinkType", LTab (Some tt));
      ("InternalHops", LTab (Some th)); ("Notes", LTab (Some tn)); ("Geo", LTab (Some tg))]%string t ∧
    lists is_interface m (Interfaces md) ti ∧ lists is_number m (Latency md) tl ∧
    lists is_number m (Bandwidth md) tb ∧ lists is_number m (LinkType md) tt ∧
    lists is_number m (InternalHops md) th ∧ lists is_text m (Notes md) tn ∧
    lists is_geo m (Geo md) tg.

Definition is_path m (p : PanPath) (t : loc) : Prop :=
  ∃ metadata,
    is_table m ([("Source", LString (IA_String (pp_Source p)));
      ("Destination", LString (IA_String (pp_Destination p)));
      ("Fingerprint", LString (pp_Fingerprint p));
      ("Expiry", LString (Time_String (pp_Expiry p)))]%string ++ metadata) t ∧
    match pp_Metadata p with
    | None => metadata = []
    | Some md => ∃ tm, metadata = [("Metadata"%string, LTab (Some tm))] ∧ is_metadata m md tm
    end.

Lemma grows_table fields : grows (λ m t, is_table m fields t).
Proof. intros m m' t Hs Ht. by eapply lookup_weaken. Qed.

Lemma grows_interface i : grows (λ m v, is_interface m i v).
Proof. intros m m' v Hs (t & -> & Ht). exists t. split; [done|]. by eapply grows_table. Qed.

Lemma grows_geo g : grows (λ m v, is_geo m g v).
Proof. intros m m' v Hs (t & -> & Ht). exists t. split; [done|]. by eapply grows_table. Qed.

Lemma grows_number x : grows (λ m v, is_number m x v).
Proof. by intros m m' v Hs. Qed.

Lemma grows_text x : grows (λ m v, is_text m x v).
Proof. by intros m m' v Hs. Qed.

Lemma grows_metadata md : grows (λ m t, is_metadata m md t).
Proof.
  intros m m' t Hs (ti & tl & tb & tt & th & tn & tg & Ht & Hi & Hl & Hb & Hk & Hh & Hn & Hg).
  exists ti, tl, tb, tt, th, tn, tg. split_and!; [by eapply grows_table|..];
    (eapply grows_lists; [|exact Hs|done]);
    auto using grows_interface, grows_number, grows_text, grows_geo.
Qed.

Lemma makes_interface i : makes (λ m v, is_interface m i v) (LTab ∘ Some <$> newLuaPathInterface (X := X) i).
Proof.
  unfold fmap, GoM_fmap, newLuaPathInterface. intros s. rewrite !bind_assoc. revert s.
  apply makes_table. intros s t Ha. fill_fields.
  eexists _, _, ∅. split; [reflexivity|]. split; [done|].
  intros m Hm Ht. by exists t.
Qed.

Lemma makes_geo g : makes (λ m v, is_geo m g v) (newLuaGeo (X := X) g).
Proof.
  apply makes_table. intros s t Ha. fill_fields.
  eexists _, _, ∅. split; [reflexivity|]. split; [done|].
  intros m Hm Ht. by exists t.
Qed.

Lemma makes_numbers xs : makes (λ m t, lists is_number m xs t) (numbers (X := X) xs).
Proof. apply makes_array; [apply grows_number|]. intros x. by apply makes_ret. Qed.

Lemma makes_metadata md : makes (λ m t, is_metadata m md t) (newLuaMetadata (X := X) md).
Proof.
  pose proof (λ xs, grows_lists is_number xs grows_number) as Gn.
  apply makes_table. intros s t Ha. fill_fields.
  field_made (makes_array is_interface _ (Interfaces md) grows_interface makes_interface)
    (grows_lists is_interface (Interfaces md) grows_interface).
  field_made (makes_numbers (Latency md)) (Gn (Latency md)).
  field_made (makes_numbers (Bandwidth md)) (Gn (Bandwidth md)).
  field_made (makes_numbers (LinkType md)) (Gn (LinkType md)).
  field_made (makes_numbers (InternalHops md)) (Gn (InternalHops md)).
  field_made (makes_array (X := X) is_text (λ n, mret (LString n)) (Notes md) grows_text
    (λ x, makes_ret _ _ eq_refl)) (grows_lists is_text (Notes md) grows_text).
  field_made (makes_array is_geo _ (Geo md) grows_geo makes_geo)
    (grows_lists is_geo (Geo md) grows_geo).
  eexists t, _, _. split; [reflexivity|]. split; [eassumption|]. intros m Hm Ht.
  exists l, l0, l1, l2, l3, l4, l5. split; [exact Ht|].
  split_and!; (eapply grows_lists; [..|eassumption];
    [auto using grows_interface, grows_number, grows_text, grows_geo|larger]).
Qed.

Lemma makes_path p : makes (λ m t, is_path m p t) (newLuaPath (X := X) (Some p)).
Proof.
  apply makes_table. intros s t Ha. fill_fields.
  destruct (pp_Metadata p) as [md|] eqn:Hmd; cbv iota; rewrite ?bind_assoc.
  - field_made (makes_metadata md) (grows_metadata md).
    eexists t, _, _. split; [reflexivity|]. split; [eassumption|]. intros m Hm Ht.
    exists [("Metadata"%string, LTab (Some l))]. split; [exact Ht|]. rewrite Hmd.
    exists l. split; [reflexivity|].
    by eapply grows_metadata.
  - eexists t, _, _. split; [reflexivity|]. split; [eassumption|]. intros m Hm Ht.
    exists []. split; [exact Ht|]. by rewrite Hmd.
Qed.

Lemma grows_path p : grows (λ m t, is_path m p t).
Proof.
  intros m m' t Hs (fs & Ht & Hm). exists fs. split; [by eapply grows_table|].
  destruct (pp_Metadata p) as [md|]; [|done]. destruct Hm as (tm & -> & Hm). exists tm.
  split; [done|by eapply grows_metadata].
Qed.
End Shown.

(** ** Properties *)
Section Claims.
Context `{Pan} {X : Type}.

(** C14: For every path, newLuaPath succeeds and makes a table that shows the path:
    source, destination, fingerprint and expiry as printed, and its metadata,
    if there are any, with every interface, number, note and position in order.
    All of it is in new memory, and the rest of the Lua state is as before. *)
Theorem newLuaPath_shows (p : PanPath) (s : State X) :
  ∃ t new, newLuaPath (Some p) s = (Ok t, s <| tables := new ∪ tables s |>) ∧
    new ##ₘ tables s ∧ is_path new p t.
Proof. apply makes_path. Qed.
End Claims.
