(* ===== verification/LuaCalls.v ===== *)
(** * What the script is called with (lua/selector.go, Initialize and Refresh)

    An offer of paths ends in a call of the script with the preferences, the two
    addresses and a list of tables, one for each path. The theorem says what these
    tables show and that each of them leads back to its path, the way Path goes
    when the script returns it. *)

From S2P Require Import Prelude Enums Taps PanPath ServerSelector LuaApi LuaSelector LuaPath.

(** ** Preferences and lists of tables *)
Section Arguments_.
Context `{Pan} {X : Type} (Duration_String : Z → string).

(** Preferences whose enumerations are bytes, as in Go. *)
Definition prefs_ok (prefs : option ConnectionPreferences) : Prop :=
  ∀ p, prefs = Some p → is_uint8 (ConnCapacityProfile p) ∧ is_uint8 (MultipathPolicy_ p).

Definition is_prefs m (prefs : option ConnectionPreferences) (t : loc) : Prop :=
  is_table m match prefs with
    | None => []
    | Some p => [("ConnTimeout", LString (Duration_String (ConnTimeout p)));
        ("ConnCapacityProfile", LString (enum_text ECapacityProfile (ConnCapacityProfile p)));
        ("MultipathPolicy", LString (enum_text EMultipathPolicy (MultipathPolicy_ p)));
        ("IsolateSession", LBool (IsolateSession p))]
    end%string t.

Lemma enum_String_ok e i : is_uint8 i → enum_String e i = Ok (enum_text e i).
Proof.
  intros [??]. destruct (Z.lt_ge_cases i (enum_size e)); [by apply enum_String_in|].
  rewrite enum_String_out, enum_text_out by done. done.
Qed.

Lemma bind_pure_call {A B} (o : outcome A) (k : A → GoM (State X) B) a s :
  o = Ok a → (pure_call o ≫= k) s = k a s.
Proof. by intros ->. Qed.

Lemma makes_prefs prefs :
  prefs_ok prefs → makes (λ m t, is_prefs m prefs t) (newLuaPreferences (X := X) Duration_String prefs).
Proof.
  intros Hok. apply makes_table. intros s t Ha. destruct prefs as [p|]; cbv iota.
  - destruct (Hok p eq_refl) as [Hc Hp]. fill_fields.
    pose proof (enum_String_ok ECapacityProfile _ Hc) as Ec.
    pose proof (enum_String_ok EMultipathPolicy _ Hp) as Ep. simpl in Ec, Ep.
    rewrite ?bind_assoc, (bind_pure_call _ _ _ _ Ec). fill_fields.
    rewrite ?bind_assoc, (bind_pure_call _ _ _ _ Ep). fill_fields.
    eexists t, _, ∅. split; [reflexivity|]. split; [done|]. intros m _ Ht. exact Ht.
  - eexists t, ∅, ∅. split; [reflexivity|]. split; [done|]. intros m _ Ht. exact Ht.
Qed.

Definition is_ref (m : gmap loc LTable) (lt : loc) (v : LValue) : Prop := v = LTab (Some lt).

Lemma makes_table_list lts :
  makes (λ m t, lists is_ref m lts t) (lua_table_slice_to_table (X := X) lts).
Proof. apply makes_array; [by intros lt m m' v _|]. intros lt. by apply makes_ret. Qed.
End Arguments_.

(** ** An offer *)
Section Offer.
Context `{Pan} {X : Type}.
Abbreviation LS := (LuaSelector X).

(** New tables beside the old ones. *)
Definition with_tables (s : LS) (new : gmap loc LTable) : State X :=
  (lua s) <| tables := new ∪ tables (lua s) |>.

(** What set_paths makes of paths: a table for each, which shows the path and
    leads back to it. *)
Definition offered_as (ps : list PanPath) (lts : list loc) (new : gmap loc LTable)
    (pp : gmap loc (option PanPath)) : Prop :=
  Forall2 (λ p lt, is_path new p lt ∧ pp !! lt = Some (Some p)) ps lts.

Lemma makes_on_lua {A} (P : gmap loc LTable → A → Prop) m (s : LS) :
  makes P m → ∃ a new, on_lua m s = (Ok a, s <| lua := with_tables s new |>) ∧
    new ##ₘ tables (lua s) ∧ P new a.
Proof.
  intros Hm. destruct (Hm (lua s)) as (a & new & R & Hd & HP). exists a, new.
  unfold on_lua, zoom. by rewrite R.
Qed.

Lemma is_path_in m p lt : is_path m p lt → lt ∈ dom m.
Proof. intros (md & Ht & _). by eapply elem_of_dom_2. Qed.

Lemma set_path_makes raddr p (s : LS) :
  is_Some (lpaths s !! raddr) →
  ∃ lt new lps, set_path raddr (Some p) s
      = (Ok lt, mkLuaSelector (with_tables s new) lps (<[lt := Some p]> (ppaths s)) (module s)) ∧
    new ##ₘ tables (lua s) ∧ is_path new p lt ∧ is_Some (lps !! raddr).
Proof.
  intros [lp Hlp]. destruct (makes_on_lua _ _ s (makes_path p)) as (lt & new & R & Hd & Hp).
  exists lt, new, (<[raddr := <[pp_Fingerprint p := lt]> lp]> (lpaths s)).
  split_and!; [|done|done|by rewrite lookup_insert_eq].
  unfold set_path. rewrite (bind_ok _ _ _ _ _ R). unfold set_lpath, deref, mbind, GoM_bind. simpl.
  by rewrite Hlp.
Qed.

Lemma set_paths_makes a ps (s : LS) :
  is_Some (lpaths s !! UDPAddr_String a) →
  ∃ lts new lps pp, set_paths a (Some <$> ps) s
      = (Ok lts, mkLuaSelector (with_tables s new) lps pp (module s)) ∧
    new ##ₘ tables (lua s) ∧ offered_as ps lts new pp ∧
    ∀ lt, lt ∉ dom new → pp !! lt = ppaths s !! lt.
Proof.
  revert s. induction ps as [|p ps IH]; intros s Hlp.
  { exists [], ∅, (lpaths s), (ppaths s). split_and!; [|apply map_disjoint_empty_l|constructor|done].
    unfold with_tables. rewrite (left_id_L ∅ (∪)). by destruct s as [[]]. }
  destruct (set_path_makes _ p s Hlp) as (lt & new1 & lps1 & R1 & Hd1 & Hp & Hlp1).
  destruct (IH (mkLuaSelector (with_tables s new1) lps1 (<[lt := Some p]> (ppaths s)) (module s)) Hlp1) as (lts & new2 & lps & pp & R2 & Hd2 & Hof & Hpp).
  simpl in Hd2, Hpp.
  apply map_disjoint_union_r in Hd2 as [Hd2 Hd2'].
  exists (lt :: lts), (new2 ∪ new1), lps, pp.
  assert (new2 ⊆ new2 ∪ new1) as H2 by apply map_union_subseteq_l.
  assert (new1 ⊆ new2 ∪ new1) as H1 by by apply map_union_subseteq_r.
  split_and!.
  - unfold set_paths. rewrite fmap_cons. cbn [go_map]. rewrite (bind_ok _ _ _ _ _ R1).
    fold (set_paths (X := X) a (Some <$> ps)). rewrite (bind_ok _ _ _ _ _ R2).
    unfold with_tables. simpl. by rewrite (assoc_L (∪)).
  - by apply map_disjoint_union_l.
  - constructor.
    + split; [by eapply grows_path|]. rewrite Hpp; [by rewrite lookup_insert_eq|].
      intros Hin. apply is_path_in in Hp. apply map_disjoint_dom in Hd2. set_solver.
    + eapply Forall2_impl; [exact Hof|]. intros q lq [Hq Hpq]. split; [exact (grows_path q _ _ lq H2 Hq)|done].
  - intros lt' Hlt'. rewrite dom_union in Hlt'. rewrite Hpp by set_solver.
    rewrite lookup_insert_ne; [done|]. intros ->. apply is_path_in in Hp. set_solver.
Qed.

(** The selector when the script is called: the mutex is held, there are new
    tables beside the old ones, and the paths of the offer are known. *)
Definition ready (s s1 : LS) (new : gmap loc LTable) : Prop :=
  lua s1 = (lua s) <| tables := new ∪ tables (lua s) |> <| mutex := true |> ∧
  new ##ₘ tables (lua s) ∧ module s1 = module s.
End Offer.

(** ** The calls *)
Section Calls.
Context `{Pan} {X : Type} `{!LuaVM X} (Duration_String : Z → string).
Abbreviation LS := (LuaSelector X).

(** The function [fn] of the script's module. *)
Definition defines (s : LS) (fn : string) (f : LValue) : Prop :=
  ∃ tab, tables (lua s) !! module s = Some tab ∧ default LNil (strdict tab !! fn) = f.

(** The end of a method: the call, then the unlock. *)
Definition finish (f : LValue) (args : list LValue) : GoM LS error :=
  deferring (on_lua Unlock) (on_lua (CallByParam f 0 args)).

Lemma ready_function (s s1 : LS) new fn f :
  defines s fn f → ready s s1 new → on_lua (RawGetString (module s1) fn) s1 = (Ok f, s1).
Proof.
  intros (tab & Ht & Hf) (Hl & Hd & Hm). unfold on_lua, zoom, RawGetString, load, mbind, GoM_bind.
  rewrite Hl, Hm. simpl. rewrite (lookup_union_Some_r _ _ _ _ Hd Ht).
  simpl. rewrite Hf. destruct s1. simpl in *. by subst.
Qed.

(** A table more. *)
Lemma ready_make {A} (P : gmap loc LTable → A → Prop) m (s s1 : LS) new :
  makes P m → ready s s1 new →
  ∃ a new' s2, on_lua m s1 = (Ok a, s2) ∧ ready s s2 new' ∧ ppaths s2 = ppaths s1 ∧ new ⊆ new' ∧
    ∃ part, part ⊆ new' ∧ P part a.
Proof.
  intros Hm (Hl & Hd & Hmo). destruct (makes_on_lua _ _ s1 Hm) as (a & part & R & Hp & HP).
  rewrite Hl in Hp. simpl in Hp. apply map_disjoint_union_r in Hp as [Hpn Hps].
  exists a, (part ∪ new), (s1 <| lua := with_tables s1 part |>). split_and!; [done| |done|..].
  - split_and!; [|by apply map_disjoint_union_l|done].
    unfold with_tables. simpl. rewrite Hl. simpl. by rewrite (assoc_L (∪)).
  - by apply map_union_subseteq_r.
  - exists part. split; [by apply map_union_subseteq_l|done].
Qed.

Lemma offered_as_grows ps lts new new' pp :
  new ⊆ new' → offered_as ps lts new pp → offered_as ps lts new' pp.
Proof.
  intros Hs Ho. eapply Forall2_impl; [exact Ho|]. intros p lt [Hp Hpp].
  split; [exact (grows_path p _ _ lt Hs Hp)|done].
Qed.

(** What Initialize and Refresh do before they look for the script's function. *)
Lemma offer_ready r ps (s : LS) :
  mutex (lua s) = false →
  ∃ s0 lts new s1, on_lua Lock s = (Ok tt, s0) ∧
    (clear_addr r;; set_paths r (Some <$> ps)) s0 = (Ok lts, s1) ∧
    ready s s1 new ∧ offered_as ps lts new (ppaths s1).
Proof.
  intros Hm. eexists. 
  destruct (set_paths_makes r ps (cleared ((s <| lua := (lua s) <| mutex := true |> |>)) (UDPAddr_String r)))
    as (lts & new & lps & pp & R & Hd & Hof & _).
  { simpl. rewrite lookup_insert_eq. eauto. }
  exists lts, new. eexists. split_and!.
  - unfold on_lua, zoom, Lock. by rewrite Hm.
  - rewrite (bind_ok _ _ _ _ _ (clear_addr_run _ _)). exact R.
  - split_and!; [by destruct s as [[]]|exact Hd|done].
  - exact Hof.
Qed.

Lemma finish_body (body : GoM LS error) f args (s s1 : LS) :
  body s = on_lua (CallByParam f 0 args) s1 → deferring (on_lua Unlock) body s = finish f args s1.
Proof. intros R. unfold finish, deferring. by rewrite R. Qed.

Lemma offer_then {A} r pps (k : list loc → GoM LS A) s lts s1 :
  (clear_addr r;; set_paths r pps) s = (Ok lts, s1) →
  (clear_addr r;; lts ← set_paths r pps; k lts) s = k lts s1.
Proof. intros R. rewrite <-(bind_ok _ k _ _ _ R). by rewrite bind_assoc. Qed.

Lemma Initialize_calls prefs l r ps (s : LS) f :
  mutex (lua s) = false → prefs_ok prefs → defines s "Initialize" f →
  ∃ s1 new lts t_prefs t_paths,
    LuaSelector_Initialize Duration_String prefs l r (Some <$> ps) s
    = finish f [LTab (Some t_prefs); LString (UDPAddr_String l); LString (UDPAddr_String r);
                LTab (Some t_paths)] s1 ∧
    ready s s1 new ∧ is_prefs Duration_String new prefs t_prefs ∧
    lists is_ref new lts t_paths ∧ offered_as ps lts new (ppaths s1).
Proof.
  intros Hm Hok Hf. destruct (offer_ready r ps s Hm) as (s0 & lts & new & s1 & RL & R & Hr & Ho).
  destruct (ready_make _ _ s s1 new (makes_prefs Duration_String prefs Hok) Hr)
    as (tp & new1 & s2 & R1 & Hr1 & Hpp1 & Hn1 & part1 & Hp1 & Hprefs).
  destruct (ready_make _ _ s s2 new1 (makes_table_list lts) Hr1)
    as (tl & new2 & s3 & R2 & Hr2 & Hpp2 & Hn2 & part2 & Hp2 & Hlist).
  exists s3, new2, lts, tp, tl. split_and!; [|done|..].
  - unfold LuaSelector_Initialize, locked, guarded. rewrite (bind_ok _ _ _ _ _ RL).
    apply finish_body. rewrite (offer_then _ _ _ _ _ _ R).
    rewrite (bind_ok get_state _ s1 s1 s1), (bind_ok _ _ _ _ _ (ready_function _ _ _ _ _ Hf Hr)) by done.
    by rewrite (bind_ok _ _ _ _ _ R1), (bind_ok _ _ _ _ _ R2).
  - unfold is_prefs in *. apply (grows_table _ new1); [done|]. by apply (grows_table _ part1).
  - apply (grows_lists is_ref lts (λ lt m m' v _ H, H) part2); done.
  - rewrite Hpp2, Hpp1. apply (offered_as_grows _ _ new1); [done|]. by apply (offered_as_grows _ _ new).
Qed.

Lemma Refresh_calls l r ps (s : LS) f :
  mutex (lua s) = false → defines s "Refresh" f →
  ∃ s1 new lts t_paths,
    LuaSelector_Refresh l r (Some <$> ps) s
    = finish f [LString (UDPAddr_String l); LString (UDPAddr_String r); LTab (Some t_paths)] s1 ∧
    ready s s1 new ∧ lists is_ref new lts t_paths ∧ offered_as ps lts new (ppaths s1).
Proof.
  intros Hm Hf. destruct (offer_ready r ps s Hm) as (s0 & lts & new & s1 & RL & R & Hr & Ho).
  destruct (ready_make _ _ s s1 new (makes_table_list lts) Hr)
    as (tl & new2 & s3 & R2 & Hr2 & Hpp2 & Hn2 & part2 & Hp2 & Hlist).
  exists s3, new2, lts, tl. split_and!; [|done|..].
  - unfold LuaSelector_Refresh, locked, guarded. rewrite (bind_ok _ _ _ _ _ RL).
    apply finish_body. rewrite (offer_then _ _ _ _ _ _ R).
    rewrite (bind_ok get_state _ s1 s1 s1), (bind_ok _ _ _ _ _ (ready_function _ _ _ _ _ Hf Hr)) by done.
    by rewrite (bind_ok _ _ _ _ _ R2).
  - apply (grows_lists is_ref lts (λ lt m m' v _ H, H) part2); done.
  - rewrite Hpp2. by apply (offered_as_grows _ _ new).
Qed.

Lemma SetPreferences_calls prefs l r (s : LS) f :
  mutex (lua s) = false → prefs_ok prefs → defines s "SetPreferences" f →
  ∃ s1 new t_prefs,
    LuaSelector_SetPreferences Duration_String prefs l r s
    = finish f [LTab (Some t_prefs); LString (UDPAddr_String l); LString (UDPAddr_String r)] s1 ∧
    ready s s1 new ∧ is_prefs Duration_String new prefs t_prefs.
Proof.
  intros Hm Hok Hf. set (s0 := s <| lua := (lua s) <| mutex := true |> |>).
  assert (on_lua Lock s = (Ok tt, s0)) as RL by (unfold on_lua, zoom, Lock; by rewrite Hm).
  assert (ready s s0 ∅) as Hr.
  { split_and!; [|apply map_disjoint_empty_l|done]. simpl. rewrite (left_id_L ∅ (∪)). by destruct (lua s). }
  destruct (ready_make _ _ s s0 ∅ (makes_prefs Duration_String prefs Hok) Hr)
    as (t & new & s1 & R & Hr1 & _ & _ & part & Hp & Hprefs).
  exists s1, new, t. split_and!; [|done|by apply (grows_table _ part)].
  unfold LuaSelector_SetPreferences, locked, guarded. rewrite (bind_ok _ _ _ _ _ RL). apply finish_body.
  rewrite (bind_ok get_state _ s0 s0 s0), (bind_ok _ _ _ _ _ (ready_function _ _ _ _ _ Hf Hr)) by done.
  by rewrite (bind_ok _ _ _ _ _ R).
Qed.

(** A call leaves the paths of the tables alone and the mutex free. *)
Lemma finish_frame f args (s s' : LS) e :
  mutex (lua s) = true → finish f args s = (Ok e, s') →
  ppaths s' = ppaths s ∧ module s' = module s ∧ mutex (lua s') = false.
Proof.
  intros Hm R. unfold finish, deferring, on_lua, zoom in R.
  pose proof (CallByParam_mutex f 0 args (lua s)) as Hk. rewrite Hm in Hk.
  destruct (CallByParam f 0 args (lua s)) as [[a|w|w|] l]; try discriminate R;
    unfold mbind, GoM_bind, Unlock in R; simpl in R, Hk; rewrite Hk in R; [|discriminate R].
  by apply ret_inv in R as [_ ->].
Qed.

(** The table the script's Path returns selects the path it was made for. *)
Lemma Path_selects l r (s : LS) g lt vs h p :
  mutex (lua s) = false → defines s "Path" (LFunc (Script g)) →
  run_script g [LString (UDPAddr_String l); LString (UDPAddr_String r)] (tables (lua s), vm (lua s))
  = (Ok (inr (LTab (Some lt) :: vs)), h) →
  ppaths s !! lt = Some (Some p) →
  ∃ s', LuaSelector_Path l r s = (Ok (Some p, None), s').
Proof.
  intros Hm (tab & Ht & Hf) R Hp. unfold LuaSelector_Path, locked, guarded, call_module.
  unfold deferring, on_lua, zoom, Lock, mbind, GoM_bind, get_state, RawGetString, load. rewrite Hm. simpl.
  unfold mbind, GoM_bind. simpl. rewrite Ht. simpl. rewrite Hf. simpl.
  unfold on_vm, zoom. simpl. rewrite R. simpl. rewrite Hp. simpl. eauto.
Qed.
End Calls.

(** ** Properties *)
Section Claims.
Context `{Pan} {X : Type} `{!LuaVM X} (Duration_String : Z → string).

(** C13: Initialize and Refresh end in one call of the script's function of that
    name, under the mutex. Its arguments show the preferences, the addresses and,
    in order, every path of the offer; each path's table leads back to that very
    path. All of it is in new tables, and none that existed has changed. *)
Theorem offer_calls_script prefs l r ps (s : LuaSelector X) f g :
  mutex (lua s) = false → prefs_ok prefs → defines s "Initialize" f → defines s "Refresh" g →
  (∃ s1 new lts t_prefs t_paths,
    LuaSelector_Initialize Duration_String prefs l r (Some <$> ps) s
    = finish f [LTab (Some t_prefs); LString (UDPAddr_String l); LString (UDPAddr_String r);
                LTab (Some t_paths)] s1 ∧
    ready s s1 new ∧ is_prefs Duration_String new prefs t_prefs ∧
    lists is_ref new lts t_paths ∧ offered_as ps lts new (ppaths s1)) ∧
  (∃ s1 new lts t_paths,
    LuaSelector_Refresh l r (Some <$> ps) s
    = finish g [LString (UDPAddr_String l); LString (UDPAddr_String r); LTab (Some t_paths)] s1 ∧
    ready s s1 new ∧ lists is_ref new lts t_paths ∧ offered_as ps lts new (ppaths s1)).
Proof. intros ????. split; [by apply Initialize_calls|by apply Refresh_calls]. Qed.
End Claims.

(** Two paths for ClientA. *)
Lemma offer_calls_script_witness :
  ∃ s1 new lts t_prefs t_paths,
    LuaSelector_Initialize (H := SamplePan.pan) SampleScript.text None SamplePan.ClientA SamplePan.Server
      [Some (SamplePan.path "x" 7); Some (SamplePan.path "y" 8)] SampleScript.loaded
    = finish (LFunc (Script 0)) [LTab (Some t_prefs); LString "17-ffaa:1:1,[127.0.0.1]:5001";
        LString "17-ffaa:1:2,[127.0.0.1]:1337"; LTab (Some t_paths)] s1 ∧
    ready SampleScript.loaded s1 new ∧ is_prefs SampleScript.text new None t_prefs ∧
    lists is_ref new lts t_paths ∧
    offered_as [SamplePan.path "x" 7; SamplePan.path "y" 8] lts new (ppaths s1).
Proof.
  apply (offer_calls_script (H := SamplePan.pan) SampleScript.text None SamplePan.ClientA SamplePan.Server
    [SamplePan.path "x" 7; SamplePan.path "y" 8] SampleScript.loaded (LFunc (Script 0)) (LFunc (Script 2)));
    [reflexivity|by intros ?|..]; (eexists; split; [vm_compute; reflexivity|vm_compute; reflexivity]).
Defined.
