(* ===== verification/LuaStats.v ===== *)
(** * Connection statistics by a Lua script (lua/stats.go)

    [Stats] is the daemon's [ServerConnectionTracer]: every method calls the
    function of its name in the script's module "stats" with the connection's
    printed addresses and its arguments as Lua values, under the mutex of the
    Lua state. *)

From Stdlib Require Import Floats.SpecFloat.
From S2P Require Import Prelude PanPath GobRpc SelectorServer TracerMsg ConnTracer LuaApi.

(** logging.PreferredAddress, with its addresses and its token as printed. *)
Record PreferredAddress := mkPreferredAddress {
  pa_IPv4 : string; pa_IPv4Port : Z; pa_IPv6 : string; pa_IPv6Port : Z;
  pa_ConnectionID : string; pa_StatelessResetToken : string
}.

(** What the program reads of quic-go's values: texts and fields. *)
Class QuicFields `{Quic} := {
  ConnectionID_String : ConnectionID → string;
  VersionNumber_String : Z → string;
  EncryptionLevel_String : Z → string;
  tp_InitialMaxStreamDataBidiLocal : TransportParameters → Z;
  tp_InitialMaxStreamDataBidiRemote : TransportParameters → Z;
  tp_InitialMaxStreamDataUni : TransportParameters → Z;
  tp_InitialMaxData : TransportParameters → Z;
  tp_MaxAckDelay : TransportParameters → Z;
  tp_AckDelayExponent : TransportParameters → Z;
  tp_DisableActiveMigration : TransportParameters → bool;
  tp_MaxUDPPayloadSize : TransportParameters → Z;
  tp_MaxUniStreamNum : TransportParameters → Z;
  tp_MaxBidiStreamNum : TransportParameters → Z;
  tp_MaxIdleTimeout : TransportParameters → Z;
  tp_PreferredAddress : TransportParameters → option PreferredAddress;
  tp_OriginalDestinationConnectionID : TransportParameters → ConnectionID;
  tp_InitialSourceConnectionID : TransportParameters → ConnectionID;
  tp_RetrySourceConnectionID : TransportParameters → option ConnectionID;
  tp_StatelessResetToken_hex : TransportParameters → string;
  tp_ActiveConnectionIDLimit : TransportParameters → Z;
  tp_MaxDatagramFrameSize : TransportParameters → Z
}.

Section Stats.
Context `{Pan} `{Quic} `{!QuicFields} {X : Type} `{!LuaVM X}.

(** [fmt.Sprintf("%s", p)] of a pointer with a String method: fmt prints a nil
    pointer as <nil>. *)
Definition strhlpr {A} (String : A → string) (p : option A) : LValue :=
  LString (match p with Some a => String a | None => "<nil>" end).
Definition addr (a : option UDPAddr) : LValue := strhlpr UDPAddr_String a.
Definition number (z : Z) : LValue := LNumber (float64 z).

Definition PreferredAddress_text (a : PreferredAddress) : string :=
  "IPv4: " +:+ pa_IPv4 a +:+ ":" +:+ pretty (pa_IPv4Port a)
  +:+ ", IPv6: " +:+ pa_IPv6 a +:+ ":" +:+ pretty (pa_IPv6Port a)
  +:+ ", ConnectionID: " +:+ pa_ConnectionID a +:+ ", Token: " +:+ pa_StatelessResetToken a.

Definition new_lua_parameters (p : option TransportParameters) : GoM (State X) (option loc) :=
  t ← new_table;
  match p with
  | Some p =>
      RawSetString t "InitialMaxStreamDataBidiLocal" (number (tp_InitialMaxStreamDataBidiLocal p));;
      RawSetString t "InitialMaxStreamDataBidiRemote" (number (tp_InitialMaxStreamDataBidiRemote p));;
      RawSetString t "InitialMaxStreamDataUni" (number (tp_InitialMaxStreamDataUni p));;
      RawSetString t "InitialMaxData" (number (tp_InitialMaxData p));;
      RawSetString t "MaxAckDelay" (number (tp_MaxAckDelay p));;
      RawSetString t "AckDelayExponent" (number (tp_AckDelayExponent p));;
      RawSetString t "DisableActiveMigration" (LBool (tp_DisableActiveMigration p));;
      RawSetString t "MaxUDPPayloadSize" (number (tp_MaxUDPPayloadSize p));;
      RawSetString t "MaxUniStreamNum" (number (tp_MaxUniStreamNum p));;
      RawSetString t "MaxBidiStreamNum" (number (tp_MaxBidiStreamNum p));;
      RawSetString t "MaxIdleTimeout" (number (tp_MaxIdleTimeout p));;
      match tp_PreferredAddress p with
      | Some a => RawSetString t "PreferredAddress" (LString (PreferredAddress_text a))
      | None => mret tt
      end;;
      RawSetString t "OriginalDestinationConnectionID"
        (strhlpr ConnectionID_String (Some (tp_OriginalDestinationConnectionID p)));;
      RawSetString t "InitialSourceConnectionID"
        (strhlpr ConnectionID_String (Some (tp_InitialSourceConnectionID p)));;
      RawSetString t "RetrySourceConnectionID"
        (strhlpr ConnectionID_String (tp_RetrySourceConnectionID p));;
      RawSetString t "StatelessResetToken" (LString (tp_StatelessResetToken_hex p));;
      RawSetString t "ActiveConnectionIDLimit" (number (tp_ActiveConnectionIDLimit p));;
      RawSetString t "MaxDatagramFrameSize" (number (tp_MaxDatagramFrameSize p));;
      mret (Some t)
  | None => mret None
  end.

Definition new_lua_rtt_stats (stats : option RTTStats) : GoM (State X) (option loc) :=
  t ← new_table;
  match stats with
  | Some s =>
      RawSetString t "LatestRTT" (LNumber (Seconds (LatestRTT s)));;
      RawSetString t "MaxAckDelay" (LNumber (Seconds (MaxAckDelay s)));;
      RawSetString t "MeanDeviation" (LNumber (Seconds (MeanDeviation s)));;
      RawSetString t "MinRTT" (LNumber (Seconds (MinRTT s)));;
      RawSetString t "PTO" (LNumber (Seconds (PTO s)));;
      RawSetString t "SmoothedRTT" (LNumber (Seconds (SmoothedRTT s)));;
      mret (Some t)
  | None => mret None
  end.

Definition version_table (vs : list Z) : GoM (State X) loc :=
  array_table (λ v, mret (strhlpr VersionNumber_String (Some v))) vs.

Record Stats := mkStats { stats_state : State X; stats_mod : loc }.
#[export] Instance eta_Stats : Eta Stats := λ s, mkStats (stats_state s) (stats_mod s).

Definition on_state {A} (m : GoM (State X) A) : GoM Stats A :=
  zoom stats_state (λ l s, s <| stats_state := l |>) m.

(** The functions every script has: they do nothing. *)
Definition stats_names : list string := [
    "TracerForConnection";
    "StartedConnection";
    "NegotiatedVersion";
    "ClosedConnection";
    "SentTransportParameters";
    "ReceivedTransportParameters";
    "RestoredTransportParameters";
    "SentPacket";
    "ReceivedVersionNegotiationPacket";
    "ReceivedRetry";
    "ReceivedPacket";
    "BufferedPacket";
    "DroppedPacket";
    "UpdatedMetrics";
    "AcknowledgedPacket";
    "LostPacket";
    "UpdatedCongestionState";
    "UpdatedPTOCount";
    "UpdatedKeyFromTLS";
    "UpdatedKey";
    "DroppedEncryptionLevel";
    "DroppedKey";
    "SetLossTimer";
    "LossTimerExpired";
    "LossTimerCanceled";
    "Debug"]%string.
Definition stats_functions : list (string * LFunction) := (λ fn, (fn, Noop)) <$> stats_names.

Definition NewStats (state : State X) : outcome Stats :=
  match guarded Lock Unlock (RegisterModule stats_functions) state with
  | (Ok stats, state) => Ok (mkStats state stats)
  | (Panics w, _) => Panics w
  | (Exits w, _) => Exits w
  | (Deadlocks, _) => Deadlocks
  end.

(** [s.Lock(); defer s.Unlock(); return s.CallByParam(lua.P{Fn:
    s.mod.RawGetString(fn), NRet: 0, Protect: true}, args...)], the arguments
    being made after the function is looked up. *)
Definition call_stats (fn : string) (args : GoM (State X) (list LValue)) : GoM Stats error :=
  guarded (on_state Lock) (on_state Unlock) (
    s ← get_state;
    f ← on_state (RawGetString (stats_mod s) fn);
    vs ← on_state args;
    on_state (CallByParam f 0 vs)).

Definition Stats_TracerForConnection (tracer_id p : Z) (odcid : ConnectionID) : GoM Stats error :=
  call_stats "TracerForConnection"
    (mret [number tracer_id; number p; strhlpr ConnectionID_String (Some odcid)]).

Definition Stats_StartedConnection (local remote : option UDPAddr)
    (srcConnID destConnID : ConnectionID) : GoM Stats error :=
  call_stats "StartedConnection" (
    mret [addr local; addr remote; strhlpr ConnectionID_String (Some srcConnID); strhlpr ConnectionID_String (Some destConnID)]).

(** The version tables are built before the function is looked up. *)
Definition Stats_NegotiatedVersion (local remote : option UDPAddr)
    (chosen : Z) (clientVersions serverVersions : list Z) : GoM Stats error :=
  guarded (on_state Lock) (on_state Unlock) (
    c_vs ← on_state (version_table clientVersions);
    s_vs ← on_state (version_table serverVersions);
    s ← get_state;
    f ← on_state (RawGetString (stats_mod s) "NegotiatedVersion");
    on_state (CallByParam f 0
      [addr local; addr remote; strhlpr VersionNumber_String (Some chosen);
       LTab (Some c_vs); LTab (Some s_vs)])).

(** [err.Error()] of a nil error panics. *)
Definition Stats_ClosedConnection (local remote : option UDPAddr)
    (err : error) : GoM Stats error :=
  call_stats "ClosedConnection" (
    text ← deref err; mret [addr local; addr remote; LString text]).

Definition Stats_SentTransportParameters (local remote : option UDPAddr)
    (parameters : option TransportParameters) : GoM Stats error :=
  call_stats "SentTransportParameters" (
    t ← new_lua_parameters parameters; mret [addr local; addr remote; LTab t]).

Definition Stats_ReceivedTransportParameters (local remote : option UDPAddr)
    (parameters : option TransportParameters) : GoM Stats error :=
  call_stats "ReceivedTransportParameters" (
    t ← new_lua_parameters parameters; mret [addr local; addr remote; LTab t]).

Definition Stats_RestoredTransportParameters (local remote : option UDPAddr)
    (parameters : option TransportParameters) : GoM Stats error :=
  call_stats "RestoredTransportParameters" (
    t ← new_lua_parameters parameters; mret [addr local; addr remote; LTab t]).

Definition Stats_SentPacket (local remote : option UDPAddr)
    (hdr : option ExtendedHeader) (size : Z) (ack : option AckFrame) (frames : list Frame) : GoM Stats error :=
  call_stats "SentPacket" (mret [addr local; addr remote; number size]).

Definition Stats_ReceivedVersionNegotiationPacket (local remote : option UDPAddr)
    (hdr : option Header) (versions : list Z) : GoM Stats error :=
  guarded (on_state Lock) (on_state Unlock) (
    vs ← on_state (version_table versions);
    s ← get_state;
    f ← on_state (RawGetString (stats_mod s) "ReceivedVersionNegotiationPacket");
    on_state (CallByParam f 0 [addr local; addr remote; LTab (Some vs)])).

Definition Stats_ReceivedRetry (local remote : option UDPAddr)
    (hdr : option Header) : GoM Stats error :=
  call_stats "ReceivedRetry" (mret [addr local; addr remote]).

Definition Stats_ReceivedPacket (local remote : option UDPAddr)
    (hdr : option ExtendedHeader) (size : Z) (frames : list Frame) : GoM Stats error :=
  call_stats "ReceivedPacket" (mret [addr local; addr remote]).

Definition Stats_BufferedPacket (local remote : option UDPAddr) (ptype : Z) : GoM Stats error :=
  call_stats "BufferedPacket" (mret [addr local; addr remote; number ptype]).

Definition Stats_DroppedPacket (local remote : option UDPAddr)
    (ptype size reason : Z) : GoM Stats error :=
  call_stats "DroppedPacket" (
    mret [addr local; addr remote; number ptype; number size; number reason]).

Definition Stats_UpdatedMetrics (local remote : option UDPAddr)
    (rttStats : option RTTStats) (cwnd bytesInFlight packetsInFlight : Z) : GoM Stats error :=
  call_stats "UpdatedMetrics" (
    t ← new_lua_rtt_stats rttStats;
    mret [addr local; addr remote; LTab t; number cwnd; number bytesInFlight;
          number packetsInFlight]).

Definition Stats_AcknowledgedPacket (local remote : option UDPAddr)
    (level num : Z) : GoM Stats error :=
  call_stats "AcknowledgedPacket" (
    mret [addr local; addr remote; strhlpr EncryptionLevel_String (Some level); number num]).

Definition Stats_LostPacket (local remote : option UDPAddr)
    (level num reason : Z) : GoM Stats error :=
  call_stats "LostPacket" (
    mret [addr local; addr remote; strhlpr EncryptionLevel_String (Some level); number num; number reason]).

Definition Stats_UpdatedCongestionState (local remote : option UDPAddr)
    (state : Z) : GoM Stats error :=
  call_stats "UpdatedCongestionState" (mret [addr local; addr remote; number state]).

Definition Stats_UpdatedPTOCount (local remote : option UDPAddr) (value : Z) : GoM Stats error :=
  call_stats "UpdatedPTOCount" (mret [addr local; addr remote; number value]).

Definition Stats_UpdatedKeyFromTLS (local remote : option UDPAddr)
    (level p : Z) : GoM Stats error :=
  call_stats "UpdatedKeyFromTLS" (
    mret [addr local; addr remote; strhlpr EncryptionLevel_String (Some level); number p]).

Definition Stats_UpdatedKey (local remote : option UDPAddr)
    (generation : Z) (rmte : bool) : GoM Stats error :=
  call_stats "UpdatedKey" (mret [addr local; addr remote; number generation; LBool rmte]).

Definition Stats_DroppedEncryptionLevel (local remote : option UDPAddr)
    (level : Z) : GoM Stats error :=
  call_stats "DroppedEncryptionLevel" (
    mret [addr local; addr remote; strhlpr EncryptionLevel_String (Some level)]).

Definition Stats_DroppedKey (local remote : option UDPAddr) (generation : Z) : GoM Stats error :=
  call_stats "DroppedKey" (mret [addr local; addr remote; number generation]).

Definition Stats_SetLossTimer (local remote : option UDPAddr)
    (ttype level : Z) (t : Time) : GoM Stats error :=
  call_stats "SetLossTimer" (
    mret [addr local; addr remote; number ttype; strhlpr EncryptionLevel_String (Some level); strhlpr Time_String (Some t)]).

Definition Stats_LossTimerExpired (local remote : option UDPAddr)
    (ttype level : Z) : GoM Stats error :=
  call_stats "LossTimerExpired" (
    mret [addr local; addr remote; number ttype; strhlpr EncryptionLevel_String (Some level)]).

Definition Stats_LossTimerCanceled (local remote : option UDPAddr) : GoM Stats error :=
  call_stats "LossTimerCanceled" (mret [addr local; addr remote]).

Definition Stats_Close (local remote : option UDPAddr) : GoM Stats error :=
  call_stats "Close" (mret [addr local; addr remote]).

Definition Stats_Debug (local remote : option UDPAddr) (name msg : string) : GoM Stats error :=
  call_stats "Debug" (mret [addr local; addr remote; LString name; LString msg]).

#[export] Instance Stats_interface : ServerConnectionTracer Stats := {
  ct_TracerForConnection := Stats_TracerForConnection;
  ct_StartedConnection := Stats_StartedConnection;
  ct_NegotiatedVersion := Stats_NegotiatedVersion;
  ct_ClosedConnection := Stats_ClosedConnection;
  ct_SentTransportParameters := Stats_SentTransportParameters;
  ct_ReceivedTransportParameters := Stats_ReceivedTransportParameters;
  ct_RestoredTransportParameters := Stats_RestoredTransportParameters;
  ct_SentPacket := Stats_SentPacket;
  ct_ReceivedVersionNegotiationPacket := Stats_ReceivedVersionNegotiationPacket;
  ct_ReceivedRetry := Stats_ReceivedRetry;
  ct_ReceivedPacket := Stats_ReceivedPacket;
  ct_BufferedPacket := Stats_BufferedPacket;
  ct_DroppedPacket := Stats_DroppedPacket;
  ct_UpdatedMetrics := Stats_UpdatedMetrics;
  ct_AcknowledgedPacket := Stats_AcknowledgedPacket;
  ct_LostPacket := Stats_LostPacket;
  ct_UpdatedCongestionState := Stats_UpdatedCongestionState;
  ct_UpdatedPTOCount := Stats_UpdatedPTOCount;
  ct_UpdatedKeyFromTLS := Stats_UpdatedKeyFromTLS;
  ct_UpdatedKey := Stats_UpdatedKey;
  ct_DroppedEncryptionLevel := Stats_DroppedEncryptionLevel;
  ct_DroppedKey := Stats_DroppedKey;
  ct_SetLossTimer := Stats_SetLossTimer;
  ct_LossTimerExpired := Stats_LossTimerExpired;
  ct_LossTimerCanceled := Stats_LossTimerCanceled;
  ct_Close := Stats_Close;
  ct_Debug := Stats_Debug
}.
End Stats.
Arguments Stats X : clear implicits.
Arguments mkStats {X} _ _.

(** ** Lemmas *)
Section Lemmas.
Context `{Pan} `{Quic} `{!QuicFields} {X : Type} `{!LuaVM X}.
Abbreviation ST := (Stats X).

Lemma create_ok_parameters p : create_ok (new_lua_parameters (X := X) p).
Proof. apply create_ok_table. intros t. fills. Qed.

Lemma create_ok_rtt_stats s : create_ok (new_lua_rtt_stats (X := X) s).
Proof. apply create_ok_table. intros t. fills. Qed.

Lemma create_ok_versions vs : create_ok (version_table (X := X) vs).
Proof. apply create_ok_array. Qed.
(** Whether NewStats defines a function. *)
Definition has_default (fn : string) : bool := bool_decide (fn ∈ stats_names).
#[local] Arguments has_default : simpl never.

(** The module "stats" as NewStats makes it, no script having changed it. *)
Definition module_untouched (s : ST) : Prop :=
  ∃ tab, tables (stats_state s) !! stats_mod s = Some tab ∧
    ∀ fn, default LNil (strdict tab !! fn) = if has_default fn then LFunc Noop else LNil.

Definition untouched (s : ST) : Prop := mutex (stats_state s) = false ∧ module_untouched s.

Lemma module_untouched_creates (s : ST) l :
  module_untouched s → creates (stats_state s) l → module_untouched (s <| stats_state := l |>).
Proof.
  intros (tab & Ht & Hfn) [_ Hc]. exists tab. split; [|done]. simpl.
  rewrite Hc; [done|]. by apply elem_of_dom.
Qed.

(** The functions of an untouched module, and what calling them does. *)
Definition default_function (fn : string) : LValue := if has_default fn then LFunc Noop else LNil.

Definition answer (fn : string) : outcome error :=
  Ok (if has_default fn then None else Some not_a_function).

Lemma function_untouched (s : ST) fn :
  module_untouched s → on_state (RawGetString (stats_mod s) fn) s = (Ok (default_function fn), s).
Proof.
  intros (tab & Ht & Hfn). unfold RawGetString, on_state, zoom, load, mbind, GoM_bind.
  rewrite Ht. simpl. rewrite Hfn. by destruct s.
Qed.

Lemma call_default fn vs (s : ST) :
  on_state (CallByParam (default_function fn) 0 vs) s = (answer fn, s).
Proof.
  destruct s as [[t st mu x] m]. unfold default_function, answer. by destruct (has_default fn).
Qed.

Lemma on_state_create {A} (m : GoM (State X) A) (s : ST) :
  create_ok m → module_untouched s →
  ∃ a l, on_state m s = (Ok a, s <| stats_state := l |>) ∧ m (stats_state s) = (Ok a, l) ∧
    mutex l = mutex (stats_state s) ∧ module_untouched (s <| stats_state := l |>).
Proof.
  intros Hm Hs. destruct (Hm (stats_state s)) as (a & l & R & Hc). exists a, l.
  unfold on_state, zoom. rewrite R. split_and!; [done..| |by apply module_untouched_creates].
  apply Hc.
Qed.

(** A body that leaves the module untouched and the mutex held, run under the
    mutex. *)
Definition body_gives {A} (body : GoM ST A) (r : outcome A) : Prop :=
  ∀ s, module_untouched s → mutex (stats_state s) = true →
    ∃ s', body s = (r, s') ∧ module_untouched s' ∧ mutex (stats_state s') = true.

Lemma guarded_untouched {A} (body : GoM ST A) r (s : ST) :
  untouched s → body_gives body r → (∃ a, r = Ok a) ∨ (∃ w, r = Panics w) →
  ∃ s', untouched s' ∧ guarded (on_state Lock) (on_state Unlock) body s = (r, s').
Proof.
  intros [Hm Hs] Hb Hr. unfold guarded.
  assert (on_state Lock s = (Ok tt, s <| stats_state := (stats_state s) <| mutex := true |> |>)) as RL.
  { unfold on_state, zoom, Lock. by rewrite Hm. }
  rewrite (bind_ok _ _ _ _ _ RL). unfold deferring.
  destruct (Hb (s <| stats_state := (stats_state s) <| mutex := true |> |>)) as (s1 & R & Hs1 & Hm1);
    [exact Hs|done|]. rewrite R.
  assert (on_state Unlock s1
    = (Ok tt, s1 <| stats_state := (stats_state s1) <| mutex := false |> |>)) as RU.
  { unfold on_state, zoom, Unlock. by rewrite Hm1. }
  destruct Hr as [[a ->]|[w ->]]; rewrite (bind_ok _ _ _ _ _ RU); eexists; (split; [|done]);
    (split; [done|exact Hs1]).
Qed.

Lemma body_call fn vs :
  body_gives (s ← get_state; f ← on_state (RawGetString (stats_mod s) fn); on_state (CallByParam f 0 vs))
    (answer fn).
Proof.
  intros s Hs Hm. exists s. rewrite (bind_ok get_state _ s s s) by done.
  rewrite (bind_ok _ _ _ _ _ (function_untouched s fn Hs)). by rewrite call_default.
Qed.

(** Arguments made before the call leave it as it is. *)
Lemma body_create {A B} (m : GoM (State X) A) (k : A → GoM ST B) r :
  create_ok m → (∀ a, body_gives (k a) r) → body_gives (on_state m ≫= k) r.
Proof.
  intros Hm Hk s Hs Hmu. destruct (on_state_create m s Hm Hs) as (a & l & R & _ & Hl & Hs').
  rewrite (bind_ok _ _ _ _ _ R). apply Hk; [done|]. simpl. by rewrite Hl.
Qed.

Lemma call_stats_untouched fn args r (s : ST) :
  untouched s → answer fn = r → create_ok args →
  ∃ s', untouched s' ∧ call_stats fn args s = (r, s').
Proof.
  intros Hs <- Ha. apply guarded_untouched; [done| |by left; eexists].
  intros s0 Hs0 Hm. rewrite (bind_ok get_state _ s0 s0 s0) by done.
  rewrite (bind_ok _ _ _ _ _ (function_untouched s0 fn Hs0)).
  destruct (on_state_create args s0 Ha Hs0) as (vs & l & R & _ & Hl & Hs').
  rewrite (bind_ok _ _ _ _ _ R), call_default. eexists. split; [done|]. split; [done|].
  simpl. by rewrite Hl.
Qed.

Lemma lookup_noops (names : list string) (d : gmap string LValue) fn :
  foldl (λ d '(k, f), <[k := LFunc f]> d) d ((λ fn, (fn, Noop)) <$> names) !! fn
  = if bool_decide (fn ∈ names) then Some (LFunc Noop) else d !! fn.
Proof.
  revert d. induction names as [|n names IH]; intros d; [done|]. rewrite fmap_cons. cbn [foldl].
  rewrite IH. repeat case_bool_decide; try done; [set_solver|..].
  - assert (fn = n) as -> by set_solver. by rewrite lookup_insert_eq.
  - rewrite lookup_insert_ne; [done|]. set_solver.
Qed.

(** NewStats makes such a module. *)
Lemma NewStats_untouched (state : State X) :
  mutex state = false → ∃ s, NewStats state = Ok s ∧ untouched s.
Proof.
  intros Hm. unfold NewStats, guarded.
  destruct (RegisterModule_run stats_functions (state <| mutex := true |>))
    as (m & l & R & [(_ & _ & Hmu & _) _] & Ht).
  assert (Lock state = (Ok tt, state <| mutex := true |>)) as RL by (unfold Lock; by rewrite Hm).
  rewrite (bind_ok _ _ _ _ _ RL). unfold deferring. rewrite R.
  assert (Unlock l = (Ok tt, l <| mutex := false |>)) as RU by (unfold Unlock; by rewrite Hmu).
  rewrite (bind_ok _ _ _ _ _ RU). eexists. split; [done|]. split; [done|].
  eexists. split; [exact Ht|]. intros fn. unfold strdict, stats_functions, has_default.
  rewrite lookup_noops. by case_bool_decide.
Qed.
End Lemmas.
#[export] Hint Resolve create_ok_parameters create_ok_rtt_stats create_ok_versions : go.

(** ** What reaches the statistics *)
Section Delivery.
Context `{Pan} `{Quic} `{!QuicFields} `{!PanCodecs} `{!QuicCodecs} {X : Type} `{!LuaVM X}.
Abbreviation ST := (Stats X).

Lemma delivery_untouched cb l r m (s : ST) :
  untouched s → delivery cb l r = Some (Some m) →
  ∃ s', untouched s' ∧
    m s = (match cb with
           | OnClose => Ok (Some not_a_function)
           | OnClosedConnection e =>
               match gob_flat_ptr string_zero e with Some _ => Ok None | None => Panics nil_deref end
           | _ => Ok None
           end, s').
Proof.
  intros Hs Hd. destruct cb as [|ch cv sv|e|? |? |? |hd sz ack fs|hd vs|hd|hd| | | | | | | | | | | | | | | |];
    cbn in Hd.
  all: repeat match type of Hd with
    | context [gob_Time ?t] => destruct (gob_Time t); [|done]; cbn in Hd
    | context [gob_struct_ptr ?c ?x] => destruct (gob_struct_ptr c x); [|done]; cbn in Hd
    | context [if ?b then _ else _] => destruct b; [done|]
    end.
  all: injection Hd as <-.
  all: try (apply call_stats_untouched; [done|reflexivity|];
    repeat (apply create_ok_bind; [auto with go|intros]); auto with go; fail).
  - apply guarded_untouched; [done| |by left; eexists].
    do 2 (apply body_create; [auto with go|intros]). apply (body_call "NegotiatedVersion").
  - destruct (gob_flat_ptr string_zero e) as [text|].
    { apply call_stats_untouched; [done|reflexivity|]. apply create_ok_ret. }
    apply guarded_untouched; [done| |by right; eexists].
    intros s0 Hs0 Hm. rewrite (bind_ok get_state _ s0 s0 s0) by done.
    rewrite (bind_ok _ _ _ _ _ (function_untouched s0 _ Hs0)). exists s0. by destruct s0.
  - apply guarded_untouched; [done| |by left; eexists].
    apply body_create; [auto with go|intros]. apply (body_call "ReceivedVersionNegotiationPacket").
Qed.

(** Runs that do not touch the mutex. *)
Definition same_mutex (s s' : ST) : Prop := mutex (stats_state s') = mutex (stats_state s).

#[export] Instance same_mutex_preorder : PreOrder same_mutex.
Proof. split; [done|]. intros s1 s2 s3 ??. unfold same_mutex in *. congruence. Qed.

Lemma mutex_on_state {A} (m : GoM (State X) A) : within builds m → within same_mutex (on_state m).
Proof.
  intros Hm s. unfold on_state, zoom. specialize (Hm (stats_state s)).
  destruct (m (stats_state s)) as [r l]. apply Hm.
Qed.

Lemma mutex_RawGetString t k : within same_mutex (on_state (RawGetString t k)).
Proof.
  intros s. unfold on_state, zoom, RawGetString, load, mbind, GoM_bind.
  by destruct (tables (stats_state s) !! t).
Qed.

Lemma mutex_CallByParam f n vs : within same_mutex (on_state (CallByParam f n vs)).
Proof.
  intros s. unfold on_state, zoom. pose proof (CallByParam_mutex f n vs (stats_state s)) as Hs.
  destruct (CallByParam f n vs (stats_state s)) as [r l]. exact Hs.
Qed.

Lemma within_parameters p : within builds (new_lua_parameters (X := X) p).
Proof. unfold new_lua_parameters. builds. Qed.

Lemma within_rtt_stats p : within builds (new_lua_rtt_stats (X := X) p).
Proof. unfold new_lua_rtt_stats. builds. Qed.

Lemma within_deref {A} (p : option A) : within builds (deref p : GoM (State X) A).
Proof. by destruct p. Qed.
#[local] Hint Resolve mutex_RawGetString mutex_CallByParam within_parameters within_rtt_stats
  within_deref : go.

Lemma guarded_mutex {A} (body : GoM ST A) (s : ST) :
  within same_mutex body →
  if mutex (stats_state s) then guarded (on_state Lock) (on_state Unlock) body s = (Deadlocks, s) else
  match guarded (on_state Lock) (on_state Unlock) body s with
  | (Ok _, s') | (Panics _, s') => mutex (stats_state s') = false
  | _ => True
  end.
Proof.
  intros Hb. unfold guarded. destruct (mutex (stats_state s)) eqn:Hm.
  { unfold on_state, zoom, Lock, mbind, GoM_bind. rewrite Hm. by destruct s. }
  assert (on_state Lock s = (Ok tt, s <| stats_state := (stats_state s) <| mutex := true |> |>)) as RL.
  { unfold on_state, zoom, Lock. by rewrite Hm. }
  rewrite (bind_ok _ _ _ _ _ RL). unfold deferring.
  specialize (Hb (s <| stats_state := (stats_state s) <| mutex := true |> |>)).
  destruct (body _) as [[] s1]; [| |done..]; unfold same_mutex in Hb; simpl in Hb;
    unfold on_state, zoom, Unlock, mbind, GoM_bind; by rewrite Hb.
Qed.

Lemma call_stats_mutex fn args (s : ST) :
  within builds args →
  if mutex (stats_state s) then call_stats fn args s = (Deadlocks, s) else
  match call_stats fn args s with
  | (Ok _, s') | (Panics _, s') => mutex (stats_state s') = false
  | _ => True
  end.
Proof.
  intros Ha. apply guarded_mutex. apply within_bind; [apply _|by intros s0|]. intros s0.
  apply within_bind; [apply _|auto with go|]. intros f.
  apply within_bind; [apply _|by apply mutex_on_state|]. auto with go.
Qed.

Lemma delivery_mutex cb l r m (s : ST) :
  delivery cb l r = Some (Some m) →
  if mutex (stats_state s) then m s = (Deadlocks, s) else
  match m s with
  | (Ok _, s') | (Panics _, s') => mutex (stats_state s') = false
  | _ => True
  end.
Proof.
  intros Hd. destruct cb; cbn in Hd.
  all: repeat match type of Hd with
    | context [gob_Time ?t] => destruct (gob_Time t); [|done]; cbn in Hd
    | context [gob_struct_ptr ?c ?x] => destruct (gob_struct_ptr c x); [|done]; cbn in Hd
    | context [if ?b then _ else _] => destruct b; [done|]
    end.
  all: injection Hd as <-.
  all: try (apply call_stats_mutex; builds; fail).
  all: apply guarded_mutex;
    repeat (apply within_bind; [apply _| |intros]); try (by intros ?); auto with go;
    apply mutex_on_state, within_array_table; builds.
Qed.
End Delivery.
#[export] Hint Resolve within_parameters within_rtt_stats within_deref : go.

(** ** Properties *)
Section Claims.
Context `{Pan} `{Quic} `{!QuicFields} `{!PanCodecs} `{!QuicCodecs} {X : Type} `{!LuaVM X}.
Abbreviation ST := (Stats X).

(** With a script that leaves the module alone, every callback that reaches
    the daemon's statistics succeeds and leaves the Lua state free and the module
    as it was, with two exceptions: Close, which NewStats forgot to define,
    returns an error, and ClosedConnection with an empty text, which arrives as a
    nil error, panics. *)
Theorem stats_default cb l r m (s : ST) :
  untouched s → delivery cb l r = Some (Some m) →
  ∃ s', untouched s' ∧
    m s = (match cb with
           | OnClose => Ok (Some not_a_function)
           | OnClosedConnection e =>
               match gob_flat_ptr string_zero e with Some _ => Ok None | None => Panics nil_deref end
           | _ => Ok None
           end, s').
Proof. apply delivery_untouched. Qed.

(** End to end, over a working link to a daemon with such a script: closing a
    QUIC connection ends the application, and closing it with an error that has no
    text ends the daemon as well. *)
Theorem stats_close_ends_application `{!PanFaithful} (c : tracing ST) :
  untouched (server (t_link c)) → up (t_link c) = true → closing (t_link c) = false →
  (report OnClose c).1 = Exits not_a_function ∧
  (report (OnClosedConnection (Some ""%string)) c).1 = Exits unexpected_EOF ∧
  up (t_link (report (OnClosedConnection (Some ""%string)) c).2) = false.
Proof.
  intros Hs Hup Hcl. rewrite !report_run.
  destruct c as [t [sv up closing ce]]. simpl in *. subst up closing.
  set (l := c_local t). set (r := c_remote t).
  destruct (delivery_untouched OnClose l r (Stats_Close l r) sv) as (s1 & _ & R1); [done..|].
  destruct (delivery_untouched (OnClosedConnection (Some ""%string)) l r
    (Stats_ClosedConnection l r None) sv) as (s2 & _ & R2); [done..|].
  unfold report_spec, or_fatal, on_tracer, on_link, zoom, carry, mbind, GoM_bind. simpl.
  fold l r. by rewrite R1, R2.
Qed.

(** The statistics hold the mutex of the Lua state as the selector does: a
    callback waits while it is held and has released it when it returns, and when
    it panics. *)
Theorem stats_mutex cb l r m (s : Stats X) :
  delivery cb l r = Some (Some m) →
  if mutex (stats_state s) then m s = (Deadlocks, s) else
  match m s with
  | (Ok _, s') | (Panics _, s') => mutex (stats_state s') = false
  | _ => True
  end.
Proof. apply delivery_mutex. Qed.
End Claims.

(** ** Witnesses: a daemon whose script defines no statistics *)
Module SampleStats.
#[global] Existing Instances SamplePan.pan SampleTracer.quic SampleTracer.pan_codecs
  SampleTracer.pan_faithful SampleTracer.quic_codecs.
#[global] Instance fields : QuicFields := {|
  ConnectionID_String _ := "c0ffee"; VersionNumber_String _ := "v1"; EncryptionLevel_String _ := "1-RTT";
  tp_InitialMaxStreamDataBidiLocal _ := 1; tp_InitialMaxStreamDataBidiRemote _ := 1;
  tp_InitialMaxStreamDataUni _ := 1; tp_InitialMaxData _ := 1; tp_MaxAckDelay _ := 1;
  tp_AckDelayExponent _ := 1; tp_DisableActiveMigration _ := false; tp_MaxUDPPayloadSize _ := 1;
  tp_MaxUniStreamNum _ := 1; tp_MaxBidiStreamNum _ := 1; tp_MaxIdleTimeout _ := 1;
  tp_PreferredAddress _ := None; tp_OriginalDestinationConnectionID _ := [];
  tp_InitialSourceConnectionID _ := []; tp_RetrySourceConnectionID _ := None;
  tp_StatelessResetToken_hex _ := ""; tp_ActiveConnectionIDLimit _ := 2;
  tp_MaxDatagramFrameSize _ := 0 |}%Z%string.
#[global] Instance script : LuaVM unit := {|
  run_script _ _ := mret (inr []); load_script _ := mret (inr 0); clock _ := S754_zero false |}.

Definition stats : Stats unit :=
  match NewStats (NewState tt) with Ok s => s | _ => mkStats (NewState tt) 1%positive end.

Lemma stats_untouched : untouched stats.
Proof.
  unfold stats. by destruct (NewStats_untouched (NewState tt)) as (s & -> & Hs).
Qed.

Definition client : tracing (Stats unit) :=
  mk_tracing (mkConnectionTracerClient (mkClient 42) 1 ["a"%char] 7 None None)
    (mkLink stats true false None false).
End SampleStats.

Lemma stats_default_witness :
  ∃ s', untouched s' ∧ Stats_UpdatedPTOCount None None 3 SampleStats.stats = (Ok None, s').
Proof.
  apply (stats_default (OnUpdatedPTOCount 3) None None); [exact SampleStats.stats_untouched|reflexivity].
Defined.

Lemma stats_close_ends_application_witness :
  (report OnClose SampleStats.client).1 = Exits not_a_function.
Proof.
  exact (proj1 (stats_close_ends_application SampleStats.client SampleStats.stats_untouched
    eq_refl eq_refl)).
Defined.

Lemma stats_mutex_witness :
  let s := mkStats (NewState tt) 1%positive in
  match Stats_Close None None s with
  | (Ok _, s') | (Panics _, s') => mutex (stats_state s') = false
  | _ => True
  end.
Proof.
  exact (stats_mutex OnClose None None (Stats_Close None None) (mkStats (NewState tt) 1%positive)
    eq_refl).
Defined.
