(* ===== verification/PacketConn.v ===== *)
(** * The timed SCION socket (internal/measured-appnet: packet_conn.go, dispatcher.go)

    A packet connection over a dispatcher socket that measures round trips.
    [ReadFrom] loops: it hands every SCMP (control) packet to the handler and
    returns at the first data packet or error. The socket, the packet format and
    the handler are parameters. The loop need not end, so its definition takes
    fuel, and the theorems say exactly when and with what it ends. *)

From S2P Require Import Prelude.

(** The packages snet, serrors and slayers. A packet has its bytes and what is
    decoded from them. *)
Class Snet := {
  PacketInfo : Type;
  HostAddr : Type;
  NetTime : Type;
  time_zero : NetTime;
  (** [pkt.Payload.(snet.SCMPPayload)]: the type and code of a control packet. *)
  scmp_payload : PacketInfo → option (Z * Z);
  Source_String : PacketInfo → string;
  TypeCode_String : Z → Z → string;
  pkt_Prepare : list ascii * PacketInfo → list ascii * PacketInfo;
  pkt_Decode : list ascii * PacketInfo → error * (list ascii * PacketInfo);
  pkt_Serialize : list ascii * PacketInfo → error * (list ascii * PacketInfo);
  serrors_New : string → list (string * string) → string;
  WrapStr : string → string → string
}.

(** snet.Packet *)
Abbreviation Packet := (list ascii * PacketInfo)%type.

(** A net.Addr: a [*net.UDPAddr], which may be a nil pointer, or another type. *)
Inductive LastHop `{Snet} :=
  | HopUDP (a : option HostAddr)
  | HopOther (text : string).

(** The sockets and the SCMP handlers, over the state [N] of the network. *)
Class PacketNet `{Snet} (N : Type) := {
  RConn : Type;
  SCMPHandler : Type;
  Dispatcher : Type;
  conn_ReadFrom : RConn → list ascii → GoM N (list ascii * Z * LastHop * error);
  conn_WriteTo : RConn → list ascii → option HostAddr → GoM N (Z * error);
  conn_SetDeadline : RConn → NetTime → GoM N error;
  conn_SetReadDeadline : RConn → NetTime → GoM N error;
  conn_SetWriteDeadline : RConn → NetTime → GoM N error;
  conn_Close : RConn → GoM N error;
  handler_Handle : SCMPHandler → Packet → GoM N (error * Packet);
  Register : Dispatcher → string → option HostAddr → string → GoM N (RConn * Z * error);
  time_Now : GoM N NetTime
}.

Section PacketConn.
Context `{Snet} {N : Type} `{!PacketNet N}.

Record TimedSCIONPacketConn := mkTimedSCIONPacketConn {
  conn : RConn;
  scmpHandler : option SCMPHandler;
  timed : NetTime
}.
#[export] Instance eta_TimedSCIONPacketConn : Eta TimedSCIONPacketConn := λ c,
  mkTimedSCIONPacketConn (conn c) (scmpHandler c) (timed c).

(** The state of a method call: the network, the connection, and the objects
    behind the caller's [pkt] and [ov], of which [ov] may be nil. *)
Record world := mk_world {
  net : N;
  self : TimedSCIONPacketConn;
  pkt : Packet;
  ov : option HostAddr
}.
#[export] Instance eta_world : Eta world := λ w, mk_world (net w) (self w) (pkt w) (ov w).

Definition on_net {A} (m : GoM N A) : GoM world A := zoom net (λ n w, w <| net := n |>) m.

Definition tc_SetDeadline (d : NetTime) : GoM world error :=
  c ← gets self; on_net (conn_SetDeadline (conn c) d).
Definition tc_SetReadDeadline (d : NetTime) : GoM world error :=
  c ← gets self; on_net (conn_SetReadDeadline (conn c) d).
Definition tc_SetWriteDeadline (d : NetTime) : GoM world error :=
  c ← gets self; on_net (conn_SetWriteDeadline (conn c) d).
Definition tc_Close : GoM world error :=
  c ← gets self; on_net (conn_Close (conn c)).

Definition tc_WriteTo : GoM world error :=
  w ← get_state;
  let '(err, p) := pkt_Serialize (pkt w) in
  modify (λ w, w <| pkt := p |>);;
  match err with
  | Some e => mret (Some (WrapStr "serialize SCION packet" e))
  | None =>
      '(_, err) ← on_net (conn_WriteTo (conn (self w)) p.1 (ov w));
      t ← on_net time_Now;
      modify (λ w, w <| self := (self w) <| timed := t |> |>);;
      match err with
      | Some e => mret (Some (WrapStr "Reliable socket write error" e))
      | None => mret None
      end
  end.

(** [pkt.Bytes[:n]] *)
Definition slice_to (bs : list ascii) (n : Z) : GoM world (list ascii) :=
  if ((0 <=? n) && (n <=? Z.of_nat (length bs)))%Z then mret (take (Z.to_nat n) bs)
  else panic slice_range.

Definition tc_readFrom : GoM world error :=
  modify (λ w, w <| pkt := pkt_Prepare (pkt w) |>);;
  w ← get_state;
  '(buf, n, lastHopNetAddr, err) ← on_net (conn_ReadFrom (conn (self w)) (pkt w).1);
  modify (λ w, w <| pkt := (buf, (pkt w).2) |>);;
  match err with
  | Some e => mret (Some (WrapStr "Reliable socket read error" e))
  | None =>
      bytes ← slice_to buf n;
      modify (λ w, w <| pkt := (bytes, (pkt w).2) |>);;
      match lastHopNetAddr with
      | HopOther text => mret (Some (serrors_New "Invalid lastHop address Type" [("Actual", text)]))
      | HopUDP lastHop =>
          w ← get_state;
          let '(err, p) := pkt_Decode (pkt w) in
          modify (λ w, w <| pkt := p |>);;
          match err with
          | Some e => mret (Some (WrapStr "decoding packet" e))
          | None =>
              match ov w with
              | Some _ => a ← deref lastHop; modify (λ w, w <| ov := Some a |>)
              | None => mret tt
              end;;
              mret None
          end
      end
  end.

(** One turn of the loop of ReadFrom: [Some e] when it returns [e], [None] when
    it continues. *)
Definition ReadFrom_turn : GoM world (option error) :=
  err ← tc_readFrom;
  match err with
  | Some e => mret (Some (Some e))
  | None =>
      w ← get_state;
      match scmp_payload (pkt w).2 with
      | Some (ty, code) =>
          match scmpHandler (self w) with
          | None => mret (Some (Some (serrors_New "scmp packet received, but no handler found"
              [("type_code", TypeCode_String ty code); ("src", Source_String (pkt w).2)])))
          | Some h =>
              '(err, p) ← on_net (handler_Handle h (pkt w));
              modify (λ w, w <| pkt := p |>);;
              match err with Some e => mret (Some (Some e)) | None => mret None end
          end
      | None => mret (Some None)
      end
  end.

(** The loop, for at most [fuel] turns: [None] when it has not returned yet. *)
Fixpoint tc_ReadFrom (fuel : nat) : GoM world (option error) :=
  match fuel with
  | 0 => mret None
  | S fuel =>
      r ← ReadFrom_turn;
      match r with Some e => mret (Some e) | None => tc_ReadFrom fuel end
  end.

(** dispatcher.go *)
Record TimedPacketDispatcherService := mkTimedPacketDispatcherService {
  Dispatcher_ : Dispatcher;
  SCMPHandler_ : option SCMPHandler
}.

Definition tds_Register (s : TimedPacketDispatcherService) (ia : string)
    (registration : option HostAddr) (svc : string)
    : GoM N (option TimedSCIONPacketConn * Z * error) :=
  '(rconn, port, err) ← Register (Dispatcher_ s) ia registration svc;
  match err with
  | Some e => mret (None, 0%Z, Some e)
  | None => mret (Some (mkTimedSCIONPacketConn rconn (SCMPHandler_ s) time_zero), port, None)
  end.
End PacketConn.

(** ** What the loop does *)
Section Specification.
Context `{Snet} {N : Type} `{!PacketNet N}.
Abbreviation W := (world (N := N)).

(** A packet is read from the socket: the bytes the socket delivered, cut to
    their number, decode into it, and [ov] becomes the last hop if it is not
    nil. *)
Definition received (w w' : W) : Prop :=
  ∃ buf n hop nt info,
    conn_ReadFrom (conn (self w)) (pkt_Prepare (pkt w)).1 (net w) = (Ok (buf, n, HopUDP hop, None), nt) ∧
    (0 ≤ n ≤ Z.of_nat (length buf))%Z ∧
    pkt_Decode (take (Z.to_nat n) buf, (pkt_Prepare (pkt w)).2) = (None, info) ∧
    (ov w = None ∨ ∃ a, hop = Some a) ∧
    w' = mk_world nt (self w) info (match ov w with Some _ => hop | None => None end).

(** A control packet is read and handled, and the loop goes on. *)
Inductive handled : W → W → Prop :=
  | handled_intro w w1 h p nt :
      received w w1 → is_Some (scmp_payload (pkt w1).2) → scmpHandler (self w1) = Some h →
      handler_Handle h (pkt w1) (net w1) = (Ok (None, p), nt) →
      handled w (mk_world nt (self w1) p (ov w1)).

(** The ways ReadFrom returns. *)
Inductive returns : W → error → W → Prop :=
  | returns_data w w' :
      received w w' → scmp_payload (pkt w').2 = None → returns w None w'
  | returns_read_error w e w' :
      tc_readFrom w = (Ok (Some e), w') → returns w (Some e) w'
  | returns_no_handler w w' ty code :
      received w w' → scmp_payload (pkt w').2 = Some (ty, code) → scmpHandler (self w') = None →
      returns w (Some (serrors_New "scmp packet received, but no handler found"
        [("type_code", TypeCode_String ty code); ("src", Source_String (pkt w').2)])) w'
  | returns_handler_error w w1 h e p nt :
      received w w1 → is_Some (scmp_payload (pkt w1).2) → scmpHandler (self w1) = Some h →
      handler_Handle h (pkt w1) (net w1) = (Ok (Some e, p), nt) →
      returns w (Some e) (mk_world nt (self w1) p (ov w1)).

Lemma readFrom_received (w w' : W) : tc_readFrom w = (Ok None, w') ↔ received w w'.
Proof.
  destruct w as [nt c p o]. unfold tc_readFrom, received, on_net, zoom, mbind, GoM_bind, slice_to.
  simpl. destruct (conn_ReadFrom (conn c) (pkt_Prepare p).1 nt) as [[[[[buf n] hop] [e|]]| | |] nt1];
    simpl; try (split; [done|intros (?&?&?&?&?&?&?); simplify_eq]; fail).
  destruct ((0 <=? n)%Z && (n <=? Z.of_nat (length buf))%Z)%bool eqn:Hn; simpl; cycle 1.
  { split; [done|]. intros (?&?&?&?&?&?&?&?). simplify_eq.
    apply andb_false_iff in Hn as [?%Z.leb_gt|?%Z.leb_gt]; lia. }
  apply andb_true_iff in Hn as [Hn1%Z.leb_le Hn2%Z.leb_le].
  destruct hop as [hop|text]; simpl; [|split; [done|intros (?&?&?&?&?&?&?); simplify_eq]].
  destruct (pkt_Decode (take (Z.to_nat n) buf, (pkt_Prepare p).2)) as [[e|] info] eqn:Hd; simpl.
  { split; [done|]. intros (?&?&?&?&?&?&?&Hd'&?). simplify_eq. rewrite Hd in Hd'. done. }
  destruct o as [o|]; [destruct hop as [a|]|]; simpl; split.
  all: try (intros [= <-]; do 5 eexists; split_and!; [done..|eauto|done]; fail).
  all: try done; intros (?&?&?&?&?&?&?&Hd'&Ho&?); simplify_eq; rewrite Hd in Hd'; simplify_eq;
    naive_solver.
Qed.

(** A turn of the loop, in these terms. *)
Lemma turn_handled (w w' : W) : ReadFrom_turn w = (Ok None, w') ↔ handled w w'.
Proof.
  unfold ReadFrom_turn. split.
  - intros ([e|] & w1 & R1 & R)%bind_inv; [done|]. apply readFrom_received in R1.
    rewrite (bind_ok get_state _ w1 w1 w1) in R by done.
    destruct (scmp_payload (pkt w1).2) as [[ty code]|] eqn:Hs; [|done].
    destruct (scmpHandler (self w1)) as [h|] eqn:Hh; [|done].
    apply bind_inv in R as ([err p] & w2 & R2 & R).
    unfold on_net, zoom in R2.
    destruct (handler_Handle h (pkt w1) (net w1)) as [[]] eqn:R3; simplify_eq.
    destruct err; [done|]. injection R as <-.
    destruct w1. by eapply (handled_intro _ _ h); [done| |done|done].
  - intros [w0 w1 h p nt Hr%readFrom_received [[ty code] Hs] Hh R].
    rewrite (bind_ok _ _ _ _ _ Hr), (bind_ok get_state _ w1 w1 w1) by done. rewrite Hs, Hh.
    unfold on_net, zoom, mbind, GoM_bind. by rewrite R.
Qed.

Lemma turn_returns (w : W) e w' : ReadFrom_turn w = (Ok (Some e), w') ↔ returns w e w'.
Proof.
  unfold ReadFrom_turn. split.
  - intros ([e1|] & w1 & R1 & R)%bind_inv.
    { apply ret_inv in R as [[= ->] ->]. by constructor. }
    apply readFrom_received in R1. rewrite (bind_ok get_state _ w1 w1 w1) in R by done.
    destruct (scmp_payload (pkt w1).2) as [[ty code]|] eqn:Hs;
      [|apply ret_inv in R as [[= ->] ->]; by constructor].
    destruct (scmpHandler (self w1)) as [h|] eqn:Hh;
      [|apply ret_inv in R as [[= ->] ->]; by constructor].
    apply bind_inv in R as ([err p] & w2 & R2 & R). unfold on_net, zoom in R2.
    destruct (handler_Handle h (pkt w1) (net w1)) as [[]] eqn:R3; simplify_eq.
    destruct err as [e1|]; [|done]. injection R as <- <-.
    destruct w1. by eapply (returns_handler_error _ _ h); [done| |done|done].
  - intros [w0 w1 Hr Hs|w0 e1 w1 Hr|w0 w1 ty code Hr Hs Hh|w0 w1 h e1 p nt Hr [[ty code] Hs] Hh R].
    2: by rewrite (bind_ok _ _ _ _ _ Hr).
    all: apply readFrom_received in Hr;
      rewrite (bind_ok _ _ _ _ _ Hr), (bind_ok get_state _ w1 w1 w1) by done; rewrite Hs, ?Hh; try done.
    unfold on_net, zoom, mbind, GoM_bind. by rewrite R.
Qed.

(** The loop after [n] control packets. *)
Lemma ReadFrom_turns n (w w1 : W) fuel :
  relations.nsteps handled n w w1 → tc_ReadFrom (n + fuel) w = tc_ReadFrom fuel w1.
Proof.
  induction 1 as [|n w w0 w1 Hw _ IH]; [done|]. simpl.
  by rewrite (bind_ok _ _ _ _ _ (proj2 (turn_handled _ _) Hw)).
Qed.
End Specification.

(** ** Properties *)
Section Claims.
Context `{Snet} {N : Type} `{!PacketNet N}.
Abbreviation W := (world (N := N)).

(** C23: ReadFrom returns [e] exactly when the socket delivers some number of
    control packets that are handled without error, followed by what makes it
    return [e]: a data packet, an error of the socket or of decoding, a control
    packet without a handler, or an error of the handler. Fuel beyond the number
    of control packets changes nothing, and less does not suffice; a socket that
    delivers such packets forever keeps ReadFrom forever. *)
Theorem ReadFrom_returns (w : W) e w' fuel :
  tc_ReadFrom fuel w = (Ok (Some e), w') ↔
  ∃ n w1, n < fuel ∧ relations.nsteps handled n w w1 ∧ returns w1 e w'.
Proof.
  split.
  - revert w. induction fuel as [|fuel IH]; intros w; [done|].
    intros ([e1|] & w1 & R1 & R)%bind_inv.
    + apply ret_inv in R as [[= ->] ->]. exists 0, w. split_and!; [lia|by constructor|].
      by apply turn_returns.
    + apply IH in R as (n & w2 & Hn & Hs & Hr). exists (S n), w2. split_and!; [lia| |done].
      econstructor; [by apply turn_handled|done].
  - intros (n & w1 & Hn & Hs & Hr). replace fuel with (n + S (fuel - S n)) by lia.
    rewrite (ReadFrom_turns _ _ _ _ Hs). simpl.
    by rewrite (bind_ok _ _ _ _ _ (proj2 (turn_returns _ _ _) Hr)).
Qed.
End Claims.

(** ** A sample socket: it delivers the packets of a list, control packets being
    those that start with "!" *)
Module SampleSocket.
#[global] Instance snet : Snet := {
  PacketInfo := bool; HostAddr := string; NetTime := Z; time_zero := 0%Z;
  scmp_payload := λ ctl, if ctl then Some (1, 0)%Z else None;
  Source_String := λ _, "src"%string;
  TypeCode_String := λ t c, pretty t +:+ "(" +:+ pretty c +:+ ")";
  pkt_Prepare := λ p, (replicate 4 " "%char, p.2);
  pkt_Decode := λ p, (None, (p.1, bool_decide (head p.1 = Some "!"%char)));
  pkt_Serialize := λ p, (None, p);
  serrors_New := λ s ctx, foldl (λ s '(k, v), s +:+ " " +:+ k +:+ "=" +:+ v) s ctx;
  WrapStr := λ s e, s +:+ ": " +:+ e
}.
#[global] Instance packet_net : PacketNet (list (list ascii)) := {
  RConn := unit; SCMPHandler := unit; Dispatcher := unit;
  conn_ReadFrom := λ _ buf ps, match ps with
    | [] => (Ok (buf, 0%Z, HopOther "", Some "closed"%string), [])
    | p :: ps => (Ok (p ++ drop (length p) buf, Z.of_nat (length p), HopUDP (Some "hop"%string), None), ps)
    end;
  conn_WriteTo := λ _ bs _, mret (Z.of_nat (length bs), None);
  conn_SetDeadline := λ _ _, mret None;
  conn_SetReadDeadline := λ _ _, mret None;
  conn_SetWriteDeadline := λ _ _, mret None;
  conn_Close := λ _, mret None;
  handler_Handle := λ _ p, mret (None, p);
  Register := λ _ _ _ _, mret (tt, 0%Z, None);
  time_Now := mret 0%Z
}.
End SampleSocket.

(** Two control packets, then data: three turns are needed and enough. *)
Example ReadFrom_sample :
  let c := mkTimedSCIONPacketConn tt (Some tt) 0%Z in
  let w := mk_world [["!"; "a"]; ["!"]; ["d"; "b"]]%char c ([], false) (Some ""%string) in
  (tc_ReadFrom 2 w).1 = Ok None ∧
  tc_ReadFrom 3 w
  = (Ok (Some None), mk_world [] c (["d"; "b"]%char, false) (Some "hop"%string)).
Proof. split; reflexivity. Qed.
