(* ===== verification/Appnet.v ===== *)
(** * The default SCION network (internal/measured-appnet: appnet.go, timednet.go)

    The package keeps one network for the whole process, initialised when it is
    first needed: from the dispatcher's socket, the SCION daemon and two
    environment variables. Files, environment, daemon and sockets are operations
    on the state of the system, which are parameters. *)

From S2P Require Import Prelude PacketConn.

(** net.IP: nil or an address of the system. *)
Class AppnetSystem `{Snet} (N : Type) `{!PacketNet N} := {
  IPAddr : Type;
  IsUnspecified : IPAddr → bool;
  IA_ : Type;
  zero_IA : IA_;
  DaemonConnector : Type;
  NetConn : Type;
  DefaultAPIAddress : string;
  DefaultDispPath : string;
  LookupEnv : string → GoM N (option string);
  os_Stat : string → GoM N (Z * error);
  FileMode_String : Z → string;
  reliable_NewDispatcher : string → Dispatcher;
  DefaultSCMPHandler : DaemonConnector → SCMPHandler;
  daemon_Connect : string → GoM N (DaemonConnector * error);
  daemon_LocalIA : DaemonConnector → GoM N (IA_ * error);
  UnderlayAnycast : DaemonConnector → GoM N (option (option IPAddr) * error);
  ResolveLocal : option IPAddr → GoM N (option IPAddr * error);
  snet_Listen : IA_ → TimedPacketDispatcherService → option IPAddr → Z → string → GoM N (option NetConn * error)
}.

Section Appnet.
Context `{Snet} {N : Type} `{!PacketNet N} `{!AppnetSystem N}.

(** net.UDPAddr *)
Record NetUDPAddr := mkNetUDPAddr { IP : option IPAddr; Port : Z; Zone : string }.

(** snet.SCIONNetwork, as NewNetwork fills it. *)
Record SCIONNetwork := mkSCIONNetwork {
  LocalIA : IA_;
  NetDispatcher : TimedPacketDispatcherService
}.

(** timednet.go *)
Definition NewNetwork (ia : IA_) (dispatcher : Dispatcher) (revHandler : DaemonConnector) : SCIONNetwork :=
  mkSCIONNetwork ia (mkTimedPacketDispatcherService dispatcher (Some (DefaultSCMPHandler revHandler))).

(** The embedded snet.Network is nil until the network is initialised. A path
    querier is its connector with the local AS. *)
Record Network_ := mkNetwork {
  net_Network : option SCIONNetwork;
  net_IA : IA_;
  PathQuerier : option (DaemonConnector * IA_);
  hostInLocalAS : option IPAddr
}.

(** The package's variables, and the system. *)
Record process := mk_process {
  initOnce : bool;
  defNetwork : Network_;
  system : N
}.
#[export] Instance eta_process : Eta process := λ p, mk_process (initOnce p) (defNetwork p) (system p).

Definition on_system {A} (m : GoM N A) : GoM process A := zoom system (λ n p, p <| system := n |>) m.

Definition ModeSocket : Z := Z.shiftl 1 24.
Definition isSocket (mode : Z) : bool := negb (Z.land mode ModeSocket =? 0)%Z.

Definition statSocket (path : string) : GoM process error :=
  '(mode, err) ← on_system (os_Stat path);
  match err with
  | Some e => mret (Some e)
  | None =>
      if isSocket mode then mret None
      else mret (Some (path +:+ " is not a socket (mode: " +:+ FileMode_String mode +:+ ")"))
  end.

(** [os.LookupEnv], with a default value. *)
Definition env_or (name fallback : string) : GoM process string :=
  v ← on_system (LookupEnv name);
  mret (default fallback v).

Definition findDispatcherSocket : GoM process (string * error) :=
  path ← env_or "SCION_DISPATCHER_SOCKET" DefaultDispPath;
  err ← statSocket path;
  match err with
  | Some e => mret (""%string, Some ("error looking for SCION dispatcher socket at " +:+ path +:+
      " (override with SCION_DISPATCHER_SOCKET): " +:+ e))
  | None => mret (path, None)
  end.

Definition findDispatcher : GoM process (option Dispatcher * error) :=
  '(path, err) ← findDispatcherSocket;
  match err with
  | Some e => mret (None, Some e)
  | None => mret (Some (reliable_NewDispatcher path), None)
  end.

Definition findDaemon : GoM process (option DaemonConnector * error) :=
  address ← env_or "SCION_DAEMON_ADDRESS" DefaultAPIAddress;
  '(daemonConn, err) ← on_system (daemon_Connect address);
  match err with
  | Some e => mret (None, Some ("unable to connect to DAEMON at " +:+ address +:+
      " (override with SCION_DAEMON_ADDRESS): " +:+ e))
  | None => mret (Some daemonConn, None)
  end.

Definition findAnyHostInLocalAS (daemonConn : DaemonConnector) : GoM process (option IPAddr * error) :=
  '(addr, err) ← on_system (UnderlayAnycast daemonConn);
  match err with
  | Some e => mret (None, Some e)
  | None => ip ← deref addr; mret (ip, None)
  end.

(** The timeout of the context is the system's. *)
Definition initDefNetwork : GoM process error :=
  '(dispatcher, err) ← findDispatcher;
  match err with Some e => mret (Some e) | None =>
  '(daemonConn, err) ← findDaemon;
  match err with Some e => mret (Some e) | None =>
  dispatcher ← deref dispatcher;
  daemonConn ← deref daemonConn;
  '(localIA, err) ← on_system (daemon_LocalIA daemonConn);
  match err with Some e => mret (Some e) | None =>
  '(host, err) ← findAnyHostInLocalAS daemonConn;
  match err with Some e => mret (Some e) | None =>
  modify (λ p, p <| defNetwork := mkNetwork (Some (NewNetwork localIA dispatcher daemonConn)) localIA
                                    (Some (daemonConn, localIA)) host |>);;
  mret None
  end end end end.

Definition mustInitDefNetwork : GoM process unit :=
  err ← initDefNetwork;
  match err with
  | Some e => fatal ("Error initializing SCION network: " +:+ e)
  | None => mret tt
  end.

(** [initOnce.Do(f)]: [f] runs at the first call only, and counts as run even
    if it panics. *)
Definition once_Do (f : GoM process unit) : GoM process unit :=
  p ← get_state;
  if initOnce p then mret tt
  else deferring (modify (λ p, p <| initOnce := true |>)) f.

(** The address of the package's variable stands for its value. *)
Definition DefNetwork : GoM process Network_ :=
  once_Do mustInitDefNetwork;;
  gets defNetwork.

Definition defaultLocalIP : GoM process (option IPAddr * error) :=
  n ← DefNetwork;
  on_system (ResolveLocal (hostInLocalAS n)).

(** [snet.Network.Listen] of a network that may be nil. *)
Definition network_Listen (n : Network_) (a : NetUDPAddr) : GoM process (option NetConn * error) :=
  sn ← deref (net_Network n);
  on_system (snet_Listen (LocalIA sn) (NetDispatcher sn) (IP a) (Port a) (Zone a)).

Definition unspecified (ip : option IPAddr) : bool :=
  match ip with None => true | Some ip => IsUnspecified ip end.

(** SCION_GO_INTEGRATION only decides whether a line is printed. *)
Definition appnet_Listen (listen : option NetUDPAddr) : GoM process (option NetConn * error) :=
  let listen := default (mkNetUDPAddr None 0 "") listen in
  '(listen, err) ←
    (if unspecified (IP listen) then
       '(localIP, err) ← defaultLocalIP;
       match err with
       | Some e => mret (listen, Some e)
       | None => mret (mkNetUDPAddr localIP (Port listen) (Zone listen), None)
       end
     else mret (listen, None));
  match err with
  | Some e => mret (None, Some e)
  | None =>
      n ← DefNetwork;
      on_system (LookupEnv "SCION_GO_INTEGRATION");;
      network_Listen n listen
  end.

Definition ListenPort (port : Z) : GoM process (option NetConn * error) :=
  appnet_Listen (Some (mkNetUDPAddr None port "")).
(** The uses of the package. *)
Inductive use : Type :=
  | UDefNetwork
  | UListen (a : option NetUDPAddr)
  | UListenPort (port : Z).

Definition perform (u : use) : GoM process unit :=
  match u with
  | UDefNetwork => DefNetwork;; mret tt
  | UListen a => appnet_Listen a;; mret tt
  | UListenPort port => ListenPort port;; mret tt
  end.
End Appnet.

(** ** Lemmas *)
Section Lemmas.
Context `{Snet} {N : Type} `{!PacketNet N} `{!AppnetSystem N}.
Abbreviation P := (process (N := N)).

(** Once initialised, the network stays. *)
Definition settled (p p' : P) : Prop :=
  initOnce p = true → initOnce p' = true ∧ defNetwork p' = defNetwork p.
#[export] Instance settled_preorder : PreOrder settled.
Proof. split; [by intros p|]. intros p1 p2 p3 H1 H2 Hp. destruct (H1 Hp) as [Hi <-]. by apply H2. Qed.

Lemma settled_on_system {A} (m : GoM N A) : within settled (on_system m).
Proof. intros p. unfold on_system, zoom. by destruct (m (system p)). Qed.

Lemma settled_once f : within settled (once_Do f).
Proof.
  intros p Hp. unfold once_Do, get_state, mbind, GoM_bind. by rewrite Hp.
Qed.
#[local] Hint Resolve settled_on_system settled_once : go.

Lemma settled_DefNetwork : within settled DefNetwork.
Proof. apply within_bind; [apply _|apply settled_once|by intros _ p]. Qed.
#[local] Hint Resolve settled_DefNetwork : go.

Lemma settled_deref {A} (o : option A) : within settled (deref o : GoM P A).
Proof. by destruct o. Qed.

Lemma settled_Listen a : within settled (appnet_Listen a).
Proof.
  unfold appnet_Listen, defaultLocalIP, network_Listen.
  repeat first [progress intros | solve [auto with go] | apply within_ret; apply _
    | apply settled_deref | case_match | apply within_bind; [apply _| |]].
Qed.

(** A first use that returns has initialised the network. *)
Lemma DefNetwork_inits (p : P) n p' :
  DefNetwork p = (Ok n, p') → initOnce p' = true ∧ defNetwork p' = n.
Proof.
  unfold DefNetwork. intros (u & p1 & R1 & R)%bind_inv. injection R as <- <-. split; [|done].
  unfold once_Do in R1. apply bind_inv in R1 as (p0 & p2 & [= <- <-] & R1).
  destruct (initOnce p) eqn:Hi; [by apply ret_inv in R1 as [_ ->]|].
  unfold deferring in R1. destruct (mustInitDefNetwork p) as [[[]| | |] p3]; [|done..].
  apply bind_inv in R1 as (u' & p4 & [= _ <-] & [_ ->]%ret_inv). done.
Qed.

Lemma DefNetwork_settled (p : P) : initOnce p = true → DefNetwork p = (Ok (defNetwork p), p).
Proof. intros Hi. unfold DefNetwork, once_Do, mbind, GoM_bind, get_state. by rewrite Hi. Qed.

Lemma settled_perform u : within settled (perform u).
Proof.
  destruct u; (apply within_bind; [apply _| |intros ?; apply within_ret; apply _]).
  - apply settled_DefNetwork.
  - apply settled_Listen.
  - apply settled_Listen.
Qed.

(** The parts of an initialised network belong together. *)
Definition consistent (n : Network_) : Prop :=
  ∀ sn, net_Network n = Some sn →
    LocalIA sn = net_IA n ∧
    ∃ d dispatcher, PathQuerier n = Some (d, net_IA n) ∧
      NetDispatcher sn = mkTimedPacketDispatcherService dispatcher (Some (DefaultSCMPHandler d)).

Definition sound (p : P) : Prop := consistent (defNetwork p).

Lemma sound_on_system {A} (m : GoM N A) : preserves sound (on_system m).
Proof. intros p Hp. unfold on_system, zoom. destruct (m (system p)). exact Hp. Qed.

Lemma sound_deref {A} (o : option A) : preserves sound (deref o : GoM P A).
Proof. intros p Hp. by destruct o. Qed.
#[local] Hint Resolve sound_on_system sound_deref : go.

Lemma sound_init : preserves sound initDefNetwork.
Proof.
  unfold initDefNetwork, findDispatcher, findDispatcherSocket, statSocket, findDaemon,
    findAnyHostInLocalAS, env_or.
  preserves. intros p _ sn [= <-]. naive_solver.
Qed.
#[local] Hint Resolve sound_init : go.

Lemma sound_DefNetwork : preserves sound DefNetwork.
Proof.
  unfold DefNetwork. apply preserves_bind; [|auto with go].
  apply preserves_bind; [auto with go|]. intros p0. case_match; [auto with go|].
  assert (preserves sound mustInitDefNetwork) as Hm.
  { unfold mustInitDefNetwork. preserves. by intros p. }
  intros p Hp. specialize (Hm p Hp). unfold deferring.
  by destruct (mustInitDefNetwork p) as [[] p1].
Qed.

(** [localIP, err := defaultLocalIP()], with the network the process then has. *)
Lemma defaultLocalIP_inv (p : P) r p' :
  defaultLocalIP p = (Ok r, p') →
  ∃ s s', initOnce p' = true ∧ ResolveLocal (hostInLocalAS (defNetwork p')) s = (Ok r, s').
Proof.
  unfold defaultLocalIP. intros (n & p1 & [Hi <-]%DefNetwork_inits & R)%bind_inv.
  destruct (within_run _ _ _ _ _ (settled_on_system _) R Hi) as [Hi' ->].
  unfold on_system, zoom in R. destruct (ResolveLocal _ _) as [o s'] eqn:E.
  injection R as -> _. eauto.
Qed.

(** When the network cannot be initialised, its first use ends the process. *)
Lemma DefNetwork_exits (p : P) e p1 :
  initOnce p = false → initDefNetwork p = (Ok (Some e), p1) →
  DefNetwork p = (Exits ("Error initializing SCION network: " +:+ e), p1).
Proof.
  intros Hi R. unfold DefNetwork, once_Do, mustInitDefNetwork, deferring, mbind, GoM_bind, get_state.
  by rewrite Hi, R.
Qed.

Lemma sound_Listen a : preserves sound (appnet_Listen a).
Proof.
  pose proof sound_DefNetwork. unfold appnet_Listen, defaultLocalIP, network_Listen. preserves.
Qed.

Lemma Listen_exits (p : P) a e p1 :
  initOnce p = false → initDefNetwork p = (Ok (Some e), p1) →
  appnet_Listen a p = (Exits ("Error initializing SCION network: " +:+ e), p1).
Proof.
  intros Hi R. pose proof (DefNetwork_exits _ _ _ Hi R) as E.
  unfold appnet_Listen, defaultLocalIP. cbv zeta. destruct (unspecified _).
  - unfold mbind, GoM_bind. by rewrite E.
  - unfold mbind, GoM_bind, mret, GoM_ret. by rewrite E.
Qed.
End Lemmas.

(** ** Properties *)
Section Claims.
Context `{Snet} {N : Type} `{!PacketNet N} `{!AppnetSystem N}.
Abbreviation P := (process (N := N)).

(** C24: The network is initialised once. After a first use that returned, and
    whatever the package is used for afterwards, DefNetwork gives that same
    network, without touching the system. *)
Theorem DefNetwork_once (p : P) n p1 us rs p2 :
  DefNetwork p = (Ok n, p1) → go_map perform us p1 = (Ok rs, p2) →
  DefNetwork p2 = (Ok n, p2).
Proof.
  intros [Hi <-]%DefNetwork_inits R.
  assert (within settled (go_map perform us)) as Hs
    by (apply within_go_map; [apply _|apply settled_perform]).
  destruct (within_run _ _ _ _ _ Hs R Hi) as [Hi2 <-]. by apply DefNetwork_settled.
Qed.

(** C30: A socket that Listen opens is on the default network's AS, through its
    dispatcher, at the port and zone asked for, and at the IP asked for, unless
    that is absent or unspecified: then at the one that ResolveLocal gives for
    the host of the local AS found when the network was initialised. *)
Theorem Listen_opens (p : P) a c err p' :
  sound p → appnet_Listen a p = (Ok (Some c, err), p') →
  let l := default (mkNetUDPAddr None 0 "") a in let n := defNetwork p' in
  ∃ sn ip s1, initOnce p' = true ∧ net_Network n = Some sn ∧ sound p' ∧
    (if unspecified (IP l) then ∃ s2 s3, ResolveLocal (hostInLocalAS n) s2 = (Ok (ip, None), s3)
     else ip = IP l) ∧
    snet_Listen (net_IA n) (NetDispatcher sn) ip (Port l) (Zone l) s1 = (Ok (Some c, err), system p').
Proof.
  intros Hp R l n. pose proof (preserves_run _ _ _ _ _ (sound_Listen a) Hp R) as Hp'.
  pose proof Hp' as HS. unfold appnet_Listen in R. cbv zeta in R. fold l in R.
  apply bind_inv in R as ([l' e] & p1 & R1 & R).
  destruct e as [e|]; [by apply ret_inv in R as [[= <-] ->]|].
  apply bind_inv in R as (n' & p2 & R2 & R).
  apply bind_inv in R as (env & p3 & R3 & R).
  pose proof (within_run _ _ _ _ _ settled_DefNetwork R2) as Hs12.
  apply DefNetwork_inits in R2 as [Hi2 <-].
  destruct (within_run _ _ _ _ _ (settled_on_system _) R3 Hi2) as [Hi3 H32].
  unfold network_Listen in R. destruct (net_Network (defNetwork p2)) as [sn|] eqn:Hsn; [|done].
  simpl in R. rewrite bind_ret_l in R.
  destruct (within_run _ _ _ _ _ (settled_on_system _) R Hi3) as [Hi' H'].
  rewrite H32 in H'. unfold sound in Hp'. fold n in H', Hp'. rewrite H' in Hp'.
  destruct (Hp' sn Hsn) as [Hia _]. rewrite Hia in R.
  unfold on_system, zoom in R. destruct (snet_Listen _ _ _ _ _ _) as [o s1] eqn:Ho.
  injection R as -> <-. exists sn, (IP l'), (system p3). rewrite !H'.
  destruct (unspecified (IP l)).
  - apply bind_inv in R1 as ([ip e] & p0 & Hip & R1). destruct e as [e|];
      [by apply ret_inv in R1 as [[=] _]|].
    apply ret_inv in R1 as [[= ->] ->]. apply defaultLocalIP_inv in Hip as (s2 & s3 & Hi0 & Hip).
    destruct (Hs12 Hi0) as [_ H12]. rewrite H12 in *.
    split_and!; eauto.
  - apply ret_inv in R1 as [[= ->] ->]. by split_and!.
Qed.
End Claims.

(** ** A sample system *)
Module SampleSystem.
Import SampleSocket.

#[global] Instance appnet_system : AppnetSystem (list (list ascii)) := {
  IPAddr := string; IsUnspecified := λ ip, bool_decide (ip = "0.0.0.0"%string);
  IA_ := string; zero_IA := ""%string; DaemonConnector := string; NetConn := string * string * Z;
  DefaultAPIAddress := "127.0.0.1:30255"%string;
  DefaultDispPath := "/run/shm/dispatcher/default.sock"%string;
  LookupEnv := λ name, mret (if bool_decide (name = "SCION_DAEMON_ADDRESS"%string)
                             then Some "10.0.0.9:30255"%string else None);
  os_Stat := λ _, mret (Z.lor ModeSocket 493, None);
  FileMode_String := λ _, "Srwxr-xr-x"%string;
  reliable_NewDispatcher := λ _, tt;
  DefaultSCMPHandler := λ _, tt;
  daemon_Connect := λ a, mret (a, None);
  daemon_LocalIA := λ _, mret ("1-ff00:0:110"%string, None);
  UnderlayAnycast := λ _, mret (Some (Some "10.0.0.2"%string), None);
  ResolveLocal := λ _, mret (Some "10.0.0.1"%string, None);
  snet_Listen := λ ia _ ip port _, mret (Some (ia, default ""%string ip, port), None)
}.

Definition start : process := mk_process false (mkNetwork None ""%string None None) [].
Definition used : Network_ := mkNetwork
  (Some (mkSCIONNetwork "1-ff00:0:110"%string (mkTimedPacketDispatcherService tt (Some tt))))
  "1-ff00:0:110"%string (Some ("10.0.0.9:30255", "1-ff00:0:110")%string) (Some "10.0.0.2"%string).
Definition anywhere : NetUDPAddr := mkNetUDPAddr (Some ("0.0.0.0"%string : IPAddr)) 80 "".
End SampleSystem.

Section Witnesses.
Import SampleSocket SampleSystem.

Lemma DefNetwork_once_witness :
  DefNetwork start = (Ok used, mk_process true used []) ∧
  DefNetwork (mk_process true used []) = (Ok used, mk_process true used []).
Proof.
  split; [reflexivity|].
  apply (DefNetwork_once start used (mk_process true used []) [UListenPort 80; UDefNetwork] [tt; tt]);
    reflexivity.
Defined.

Lemma Listen_opens_witness :
  appnet_Listen (Some anywhere) start
  = (Ok (Some ("1-ff00:0:110"%string, "10.0.0.1"%string, 80%Z), None), mk_process true used []) ∧
  ∃ sn, net_Network used = Some sn.
Proof.
  split; [reflexivity|].
  assert (sound start) as Hs by (intros sn; discriminate).
  edestruct (Listen_opens start (Some anywhere) _ _ _ Hs eq_refl)
    as (sn & ip & s1 & _ & Hsn & _). by exists sn.
Defined.

(** A file that is not a socket ends the process at the first use. *)
Example plain_file : isSocket 420 = false ∧ isSocket (Z.lor ModeSocket 420) = true.
Proof. done. Qed.
End Witnesses.
