(* ===== verification/Debug.v ===== *)
(** * The debugging selector (debug/selector.go)

    A pan.Selector that waits before it hands each call to another one, so that
    callers see a slow selector. It is proved equal to the selector it wraps in
    everything but time. *)

From S2P Require Import Prelude PanPath.

(** pan.Selector: selector objects [Sel], whose state is in [W]. *)
Class PanSelector `{Pan} (W Sel : Type) := {
  sel_Initialize : Sel → UDPAddr → UDPAddr → list (option PanPath) → GoM W unit;
  sel_Path : Sel → GoM W (option PanPath);
  sel_PathDown : Sel → PathFingerprint → PathInterface → GoM W unit;
  sel_Refresh : Sel → list (option PanPath) → GoM W unit;
  sel_Close : Sel → GoM W error
}.

Section DebugSelector.
Context `{Pan} {W Sel : Type} `{!PanSelector W Sel} (NewDefaultSelector : GoM W Sel).

(** The selectors' state and the time that has been slept, in nanoseconds. *)
Record timed := mk_timed { inner : W; slept : Z }.
#[export] Instance eta_timed : Eta timed := λ t, mk_timed (inner t) (slept t).

Definition untimed {A} (m : GoM W A) : GoM timed A := zoom inner (λ w t, t <| inner := w |>) m.

(** [time.Sleep]: a duration that is not positive returns at once. *)
Definition Sleep (d : Z) : GoM timed unit := modify (λ t, t <| slept := (slept t + Z.max 0 d)%Z |>).

Record DebugSelector := mkDebugSelector { delay : Z; s : Sel }.

Definition NewDebugSelector (delay : Z) (selector : option Sel)
    : GoM timed (option DebugSelector * error) :=
  sel ← match selector with None => untimed NewDefaultSelector | Some sel => mret sel end;
  mret (Some (mkDebugSelector delay sel), None).

Definition Debug_Initialize (d : DebugSelector) (local remote : UDPAddr) (paths : list (option PanPath))
    : GoM timed unit :=
  Sleep (delay d);; untimed (sel_Initialize (s d) local remote paths).

Definition Debug_Path (d : DebugSelector) : GoM timed (option PanPath) :=
  Sleep (delay d);;
  res ← untimed (sel_Path (s d));
  mret res.

Definition Debug_PathDown (d : DebugSelector) (fp : PathFingerprint) (pi : PathInterface)
    : GoM timed unit :=
  Sleep (delay d);; untimed (sel_PathDown (s d) fp pi).

Definition Debug_Refresh (d : DebugSelector) (paths : list (option PanPath)) : GoM timed unit :=
  Sleep (delay d);; untimed (sel_Refresh (s d) paths).

Definition Debug_Close (d : DebugSelector) : GoM timed error :=
  Sleep (delay d);;
  err ← untimed (sel_Close (s d));
  mret err.
End DebugSelector.
Arguments timed W : clear implicits.
Arguments DebugSelector Sel : clear implicits.

#[export] Instance debug_selector `{Pan} {W Sel} `{!PanSelector W Sel}
    : PanSelector (timed W) (DebugSelector Sel) := {
  sel_Initialize := Debug_Initialize;
  sel_Path := Debug_Path;
  sel_PathDown := Debug_PathDown;
  sel_Refresh := Debug_Refresh;
  sel_Close := Debug_Close
}.

(** ** Calls of a selector *)
Section Calls.
Context `{Pan}.

Inductive call : Type :=
  | CInitialize (local remote : UDPAddr) (paths : list (option PanPath))
  | CPath
  | CPathDown (fp : PathFingerprint) (pi : PathInterface)
  | CRefresh (paths : list (option PanPath))
  | CClose.

(** What a call gives back. *)
Inductive answer : Type :=
  | Nothing
  | APath (p : option PanPath)
  | AError (e : error).

Definition apply {W Sel} `{!PanSelector W Sel} (sel : Sel) (c : call) : GoM W answer :=
  match c with
  | CInitialize l r ps => sel_Initialize sel l r ps;; mret Nothing
  | CPath => APath <$> sel_Path sel
  | CPathDown fp pi => sel_PathDown sel fp pi;; mret Nothing
  | CRefresh ps => sel_Refresh sel ps;; mret Nothing
  | CClose => AError <$> sel_Close sel
  end.
End Calls.

Section Lemmas.
Context `{Pan} {W Sel : Type} `{!PanSelector W Sel}.
Implicit Types (d : DebugSelector Sel) (t : timed W) (w : W).

(** The same selectors, whatever the time. *)
Definition same (t : timed W) (w : W) : Prop := inner t = w.

Lemma sim_slow {A} delay (m : GoM W A) t w :
  same t w → sim_at same (Sleep delay;; untimed m) m t w.
Proof.
  intros <-. unfold sim_at, same, Sleep, untimed, zoom, modify, mbind, GoM_bind. simpl.
  by destruct (m (inner t)).
Qed.

Lemma sim_again {A B} (m1 : GoM (timed W) A) (m2 : GoM W A) (f : A → B) t w :
  sim_at same m1 m2 t w → sim_at same (f <$> m1) (f <$> m2) t w.
Proof. intros Hs. apply sim_bind; [done|]. intros a t1 w1. apply sim_ret. Qed.

Lemma sim_apply d c t w : same t w → sim_at same (apply d c) (apply (s d) c) t w.
Proof.
  intros Hs. pose proof (λ A m, sim_slow (A := A) (delay d) m t w Hs) as Hm.
  destruct c; simpl; (apply sim_bind; [|by intros; apply sim_ret]).
  - exact (Hm _ (sel_Initialize (s d) local remote paths)).
  - specialize (Hm _ (sel_Path (s d))). unfold Debug_Path, sim_at, mret, GoM_ret, mbind, GoM_bind in *.
    simpl in *. by destruct (untimed _ _) as [[] ?].
  - exact (Hm _ (sel_PathDown (s d) fp pi)).
  - exact (Hm _ (sel_Refresh (s d) paths)).
  - specialize (Hm _ (sel_Close (s d))). unfold Debug_Close, sim_at, mret, GoM_ret, mbind, GoM_bind in *.
    simpl in *. by destruct (untimed _ _) as [[] ?].
Qed.

(** Every call, failing ones too, has slept once. *)
Lemma slept_apply d c t : slept (apply d c t).2 = (slept t + Z.max 0 (delay d))%Z.
Proof.
  destruct c; unfold apply, sel_Initialize, sel_Path, sel_PathDown, sel_Refresh, sel_Close, debug_selector,
    Debug_Initialize, Debug_Path, Debug_PathDown, Debug_Refresh, Debug_Close, Sleep, modify, untimed, zoom,
    fmap, GoM_fmap, mret, GoM_ret, mbind, GoM_bind; simpl;
    repeat case_match; simplify_eq; done.
Qed.

Lemma slept_calls d cs t rs t' :
  go_map (apply d) cs t = (Ok rs, t') →
  slept t' = (slept t + Z.of_nat (length cs) * Z.max 0 (delay d))%Z.
Proof.
  revert t rs. induction cs as [|c cs IH]; intros t rs R.
  { apply ret_inv in R as [_ ->]. simpl. lia. }
  apply bind_inv in R as (a & t1 & R1 & R). apply bind_inv in R as (as_ & t2 & R2 & [_ ->]%ret_inv).
  apply IH in R2. pose proof (slept_apply d c t) as H1. rewrite R1 in H1. simpl in *. lia.
Qed.
End Lemmas.

(** ** Property *)
Section Claims.
Context `{Pan} {W Sel : Type} `{!PanSelector W Sel}.

(** C32: The debugging selector is the selector it wraps, only slower: any
    sequence of calls has the same outcome on both, answers, errors and panics
    included, and leaves the wrapped selector's state the same; a sequence of n
    calls that returns has slept n times the delay. *)
Theorem DebugSelector_transparent (default : GoM W Sel) (delay : Z) (selector : Sel) (w : W) (t0 : Z) cs :
  ∃ d, NewDebugSelector default delay (Some selector) (mk_timed w t0)
       = (Ok (Some d, None), mk_timed w t0) ∧
  let '(r, t) := go_map (apply d) cs (mk_timed w t0) in
  go_map (apply selector) cs w = (r, inner t) ∧
  match r with
  | Ok _ => slept t = (t0 + Z.of_nat (length cs) * Z.max 0 delay)%Z
  | _ => True
  end.
Proof.
  exists (mkDebugSelector delay selector). split; [done|].
  pose proof (sim_go_map same (apply (mkDebugSelector delay selector)) (apply selector) cs
    (mk_timed w t0) w eq_refl (λ c t1 w1, sim_apply _ c t1 w1)) as [Ho Hs].
  destruct (go_map _ cs (mk_timed w t0)) as [r t] eqn:R. split.
  - unfold same in Hs. simpl in *. destruct (go_map _ cs w). simpl in *. by subst.
  - destruct r; [|done..]. by apply slept_calls in R.
Qed.
End Claims.
