(* ===== verification/Daemon.v ===== *)
(** * The daemon (cmd/daemon/main.go, rpc.NewServer, taps.DefaultSelector)

    main makes one Lua state for the selector and the statistics, loads the
    script, falls back to a default selector per connection when that fails, and
    serves the three RPC services. The state of the daemon composes the states
    of the other files; an event is a request, a callback or a round of the
    selector's goroutine, in any order. *)

From S2P Require Import Prelude Enums Taps PanPath GobRpc ServerSelector SelectorServer.
From S2P Require Import TracerMsg ConnTracer QuicTracer LuaApi LuaSelector LuaStats.

(** ** The default selector

    pan.DefaultSelector, a parameter: its objects [Sel] have their state in [W].
    taps.DefaultSelector embeds one and ignores preferences. *)
Class PanDefaultSelector `{Pan} (W Sel : Type) := {
  pan_new : GoM W Sel;
  pan_Initialize : Sel → UDPAddr → UDPAddr → list (option PanPath) → GoM W unit;
  pan_Path : Sel → GoM W (option PanPath);
  pan_PathDown : Sel → PathFingerprint → PathInterface → GoM W unit;
  pan_Refresh : Sel → list (option PanPath) → GoM W unit;
  pan_Close : Sel → GoM W error
}.

Definition DefaultSelector_SetPreferences {W Sel} (s : Sel) (prefs : option ConnectionPreferences)
    : GoM W error := mret None.

#[export] Instance DefaultSelector_object `{Pan} {W Sel} `{!PanDefaultSelector W Sel}
    : SelectorObject W Sel := {
  obj_Initialize := pan_Initialize;
  obj_SetPreferences := DefaultSelector_SetPreferences;
  obj_Path := pan_Path;
  obj_PathDown := pan_PathDown;
  obj_Refresh := pan_Refresh;
  obj_Close := pan_Close
}.

(** ** The state and its services *)
Section Daemon.
Context `{Pan} `{Quic} `{!QuicFields} {X : Type} `{!LuaVM X} (Duration_String : Z → string).
Context {W Sel Q : Type} `{!PanDefaultSelector W Sel} `{!LoggingTracer Q}.

(** The Lua state is in [d_script], where the statistics use it too; the script
    selects paths unless [d_default] is there. *)
Record daemon := mk_daemon {
  d_script : LuaSelector X;
  d_default : option (serverSelector (W := W) (Sel := Sel));
  d_stats : loc;
  d_tracer : Q
}.
#[export] Instance eta_daemon : Eta daemon := λ d,
  mk_daemon (d_script d) (d_default d) (d_stats d) (d_tracer d).

Definition on_script {A} (m : GoM (LuaSelector X) A) : GoM daemon A :=
  zoom d_script (λ s d, d <| d_script := s |>) m.
Definition on_tracer {A} (m : GoM Q A) : GoM daemon A :=
  zoom d_tracer (λ q d, d <| d_tracer := q |>) m.
Definition on_stats {A} (m : GoM (Stats X) A) : GoM daemon A :=
  zoom (λ d, mkStats (lua (d_script d)) (d_stats d))
    (λ s d, d <| d_script := (d_script d) <| lua := stats_state s |> |> <| d_stats := stats_mod s |>) m.

(** The selector main passes to NewServer. *)
Definition on_selector {A} (script : GoM (LuaSelector X) A)
    (default : GoM (serverSelector (W := W) (Sel := Sel)) A) : GoM daemon A := λ d,
  match d_default d with
  | None => on_script script d
  | Some s => let '(r, s') := default s in (r, d <| d_default := Some s' |>)
  end.

(** [func(pan.UDPAddr, pan.UDPAddr) taps.Selector { return &taps.DefaultSelector{} }] *)
Definition default_fn (local remote : UDPAddr) : GoM W Sel := pan_new.

#[export] Instance daemon_selector : ServerSelector daemon := {
  ss_Initialize p l r ps := on_selector (LuaSelector_Initialize Duration_String p l r ps)
                              (serverSelector_Initialize default_fn p l r ps);
  ss_SetPreferences p l r := on_selector (LuaSelector_SetPreferences Duration_String p l r)
                              (serverSelector_SetPreferences default_fn p l r);
  ss_Path l r := on_selector (LuaSelector_Path l r) (serverSelector_Path default_fn l r);
  ss_PathDown l r fp pi := on_selector (LuaSelector_PathDown l r fp pi)
                              (serverSelector_PathDown default_fn l r fp pi);
  ss_Refresh l r ps := on_selector (LuaSelector_Refresh l r ps)
                              (serverSelector_Refresh default_fn l r ps);
  ss_Close l r := on_selector (LuaSelector_Close l r) (serverSelector_Close default_fn l r)
}.

#[export] Instance daemon_tracer : LoggingTracer daemon := {
  lt_SentPacket a h n fs := on_tracer (lt_SentPacket a h n fs);
  lt_DroppedPacket a t n r := on_tracer (lt_DroppedPacket a t n r)
}.

#[export] Instance daemon_statistics : ServerConnectionTracer daemon := {
  ct_TracerForConnection i p o := on_stats (ct_TracerForConnection i p o);
  ct_StartedConnection l r s d := on_stats (ct_StartedConnection l r s d);
  ct_NegotiatedVersion l r v cs ss := on_stats (ct_NegotiatedVersion l r v cs ss);
  ct_ClosedConnection l r e := on_stats (ct_ClosedConnection l r e);
  ct_SentTransportParameters l r p := on_stats (ct_SentTransportParameters l r p);
  ct_ReceivedTransportParameters l r p := on_stats (ct_ReceivedTransportParameters l r p);
  ct_RestoredTransportParameters l r p := on_stats (ct_RestoredTransportParameters l r p);
  ct_SentPacket l r h n a fs := on_stats (ct_SentPacket l r h n a fs);
  ct_ReceivedVersionNegotiationPacket l r h vs := on_stats (ct_ReceivedVersionNegotiationPacket l r h vs);
  ct_ReceivedRetry l r h := on_stats (ct_ReceivedRetry l r h);
  ct_ReceivedPacket l r h n fs := on_stats (ct_ReceivedPacket l r h n fs);
  ct_BufferedPacket l r t := on_stats (ct_BufferedPacket l r t);
  ct_DroppedPacket l r t n x := on_stats (ct_DroppedPacket l r t n x);
  ct_UpdatedMetrics l r s c b p := on_stats (ct_UpdatedMetrics l r s c b p);
  ct_AcknowledgedPacket l r e p := on_stats (ct_AcknowledgedPacket l r e p);
  ct_LostPacket l r e p x := on_stats (ct_LostPacket l r e p x);
  ct_UpdatedCongestionState l r x := on_stats (ct_UpdatedCongestionState l r x);
  ct_UpdatedPTOCount l r x := on_stats (ct_UpdatedPTOCount l r x);
  ct_UpdatedKeyFromTLS l r e p := on_stats (ct_UpdatedKeyFromTLS l r e p);
  ct_UpdatedKey l r g x := on_stats (ct_UpdatedKey l r g x);
  ct_DroppedEncryptionLevel l r e := on_stats (ct_DroppedEncryptionLevel l r e);
  ct_DroppedKey l r g := on_stats (ct_DroppedKey l r g);
  ct_SetLossTimer l r t e x := on_stats (ct_SetLossTimer l r t e x);
  ct_LossTimerExpired l r t e := on_stats (ct_LossTimerExpired l r t e);
  ct_LossTimerCanceled l r := on_stats (ct_LossTimerCanceled l r);
  ct_Close l r := on_stats (ct_Close l r);
  ct_Debug l r n m := on_stats (ct_Debug l r n m)
}.
End Daemon.
Arguments daemon {_} X W Sel Q.
Arguments mk_daemon {_ X W Sel Q} _ _ _ _.

(** rpc.NewServer: what the three registered services offer. *)
Record Server `{Pan} `{Quic} (S : Type) := mkServer {
  selector_methods : string → option (method S SelectorMsg SelectorMsg);
  tracer_methods : string → option (method S TracerMsg TracerMsg);
  connection_methods : string → option (method S ConnectionTracerMsg unit)
}.

Definition NewServer `{Pan} `{Quic} {S} `{!ServerSelector S} `{!LoggingTracer S}
    `{!ServerConnectionTracer S} : Server S :=
  mkServer _ _ S SelectorServer_registry TracerServer_registry ConnectionTracerServer_registry.

(** ** main *)
Section Main.
Context `{Pan} `{Quic} `{!QuicFields} {X : Type} `{!LuaVM X} (Duration_String : Z → string).
Context {W Sel Q : Type} `{!PanDefaultSelector W Sel} `{!LoggingTracer Q}.
Abbreviation D := (daemon X W Sel Q).
#[local] Instance selector_of_daemon : ServerSelector D := daemon_selector Duration_String.

(** Start-up, the socket and profiling apart: [opened] is the result of opening
    the script, [file] its contents; [w] and [q] are the states of the default
    selectors and of the qlog tracer. *)
Definition daemon_main (x : X) (opened : error) (file : string) (w : W) (q : Q) : outcome D :=
  match NewSelector (NewState x) with
  | Ok selector =>
      match NewStats (lua selector) with
      | Ok stats =>
          match LoadScript opened file (stats_state stats) with
          | (Ok err, l) =>
              Ok (mk_daemon (selector <| lua := l |>)
                    (match err with Some _ => Some (NewServerSelectorFunc w) | None => None end)
                    (stats_mod stats) q)
          | (Panics w, _) => Panics w
          | (Exits w, _) => Exits w
          | (Deadlocks, _) => Deadlocks
          end
      | Panics w => Panics w
      | Exits w => Exits w
      | Deadlocks => Deadlocks
      end
  | Panics w => Panics w
  | Exits w => Exits w
  | Deadlocks => Deadlocks
  end.

(** What reaches the daemon: a request to the selector, any message to the two
    tracing services, a round of the goroutine NewSelector started. *)
Inductive event : Type :=
  | Select (q : request) (local remote : UDPAddr)
  | Connection (name : string) (args : ConnectionTracerMsg)
  | Packets (name : string) (args : TracerMsg)
  | Tick (seconds : spec_float).

Definition handle {A B} (h : option (method D A B)) (args : A) : GoM D unit :=
  match h with Some h => h args;; mret tt | None => mret tt end.

(** The answer to a request, [None] for the other events. *)
Definition happen (e : event) : GoM D (option (option PanPath * error)) :=
  match e with
  | Select q l r => Some <$> serve q l r
  | Connection name args => handle (connection_methods _ NewServer name) args;; mret None
  | Packets name args => handle (tracer_methods _ NewServer name) args;; mret None
  | Tick seconds => on_script (Periodic seconds);; mret None
  end.

(** The daemon has been started and has dealt with events; a panic ends it.
    [offers] are the paths last offered for each remote address. *)
Definition event_offer (e : event) (o : gmap string (list PanPath)) : gmap string (list PanPath) :=
  match e with Select q _ r => offer q r o | _ => o end.

Definition event_distinct (e : event) : Prop :=
  match e with Select q _ _ => distinct q | _ => True end.

Inductive running : gmap string (list PanPath) → D → Prop :=
  | running_start x opened file w q d : daemon_main x opened file w q = Ok d → running ∅ d
  | running_event o d e a d' :
      running o d → event_distinct e → happen e d = (Ok a, d') → running (event_offer e o) d'.
End Main.

(** ** Isolation: tracing does not interfere with path selection *)
Section Isolation.
Context `{Pan} `{Quic} `{!QuicFields} {X : Type} `{LuaMemory X} (Duration_String : Z → string).
Context {W Sel Q : Type} `{!PanDefaultSelector W Sel} `{!LoggingTracer Q}.
Abbreviation D := (daemon X W Sel Q).

(** The Lua state may change, but its tables stay. *)
Definition stats_only (s s' : Stats X) : Prop :=
  tables_stay (stats_state s) (stats_state s') ∧ stats_mod s' = stats_mod s.
#[export] Instance stats_only_preorder : PreOrder stats_only.
Proof.
  split; [intros s; unfold stats_only, tables_stay; set_solver|].
  intros s1 s2 s3 [T1 M1] [T2 M2].
  split; [unfold tables_stay in *; set_solver|congruence].
Qed.

Lemma stats_only_on_state {A} (m : GoM (State X) A) :
  within tables_stay m → within stats_only (on_state m).
Proof.
  intros Hm s. unfold on_state, zoom. specialize (Hm (stats_state s)).
  by destruct (m (stats_state s)).
Qed.

Lemma stats_only_guarded {A} (body : GoM (Stats X) A) :
  within stats_only body → within stats_only (guarded (on_state Lock) (on_state Unlock) body).
Proof.
  intros Hb. apply within_bind; [apply _|apply stats_only_on_state, within_Lock|]. intros _.
  apply within_deferring; [apply _| |done]. apply stats_only_on_state, within_Unlock.
Qed.

Lemma stats_only_call fn args :
  within builds args → within stats_only (call_stats (X := X) fn args).
Proof.
  intros Ha. apply stats_only_guarded. apply within_bind; [apply _|by intros s|]. intros s.
  apply within_bind; [apply _|apply stats_only_on_state, within_RawGetString|]. intros f.
  apply within_bind; [apply _|by apply stats_only_on_state, builds_stay|]. intros vs.
  apply stats_only_on_state, within_CallByParam.
Qed.

(** What the selection of paths depends on stays: the maps between paths and
    tables, the tables, the default selectors. *)
Definition spares_selection (d d' : D) : Prop :=
  tables_stay (lua (d_script d)) (lua (d_script d')) ∧
  d_script d' = (d_script d) <| lua := lua (d_script d') |> ∧ d_default d' = d_default d.
#[export] Instance spares_selection_preorder : PreOrder spares_selection.
Proof.
  split; [intros [[] ? ? ?]; unfold spares_selection, tables_stay; set_solver|]. intros d1 d2 d3 (T1 & S1 & F1) (T2 & S2 & F2).
  split_and!; [unfold tables_stay in *; set_solver| |congruence]. by rewrite S2, S1.
Qed.

Lemma spares_on_stats {A} (m : GoM (Stats X) A) :
  within stats_only m → within spares_selection (on_stats m : GoM D A).
Proof.
  intros Hm [[l lp pp mo] df st q]. unfold on_stats, zoom. simpl.
  specialize (Hm (mkStats l st)). destruct (m (mkStats l st)) as [r s']. by destruct Hm.
Qed.

Lemma spares_on_tracer {A} (m : GoM Q A) : within spares_selection (on_tracer m : GoM D A).
Proof.
  intros [[l lp pp mo] df st q]. unfold on_tracer, zoom. simpl.
  destruct (m q). split_and!; [unfold tables_stay; set_solver|done..].
Qed.

(** The goroutine of the selector. *)
Definition lua_only (s s' : LuaSelector X) : Prop :=
  tables_stay (lua s) (lua s') ∧ s' = s <| lua := lua s' |>.
#[export] Instance lua_only_preorder : PreOrder lua_only.
Proof.
  split; [intros []; unfold lua_only, tables_stay; set_solver|].
  intros s1 s2 s3 [T1 S1] [T2 S2]. split; [unfold tables_stay in *; set_solver|].
  by rewrite S2, S1.
Qed.

Lemma lua_only_on_lua {A} (m : GoM (State X) A) : within tables_stay m → within lua_only (on_lua m).
Proof.
  intros Hm [l lp pp mo]. unfold on_lua, zoom. simpl. specialize (Hm l). by destruct (m l).
Qed.

Lemma lua_only_Periodic seconds : within lua_only (Periodic (X := X) seconds).
Proof.
  unfold Periodic, call_module.
  runs; apply lua_only_on_lua;
    auto using within_Lock, within_Unlock, within_RawGetString, within_CallByParam.
Qed.

Lemma spares_on_script {A} (m : GoM (LuaSelector X) A) :
  within lua_only m → within spares_selection (on_script m : GoM D A).
Proof.
  intros Hm [s df st q]. unfold on_script, zoom. simpl. specialize (Hm s).
  destruct (m s) as [r s']. destruct Hm. by split_and!.
Qed.

Lemma spares_statistics :
  Forall (λ m : string * method D ConnectionTracerMsg unit, ∀ args, within spares_selection (m.2 args))
    ConnectionTracerServer_methods.
Proof.
  repeat (apply Forall_cons; split); [..|by apply Forall_nil]; intros args; cbn [snd].
  all: match goal with |- within ?R ?t => let t' := eval red in t in change (within R t') end.
  all: repeat case_match; unfold returning; runs; cbn; apply spares_on_stats.
  all: try (apply stats_only_call; builds; fail).
  all: apply stats_only_guarded.
  all: runs; apply stats_only_on_state; auto using within_RawGetString, within_CallByParam.
  all: apply builds_stay, within_array_table; builds.
Qed.

(** Every event but a request spares the selection. *)
Lemma happen_spares e :
  match e with Select _ _ _ => True | _ => within (spares_selection) (happen Duration_String e : GoM D _) end.
Proof.
  destruct e as [|name args|name args|seconds]; [done|..]; unfold happen, handle.
  - cbn [connection_methods NewServer]. unfold ConnectionTracerServer_registry.
    destruct (list_find _ _) as [[i [n h]]|] eqn:Hf; [|runs].
    apply list_find_Some in Hf as (Hl & _ & _).
    pose proof (Forall_lookup_1 _ _ _ _ spares_statistics Hl args). runs.
  - cbn [tracer_methods NewServer]. unfold TracerServer_registry, TracerServer_SentPacket,
      TracerServer_DroppedPacket, returning.
    repeat (case_decide || case_match); runs; apply spares_on_tracer.
  - runs. apply spares_on_script, lua_only_Periodic.
Qed.
End Isolation.

(** ** Lemmas *)
Section Lemmas.
Context `{Pan} `{Quic} `{!QuicFields} {X : Type} `{LuaMemory X} (Duration_String : Z → string).
Context {W Sel Q : Type} `{!PanDefaultSelector W Sel} `{!LoggingTracer Q}.
Abbreviation D := (daemon X W Sel Q).
Abbreviation daemon_serve := (serve (ServerSelector0 := selector_of_daemon Duration_String)).

(** A request goes to the selector main chose. *)
Lemma serve_script q l r (d : D) :
  d_default d = None →
  daemon_serve q l r d = on_script (serve (ServerSelector0 := lua_interface Duration_String) q l r) d.
Proof.
  destruct d as [s df st tr]. simpl. intros ->.
  destruct q; simpl; unfold fmap, GoM_fmap, mbind, GoM_bind, on_selector, on_script, zoom; simpl;
    match goal with |- context [?m s] => by destruct (m s) as [[] ?] end.
Qed.

Lemma serve_default q l r (d : D) s :
  d_default d = Some s →
  daemon_serve q l r d =
  let '(res, s') := serve (ServerSelector0 := serverSelector_interface default_fn) q l r s in
  (res, d <| d_default := Some s' |>).
Proof.
  destruct d as [sc df st tr]. simpl. intros ->.
  destruct q; simpl; unfold fmap, GoM_fmap, mbind, GoM_bind, on_selector; simpl;
    match goal with |- context [?m s] => by destruct (m s) as [[] ?] end.
Qed.

Lemma LoadScript_stay opened file : within tables_stay (LoadScript (X := X) opened file).
Proof.
  intros l. unfold LoadScript. destruct opened; [by unfold tables_stay|].
  unfold on_vm, zoom, mbind, GoM_bind, tables_stay.
  pose proof (load_script_keeps file (tables l, vm l)) as K1.
  destruct (load_script file (tables l, vm l)) as [[[e|fn]| | |] [t x]]; simpl in *; try done.
  pose proof (run_script_keeps fn [] (t, x)) as K2.
  destruct (run_script fn [] (t, x)) as [[[e|vs]| | |] [t' x']]; simpl in *; set_solver.
Qed.

Lemma NewStats_stay (l : State X) s : NewStats l = Ok s → tables_stay l (stats_state s).
Proof.
  unfold NewStats, guarded.
  destruct (RegisterModule_run stats_functions (l <| mutex := true |>)) as (m & l' & R & [(Hd & _) _] & _).
  unfold Lock, mbind, GoM_bind. destruct (mutex l); [done|]. unfold deferring. rewrite R.
  unfold Unlock, mbind, GoM_bind, mret, GoM_ret. destruct (mutex l'); [|done]. by intros [= <-].
Qed.

(** Without a script the module "stats" is as NewStats made it. *)
Lemma daemon_main_untouched x e file w q (d : D) :
  daemon_main x (Some e) file w q = Ok d → untouched (mkStats (lua (d_script d)) (d_stats d)).
Proof.
  unfold daemon_main. destruct (NewSelector (NewState x)) as [s| | |] eqn:Hs; try done.
  assert (mutex (lua s) = false) as Hm.
  { unfold NewSelector, guarded, mbind, GoM_bind, Lock in Hs. simpl in Hs.
    destruct (deferring _ _ _) as [[m| | |] l] eqn:Hd; [|done..]. injection Hs as <-. simpl.
    unfold deferring in Hd. destruct (RegisterModule _ _) as [[m'| | |] l']; [|by apply bind_inv in Hd as (?&?&?&?)|done..].
    apply bind_inv in Hd as (u & l2 & Hu & [_ ->]%ret_inv). unfold Unlock in Hu.
    destruct (mutex l'); by simplify_eq. }
  destruct (NewStats_untouched (lua s) Hm) as (st & -> & Hst). simpl.
  intros [= <-]. by destruct st.
Qed.

(** A daemon that selects by script is in a state of the selector. *)
Lemma running_reachable o (d : D) :
  running Duration_String o d → d_default d = None → reachable Duration_String o (d_script d).
Proof.
  induction 1 as [x opened file w q d Hm|o d e a d' Hr IH He R]; intros Hd.
  - unfold daemon_main in Hm. destruct (NewSelector (NewState x)) as [s| | |] eqn:Hs; try done.
    destruct (NewStats (lua s)) as [st| | |] eqn:Ht; try done.
    pose proof (LoadScript_stay opened file (stats_state st)) as K.
    destruct (LoadScript opened file (stats_state st)) as [[err| | |] l]; try done.
    injection Hm as <-. apply reachable_lua; [by eapply reachable_new|].
    apply NewStats_stay in Ht. unfold tables_stay in *. by transitivity (dom (tables (stats_state st))).
  - pose proof (happen_spares Duration_String (W := W) (Sel := Sel) (Q := Q) e) as K.
    destruct e as [q l r|name args|name args|seconds]; cbn [event_offer];
      [|apply (within_run _ _ _ _ _ K) in R as (Ht & -> & Hdf);
        apply reachable_lua; [apply IH; congruence|done]..].
    apply bind_inv in R as (b & d1 & R & [_ ->]%ret_inv).
    destruct (d_default d) as [s|] eqn:Hdd.
    { rewrite (serve_default _ _ _ _ _ Hdd) in R. destruct (serve _ _ _ s). by simplify_eq. }
    rewrite (serve_script _ _ _ _ Hdd) in R. unfold on_script, zoom in R.
    destruct (serve q l r (d_script d)) as [res s'] eqn:Rs. simplify_eq. simpl.
    eapply reachable_serve; [by apply IH|exact He|exact Rs].
Qed.
End Lemmas.

(** ** Properties *)
Section Claims.
Context `{Pan} `{Quic} `{!QuicFields} {X : Type} `{LuaMemory X} (Duration_String : Z → string).
Context {W Sel Q : Type} `{!PanDefaultSelector W Sel} `{!LoggingTracer Q}.
Abbreviation D := (daemon X W Sel Q).
Abbreviation daemon_serve := (serve (ServerSelector0 := selector_of_daemon Duration_String)).

(** C9: A daemon with a script, after any sequence of messages to the tracing
    services (malformed ones too), of rounds of the goroutine and of requests whose
    offers have no two paths of the same fingerprint, all of which share the Lua
    state: Path returns only paths that are on offer. Without the condition on the
    offers a path withdrawn long ago can come back: LuaSelector.lua_stale_duplicate. *)
Theorem daemon_Path_offered o (d : D) l r p e d' :
  running Duration_String o d → d_default d = None →
  daemon_serve RPath l r d = (Ok (Some p, e), d') →
  ∃ raddr ps, o !! raddr = Some ps ∧ p ∈ ps.
Proof.
  intros Hr Hd R. rewrite (serve_script _ _ _ _ _ Hd) in R. unfold on_script, zoom in R.
  simpl in R. destruct (LuaSelector_Path l r (d_script d)) as [res s'] eqn:Rs. simplify_eq.
  exact (reachable_Path Duration_String _ _ _ _ _ _ _ (running_reachable _ _ _ Hr Hd) Rs).
Qed.

Definition selection (e : event) : option (request * UDPAddr * UDPAddr) :=
  match e with Select q l r => Some (q, l, r) | _ => None end.

Lemma fallback_run es (d : D) s a rs d' :
  key_injective → d_default d = Some s → represents s a →
  go_map (happen Duration_String) es d = (Ok rs, d') →
  (go_map (λ '(q, l, r), spec_serve default_fn q l r) (omap selection es) a).1 = Ok (omap id rs).
Proof.
  intros Hk. revert d s a rs. induction es as [|e es IH]; intros d s a rs Hd HR R.
  { apply ret_inv in R as [-> _]. done. }
  apply bind_inv in R as (x & d1 & R1 & R). apply bind_inv in R as (rs' & d2 & R2 & [-> ->]%ret_inv).
  pose proof (happen_spares Duration_String (W := W) (Sel := Sel) (Q := Q) e) as K.
  destruct e as [q l r|name args|name args|seconds].
  2-4: assert (x = None ∧ d_default d1 = Some s) as [-> Hd1];
    [split; [by apply bind_inv in R1 as (? & ? & _ & [-> _]%ret_inv)|
             apply (within_run _ _ _ _ _ K) in R1 as (_ & _ & ->); done]|exact (IH d1 s a rs' Hd1 HR R2)].
  apply bind_inv in R1 as (b & d0 & R1 & [-> ->]%ret_inv).
  rewrite (serve_default _ _ _ _ _ _ Hd) in R1.
  pose proof (sim_serve default_fn q l r s a Hk HR) as [Ho HR1].
  destruct (serve q l r s) as [res s1]. injection R1 as -> <-.
  destruct (spec_serve default_fn q l r a) as [res1 a1] eqn:Ra. cbn [fst snd] in *. subst res1.
  specialize (IH (d <| d_default := Some s1 |>) s1 a1 rs' eq_refl HR1 R2).
  change (omap selection (Select q l r :: es)) with ((q, l, r) :: omap selection es).
  cbn [go_map]. erewrite bind_ok by exact Ra. unfold mbind, GoM_bind.
  destruct (go_map _ (omap selection es) a1) as [res t]. cbn [fst] in IH. by subst res.
Qed.

(** C15: A daemon whose script does not load has one default selector per
    connection: when the printed pair of addresses identifies the connection, the
    requests among any sequence of events get the specification's answers,
    whatever the messages to the tracing services and what is left of the script
    do in between. *)
Theorem daemon_fallback x opened file w q (d : D) es rs d' :
  key_injective → daemon_main x opened file w q = Ok d → d_default d ≠ None →
  go_map (happen Duration_String) es d = (Ok rs, d') →
  (go_map (λ '(q, l, r), spec_serve default_fn q l r) (omap selection es)
     (mk_per_connection (λ _ _, None) w)).1 = Ok (omap id rs).
Proof.
  intros Hk Hm Hd R. unfold daemon_main in Hm.
  destruct (NewSelector (NewState x)) as [s| | |]; try done.
  destruct (NewStats (lua s)) as [st| | |]; try done.
  destruct (LoadScript opened file (stats_state st)) as [[[err|]| | |] l]; try done; injection Hm as <-;
    [|done]. refine (fallback_run es _ (NewServerSelectorFunc w) _ rs d' Hk _ _ R); [done|].
  split; [done|]. intros l' r'. apply lookup_empty.
Qed.

(** C35: A daemon started without a script that can be opened ends, by its answer,
    every application that closes a QUIC connection: the statistics stay with the
    Lua state, where nothing defines Close. *)
Theorem daemon_close_ends_application `{!PanCodecs} `{!PanFaithful} `{!QuicCodecs}
    x e file w q (c : tracing D) :
  daemon_main x (Some e) file w q = Ok (server (t_link c)) →
  up (t_link c) = true → closing (t_link c) = false →
  (report OnClose c).1 = Exits not_a_function.
Proof.
  intros Hm%daemon_main_untouched Hup Hcl. rewrite report_run.
  destruct c as [t [d up closing ce]]. simpl in *. subst up closing.
  destruct (delivery_untouched OnClose (c_local t) (c_remote t)
    (Stats_Close (c_local t) (c_remote t)) _ Hm eq_refl) as (s1 & _ & R1).
  unfold report_spec, or_fatal, ConnTracer.on_tracer, on_link, zoom, carry, mbind, GoM_bind. simpl.
  unfold on_stats, zoom. by rewrite R1.
Qed.
End Claims.

(** ** A sample daemon

    Its script puts four functions into the module "panapi", the first table the
    daemon makes: Initialize keeps the table of the first path, Path returns it,
    the rest does nothing. *)
Module SampleDaemon.
#[global] Existing Instances SamplePan.pan SampleTracer.quic SampleStats.fields.

Record machine := mk_machine { selected : option loc }.

Definition functions : LTable := mkLTable
  (list_to_map [("Initialize", LFunc (Script 0)); ("Path", LFunc (Script 1));
                ("Refresh", LFunc (Script 2)); ("Close", LFunc (Script 2))]%string) [].

Definition run (f : nat) (args : list LValue)
    : GoM (gmap loc LTable * machine) (string + list LValue) :=
  match f with
  | 0 => λ h,
      let first := match last args with
                   | Some (LTab (Some ps)) =>
                       h.1 !! ps ≫= λ t, match head (array t) with Some (LTab p) => p | _ => None end
                   | _ => None
                   end in
      (Ok (inr []), (h.1, mk_machine first))
  | 1 => λ h, (Ok (inr [LTab (selected h.2)]), h)
  | 2 => mret (inr [])
  | _ => λ h, (Ok (inr []), (<[1%positive := functions]> h.1, h.2))
  end.

#[global] Instance script : LuaVM machine := {|
  run_script := run; load_script _ := mret (inr 3); clock _ := S754_zero false |}.
#[global] Instance memory : LuaMemory machine.
Proof. split; [|done]. intros [|[|[|f]]] args [h x]; simpl; set_solver. Qed.

Definition objects : Type := gmap nat (list (option PanPath)).
#[global] Instance default : PanDefaultSelector objects nat := {
  pan_new w := (Ok (size w), <[size w := []]> w);
  pan_Initialize n _ _ ps := modify <[n := ps]>;
  pan_Path n := gets (λ w, w !! n ≫= λ ps, mjoin (head ps));
  pan_PathDown n fp _ := modify (alter (filter (λ p, pp_Fingerprint <$> p ≠ Some fp)) n);
  pan_Refresh n ps := modify <[n := ps]>;
  pan_Close n := mret None
}.

#[global] Instance qlog : LoggingTracer nat := {
  lt_SentPacket _ _ _ _ := modify S;
  lt_DroppedPacket _ _ _ _ := modify S
}.

Abbreviation D := (daemon machine objects nat nat).

(** The daemon of a user with that script, and of one without. *)
Definition started (opened : error) : outcome D :=
  daemon_main (mk_machine None) opened "-- script" ∅ 0.
Definition scripted : D :=
  match started None with
  | Ok d => d
  | _ => mk_daemon (mkLuaSelector (NewState (mk_machine None)) ∅ ∅ 1%positive) None 1%positive 0
  end.
Definition unscripted : D :=
  match started (Some "open : no such file or directory"%string) with Ok d => d | _ => scripted end.

Lemma scripted_started : daemon_main (mk_machine None) None "-- script" ∅ 0 = Ok scripted.
Proof. vm_compute. reflexivity. Qed.
Lemma unscripted_started :
  daemon_main (mk_machine None) (Some "open : no such file or directory"%string) "-- script" ∅ 0
  = Ok unscripted.
Proof. vm_compute. reflexivity. Qed.

Definition init : request := RInitialize None [Some (SamplePan.path "x" 7)].
Definition events : list event := [
  Select init SamplePan.ClientA SamplePan.Server;
  Connection "ConnectionTracerServer.LossTimerCanceled" empty_ConnectionTracerMsg;
  Tick (S754_zero false);
  Select RPath SamplePan.ClientA SamplePan.Server
].
End SampleDaemon.

(** The path of Initialize comes back, with a callback and a tick between. *)
Lemma daemon_Path_offered_witness :
  let text := SampleScript.text in
  let run := go_map (happen (Sel := nat) text) SampleDaemon.events SampleDaemon.scripted in
  run.1 = Ok [Some (None, None); None; None; Some (Some (SamplePan.path "x" 7), None)] ∧
  ∃ raddr ps, offer SampleDaemon.init SamplePan.Server ∅ !! raddr = Some ps ∧
    SamplePan.path "x" 7 ∈ ps.
Proof.
  intros text run. split; [vm_compute; reflexivity|].
  set (d0 := SampleDaemon.scripted).
  set (d1 := (happen text (Select SampleDaemon.init SamplePan.ClientA SamplePan.Server) d0).2).
  eapply (daemon_Path_offered (H := SamplePan.pan) (Sel := nat) text _ d1
    SamplePan.ClientA SamplePan.Server _ None);
    [|vm_compute; reflexivity|vm_compute; reflexivity].
  apply (running_event text ∅ d0 (Select SampleDaemon.init SamplePan.ClientA SamplePan.Server)
    (Some (None, None))); [|apply NoDup_singleton|vm_compute; reflexivity].
  exact (running_start text _ _ _ _ _ _ SampleDaemon.scripted_started).
Defined.

Lemma daemon_fallback_witness :
  let rs := [Some (None, None); None; None; Some (Some (SamplePan.path "x" 7), None)] in
  let run := go_map (happen SampleScript.text) SampleDaemon.events SampleDaemon.unscripted in
  run.1 = Ok rs ∧
  (go_map (λ '(q, l, r), spec_serve default_fn q l r) (omap selection SampleDaemon.events)
     (mk_per_connection (Sel := nat) (λ _ _, None) (∅ : SampleDaemon.objects))).1 = Ok (omap id rs).
Proof.
  intros rs run. assert (run = (Ok rs, run.2)) as R by (vm_compute; reflexivity).
  split; [exact (f_equal fst R)|].
  assert (d_default SampleDaemon.unscripted ≠ None) as Hd by (vm_compute; discriminate).
  exact (daemon_fallback SampleScript.text _ _ _ _ _ _ _ _ _ sample_key_injective
    SampleDaemon.unscripted_started Hd R).
Defined.

Lemma daemon_close_ends_application_witness :
  (report OnClose (mk_tracing (mkConnectionTracerClient (mkClient 42) 1 ["a"%char] 7 None None)
    (mkLink SampleDaemon.unscripted true false None false))).1 = Exits not_a_function.
Proof.
  eapply daemon_close_ends_application; [exact SampleDaemon.unscripted_started|reflexivity..].
Defined.
