(* ===== verification/StatsCalls.v ===== *)
(** * What the script hears of a connection (rpc/connection_tracer.go, lua/stats.go)

    A callback of quic-go at an application crosses net/rpc, the daemon's handler
    and its statistics, and ends in a call of a Lua function. [script_call] says,
    callback by callback, which function that is and what its arguments show; the
    theorem says that this call, under the mutex that selector and statistics
    share, is all that happens, or what ends the application. *)

From S2P Require Import Prelude PanPath GobRpc ServerSelector SelectorServer TracerMsg ConnTracer QuicTracer.
From S2P Require Import LuaApi LuaSelector LuaPath LuaStats Daemon.

(** ** What the arguments show *)
Section Shown.
Context `{Pan} `{Quic} `{!QuicFields} `{!PanCodecs} `{!QuicCodecs}.

(** A value at hand, or one that a table of its own shows: transport parameters
    (nil for nil), round-trip times in seconds, a list of versions. *)
Inductive shape :=
  | Val (v : LValue)
  | Parameters (p : option TransportParameters)
  | RoundTrips (s : logging_RTTStats)
  | Versions (vs : list Z).

Definition parameter_fields (p : TransportParameters) : list (string * LValue) :=
  [("InitialMaxStreamDataBidiLocal", number (tp_InitialMaxStreamDataBidiLocal p));
   ("InitialMaxStreamDataBidiRemote", number (tp_InitialMaxStreamDataBidiRemote p));
   ("InitialMaxStreamDataUni", number (tp_InitialMaxStreamDataUni p));
   ("InitialMaxData", number (tp_InitialMaxData p));
   ("MaxAckDelay", number (tp_MaxAckDelay p));
   ("AckDelayExponent", number (tp_AckDelayExponent p));
   ("DisableActiveMigration", LBool (tp_DisableActiveMigration p));
   ("MaxUDPPayloadSize", number (tp_MaxUDPPayloadSize p));
   ("MaxUniStreamNum", number (tp_MaxUniStreamNum p));
   ("MaxBidiStreamNum", number (tp_MaxBidiStreamNum p));
   ("MaxIdleTimeout", number (tp_MaxIdleTimeout p))]%string ++
  match tp_PreferredAddress p with
  | Some a => [("PreferredAddress", LString (PreferredAddress_text a))]%string
  | None => []
  end ++
  [("OriginalDestinationConnectionID", LString (ConnectionID_String (tp_OriginalDestinationConnectionID p)));
   ("InitialSourceConnectionID", LString (ConnectionID_String (tp_InitialSourceConnectionID p)));
   ("RetrySourceConnectionID", strhlpr ConnectionID_String (tp_RetrySourceConnectionID p));
   ("StatelessResetToken", LString (tp_StatelessResetToken_hex p));
   ("ActiveConnectionIDLimit", number (tp_ActiveConnectionIDLimit p));
   ("MaxDatagramFrameSize", number (tp_MaxDatagramFrameSize p))]%string.

Definition round_trip_fields (s : logging_RTTStats) : list (string * LValue) :=
  [("LatestRTT", LNumber (Seconds (stats_LatestRTT s))); ("MaxAckDelay", LNumber (Seconds (stats_MaxAckDelay s)));
   ("MeanDeviation", LNumber (Seconds (stats_MeanDeviation s))); ("MinRTT", LNumber (Seconds (stats_MinRTT s)));
   ("PTO", LNumber (Seconds (stats_PTO s false))); ("SmoothedRTT", LNumber (Seconds (stats_SmoothedRTT s)))]%string.

Definition is_version (m : gmap loc LTable) (v : Z) (w : LValue) : Prop := w = LString (VersionNumber_String v).

Definition shows (m : gmap loc LTable) (sh : shape) (v : LValue) : Prop :=
  match sh with
  | Val w => v = w
  | Parameters None => v = LTab None
  | Parameters (Some p) => ∃ t, v = LTab (Some t) ∧ is_table m (parameter_fields p) t
  | RoundTrips s => ∃ t, v = LTab (Some t) ∧ is_table m (round_trip_fields s) t
  | Versions vs => ∃ t, v = LTab (Some t) ∧ lists is_version m vs t
  end.

(** The function a callback calls and its arguments after the addresses. There is
    no call when gob cannot send the callback's arguments, when the server rejects
    an empty connection ID or debug text, and when the text of an error is empty. *)
Definition script_call (cb : callback) : option (string * list shape) :=
  let text s := Val (LString s) in
  let num z := Val (number z) in
  let level e := text (EncryptionLevel_String e) in
  match cb with
  | OnStartedConnection _ _ src dest =>
      if list_zero src || list_zero dest then None
      else Some ("StartedConnection", [text (ConnectionID_String src); text (ConnectionID_String dest)])
  | OnNegotiatedVersion v cs ss =>
      Some ("NegotiatedVersion", [text (VersionNumber_String v); Versions cs; Versions ss])
  | OnClosedConnection e =>
      e ← e; if string_zero e then None else Some ("ClosedConnection", [text e])
  | OnSentTransportParameters p =>
      p ← gob_struct_ptr gob_TransportParameters p; Some ("SentTransportParameters", [Parameters p])
  | OnReceivedTransportParameters p =>
      p ← gob_struct_ptr gob_TransportParameters p; Some ("ReceivedTransportParameters", [Parameters p])
  | OnRestoredTransportParameters p =>
      p ← gob_struct_ptr gob_TransportParameters p; Some ("RestoredTransportParameters", [Parameters p])
  | OnSentPacket hdr size ack _ =>
      gob_struct_ptr gob_ExtendedHeader hdr;; gob_struct_ptr gob_AckFrame ack;; Some ("SentPacket", [num size])
  | OnReceivedVersionNegotiationPacket hdr vs =>
      gob_struct_ptr gob_Header hdr;; Some ("ReceivedVersionNegotiationPacket", [Versions vs])
  | OnReceivedRetry hdr => gob_struct_ptr gob_Header hdr;; Some ("ReceivedRetry", [])
  | OnReceivedPacket hdr _ _ => gob_struct_ptr gob_ExtendedHeader hdr;; Some ("ReceivedPacket", [])
  | OnBufferedPacket t => Some ("BufferedPacket", [num t])
  | OnDroppedPacket t size reason => Some ("DroppedPacket", [num t; num size; num reason])
  | OnUpdatedMetrics s cwnd bytes packets =>
      s ← s; Some ("UpdatedMetrics", [RoundTrips s; num cwnd; num bytes; num packets])
  | OnAcknowledgedPacket e n => Some ("AcknowledgedPacket", [level e; num n])
  | OnLostPacket e n reason => Some ("LostPacket", [level e; num n; num reason])
  | OnUpdatedCongestionState x => Some ("UpdatedCongestionState", [num x])
  | OnUpdatedPTOCount x => Some ("UpdatedPTOCount", [num x])
  | OnUpdatedKeyFromTLS e p => Some ("UpdatedKeyFromTLS", [level e; num p])
  | OnUpdatedKey g remote => Some ("UpdatedKey", [num g; Val (LBool remote)])
  | OnDroppedEncryptionLevel e => Some ("DroppedEncryptionLevel", [level e])
  | OnDroppedKey g => Some ("DroppedKey", [num g])
  | OnSetLossTimer t e at_ => at_ ← gob_Time at_; Some ("SetLossTimer", [num t; level e; text (Time_String at_)])
  | OnLossTimerExpired t e => Some ("LossTimerExpired", [num t; level e])
  | OnLossTimerCanceled => Some ("LossTimerCanceled", [])
  | OnClose => Some ("Close", [])
  | OnDebug name msg =>
      if string_zero name || string_zero msg then None else Some ("Debug", [text name; text msg])
  end%string.
End Shown.

(** ** The calls of the statistics *)
Section Calls.
Context `{Pan} `{Quic} `{!QuicFields} `{!PanCodecs} `{!QuicCodecs} {X : Type} `{!LuaVM X}.
Abbreviation ST := (Stats X).

(** The function [fn] of the module "stats". *)
Definition has_function (s : ST) (fn : string) (f : LValue) : Prop :=
  ∃ tab, tables (stats_state s) !! stats_mod s = Some tab ∧ default LNil (strdict tab !! fn) = f.

(** The statistics when the script is called: the mutex is held, and there are new
    tables beside the old ones. *)
Definition called_at (s s1 : ST) (new : gmap loc LTable) : Prop :=
  s1 = mkStats ((stats_state s) <| tables := new ∪ tables (stats_state s) |> <| mutex := true |>) (stats_mod s) ∧
  new ##ₘ tables (stats_state s).

(** The end of a method: the call, then the unlock. *)
Definition run_call (f : LValue) (args : list LValue) : GoM ST error :=
  deferring (on_state Unlock) (on_state (CallByParam f 0 args)).

Lemma locked_at (s : ST) :
  mutex (stats_state s) = false → ∃ s0, on_state Lock s = (Ok tt, s0) ∧ called_at s s0 ∅.
Proof.
  intros Hm. eexists. split; [unfold on_state, zoom, Lock; by rewrite Hm|].
  split; [|apply map_disjoint_empty_l]. rewrite (left_id_L ∅ (∪)). by destruct s as [[]].
Qed.

Lemma function_at (s s1 : ST) new fn f :
  has_function s fn f → called_at s s1 new → on_state (RawGetString (stats_mod s1) fn) s1 = (Ok f, s1).
Proof.
  intros (tab & Ht & Hf) [-> Hd]. unfold on_state, zoom, RawGetString, load, mbind, GoM_bind. simpl.
  rewrite (lookup_union_Some_r _ _ _ _ Hd Ht). simpl. by rewrite Hf.
Qed.

(** A value more. *)
Lemma make_at {A} (P : gmap loc LTable → A → Prop) m (s s1 : ST) new :
  makes P m → called_at s s1 new →
  ∃ a new' s2, on_state m s1 = (Ok a, s2) ∧ called_at s s2 new' ∧ new ⊆ new' ∧
    ∃ part, part ⊆ new' ∧ P part a.
Proof.
  intros Hm [-> Hd]. destruct (Hm ((stats_state s) <| tables := new ∪ tables (stats_state s) |> <| mutex := true |>))
    as (a & part & R & Hp & HP).
  simpl in Hp. apply map_disjoint_union_r in Hp as [Hpn Hps].
  eexists a, (part ∪ new), _. split_and!; [unfold on_state, zoom; cbn [stats_state]; by rewrite R|split|..].
  - simpl. by rewrite (assoc_L (∪)).
  - by apply map_disjoint_union_l.
  - by apply map_union_subseteq_r.
  - exists part. split; [by apply map_union_subseteq_l|done].
Qed.

(** The method [m] is a call of [f] whose arguments show [shapes]. *)
Definition calls (m : GoM ST error) (fn : string) (shapes : list shape) : Prop :=
  ∀ s f, mutex (stats_state s) = false → has_function s fn f →
    ∃ s1 new vs, called_at s s1 new ∧ Forall2 (shows new) shapes vs ∧ m s = run_call f vs s1.

Lemma run_body (body : GoM ST error) f args (s s1 : ST) :
  body s = on_state (CallByParam f 0 args) s1 → deferring (on_state Unlock) body s = run_call f args s1.
Proof. intros R. unfold run_call, deferring. by rewrite R. Qed.

Lemma shows_grows sh : grows (λ m v, shows m sh v).
Proof.
  intros m m' v Hs. destruct sh as [w|[p|]|s|vs]; try done; intros (t & -> & Ht); exists t.
  - split; [done|by eapply grows_table].
  - split; [done|by eapply grows_table].
  - split; [done|]. eapply grows_lists; [|exact Hs|exact Ht]. by intros x new new' w _.
Qed.

Lemma call_stats_calls fn args shapes :
  makes (λ m vs, Forall2 (shows m) shapes vs) args → calls (call_stats fn args) fn shapes.
Proof.
  intros Ha s f Hm Hf. destruct (locked_at s Hm) as (s0 & RL & C0).
  destruct (make_at _ _ s s0 ∅ Ha C0) as (vs & new & s1 & R & C1 & _ & part & Hp & Hvs).
  exists s1, new, vs. split_and!; [done|eapply Forall2_impl; [exact Hvs|intros; by eapply shows_grows]|].
  unfold call_stats, guarded. rewrite (bind_ok _ _ _ _ _ RL). apply run_body.
  rewrite (bind_ok get_state _ s0 s0 s0), (bind_ok _ _ _ _ _ (function_at _ _ _ _ _ Hf C0)) by done.
  by rewrite (bind_ok _ _ _ _ _ R).
Qed.

Lemma makes_then {A B} (P : gmap loc LTable → A → Prop) (Q : gmap loc LTable → B → Prop) (m : GoM (State X) A) g :
  makes P m → (∀ new a, P new a → Q new (g a)) → makes Q (a ← m; mret (g a)).
Proof.
  intros Hm Hg s. destruct (Hm s) as (a & new & R & Hd & HP). exists (g a), new.
  rewrite (bind_ok _ _ _ _ _ R). split_and!; [done|done|by apply Hg].
Qed.

Lemma makes_versions vs : makes (λ m t, lists is_version m vs t) (version_table (X := X) vs).
Proof. apply makes_array; [by intros x new new' w _|]. intros v. by apply makes_ret. Qed.

Lemma makes_parameters p :
  makes (λ m t, shows m (Parameters p) (LTab t)) (new_lua_parameters (X := X) p).
Proof.
  apply makes_table. intros s t Ha. destruct p as [p|].
  - fill_fields. destruct (tp_PreferredAddress p) as [a|] eqn:E; cbv iota; fill_fields.
    + eexists _, _, ∅. split; [reflexivity|]. split; [done|]. intros m _ Ht. exists t. split; [done|].
      unfold is_table, parameter_fields. rewrite E. exact Ht.
    + rewrite ?bind_ret_l. fill_fields. eexists _, _, ∅. split; [reflexivity|]. split; [done|]. intros m _ Ht. exists t. split; [done|].
      unfold is_table, parameter_fields. rewrite E. exact Ht.
  - eexists _, _, ∅. split; [reflexivity|]. done.
Qed.

Lemma makes_round_trips s :
  makes (λ m t, shows m (RoundTrips s) (LTab t))
    (new_lua_rtt_stats (X := X) (Some (mkRTTStats (stats_LatestRTT s) (stats_MaxAckDelay s)
       (stats_MeanDeviation s) (stats_MinRTT s) (stats_PTO s false) (stats_SmoothedRTT s)))).
Proof.
  apply makes_table. intros s0 t Ha. fill_fields. eexists _, _, ∅. split; [reflexivity|]. split; [done|].
  intros m _ Ht. by exists t.
Qed.
(** The two methods that make tables before they look for the function. *)
Lemma NegotiatedVersion_calls l r v cs ss :
  calls (Stats_NegotiatedVersion l r v cs ss) "NegotiatedVersion"
    [Val (addr l); Val (addr r); Val (strhlpr VersionNumber_String (Some v)); Versions cs; Versions ss].
Proof.
  intros s f Hm Hf. destruct (locked_at s Hm) as (s0 & RL & C0).
  destruct (make_at _ _ s s0 ∅ (makes_versions cs) C0) as (tc & new1 & s1 & R1 & C1 & _ & part1 & Hp1 & Hc).
  destruct (make_at _ _ s s1 new1 (makes_versions ss) C1) as (ts & new2 & s2 & R2 & C2 & Hn & part2 & Hp2 & Hs).
  exists s2, new2. eexists. split_and!; [done| |].
  - do 3 (constructor; [done|]). constructor; [|constructor; [|done]].
    + apply (shows_grows (Versions cs) part1 new2 (LTab (Some tc))); [by etrans|by exists tc].
    + apply (shows_grows (Versions ss) part2 new2 (LTab (Some ts))); [done|by exists ts].
  - unfold Stats_NegotiatedVersion, guarded. rewrite (bind_ok _ _ _ _ _ RL). apply run_body.
    rewrite (bind_ok _ _ _ _ _ R1), (bind_ok _ _ _ _ _ R2), (bind_ok get_state _ s2 s2 s2) by done.
    by rewrite (bind_ok _ _ _ _ _ (function_at _ _ _ _ _ Hf C2)).
Qed.

Lemma ReceivedVersionNegotiationPacket_calls l r hdr vs :
  calls (Stats_ReceivedVersionNegotiationPacket l r hdr vs) "ReceivedVersionNegotiationPacket"
    [Val (addr l); Val (addr r); Versions vs].
Proof.
  intros s f Hm Hf. destruct (locked_at s Hm) as (s0 & RL & C0).
  destruct (make_at _ _ s s0 ∅ (makes_versions vs) C0) as (t & new & s1 & R & C1 & _ & part & Hp & Hv).
  exists s1, new. eexists. split_and!; [done| |].
  - do 2 (constructor; [done|]). constructor; [|done]. apply (shows_grows (Versions vs) part new (LTab (Some t))); [done|]. by exists t.
  - unfold Stats_ReceivedVersionNegotiationPacket, guarded. rewrite (bind_ok _ _ _ _ _ RL). apply run_body.
    rewrite (bind_ok _ _ _ _ _ R), (bind_ok get_state _ s1 s1 s1) by done.
    by rewrite (bind_ok _ _ _ _ _ (function_at _ _ _ _ _ Hf C1)).
Qed.

Ltac shown := repeat first [assumption | reflexivity | constructor].

(** What is delivered of a callback is the call. *)
Lemma delivery_calls cb l r fn shapes :
  script_call cb = Some (fn, shapes) →
  ∃ m, delivery (T := ST) cb l r = Some (Some m) ∧ calls m fn (Val (addr l) :: Val (addr r) :: shapes).
Proof.
  intros Hc. destruct cb; cbn in Hc |- *.
  all: repeat match type of Hc with
    | context [gob_Time ?t] => destruct (gob_Time t); [|done]; cbn in Hc
    | context [gob_struct_ptr ?c ?x] => destruct (gob_struct_ptr c x); [|done]; cbn in Hc
    | context [if ?b then _ else _] => destruct b eqn:?; [done|]
    | (match ?e with _ => _ end = _) => destruct e; [|done]; cbn in Hc |- *
    | (?e ≫= _ = _) => destruct e; [|done]; cbn in Hc |- *
    end.
  all: injection Hc as <- <-; (eexists; split; [reflexivity|]).
  all: try (apply call_stats_calls, makes_ret; shown; fail).
  all: try (apply call_stats_calls; apply (makes_then _ _ _ _ (makes_parameters _)); intros; shown; fail).
  - apply NegotiatedVersion_calls.
  - apply ReceivedVersionNegotiationPacket_calls.
  - apply call_stats_calls. apply (makes_then _ _ _ _ (makes_round_trips _)). intros. shown.
Qed.
End Calls.

(** ** At the daemon *)
Section AtDaemon.
Context `{Pan} `{Quic} `{!QuicFields} `{!PanCodecs} `{!PanFaithful} `{!QuicCodecs}.
Context {X W DSel Q : Type} `{!LuaVM X}.
Abbreviation ST := (Stats X).
Abbreviation D := (Daemon.daemon X W DSel Q).
Implicit Types (d : D) (c : tracing D) (cb : callback).

(** The statistics of a daemon, and the daemon with others. *)
Definition stats_of d : ST := mkStats (lua (d_script d)) (d_stats d).
Definition with_stats d (s : ST) : D :=
  d <| d_script := (d_script d) <| lua := stats_state s |> |> <| d_stats := stats_mod s |>.

Lemma with_stats_of d : with_stats d (stats_of d) = d.
Proof. by destruct d as [[]]. Qed.

(** What the application gets for the outcome of the daemon's method. *)
Definition reported (r : outcome error) : outcome unit :=
  match r with
  | Ok e => match wire_error e with None => Ok tt | Some w => Exits w end
  | Panics _ | Exits _ => Exits unexpected_EOF
  | Deadlocks => Deadlocks
  end.

(** The daemon hands deliveries on to its statistics. *)
Lemma delivery_on_stats cb l r :
  delivery (T := D) cb l r = fmap (M := option) (fmap (M := option) on_stats) (delivery (T := ST) cb l r).
Proof.
  destruct cb; cbn; try done.
  all: repeat match goal with
    | |- context [gob_Time ?t] => destruct (gob_Time t); cbn
    | |- context [gob_struct_ptr ?c ?x] => destruct (gob_struct_ptr c x); cbn
    | |- context [if ?b then _ else _] => destruct b; cbn
    end; done.
Qed.

Lemma acquaint_link cb c a c1 : acquaint cb c = (Ok a, c1) → t_link c1 = t_link c.
Proof.
  assert (∀ e : option string, (deref e;; mret tt) c = (Ok a, c1) → t_link c1 = t_link c) as He.
  { intros [e|] R; [by injection R as _ <-|discriminate R]. }
  destruct cb as [[l|] [r|]| |e| | | | | | | | | |s| | | | | | | | | | | | |]; cbn; intros R;
    try (by injection R as _ <-); try discriminate R.
  - by apply He in R.
  - by destruct s; [injection R as _ <-|].
Qed.

(** A working link carries a call to the daemon's statistics. *)
Lemma report_delivered cb c c1 (m : GoM ST error) :
  up (t_link c) = true → closing (t_link c) = false → acquaint cb c = (Ok tt, c1) →
  delivery (T := ST) cb (c_local (t_tracer c1)) (c_remote (t_tracer c1)) = Some (Some m) →
  let R := m (stats_of (server (t_link c))) in
  ∃ c2, report cb c = (reported R.1, c2) ∧ server (t_link c2) = with_stats (server (t_link c)) R.2.
Proof.
  intros Hup Hcl Ha Hd R. rewrite report_run. unfold report_spec. rewrite (bind_ok _ _ _ _ _ Ha).
  pose proof (acquaint_link _ _ _ _ Ha) as Hl. destruct c1 as [t lk]. simpl in Hl, Hd. subst lk.
  unfold or_fatal, on_link, ConnTracer.on_tracer, zoom, carry, mbind, GoM_bind, get_state. simpl.
  rewrite delivery_on_stats, Hd, Hup, Hcl. simpl. unfold on_stats, zoom. fold (stats_of (server (t_link c))). fold R.
  destruct R as [[e|w|w|] s']; simpl; [destruct (wire_error e)|..]; by eexists.
Qed.

(** Without a call, the application ends and the daemon has not changed. *)
Lemma report_undelivered cb c c1 :
  up (t_link c) = true → closing (t_link c) = false → acquaint cb c = (Ok tt, c1) →
  match delivery (T := ST) cb (c_local (t_tracer c1)) (c_remote (t_tracer c1)) with Some (Some _) => False | _ => True end →
  ∃ w c2, report cb c = (Exits w, c2) ∧ server (t_link c2) = server (t_link c).
Proof.
  intros Hup Hcl Ha Hd. rewrite report_run. unfold report_spec. rewrite (bind_ok _ _ _ _ _ Ha).
  pose proof (acquaint_link _ _ _ _ Ha) as Hl. destruct c1 as [t lk]. simpl in Hl, Hd. subst lk.
  unfold or_fatal, on_link, ConnTracer.on_tracer, zoom, carry, mbind, GoM_bind, get_state. simpl.
  rewrite delivery_on_stats, Hup, Hcl. simpl.
  destruct (delivery cb _ _) as [[m|]|]; [done|by do 2 eexists..].
Qed.

(** A nil error panics before the call and leaves the Lua state as it was. *)
Lemma nil_error_panics l r (s : ST) :
  mutex (stats_state s) = false → ∃ w, Stats_ClosedConnection l r None s = (Panics w, s).
Proof.
  intros Hm. unfold Stats_ClosedConnection, call_stats, guarded, deferring, on_state, zoom, Lock, RawGetString, load, mbind, GoM_bind.
  rewrite Hm. simpl. unfold get_state, mbind, GoM_bind. simpl.
  destruct (tables (stats_state s) !! stats_mod s); simpl; eexists; by destruct s as [[]]; simpl in *; subst.
Qed.

Lemma no_call cb c c1 l r :
  script_call cb = None → acquaint cb c = (Ok tt, c1) →
  match delivery (T := ST) cb l r with Some (Some _) => cb = OnClosedConnection (Some ""%string) | _ => True end.
Proof.
  intros Hc Ha. revert Hc. destruct cb; cbn; try discriminate.
  all: repeat match goal with
    | |- context [gob_Time ?t] => destruct (gob_Time t); cbn
    | |- context [gob_struct_ptr ?c ?x] => destruct (gob_struct_ptr c x); cbn
    | |- context [if ?b then _ else _] => destruct b; cbn
    end; try done.
  - destruct e as [e|]; [|discriminate Ha]. simpl. destruct (string_zero e) eqn:Hz; [|done].
    by apply bool_decide_eq_true in Hz as ->.
  - by destruct rttStats.
Qed.
End AtDaemon.

(** ** Property *)
Section Claims.
Context `{Pan} `{Quic} `{!QuicFields} `{!PanCodecs} `{!PanFaithful} `{!QuicCodecs}.
Context {X W DSel Q : Type} `{!LuaVM X}.
Abbreviation D := (Daemon.daemon X W DSel Q).

(** C12: Every callback of quic-go at an application whose link works becomes one
    call of the script's function of its name, under the mutex shared with the
    selector: with the addresses of the connection and with values and tables that
    show the callback's own arguments, as [script_call] lists them. The
    application goes on when that call succeeds and ends when it fails. A callback
    that has no call ends the application and leaves the daemon's state as it
    was. *)
Theorem callback_calls_script cb (c c1 : tracing D) :
  up (t_link c) = true → closing (t_link c) = false → acquaint cb c = (Ok tt, c1) →
  let d := server (t_link c) in
  mutex (lua (d_script d)) = false →
  match script_call cb with
  | Some (fn, shapes) =>
      ∀ f, has_function (stats_of d) fn f →
      ∃ s1 new vs,
        called_at (stats_of d) s1 new ∧
        Forall2 (shows new) (Val (addr (c_local (t_tracer c1))) :: Val (addr (c_remote (t_tracer c1))) :: shapes) vs ∧
        let R := run_call f vs s1 in
        ∃ c2, report cb c = (reported R.1, c2) ∧ server (t_link c2) = with_stats d R.2
  | None => ∃ w c2, report cb c = (Exits w, c2) ∧ server (t_link c2) = d
  end.
Proof.
  intros Hup Hcl Ha d Hm. set (l := c_local (t_tracer c1)). set (r := c_remote (t_tracer c1)).
  destruct (script_call cb) as [[fn shapes]|] eqn:Hc.
  - intros f Hf. destruct (delivery_calls (X := X) cb l r fn shapes Hc) as (m & Hd & Hcalls).
    destruct (Hcalls (stats_of d) f Hm Hf) as (s1 & new & vs & Hat & Hvs & R).
    exists s1, new, vs. split_and!; [done..|]. cbv zeta. rewrite <-R. by eapply report_delivered.
  - pose proof (no_call cb c c1 l r Hc Ha) as Hn. destruct (delivery cb l r) as [[m|]|] eqn:Hd.
    + subst cb. injection Hd as <-. destruct (nil_error_panics l r (stats_of d) Hm) as [w R].
      destruct (report_delivered (OnClosedConnection (Some ""%string)) c c1 (Stats_ClosedConnection l r None) Hup Hcl Ha eq_refl)
        as (c2 & Rc & Hs).
      exists unexpected_EOF, c2. fold d in Rc, Hs. rewrite R in Rc, Hs.
      cbn [fst snd] in Rc, Hs. split; [done|]. by rewrite Hs, with_stats_of.
    + eapply report_undelivered; [done..|]. fold l r. by rewrite Hd.
    + eapply report_undelivered; [done..|]. fold l r. by rewrite Hd.
Qed.
End Claims.

(** ** Witness: a daemon whose script counts the metrics it is told *)
Module SampleHeard.
#[global] Existing Instances SamplePan.pan SampleTracer.quic SampleTracer.pan_codecs
  SampleTracer.pan_faithful SampleTracer.quic_codecs SampleStats.fields.

#[global] Instance script : LuaVM nat := {|
  run_script _ _ h := (Ok (inr []), (h.1, S h.2)); load_script _ := mret (inr 0); clock _ := S754_zero false |}.

Abbreviation D := (Daemon.daemon nat unit unit nat).
Definition functions : LTable := mkLTable {["UpdatedMetrics"%string := LFunc (Script 0)]} [].
Definition daemon : D :=
  mk_daemon (mkLuaSelector (mkState {[2%positive := functions]} [] false 0) ∅ ∅ 1%positive) None 2%positive 0.
Definition client : tracing D :=
  mk_tracing (mkConnectionTracerClient (mkClient 42) 1 ["a"%char] 7 (Some SamplePan.ClientA) (Some SamplePan.Server))
    (mkLink daemon true false None false).
Definition metrics : callback := OnUpdatedMetrics (Some 3%Z) 10 20 30.
End SampleHeard.

Lemma callback_calls_script_witness :
  (∃ s1 new t c2,
     called_at (stats_of SampleHeard.daemon) s1 new ∧
     is_table new (round_trip_fields 3%Z) t ∧
     report SampleHeard.metrics SampleHeard.client = (Ok tt, c2) ∧
     vm (lua (d_script (server (t_link c2)))) = 1) ∧
  (∃ w c2, report (OnDebug "" "x") SampleHeard.client = (Exits w, c2) ∧ server (t_link c2) = SampleHeard.daemon).
Proof.
  split; [|exact (callback_calls_script (OnDebug "" "x") SampleHeard.client SampleHeard.client eq_refl eq_refl eq_refl eq_refl)].
  destruct (callback_calls_script SampleHeard.metrics SampleHeard.client SampleHeard.client eq_refl eq_refl eq_refl eq_refl
    (LFunc (Script 0))) as (s1 & new & vs & Hat & Hvs & c2 & R & Hs).
  - eexists. split; vm_compute; reflexivity.
  - repeat (apply Forall2_cons_inv_l in Hvs as (? & ? & ? & Hvs & ->)).
    match goal with Ht : shows new (RoundTrips _) _ |- _ => destruct Ht as (t & -> & Ht); exists s1, new, t, c2 end.
    destruct Hat as [-> Hd]. split_and!; [by split|done|exact R|by rewrite Hs].
Defined.
