(* ===== verification/Applications.v ===== *)
(** * The daemon and its applications (cmd/daemon/main.go)

    The system of System with the daemon of Daemon: what an application gets
    from Path, whatever the others do, and what becomes of all of them when one
    application's message ends the daemon. *)

From S2P Require Import Prelude Enums Taps PanPath GobRpc ServerSelector SelectorServer SelectorClient.
From S2P Require Import TracerMsg ConnTracer QuicTracer LuaApi LuaSelector LuaStats Daemon System.

Section Daemon.
Context `{PanFaithful} `{Quic} `{!QuicCodecs} (gob_Addr : codec NetAddr).
Context `{!QuicFields} {X : Type} `{LuaMemory X} (Duration_String : Z → string).
Context {W Sel Q : Type} `{!PanDefaultSelector W Sel} `{!LoggingTracer Q}.
Abbreviation D := (Daemon.daemon X W Sel Q).
#[local] Hint Extern 0 (ServerSelector _) => exact (selector_of_daemon Duration_String) : typeclass_instances.

(** A round of the goroutine NewSelector started. *)
Definition round (seconds : spec_float) : GoM D unit := on_script (Periodic seconds).

Abbreviation happens := (System.happens gob_Addr round).
Abbreviation after := (System.after gob_Addr round).

(** The daemon selects by script and has been running. *)
Definition selecting (d : D) : Prop := d_default d = None ∧ ∃ o, running Duration_String o d.

Lemma selecting_happen e d a d' :
  selecting d → event_distinct e → happen Duration_String e d = (Ok a, d') → selecting d'.
Proof.
  intros [Hd [o Hr]] He R. split; [|by eexists; eapply running_event].
  pose proof (happen_spares Duration_String (W := W) (Sel := Sel) (Q := Q) e) as K.
  destruct e as [q l r|name args|name args|seconds];
    [|by apply (within_run _ _ _ _ _ K) in R as (_ & _ & ->)..].
  apply bind_inv in R as (b & d1 & R & [_ ->]%ret_inv).
  rewrite (serve_script _ _ _ _ _ Hd) in R. unfold on_script, zoom in R.
  destruct (serve q l r (d_script d)). by simplify_eq.
Qed.

Lemma happen_select q l r (d : D) res d' :
  serve q l r d = (Ok res, d') → happen Duration_String (Select q l r) d = (Ok (Some res), d').
Proof. intros R. unfold happen. unfold fmap, GoM_fmap. by erewrite bind_ok by exact R. Qed.

(** The offers of an application are distinct: no two paths of one offer have the
    same fingerprint. *)
Definition distinct_event (e : System.event (E := spec_float)) : Prop :=
  match e with
  | Turn _ (Operate (OpInitialize _ _ ps)) | Turn _ (Operate (OpRefresh ps)) =>
      NoDup (pp_Fingerprint <$> omap id ps)
  | _ => True
  end.

Lemma omap_without_forwarding (ps : list (option PanPath)) :
  pp_Fingerprint <$> omap id (option_map without_forwarding <$> ps) = pp_Fingerprint <$> omap id ps.
Proof. induction ps as [|[p|] ps IH]; [done| |done]. simpl. f_equal. exact IH. Qed.

Lemma distinct_admissible e : distinct_event e → admissible_event (D := D) distinct e.
Proof.
  destruct e as [i [[l r ps|p| |fp pi|ps|]|ps|? ? ?|? ?|? ? ? ?|? ? ? ?]| |]; simpl; try done; intros Hd c q Hq;
    simpl in Hq; try destruct (string_zero fp); try done; injection Hq as <-; try done.
  all: unfold distinct; simpl; by rewrite omap_without_forwarding.
Qed.

(** In the system too. *)
Lemma system_selecting evs d :
  selecting d → Forall distinct_event evs →
  let s := after evs (start d) in alive s = true → stuck s = false → selecting (daemon s).
Proof.
  intros Hd He. apply (after_stands gob_Addr round selecting distinct).
  - intros q l r d0 res d' Hq Hs R. by eapply (selecting_happen (Select q l r)), happen_select.
  - intros name h Hh args d0 res d' Hs R. eapply (selecting_happen (Connection name args)); [done..|].
    unfold happen, handle. cbn [connection_methods NewServer]. rewrite Hh.
    unfold mbind, GoM_bind. by rewrite R.
  - intros name h Hh args d0 res d' Hs R. eapply (selecting_happen (Packets name args)); [done..|].
    unfold happen, handle. cbn [tracer_methods NewServer]. rewrite Hh.
    unfold mbind, GoM_bind. by rewrite R.
  - intros e d0 u d' Hs R. eapply (selecting_happen (Tick e)); [done..|].
    unfold happen. by erewrite bind_ok by exact R.
  - eapply Forall_impl; [exact He|]. apply distinct_admissible.
  - done.
Qed.

(** *** The end of the daemon *)

(** A callback in a turn, over a working link. *)
Lemma happens_callback_dies i k cb s a t m w d' :
  applications s !! i = Some a → ended a = false → tracers a !! k = Some t →
  up (app_link a) = true → closing (app_link a) = false → alive s = true →
  (∀ c : tracing D, acquaint cb c = (Ok tt, c)) →
  delivery cb (c_local t) (c_remote t) = Some (Some m) → m (daemon s) = (Panics w, d') →
  alive (happens (Turn i (Callback k cb)) s).2 = false ∧
  (happens (Turn i (Callback k cb)) s).1 = Some (Exits unexpected_EOF).
Proof.
  intros Ha He Ht Hup Hcl Hal Hq Hd Hm. simpl. rewrite Ha, He.
  unfold System.act, mbind, GoM_bind, get_state. simpl. rewrite Ht.
  unfold on_tracing, zoom. rewrite report_run. unfold report_spec.
  rewrite (bind_ok _ _ _ _ _ (Hq _)). unfold or_fatal, ConnTracer.on_tracer, ConnTracer.on_link, zoom, carry, mbind, GoM_bind. simpl.
  unfold app_link in *. rewrite Hup, Hcl, Hal, Hd. simpl. rewrite Hm. simpl. by rewrite andb_false_r.
Qed.
End Daemon.

(** ** Without a script

    When the script cannot be opened the functions of the two modules stay as the
    daemon registered them. *)
Section Unscripted.
Context `{Pan} `{Quic} `{!QuicFields} {X : Type} `{!LuaVM X}.
Implicit Types (s : State X) (c : Stats X).

Definition no_script (v : LValue) : Prop := match v with LFunc (Script _) => False | _ => True end.

(** The functions of the module at [m] are not a script's. *)
Definition scriptless (m : loc) s : Prop :=
  ∃ tab, tables s !! m = Some tab ∧ ∀ fn, no_script (default LNil (strdict tab !! fn)).

(** The statistics at [st], the selector's module at [m]. *)
Definition calm (st m : loc) s : Prop := module_untouched (mkStats s st) ∧ scriptless m s.

Lemma calm_same st m s s' : tables s' = tables s → calm st m s → calm st m s'.
Proof. unfold calm, module_untouched, scriptless. simpl. by intros ->. Qed.

Lemma calm_creates st m s s' : creates s s' → calm st m s → calm st m s'.
Proof.
  intros Hc [Hu (tab & Ht & Hfn)]. split; [exact (module_untouched_creates _ _ Hu Hc)|].
  exists tab. destruct Hc as [_ Hc]. rewrite Hc; [done|]. by apply elem_of_dom.
Qed.

Lemma untouched_no_script st s fn :
  module_untouched (mkStats s st) →
  ∃ f, RawGetString st fn s = (Ok f, s) ∧ no_script f.
Proof.
  intros (tab & Ht & Hfn). eexists. split.
  - unfold RawGetString, load, mbind, GoM_bind. simpl in Ht. by rewrite Ht.
  - rewrite Hfn. by destruct (has_default fn).
Qed.

Lemma scriptless_no_script m s fn :
  scriptless m s → ∃ f, RawGetString m fn s = (Ok f, s) ∧ no_script f.
Proof.
  intros (tab & Ht & Hfn). eexists. split; [|exact (Hfn fn)].
  unfold RawGetString, load, mbind, GoM_bind. by rewrite Ht.
Qed.

Lemma call_no_script f n vs s : no_script f → tables (CallByParam f n vs s).2 = tables s.
Proof. by destruct f as [| | | | |[| | | |f]]. Qed.

(** A run of the statistics keeps the modules calm. *)
Definition calmly (m : loc) c c' : Prop :=
  calm (stats_mod c) m (stats_state c) → stats_mod c' = stats_mod c ∧ calm (stats_mod c) m (stats_state c').
#[export] Instance calmly_preorder m : PreOrder (calmly m).
Proof.
  split; [by intros c|]. intros c1 c2 c3 K1 K2 Hc. destruct (K1 Hc) as [E1 C1].
  unfold calmly in K2. rewrite E1 in K2. destruct (K2 C1) as [E2 C2]. by rewrite E2.
Qed.

Lemma calmly_on_state {A} m (r : GoM (State X) A) :
  (∀ st s, calm st m s → calm st m (r s).2) → within (calmly m) (on_state r).
Proof.
  intros Hr c. unfold on_state, zoom. destruct (r (stats_state c)) as [a s] eqn:R.
  intros Hc. split; [done|]. apply (Hr (stats_mod c)) in Hc. by rewrite R in Hc.
Qed.

Lemma calmly_creates {A} m (r : GoM (State X) A) : within creates r → within (calmly m) (on_state r).
Proof. intros Hr. apply calmly_on_state. intros st s. apply calm_creates, Hr. Qed.

Lemma calmly_Lock m : within (calmly m) (on_state Lock).
Proof. apply calmly_on_state. intros st s. apply calm_same. unfold Lock. by destruct (mutex s). Qed.

Lemma calmly_Unlock m : within (calmly m) (on_state Unlock).
Proof. apply calmly_on_state. intros st s. apply calm_same. unfold Unlock. by destruct (mutex s). Qed.

Lemma calmly_CallByParam m f n vs : no_script f → within (calmly m) (on_state (CallByParam f n vs)).
Proof. intros Hf. apply calmly_on_state. intros st s. apply calm_same. by apply call_no_script. Qed.

Lemma calmly_function m fn {A} (k : LValue → GoM (Stats X) A) :
  (∀ f, no_script f → within (calmly m) (k f)) →
  within (calmly m) (c ← get_state; f ← on_state (RawGetString (stats_mod c) fn); k f).
Proof.
  intros Hk c Hc. unfold mbind, GoM_bind, get_state, on_state, zoom.
  destruct (untouched_no_script (stats_mod c) (stats_state c) fn (proj1 Hc)) as (f & -> & Hf).
  destruct c as [l st]. exact (Hk f Hf (mkStats l st) Hc).
Qed.

Lemma calmly_guarded m {A} (body : GoM (Stats X) A) :
  within (calmly m) body → within (calmly m) (guarded (on_state Lock) (on_state Unlock) body).
Proof.
  intros Hb. apply within_bind; [apply _|apply calmly_Lock|intros _].
  apply within_deferring; [apply _|apply calmly_Unlock|exact Hb].
Qed.

Lemma calmly_call_stats m fn args : within creates args → within (calmly m) (call_stats fn args).
Proof.
  intros Ha. apply calmly_guarded, calmly_function. intros f Hf. apply within_bind; [apply _|by apply calmly_creates|intros vs].
  by apply calmly_CallByParam.
Qed.

Lemma creates_ok {A} (r : GoM (State X) A) : create_ok r → within creates r.
Proof. intros Hr s. by destruct (Hr s) as (a & s' & -> & Hc). Qed.

Lemma creates_deref {A} (o : option A) : within creates (deref o : GoM (State X) A).
Proof. destruct o; by intros s. Qed.

(** What returns has released the mutex. *)
Lemma guarded_released {A} (body : GoM (Stats X) A) c a c' :
  guarded (on_state Lock) (on_state Unlock) body c = (Ok a, c') → mutex (stats_state c') = false.
Proof.
  unfold guarded. intros (u & c1 & _ & R)%bind_inv. unfold deferring in R.
  destruct (body c1) as [[b| | |] c2]; try done; apply bind_inv in R as (u' & c3 & Ru & R); try done.
  apply ret_inv in R as [_ ->]. unfold on_state, zoom, Unlock in Ru.
  destruct (mutex (stats_state c2)); injection Ru as; by subst.
Qed.
End Unscripted.

Ltac made :=
  solve [repeat first
    [ apply within_ret; apply _
    | apply creates_deref
    | apply creates_ok; solve [auto with go]
    | apply within_bind; [apply _| |intros ?] ]].

Section UnscriptedDaemon.
Context `{Pan} `{Quic} `{!QuicFields} {X : Type} `{!LuaVM X} (Duration_String : Z → string).
Context {W Sel Q : Type} `{!PanDefaultSelector W Sel} `{!LoggingTracer Q}.
Abbreviation D := (Daemon.daemon X W Sel Q).

Definition unscripted (d : D) : Prop :=
  d_default d ≠ None ∧ mutex (lua (d_script d)) = false ∧
  calm (d_stats d) (module (d_script d)) (lua (d_script d)).

Definition remains {A} (m : GoM D A) : Prop := ∀ d a d', unscripted d → m d = (Ok a, d') → unscripted d'.

Lemma remains_on_stats {A} (m : GoM (Stats X) A) :
  (∀ o, within (calmly o) m) →
  (∀ c a c', m c = (Ok a, c') → mutex (stats_state c') = false) → remains (on_stats m).
Proof.
  intros Hc Hm d a d' (Hd & Hmu & Hcalm) R. unfold on_stats, zoom in R.
  specialize (Hc (module (d_script d)) (mkStats (lua (d_script d)) (d_stats d)) Hcalm).
  destruct (m _) as [r c'] eqn:Rm. injection R as -> <-. simpl in *. destruct Hc as [E Hc].
  unfold unscripted. simpl. rewrite E. split_and!; [done|by eapply Hm|done].
Qed.

Lemma remains_call_stats fn args : within creates args → remains (on_stats (call_stats (X := X) fn args)).
Proof.
  intros Ha. apply remains_on_stats; [intros o; by apply calmly_call_stats|].
  intros c a c'. apply guarded_released.
Qed.

Lemma remains_guarded {A} (body : GoM (Stats X) A) :
  (∀ o, within (calmly o) body) →
  remains (on_stats (guarded (on_state Lock) (on_state Unlock) body)).
Proof.
  intros Hb. apply remains_on_stats; [intros o; by apply calmly_guarded|].
  intros c a c'. apply guarded_released.
Qed.

Lemma remains_bind {A B} (m : GoM D A) (k : A → GoM D B) :
  remains m → (∀ a, remains (k a)) → remains (m ≫= k).
Proof. intros Hm Hk d b d' Hd (a & d1 & R1 & R2)%bind_inv. eapply Hk; [|exact R2]. by eapply Hm. Qed.

Lemma remains_ret {A} (a : A) : remains (mret a).
Proof. intros d b d' Hd [_ ->]%ret_inv. done. Qed.

Lemma remains_statistics :
  Forall (λ m : string * method D ConnectionTracerMsg unit, ∀ args, remains (m.2 args))
    ConnectionTracerServer_methods.
Proof.
  repeat (apply Forall_cons; split); [..|by apply Forall_nil]; intros args; cbn [snd].
  all: match goal with |- remains ?t => let t' := eval red in t in change (remains t') end.
  all: repeat case_match; unfold returning; apply remains_bind; try (intros; apply remains_ret).
  all: try apply remains_ret.
  all: try (apply remains_call_stats; made).
  all: apply remains_guarded; intros o.
  all: repeat (apply within_bind; [apply _|apply calmly_creates; made|intros ?]).
  all: apply calmly_function; intros f Hf; by apply calmly_CallByParam.
Qed.

Lemma remains_Periodic seconds : remains (round seconds : GoM D unit).
Proof.
  intros d u d' (Hd & Hmu & Hu & Hs) R. unfold round, on_script, zoom in R.
  destruct (Periodic seconds (d_script d)) as [r s'] eqn:Rp. injection R as -> <-.
  unfold Periodic in Rp. apply bind_inv in Rp as (u1 & s1 & RL & Rp).
  apply bind_inv in Rp as (e & s2 & Rc & RU).
  set (l1 := (lua (d_script d)) <| mutex := true |>).
  assert (s1 = (d_script d) <| lua := l1 |>) as ->.
  { unfold on_lua, zoom, Lock in RL. rewrite Hmu in RL. by injection RL. }
  destruct (scriptless_no_script (module (d_script d)) l1 "Periodic" Hs) as (f & Rf & Hf).
  apply bind_inv in Rc as (s3 & s4 & [= <- <-] & Rc).
  apply bind_inv in Rc as (f' & s5 & Rf' & Rc). unfold on_lua, zoom in Rf'.
  cbn [lua module] in Rf'.
  rewrite Rf in Rf'. injection Rf' as <- <-.
  pose proof (call_no_script f 0 [LNumber seconds] l1 Hf) as Hts.
  unfold on_lua, zoom in Rc, RU.
  cbn [lua] in Rc.
  destruct (CallByParam f 0 _ l1) as [r l]. injection Rc as -> <-.
  unfold Unlock in RU. simpl in RU, Hts. destruct (mutex l); [|discriminate RU]. injection RU as _ <-.
  split_and!; [done|done|]. apply (calm_same _ _ (lua (d_script d))); [exact Hts|done].
Qed.

Lemma remains_serve q l r : remains (serve (ServerSelector0 := selector_of_daemon Duration_String) q l r : GoM D _).
Proof.
  intros d a d' (Hd & Hu) R. destruct (d_default d) as [s|] eqn:Hs; [|done].
  rewrite (serve_default _ _ _ _ _ _ Hs) in R. destruct (serve q l r s). by injection R as _ <-.
Qed.

Lemma remains_packets name h args :
  TracerServer_registry name = Some h → remains (h args : GoM D _).
Proof.
  intros Hh d a d' Hd R. assert (within (λ d d' : D, unscripted d → unscripted d') (h args)) as K.
  { unfold TracerServer_registry in Hh. repeat case_decide; [injection Hh as <-..|done];
      unfold TracerServer_SentPacket, TracerServer_DroppedPacket, returning; repeat case_match;
      intros d0; simpl; unfold on_tracer, zoom, mbind, GoM_bind; try done;
      match goal with |- context [?m (d_tracer d0)] => by destruct (m (d_tracer d0)) as [[] ?] end. }
  specialize (K d). rewrite R in K. by apply K.
Qed.

Lemma stubs_scriptless fns (d0 : gmap string LValue) fn :
  Forall (λ f : string * LFunction, no_script (LFunc f.2)) fns → no_script (default LNil (d0 !! fn)) →
  no_script (default LNil (foldl (λ d '(k, f), <[k := LFunc f]> d) d0 fns !! fn)).
Proof.
  intros Hf. revert d0. induction Hf as [|[k f] fns Hk _ IH]; intros d0 H0'; [done|]. apply IH.
  destruct (decide (k = fn)) as [->|]; [by rewrite lookup_insert_eq|by rewrite lookup_insert_ne].
Qed.

Lemma registered_scriptless fns (l : State X) m l' :
  Forall (λ f : string * LFunction, no_script (LFunc f.2)) fns →
  guarded Lock Unlock (RegisterModule fns) l = (Ok m, l') →
  scriptless m l' ∧ ∀ m', scriptless m' l → scriptless m' l'.
Proof.
  intros Hf R. unfold guarded in R. apply bind_inv in R as (u & l1 & RL & R).
  assert (l1 = l <| mutex := true |>) as -> by (unfold Lock in RL; destruct (mutex l); by injection RL).
  destruct (RegisterModule_run fns (l <| mutex := true |>)) as (m1 & l2 & Rm & [_ Hc] & Ht).
  unfold deferring in R. rewrite Rm in R. apply bind_inv in R as (u' & l3 & RU & R).
  apply ret_inv in R as [-> ->]. assert (tables l3 = tables l2) as E.
  { unfold Unlock in RU. destruct (mutex l2); [|discriminate RU]. by injection RU as _ <-. }
  unfold scriptless. rewrite E. split.
  - eexists. split; [exact Ht|]. intros fn. by apply stubs_scriptless.
  - intros m' (tab & Ht' & Hfn). exists tab. rewrite Hc; [done|]. by apply elem_of_dom.
Qed.

Lemma started_unscripted x e file w q (d : D) : daemon_main x (Some e) file w q = Ok d → unscripted d.
Proof.
  intros Hm. pose proof (daemon_main_untouched _ _ _ _ _ _ Hm) as [Hmu Hu].
  unfold daemon_main, NewSelector, NewStats in Hm.
  destruct (guarded _ _ (RegisterModule panapi_functions) _) as [[m| | |] l] eqn:R1 in Hm; try discriminate Hm.
  destruct (guarded _ _ (RegisterModule stats_functions) _) as [[m'| | |] l'] eqn:R2 in Hm; try discriminate Hm.
  injection Hm as <-. split_and!; [done|exact Hmu|]. split; [exact Hu|]. simpl in *.
  refine (proj2 (registered_scriptless _ _ _ _ _ R2) _ (proj1 (registered_scriptless _ _ _ _ _ R1))).
  - by apply Forall_fmap, Forall_true.
  - by repeat (apply Forall_cons; split).
Qed.
End UnscriptedDaemon.

Section UnscriptedSystem.
Context `{PanFaithful} `{Quic} `{!QuicCodecs} (gob_Addr : codec NetAddr).
Context `{!QuicFields} {X : Type} `{!LuaVM X} (Duration_String : Z → string).
Context {W Sel Q : Type} `{!PanDefaultSelector W Sel} `{!LoggingTracer Q}.
Abbreviation D := (Daemon.daemon X W Sel Q).
#[local] Hint Extern 0 (ServerSelector _) => exact (selector_of_daemon Duration_String) : typeclass_instances.

Lemma system_unscripted evs (d : D) :
  unscripted d → let s := System.after gob_Addr round evs (start d) in
  alive s = true → stuck s = false → unscripted (System.daemon s).
Proof.
  intros Hd. apply (after_stands gob_Addr round unscripted (λ _, True)).
  - intros q l r d0 res d' _. apply (remains_serve Duration_String q l r).
  - intros name h Hh args d0 res d' Hs R. unfold ConnectionTracerServer_registry in Hh.
    destruct (list_find _ _) as [[j m]|] eqn:Hf; [|done]. injection Hh as <-.
    apply list_find_Some in Hf as (Hl & _ & _).
    exact (Forall_lookup_1 _ _ _ _ remains_statistics Hl args _ _ _ Hs R).
  - intros name h Hh args d0 res d' Hs R. exact (remains_packets _ _ _ Hh _ _ _ Hs R).
  - intros seconds d0 u d' Hs R. exact (remains_Periodic _ _ _ _ Hs R).
  - apply Forall_true. by intros [? []| |].
  - exact Hd.
Qed.
End UnscriptedSystem.

(** ** Properties *)
Section Claims.
Context `{PanFaithful} `{Quic} `{!QuicCodecs} (gob_Addr : codec NetAddr).
Context `{!QuicFields} {X : Type} `{LuaMemory X} (Duration_String : Z → string).
Context {W Sel Q : Type} `{!PanDefaultSelector W Sel} `{!LoggingTracer Q}.
Abbreviation D := (Daemon.daemon X W Sel Q).
#[local] Hint Extern 0 (ServerSelector _) => exact (selector_of_daemon Duration_String) : typeclass_instances.

Abbreviation happens := (System.happens gob_Addr round).
Abbreviation after := (System.after gob_Addr round).

(** C10: With any number of applications that share a daemon with a script, all of
    them performing operations, reporting on their connections and ending in any
    order: the path an application gets from Path is its own, the one it last
    gave for the fingerprint with no PathDown of it since. If no two paths of one
    offer had the same fingerprint, and no handler of the daemon waits for ever, the
    daemon has a path with that fingerprint on offer. *)
Theorem system_Path_own evs (d : D) i p e :
  selecting Duration_String d →
  let s := after evs (start d) in
  (happens (Turn i (Operate OpPath)) s).1 = Some (Ok (Some p, e)) →
  ∃ a, applications s !! i = Some a ∧ current (history (trace a)) p ∧
    (Forall distinct_event evs → stuck s = false →
     ∃ o raddr ps q, running Duration_String o (System.daemon s) ∧ o !! raddr = Some ps ∧ q ∈ ps ∧
       pp_Fingerprint q = pp_Fingerprint p).
Proof.
  intros Hd s R. destruct (applications s !! i) as [a|] eqn:Ha; [|simpl in R; by rewrite Ha in R].
  destruct (ended a) eqn:Hend; [simpl in R; by rewrite Ha, Hend in R|].
  pose proof (happens_operation gob_Addr round i OpPath s a Ha Hend) as Ho. rewrite R in Ho.
  destruct (perform OpPath (selector (attach s a))) as [r c'] eqn:Rp. injection Ho as <-.
  pose proof (after_well_behaved gob_Addr round evs _ (start_well_behaved d) i a Ha Hend) as Hr.
  destruct (perform_Path_answer _ _ _ _ _ (attach_reaches s a Hr) Rp) as (Hup & _ & Hc & l & r & q & e' & d' & Rs & Hq).
  exists a. split_and!; [done..|]. intros He Hst. pose proof (system_selecting gob_Addr Duration_String evs d Hd He) as Hs.
  fold s in Hs. apply andb_prop in Hup as [_ Hal]. destruct (Hs Hal Hst) as [Hdf [o Ho]].
  rewrite (serve_script _ _ _ _ _ Hdf) in Rs. unfold on_script, zoom in Rs.
  destruct (serve _ _ _ _) as [res s1] eqn:Rq in Rs. injection Rs as -> _.
  destruct (reachable_Path Duration_String _ _ _ _ _ _ _ (running_reachable _ _ _ Ho Hdf) Rq) as (raddr & ps & Hl & Hin).
  by exists o, raddr, ps, q.
Qed.

(** C26: One application can end all of them. A daemon is started without a script
    that can be opened, and has served any number of applications: when one of
    them reports a connection closed with an error of empty text the daemon ends,
    and from then on, whatever happens, no application connects, and every
    operation and every callback of every application that is still running gets
    what it gets without a daemon: all but SetPreferences and Close end their
    application. *)
Theorem one_report_ends_all x e file w q (d : D) evs i k a t :
  daemon_main x (Some e) file w q = Ok d →
  let s := after evs (start d) in
  let s' := (happens (Turn i (Callback k (OnClosedConnection (Some ""%string)))) s).2 in
  alive s = true → stuck s = false →
  applications s !! i = Some a → ended a = false → tracers a !! k = Some t →
  up (app_link a) = true → closing (app_link a) = false →
  ∀ evs', let s2 := after evs' s' in
  length (applications s2) = length (applications s) ∧
  ∀ j b, applications s2 !! j = Some b → ended b = false →
  (∀ o, paths_given o →
    (happens (Turn j (Operate o)) s2).1 = Some (bereft o (bookkeeping o (selector b)))) ∧
  (∀ h c u, tracers b !! h = Some c →
    (∀ c' : tracing D, (acquaint u c').1 = Ok tt) →
    (happens (Turn j (Callback h u)) s2).1 = Some (Exits shut_down)).
Proof.
  intros Hm s s' Hal Hst Ha He Ht Hup Hcl evs' s2.
  assert (unscripted (System.daemon s)) as (_ & Hmu & Hun & _).
  { by apply (system_unscripted gob_Addr Duration_String evs d); [eapply started_unscripted|..]. }
  assert (untouched (mkStats (lua (d_script (System.daemon s))) (d_stats (System.daemon s)))) as Hu by exact (conj Hmu Hun).
  destruct (delivery_untouched (OnClosedConnection (Some ""%string)) (c_local t) (c_remote t) _ _ Hu eq_refl)
    as (st & _ & Rm).
  assert (alive s' = false ∧ length (applications s') = length (applications s)) as [Hs' Hl].
  { split; [|by apply turn_length].
    eapply happens_callback_dies; [done..|reflexivity|].
    match goal with |- _ = ?h =>
      change (on_stats (ct_ClosedConnection (c_local t) (c_remote t) None) (System.daemon s) = h) end.
    change (gob_flat_ptr string_zero (Some ""%string)) with (@None string) in Rm.
    unfold on_stats, zoom. by rewrite Rm. }
  pose proof (after_dead gob_Addr round evs' s' Hs') as Hs2. fold s2 in Hs2.
  assert (well_behaved s2) as Hw.
  { apply after_well_behaved, happens_well_behaved, after_well_behaved, start_well_behaved. }
  split; [by rewrite <-Hl; apply after_dead_length|].
  intros j b Hb Hbe. split.
  - intros o Hps. rewrite (happens_operation _ _ _ _ _ _ Hb Hbe). f_equal.
    pose proof (Hw j b Hb Hbe) as Hr.
    rewrite (perform_down _ _ _ (attach_reaches s2 b Hr) Hps (attach_down s2 b Hs2)). by destruct o.
  - intros h c u Hc Hu'. rewrite (happens_callback_down gob_Addr round j h u s2 b c (attach_down s2 b Hs2) Hb Hbe Hc). by rewrite Hu'.
Qed.
End Claims.

(** ** Witnesses: two applications *)
Module SampleSystem.
#[global] Existing Instances SamplePan.pan SampleTracer.quic SampleTracer.pan_codecs
  SampleTracer.pan_faithful SampleTracer.quic_codecs SampleStats.fields.
#[global] Hint Extern 0 (ServerSelector SampleDaemon.D) =>
  exact (selector_of_daemon SampleScript.text) : typeclass_instances.

Definition x := SamplePan.path "x" 7.
Definition y := SamplePan.path "y" 8.
Abbreviation turn i a := (Turn (E := spec_float) i a).

(** The second application offers a path and traces a connection before the
    first offers its own. *)
Definition arrivals : list (System.event (E := spec_float)) := [
  Connect {[1%positive := mkConnectionPreferences 9 Scavenger Handover true]} None;
  Connect ∅ None;
  turn 1 (Operate (OpInitialize SamplePan.ClientA SamplePan.Server [Some y]));
  turn 1 (NewTracer (Some 7%Z) 1 ["a"%char]);
  turn 0 (Operate (OpSetPreferences (Some 1%positive)));
  turn 0 (Operate (OpInitialize SamplePan.ClientA SamplePan.Server [Some x]));
  turn 1 (Callback 0 OnLossTimerCanceled);
  turn 1 (SentPacket (Some (PanAddr SamplePan.Server)) None 1200 []);
  Housekeep (S754_zero false)
].
Abbreviation arrived := (after Some round arrivals (start SampleDaemon.scripted)).
End SampleSystem.

Lemma system_Path_own_witness :
  (happens Some round (SampleSystem.turn 0 (Operate OpPath)) SampleSystem.arrived).1
  = Some (Ok (Some SampleSystem.x, None)) ∧
  ∃ a o raddr ps q,
    applications SampleSystem.arrived !! 0 = Some a ∧ current (history (trace a)) SampleSystem.x ∧
    running SampleScript.text o (System.daemon SampleSystem.arrived) ∧ o !! raddr = Some ps ∧ q ∈ ps ∧
    pp_Fingerprint q = pp_Fingerprint SampleSystem.x.
Proof.
  assert ((happens Some round (SampleSystem.turn 0 (Operate OpPath)) SampleSystem.arrived).1
    = Some (Ok (Some SampleSystem.x, None))) as R by (vm_compute; reflexivity).
  assert (stuck SampleSystem.arrived = false) as Hst by (vm_compute; reflexivity).
  assert (Forall distinct_event SampleSystem.arrivals) as Hdi.
  { unfold SampleSystem.arrivals. repeat (apply Forall_cons; split); first [exact I|apply NoDup_singleton|by apply Forall_nil]. }
  split; [exact R|].
  enough (∃ a, applications SampleSystem.arrived !! 0 = Some a ∧ current (history (trace a)) SampleSystem.x ∧
    (Forall distinct_event SampleSystem.arrivals → stuck SampleSystem.arrived = false →
     ∃ o raddr ps q, running SampleScript.text o (System.daemon SampleSystem.arrived) ∧ o !! raddr = Some ps ∧ q ∈ ps ∧
       pp_Fingerprint q = pp_Fingerprint SampleSystem.x)) as (a & Ha & Hc & Hgo).
  { destruct (Hgo Hdi Hst) as (o & raddr & ps & q & H1 & H2 & H3 & H4). exists a, o, raddr, ps, q.
    exact (conj Ha (conj Hc (conj H1 (conj H2 (conj H3 H4))))). }
  refine (system_Path_own (H := SamplePan.pan) (X := SampleDaemon.machine) (Sel := nat) Some SampleScript.text
    SampleSystem.arrivals SampleDaemon.scripted 0 SampleSystem.x None _ R).
  split; [vm_compute; reflexivity|]. exists ∅.
  exact (running_start SampleScript.text _ _ _ _ _ _ SampleDaemon.scripted_started).
Defined.

(** Two applications; the second reports, the first asks for a path. *)
Lemma one_report_ends_all_witness :
  let arrivals := [Connect ∅ None; Connect ∅ None;
                   SampleSystem.turn 1 (NewTracer (Some 7%Z) 1 ["a"%char])] in
  let s := after Some round arrivals (start SampleDaemon.unscripted) in
  let s' := (happens Some round (SampleSystem.turn 1 (Callback 0 (OnClosedConnection (Some ""%string)))) s).2 in
  let s2 := after Some round [Connect ∅ None; SampleSystem.turn 1 (Operate OpPath)] s' in
  length (applications s2) = length (applications s) ∧
  (happens Some round (SampleSystem.turn 0 (Operate OpPath)) s2).1 = Some (Exits shut_down).
Proof.
  intros arrivals s s' s2. set (t := mkConnectionTracerClient (mkClient 42) 1 ["a"%char] 7 None None).
  assert (alive s = true) as Hal by (vm_compute; reflexivity).
  assert (stuck s = false) as Hst by (vm_compute; reflexivity).
  assert (∃ a, applications s !! 1 = Some a ∧ ended a = false ∧ tracers a !! 0 = Some t ∧
    up (app_link a) = true ∧ closing (app_link a) = false) as (a & Ha & He & Ht & Hup & Hcl).
  { destruct (applications s !! 1) as [a|] eqn:Ha; [|vm_compute in Ha; discriminate Ha].
    exists a. split; [reflexivity|].
    change a with (default a (Some a)). rewrite <-Ha. split_and!; vm_compute; reflexivity. }
  destruct (one_report_ends_all (H := SamplePan.pan) (X := SampleDaemon.machine) (Sel := nat) Some SampleScript.text _ _ _ _ _
    SampleDaemon.unscripted arrivals 1 0 a t SampleDaemon.unscripted_started Hal Hst Ha He Ht Hup Hcl
    [Connect ∅ None; SampleSystem.turn 1 (Operate OpPath)]) as [Hl Hall].
  assert (∃ b, applications s2 !! 0 = Some b ∧ ended b = false) as (b & Hb & Hbe).
  { destruct (applications s2 !! 0) as [b|] eqn:Hb; [|vm_compute in Hb; discriminate Hb].
    exists b. split; [reflexivity|]. change b with (default b (Some b)). rewrite <-Hb. vm_compute. reflexivity. }
  split; [exact Hl|]. exact (proj1 (Hall 0 b Hb Hbe) OpPath I).
Defined.
