(* ===== verification/EndToEnd.v ===== *)
(** * From a preconnection to the script and back

    What an application says through TAPS crosses Preconnection, the protocol's
    selector, net/rpc and the daemon before the script gets it; what the script
    chooses comes back the same way. Here the theorems of those files are put
    together: with the client of SelectorClient as the protocol's selector and
    the daemon of Daemon at the other end of its link. *)

From S2P Require Import Prelude Enums Taps Transports PanPath GobRpc ServerSelector SelectorServer SelectorClient.
From S2P Require Import TracerMsg ConnTracer QuicTracer LuaApi LuaSelector LuaPath LuaCalls LuaStats Daemon.

(** ** The client's requests at a scripted daemon *)
Section Requests.
Context `{PanFaithful} `{Quic} `{!QuicFields} {X : Type} `{!LuaVM X} (Duration_String : Z → string).
Context {W DSel Q : Type} `{!PanDefaultSelector W DSel} `{!LoggingTracer Q}.
Abbreviation D := (Daemon.daemon X W DSel Q).
#[local] Hint Extern 0 (ServerSelector _) => exact (selector_of_daemon Duration_String) : typeclass_instances.
Abbreviation SC := (SelectorClient D).

(** The link works, the daemon selects by script, nobody holds its mutex. *)
Definition linked (c : SC) : Prop :=
  up (link c) = true ∧ closing (link c) = false ∧
  d_default (server (link c)) = None ∧ mutex (lua (d_script (server (link c)))) = false.

(** The script's selector at the other end. *)
Definition script_of (c : SC) : LuaSelector X := d_script (server (link c)).

(** What the client is told of a method of the script's selector. *)
Definition told (r : outcome error) : outcome error :=
  match r with
  | Ok e => Ok (wire_error e)
  | Panics _ | Exits _ => Ok (Some unexpected_EOF)
  | Deadlocks => Deadlocks
  end.

(** The request [q] is the call [m] of the script's selector in state [s1]. *)
Definition reaches_script (q : request) (l r : UDPAddr) (s s1 : LuaSelector X)
    (m : GoM (LuaSelector X) error) : Prop :=
  serve (ServerSelector0 := lua_interface Duration_String) q l r s = (e ← m; mret (None, e)) s1.

Lemma served_told q l r (c : SC) s1 m :
  linked c → reaches_script q l r (script_of c) s1 m →
  ∃ lk, serve_remotely (Some q) (Some (l, r)) (link c)
    = (match told (m s1).1 with
       | Ok e => Ok (e, None)
       | Panics w => Panics w | Exits w => Exits w | Deadlocks => Deadlocks
       end, lk) ∧
    server lk = (server (link c)) <| d_script := (m s1).2 |> ∧
    (∀ e, (m s1).1 = Ok e → up lk = true ∧ closing lk = false).
Proof.
  intros (Hup & Hcl & Hd & Hm) R. unfold serve_remotely. rewrite Hup, Hcl. simpl.
  rewrite (serve_script _ _ _ _ _ Hd). unfold on_script, zoom.
  unfold reaches_script, script_of in R. rewrite R. unfold mbind, GoM_bind.
  destruct (m s1) as [[e|w|w|] s2]; simpl.
  - destruct (wire_error e); (eexists; split_and!; [reflexivity|done|by intros]).
  - by eexists; split_and!.
  - by eexists; split_and!.
  - by eexists; split_and!.
Qed.

(** An operation after which the client knows both addresses, as a request. *)
Lemma perform_request tr o q l r (c : SC) :
  reaches tr c → paths_given o → addresses (bookkeeping o c) = Some (l, r) →
  operation_request o (bookkeeping o c) = Some q →
  perform o c = (SelectorClient.on_link (serve_remotely (Some q) (Some (l, r))) ≫= conclude o) (bookkeeping o c).
Proof.
  intros Hr Hps Ha Hq. rewrite (perform_served tr) by done. unfold perform_spec. rewrite perform_by_run, Ha.
  unfold mbind, GoM_bind, SelectorClient.on_link, zoom. rewrite Hq.
  destruct o; try done. by rewrite Ha.
Qed.

Lemma linked_bookkeeping o (c : SC) : linked c → linked (bookkeeping o c).
Proof. by destruct o. Qed.

(** Preferences reach the function of the script. *)
Lemma SetPreferences_reaches tr p l r (c : SC) f :
  reaches tr c → linked c → local c = Some l → remote c = Some r →
  let ps := p ≫= λ x, prefs c !! x in
  prefs_ok ps → defines (script_of c) "SetPreferences" f →
  ∃ s1 new t,
    ready (script_of c) s1 new ∧ is_prefs Duration_String new ps t ∧
    let R := finish f [LTab (Some t); LString (UDPAddr_String l); LString (UDPAddr_String r)] s1 in
    ∃ c', SelectorClient_SetPreferences p c = (told R.1, c') ∧
      server (link c') = (server (link c)) <| d_script := R.2 |>.
Proof.
  intros Hr Hlk Hl Hre ps Hok Hf.
  destruct (SetPreferences_calls Duration_String ps l r (script_of c) f (proj2 (proj2 (proj2 Hlk))) Hok Hf)
    as (s1 & new & t & R & Hready & Hprefs).
  exists s1, new, t. split_and!; [done..|]. intros R1.
  set (o := OpSetPreferences p).
  assert (reaches_script (RSetPreferences ps) l r (script_of c) s1
    (finish f [LTab (Some t); LString (UDPAddr_String l); LString (UDPAddr_String r)])) as Hrs.
  { unfold reaches_script. simpl. unfold fmap, GoM_fmap, mbind, GoM_bind. by rewrite R. }
  destruct (served_told _ l r (bookkeeping o c) s1 _ (linked_bookkeeping o c Hlk) Hrs) as (lk & Rs & Hs & _).
  assert (perform o c = (SelectorClient.on_link (serve_remotely (Some (RSetPreferences ps)) (Some (l, r))) ≫= conclude o)
    (bookkeeping o c)) as Rp.
  { eapply perform_request; [exact Hr|done| |done]. unfold addresses. simpl. by rewrite Hl, Hre. }
  simpl in Rp. unfold SelectorClient.on_link, zoom in Rp. unfold mbind, GoM_bind in Rp. simpl in Rp, Rs. rewrite Rs in Rp.
  unfold fmap, GoM_fmap, mbind, GoM_bind in Rp. fold R1 in Rp.
  exists ((bookkeeping o c) <| link := lk |>). split; [|exact Hs].
  destruct (SelectorClient_SetPreferences p c) as [[e|w|w|] c'];
    destruct (told R1.1) as [e'|w'|w'|]; simpl in Rp; try discriminate Rp;
    injection Rp; intros; by subst.
Qed.

(** An offer reaches the function of the script, and the client goes on exactly
    when the call succeeds. *)
Lemma Initialize_offers tr l r ps (c : SC) f :
  reaches tr c → linked c → prefs_ok (current_preferences c) → defines (script_of c) "Initialize" f →
  ∃ s1 new lts t_prefs t_paths,
    ready (script_of c) s1 new ∧ is_prefs Duration_String new (current_preferences c) t_prefs ∧
    lists is_ref new lts t_paths ∧ offered_as (without_forwarding <$> ps) lts new (ppaths s1) ∧
    let R := finish f [LTab (Some t_prefs); LString (UDPAddr_String l); LString (UDPAddr_String r);
                       LTab (Some t_paths)] s1 in
    let O := perform (OpInitialize l r (Some <$> ps)) c in
    (∀ a c2, O = (Ok a, c2) → ∃ e s2, R = (Ok e, s2) ∧ wire_error e = None) ∧
    ∀ e s2, R = (Ok e, s2) → wire_error e = None →
      ∃ c2, O = (Ok (None, None), c2) ∧ server (link c2) = (server (link c)) <| d_script := s2 |> ∧
        linked c2 ∧ addresses c2 = Some (l, r) ∧ ppaths s2 = ppaths s1.
Proof.
  intros Hr Hlk Hok Hf. set (o := OpInitialize l r (Some <$> ps)).
  destruct (Initialize_calls Duration_String (current_preferences c) l r (without_forwarding <$> ps) (script_of c) f
    (proj2 (proj2 (proj2 Hlk))) Hok Hf) as (s1 & new & lts & tp & tl & R & Hready & Hprefs & Hlist & Hoff).
  exists s1, new, lts, tp, tl. do 4 (split; [done|]). intros R1 O.
  set (q := RInitialize (current_preferences c) (Some <$> (without_forwarding <$> ps))).
  assert (reaches_script q l r (script_of c) s1
    (finish f [LTab (Some tp); LString (UDPAddr_String l); LString (UDPAddr_String r); LTab (Some tl)])) as Hrs.
  { unfold reaches_script. simpl. unfold fmap at 1, GoM_fmap, mbind, GoM_bind. by rewrite R. }
  destruct (served_told _ l r (bookkeeping o c) s1 _ (linked_bookkeeping o c Hlk) Hrs) as (lk & Rs & Hs & Hup).
  fold R1 in Rs, Hs, Hup.
  assert (O = (SelectorClient.on_link (serve_remotely (Some q) (Some (l, r))) ≫= conclude o) (bookkeeping o c)) as Rp.
  { eapply perform_request; [exact Hr| |done|].
    - simpl. intros (x & ? & _)%list_elem_of_fmap. done.
    - simpl. unfold q. do 2 f_equal. by rewrite <-!list_fmap_compose. }
  unfold SelectorClient.on_link, zoom, mbind, GoM_bind in Rp.
  change (link (bookkeeping o c)) with (link c) in Rp, Rs. rewrite Rs in Rp. clear Rs. split.
  - intros a c2 RO. rewrite Rp in RO. destruct R1 as [[e|w|w|] s2]; simpl in RO; try discriminate RO.
    destruct (wire_error e) eqn:He; [discriminate RO|]. by exists e, s2.
  - intros e s2 Rf He. rewrite Rf in Rp, Hs, Hup. simpl in Rp, Hs. rewrite He in Rp. destruct (Hup _ eq_refl) as [Hu Hc].
    destruct (finish_frame _ _ s1 s2 e (f_equal mutex (proj1 Hready)) Rf) as (Hpp & _ & Hmu).
    exists ((bookkeeping o c) <| link := lk |>). split_and!; [exact Rp|exact Hs| |done|done].
    split_and!; [exact Hu|exact Hc|..]; simpl; rewrite Hs; [apply Hlk|done].
Qed.

(** Of an offer, the path that Path gives for a fingerprint: the last one that has
    it. The empty fingerprint does not cross gob. *)
Definition given_for (fp : PathFingerprint) (ps : list PanPath) : option PanPath :=
  if string_zero fp then None else last (filter (λ p, pp_Fingerprint p = fp) ps).

Lemma last_filter {A} (P : A → Prop) `{!∀ x, Decision (P x)} (xs : list A) x :
  last (filter P xs) = Some x → ∃ xs1 xs2, xs = xs1 ++ x :: xs2 ∧ P x ∧ Forall (λ y, ¬ P y) xs2.
Proof.
  induction xs as [|y xs IH]; [done|]. rewrite filter_cons. intros Hl.
  destruct (filter P xs) as [|z zs] eqn:Hf.
  - case_decide as Hy; [|done]. injection Hl as <-. exists [], xs. split_and!; [done..|].
    apply Forall_forall. intros z Hz HP. assert (z ∈ filter P xs) as Hin by (by apply list_elem_of_filter).
    rewrite Hf in Hin. by apply elem_of_nil in Hin.
  - assert (last (z :: zs) = Some x) as Hl' by (by case_decide).
    destruct (IH Hl') as (xs1 & xs2 & -> & Hx & Hn). by exists (y :: xs1), xs2.
Qed.

Lemma given_current es ps fp p :
  given_for fp ps = Some p → current (es ++ (Offer <$> ps)) p ∧ pp_Fingerprint p = fp.
Proof.
  unfold given_for. destruct (string_zero fp); [done|]. intros (xs1 & xs2 & -> & <- & Hn)%last_filter. split; [|done].
  exists (es ++ (Offer <$> xs1)), (Offer <$> xs2). split; [by rewrite fmap_app, fmap_cons, <-app_assoc|].
  intros e (x & -> & Hx)%list_elem_of_fmap. exact (proj1 (Forall_forall _ _) Hn x Hx).
Qed.

Lemma given_some ps p :
  p ∈ ps → pp_Fingerprint p ≠ ""%string → is_Some (given_for (pp_Fingerprint p) ps).
Proof.
  intros Hp Hne. unfold given_for, string_zero. rewrite bool_decide_false by done. apply last_is_Some. intros Hf.
  assert (p ∈ filter (λ q, pp_Fingerprint q = pp_Fingerprint p) ps) as Hin by (by apply list_elem_of_filter).
  rewrite Hf in Hin. by apply elem_of_nil in Hin.
Qed.

(** A path with no later one of its fingerprint is the one that is given. *)
Lemma given_self ps k p :
  ps !! k = Some p → pp_Fingerprint p ≠ ""%string →
  (∀ j q, ps !! j = Some q → k < j → pp_Fingerprint q ≠ pp_Fingerprint p) →
  given_for (pp_Fingerprint p) ps = Some p.
Proof.
  intros Hk Hne Hlast. unfold given_for, string_zero. rewrite bool_decide_false by done.
  rewrite <-(take_drop_middle ps k p Hk), filter_app, filter_cons_True by done.
  assert (filter (λ q, pp_Fingerprint q = pp_Fingerprint p) (drop (S k) ps) = []) as ->.
  { destruct (filter _ _) as [|q qs] eqn:Hf; [done|].
    assert (q ∈ q :: qs) as Hq by constructor. rewrite <-Hf in Hq. apply list_elem_of_filter in Hq as [Hq [j Hj]%list_elem_of_lookup_1].
    rewrite lookup_drop in Hj. destruct (Hlast _ _ Hj); [lia|done]. }
  by rewrite last_snoc.
Qed.

(** The script's choice comes back as the application's own path. *)
Lemma Path_returns tr l r (c : SC) g lt vs h q p :
  reaches tr c → linked c → addresses c = Some (l, r) →
  defines (script_of c) "Path" (LFunc (Script g)) →
  run_script g [LString (UDPAddr_String l); LString (UDPAddr_String r)]
    (tables (lua (script_of c)), vm (lua (script_of c))) = (Ok (inr (LTab (Some lt) :: vs)), h) →
  ppaths (script_of c) !! lt = Some (Some q) →
  (if string_zero (pp_Fingerprint q) then p = None
   else ∃ x, p = Some x ∧ current (history tr) x ∧ pp_Fingerprint x = pp_Fingerprint q) →
  ∃ c', perform OpPath c = (Ok (p, None), c').
Proof.
  intros Hr Hlk Ha Hf Rg Hpp Hp. destruct Hlk as (Hup & Hcl & Hd & Hm).
  destruct (Path_selects l r (script_of c) g lt vs h q Hm Hf Rg Hpp) as [s' R].
  assert (bookkeeping OpPath c = c) as Eb by by destruct c.
  assert (perform OpPath c = (SelectorClient.on_link (serve_remotely (Some RPath) (Some (l, r))) ≫= conclude OpPath) c) as Rp.
  { rewrite <-Eb at 2. eapply perform_request; [exact Hr|done|by rewrite Eb|done]. }
  rewrite Rp. unfold SelectorClient.on_link, zoom, mbind, GoM_bind, serve_remotely. rewrite Hup, Hcl. simpl negb. cbv iota.
  rewrite (serve_script _ _ _ _ _ Hd). unfold on_script, zoom. fold (script_of c).
  assert (serve (ServerSelector0 := lua_interface Duration_String) RPath l r (script_of c) = (Ok (Some q, None), s'))
    as -> by exact R.
  simpl. unfold gob_flat_ptr. simpl. unfold conclude, mbind, GoM_bind, get_state. destruct (string_zero (pp_Fingerprint q)).
  - subst p. by eexists.
  - destruct Hp as (x & -> & Hcur & Hfp).
    pose proof (proj2 (record_current (history tr) (pp_Fingerprint q) x) (conj Hcur Hfp)) as Hx.
    rewrite <-(reaches_paths tr c Hr) in Hx. simpl. rewrite Hx. by eexists.
Qed.
End Requests.

(** ** The selectors of TAPS *)

(** Of the selector objects of a network, those that are clients of a daemon:
    their SetPreferences is the client's, which sees the preferences objects of
    the process. *)
Class ClientSelectors `{PanCodecs} (S : Type) `{!ServerSelector S} `{Network} := {
  client_at : Sel → Net → option (SelectorClient S);
  put_at : Sel → SelectorClient S → Net → Net;
  client_call sel p (w : World (protocol Sel) Net) c :
    client_at sel (net w) = Some c →
    Sel_SetPreferences sel p w
    = let '(e, c') := SelectorClient_SetPreferences p (c <| prefs := preferences (heap w) |>) in
      (e, w <| net := put_at sel c' (net w) |>)
}.

(** What pan does with a selector: the address of a host is looked up without
    it. Inside the AS of the host pan needs no paths and leaves the selector alone.
    A connection to another AS that pan.DialQUIC returns was dialled after a call
    of the selector's Initialize that returned, with the addresses of the connection
    and the paths pan has found. *)
Class DialingSelectors `{PanCodecs} (S : Type) `{!ServerSelector S} `{Network} `{!ClientSelectors S} := {
  host_IA : Net → IA;
  remote_IA : Transports.PanAddr → IA;
  host_law sel c n : host_IA (put_at sel c n) = host_IA n;
  put_law sel c n : client_at sel (put_at sel c n) = Some c;
  resolve_law sel a n r n' : pan_ResolveUDPAddr a n = (Ok r, n') → client_at sel n' = client_at sel n;
  dial_law sel a t q n c s n' :
    client_at sel n = Some c → remote_IA a ≠ host_IA n →
    pan_DialQUIC a (Some sel) t q n = (Ok (Some s, None), n') →
    ∃ l r ps c', SelectorClient_Initialize l r (Some <$> ps) c = (Ok tt, c')
}.

(** Without addresses the client keeps the preferences for Initialize. *)
Lemma SetPreferences_kept `{PanCodecs} {S} `{!ServerSelector S} p (c : SelectorClient S) :
  local c = None → SelectorClient_SetPreferences p c = (Ok None, c <| connectionPreferences := p |>).
Proof. intros Hl. unfold SelectorClient_SetPreferences. do 2 go_exec by reflexivity. by rewrite Hl. Qed.

Lemma on_net_inv `{Network} {A} (m : GoM Net A) w r w' :
  on_net m w = (r, w') → ∃ n, m (net w) = (r, n) ∧ w' = w <| net := n |>.
Proof. unfold on_net, zoom. destruct (m (net w)) as [r' n]. intros [= <- <-]. eauto. Qed.

Lemma on_heap_load_inv {P N A} (st : Heap P → gmap loc A) p (w : World P N) d w' :
  on_heap (load st p) w = (Ok d, w') → (∃ l, p = Some l ∧ st (heap w) !! l = Some d) ∧ w' = w.
Proof.
  unfold on_heap, zoom, load. destruct p as [l|]; [|done]. destruct (st (heap w) !! l) as [d'|] eqn:E; [|done].
  intros [= <- <-]. split; [eauto|by destruct w].
Qed.

Lemma remote_address_inv `{Network} p (w : World (protocol Sel) Net) a w' :
  remote_address p w = (Ok a, w') →
  w' = w ∧ ∀ v ep, view (heap w) p = Some v → v_remote v = Some ep → a = Address ep.
Proof.
  unfold remote_address. intros (pre & w1 & [(? & [= <-] & Hp) ->]%on_heap_load_inv & R)%bind_inv.
  apply bind_inv in R as (e & w1 & [(l & Hl & He) ->]%on_heap_load_inv & [-> ->]%ret_inv). split; [done|].
  intros v ep (pre' & Hp' & _ & Hr & _)%view_inv Hv. simpl in Hp'. rewrite Hp in Hp'. injection Hp' as <-.
  rewrite Hl, Hv in Hr. simpl in Hr. rewrite He in Hr. by injection Hr as ->.
Qed.

(** What a successful Initiate over SCION has done: it has looked up the address,
    set the preferences and dialled. *)
Lemma squic_dials `{Network} (q : squic_Config Sel) p sel (w : World (protocol Sel) Net) x w' :
  Config_Selector q = Some sel →
  Protocol_Initiate (ScionQuicProtocol q) p w = (Ok (Some x, None), w') →
  ∃ a addr n1 w2 ss n2,
    (∀ v ep, view (heap w) p = Some v → v_remote v = Some ep → a = Address ep) ∧
    pan_ResolveUDPAddr a (net w) = (Ok (addr, None), n1) ∧
    (∀ pre, preconnections (heap w) !! p = Some pre →
       Sel_SetPreferences sel (ConnectionPreferences_ pre) (w <| net := n1 |>) = (Ok None, w2)) ∧
    pan_DialQUIC addr (Some sel) (TLS q) (Transports.Quic q) (net w2) = (Ok (Some ss, None), n2).
Proof.
  intros Hsel R. simpl in R. apply bind_inv in R as ([c err] & w1 & R & [[= Hx _] _]%ret_inv).
  destruct c as [c|]; [|discriminate Hx]. clear Hx. unfold squic_Initiate in R.
  apply bind_inv in R as (a & w3 & Ra & R). apply remote_address_inv in Ra as [-> Ha].
  apply bind_inv in R as ([addr e] & w4 & Rr & R). apply on_net_inv in Rr as (n1 & Rr & ->).
  destruct e as [e|]; [by apply ret_inv in R as [? _]|].
  apply bind_inv in R as (pre & w5 & Rp & R). apply on_heap_load_inv in Rp as [(p' & [= <-] & Hp) ->].
  rewrite Hsel in R. apply bind_inv in R as (e & w2 & Rs & R).
  destruct e as [e|]; [by apply ret_inv in R as [? _]|].
  apply bind_inv in R as ([session e] & w6 & Rd & R). apply on_net_inv in Rd as (n2 & Rd & ->).
  destruct e as [e|]; [by apply ret_inv in R as [? _]|].
  apply bind_inv in R as (ss & w7 & Rss & R). destruct session as [ss'|]; [|discriminate Rss].
  exists a, addr, n1, w2, ss', n2. split_and!; [done|done| |done]. intros pre' Hp'. simpl in Hp. rewrite Hp in Hp'. injection Hp' as <-. exact Rs.
Qed.

(** ** Properties *)
Section Claims.
Context `{PanFaithful} `{Quic} `{!QuicFields} {X : Type} `{!LuaVM X} (Duration_String : Z → string).
Context {W DSel Q : Type} `{!PanDefaultSelector W DSel} `{!LoggingTracer Q}.
Abbreviation D := (Daemon.daemon X W DSel Q).
#[local] Hint Extern 0 (ServerSelector _) => exact (selector_of_daemon Duration_String) : typeclass_instances.
Context `{Network} `{!ClientSelectors D}.

(** C11: Preferences go from TAPS to the script. A preconnection is asked to set
    preferences; the selector of its protocol is the client of a daemon with a
    script, initialised and after any history. Then the one effect is one call of
    the script's SetPreferences, under the mutex, with the addresses of the
    connection and a table that shows the fields of the preferences object as it
    is now, and the caller gets the text of the call's error. *)
Theorem preferences_reach_script tr (w : World (protocol Sel) Net) p v ep proto sel cps l r (c : SelectorClient D) f :
  view (heap w) p = Some v → preferred_endpoint v = Some ep → Protocol ep = Some proto →
  Selector proto = Some sel → client_at sel (net w) = Some c →
  reaches tr c → linked c → local c = Some l → remote c = Some r →
  let ps := cps ≫= λ x, preferences (heap w) !! x in
  prefs_ok ps → defines (script_of c) "SetPreferences" f →
  ∃ s1 new t,
    ready (script_of c) s1 new ∧ is_prefs Duration_String new ps t ∧
    let R := finish f [LTab (Some t); LString (UDPAddr_String l); LString (UDPAddr_String r)] s1 in
    ∃ c', SetPreferences (Some p) cps w = (told R.1, w <| net := put_at sel c' (net w) |>) ∧
      server (link c') = (server (link c)) <| d_script := R.2 |>.
Proof.
  intros Hv He Hp Hs Hc Hr Hlk Hl Hre ps Hok Hf. set (c0 := c <| prefs := preferences (heap w) |>).
  destruct (SetPreferences_reaches Duration_String tr cps l r c0 f (reaches_write _ _ _ Hr) Hlk Hl Hre Hok Hf)
    as (s1 & new & t & Hready & Hprefs & c' & R & Hsv).
  exists s1, new, t. split_and!; [done..|]. intros R1. exists c'. split; [|exact Hsv].
  rewrite (SetPreferences_spec _ _ _ _ Hv), He, Hp, Hs. simpl.
  rewrite (client_call _ _ _ _ Hc). fold c0. by rewrite R.
Qed.

(** C6: The preferences of a preconnection shape the choice of its paths. Initiate
    over SCION, with the client of a daemon with a script as the selector of the
    protocol and not yet initialised, returns a connection to a host of another AS
    only after one call of the script's Initialize that succeeded, with a table that
    shows the fields of the preconnection's preferences and a list of tables that
    show the paths, which lack only their forwarding information. Inside the AS
    there are no paths to choose from, and pan does not ask the selector. *)
Theorem Initiate_reaches_script `{!DialingSelectors D} tr (w : World (protocol Sel) Net) p v ep q sel
    (c : SelectorClient D) f x w' :
  view (heap w) p = Some v → v_remote v = Some ep → Protocol ep = Some (ScionQuicProtocol q) →
  Config_Selector q = Some sel → client_at sel (net w) = Some c →
  reaches tr c → linked c → local c = None → prefs_ok (v_preferences v) →
  defines (script_of c) "Initialize" f → Initiate (Some p) w = (Ok (Some x, None), w') →
  ∃ addr n1, pan_ResolveUDPAddr (Address ep) (net w) = (Ok (addr, None), n1) ∧
  (remote_IA (S := D) addr ≠ host_IA (S := D) n1 →
  ∃ l r ps s1 new lts t_prefs t_paths e s2,
    ready (script_of c) s1 new ∧ is_prefs Duration_String new (v_preferences v) t_prefs ∧
    lists is_ref new lts t_paths ∧ offered_as (without_forwarding <$> ps) lts new (ppaths s1) ∧
    finish f [LTab (Some t_prefs); LString (UDPAddr_String l); LString (UDPAddr_String r);
              LTab (Some t_paths)] s1 = (Ok e, s2) ∧ wire_error e = None).
Proof.
  intros Hv He Hp Hsel Hc Hr Hlk Hl Hok Hf R.
  rewrite (Initiate_run w p v Hv), He, Hp in R.
  destruct (on_heap_Copy w p v Hv) as (l' & h & pre & Rc & _ & _ & Hpre & _ & Hv').
  rewrite (bind_ok _ _ _ _ _ Rc) in R. destruct (squic_dials q l' sel _ x w' Hsel R) as (a & addr & n1 & w2 & ss & n2 & Hep & Ra & Rs & Rd).
  rewrite (Hep v ep Hv' He) in Ra. simpl in Ra, Rs. exists addr, n1. split; [exact Ra|]. intros Has. apply view_inv in Hv' as (pre' & Hpre' & _ & _ & Hcp & _).
  rewrite Hpre in Hpre'. injection Hpre' as <-. specialize (Rs _ Hpre).
  rewrite (client_call _ _ _ c) in Rs by (simpl; by rewrite (resolve_law _ _ _ _ _ Ra)).
  rewrite SetPreferences_kept in Rs by done. injection Rs as <-.
  apply dial_law with (1 := put_law _ _ _) in Rd; [|simpl; by rewrite host_law]. destruct Rd as (l & r & ps & c' & Ri). simpl in Ri.
  match type of Ri with _ ?k = _ => set (c1 := k) in Ri end.
  assert (reaches (tr ++ [OpSetPreferences (ConnectionPreferences_ pre)]) c1) as Hr1.
  { eapply (reaches_step tr (c <| prefs := preferences h |>) _ (None, None)); [by apply reaches_write|].
    simpl. unfold fmap, GoM_fmap. by erewrite bind_ok by by apply SetPreferences_kept. }
  assert (current_preferences c1 = v_preferences v) as Hcur.
  { unfold current_preferences. simpl. destruct (ConnectionPreferences_ pre) as [k|]; simpl in Hcp |- *; [|by injection Hcp].
    apply fmap_Some in Hcp as (d & -> & ->). done. }
  destruct (Initialize_offers Duration_String _ l r ps c1 f Hr1 Hlk) as (s1 & new & lts & tp & tl & Hrd & Hpf & Hli & Hof & Hgo & _);
    [by rewrite Hcur|done|]. rewrite Hcur in Hpf.
  destruct (Hgo (None, None) c') as (e & s2 & Hfin & Hwire).
  { simpl. by rewrite (bind_ok _ _ _ _ _ Ri). }
  exists l, r, ps, s1, new, lts, tp, tl, e, s2. done.
Qed.

(** C7: Paths go to the script and come back. When a client, after any history,
    initialises a connection with paths at a daemon with a script, the script's
    Initialize is called with the preferences, the addresses and a list of tables
    that show the paths. Once that call has succeeded, a table of the list that the
    script's Path returns comes back to the application as its own path,
    forwarding information included, which the daemon never had: the last path of
    the offer that has the fingerprint of the path the table was made for. That is
    this very path if no later one of the offer has its fingerprint. For a path
    with an empty fingerprint the application gets none. *)
Theorem offered_path_returns tr l r ps (c : SelectorClient D) f :
  reaches tr c → linked c → prefs_ok (current_preferences c) → defines (script_of c) "Initialize" f →
  ∃ s1 new lts t_prefs t_paths,
    ready (script_of c) s1 new ∧ is_prefs Duration_String new (current_preferences c) t_prefs ∧
    lists is_ref new lts t_paths ∧ offered_as (without_forwarding <$> ps) lts new (ppaths s1) ∧
    ∀ e s2, finish f [LTab (Some t_prefs); LString (UDPAddr_String l); LString (UDPAddr_String r);
                      LTab (Some t_paths)] s1 = (Ok e, s2) → wire_error e = None →
      ∃ c2, perform (OpInitialize l r (Some <$> ps)) c = (Ok (None, None), c2) ∧ script_of c2 = s2 ∧
        ∀ k p lt g vs h, ps !! k = Some p → lts !! k = Some lt →
          defines s2 "Path" (LFunc (Script g)) →
          run_script g [LString (UDPAddr_String l); LString (UDPAddr_String r)]
            (tables (lua s2), vm (lua s2)) = (Ok (inr (LTab (Some lt) :: vs)), h) →
          (∃ c3, perform OpPath c2 = (Ok (given_for (pp_Fingerprint p) ps, None), c3)) ∧
          (pp_Fingerprint p ≠ ""%string →
           (∀ j q, ps !! j = Some q → k < j → pp_Fingerprint q ≠ pp_Fingerprint p) →
           given_for (pp_Fingerprint p) ps = Some p).
Proof.
  intros Hr Hlk Hok Hf.
  destruct (Initialize_offers Duration_String tr l r ps c f Hr Hlk Hok Hf)
    as (s1 & new & lts & tp & tl & Hready & Hprefs & Hlist & Hoff & _ & Hk).
  exists s1, new, lts, tp, tl. split_and!; [done..|]. intros e s2 Rf He.
  destruct (Hk e s2 Rf He) as (c2 & Rp & Hs & Hlk2 & Ha & Hpp). exists c2.
  assert (script_of c2 = s2) as Hsc by (unfold script_of; by rewrite Hs).
  split_and!; [done..|]. intros k p lt g vs h Hp Hlt Hg Rg. split; [|by apply given_self].
  destruct (Forall2_lookup_lr _ _ _ k (without_forwarding p) lt Hoff) as [_ Hq]; [by rewrite list_lookup_fmap, Hp|done|].
  eapply (Path_returns Duration_String (tr ++ [OpInitialize l r (Some <$> ps)]) l r c2 g lt vs h (without_forwarding p));
    [by eapply reaches_step|done|done|by rewrite Hsc..| |].
  - by rewrite Hsc, Hpp.
  - simpl. destruct (string_zero (pp_Fingerprint p)) eqn:Hz; [unfold given_for; by rewrite Hz|].
    destruct (given_some ps p) as [x Hx]; [by eapply list_elem_of_lookup_2|by apply bool_decide_eq_false in Hz|].
    exists x. split; [exact Hx|]. unfold history. rewrite fmap_app, join_app. simpl. rewrite app_nil_r, omap_Offer.
    by apply given_current.
Qed.
End Claims.

(** ** Witnesses *)
Lemma pair_of_fst {A B} (x : A * B) a : x.1 = a → x = (a, x.2).
Proof. by intros <-; destruct x. Qed.

Module SampleStack.
#[local] Existing Instance SampleScript.script.
#[export] Existing Instance SampleClient.codecs.
#[export] Existing Instance SampleClient.codecs_faithful.

Definition functions : LTable := mkLTable
  (<["SetPreferences"%string := LFunc (Script 2)]> (strdict SampleScript.functions)) [].
Definition script : LuaSelector (option loc) :=
  mkLuaSelector (mkState {[1%positive := functions]} [] false None) ∅ ∅ 1%positive.

Abbreviation D := (Daemon.daemon (option loc) SampleDaemon.objects nat nat).
#[local] Hint Extern 0 (ServerSelector _) => exact (selector_of_daemon SampleScript.text) : typeclass_instances.

Definition y := SamplePan.path "y" 8.
Definition open := OpInitialize SamplePan.ClientA SamplePan.Server [Some SampleClient.x; Some y].
Definition client : SelectorClient D :=
  NewSelectorClient ∅ (mkLink (mk_daemon script None 1%positive 0) true false None false).

(** The AS of the host. *)
Definition host : string := "17-ffaa:1:1".

(** The state of the network is the client. *)
#[global] Instance network : Network := {
  Net := SelectorClient D; NetListener := unit; NetConn := unit; QListener := unit;
  QSession := unit; QStream := unit; PanAddr := string; Sel := unit;
  net_Listen _ := mret (None, None);
  net_Dial _ := mret (None, None);
  NetListener_Accept _ := mret (None, None);
  NetListener_Close _ := mret None;
  NetConn_RemoteAddr _ := ""%string;
  quic_ListenAddr _ _ _ := mret (None, None);
  quic_DialAddr _ _ _ := mret (None, None);
  QListener_Accept _ := mret (None, None);
  QListener_Close _ := mret None;
  QSession_RemoteAddr _ := ""%string;
  QSession_AcceptStream _ := mret (None, None);
  QSession_OpenStream _ := mret (Some tt, None);
  QSession_CloseWithError _ _ _ := mret None;
  QStream_Close _ := mret None;
  pan_ResolveUDPAddr _ := mret ("17-ffaa:1:2"%string, None);
  pan_ListenQUIC _ _ _ := mret (None, None);
  pan_DialQUIC a sel _ _ :=
    match sel with
    | Some _ => if bool_decide (a = host) then mret tt else SelectorClient_Initialize (S := D) SamplePan.ClientA SamplePan.Server [Some SampleClient.x; Some y]
    | None => mret tt
    end;; mret (Some tt, None);
  Sel_SetPreferences _ p := λ w,
    let '(e, c) := SelectorClient_SetPreferences p ((net w) <| prefs := preferences (heap w) |>) in
    (e, w <| net := c |>)
}.

#[global] Instance selectors : ClientSelectors D.
Proof.
  unshelve eapply Build_ClientSelectors.
  - exact (λ _ n, Some n).
  - exact (λ _ c _, c).
  - by intros sel p w c [= <-].
Defined.

#[global] Instance dialling : DialingSelectors D.
Proof.
  unshelve eapply Build_DialingSelectors.
  - exact (λ _, host).
  - exact (λ a, a).
  - done.
  - done.
  - by intros sel a n r n' [= _ <-].
  - intros sel a t q n c s n' [= <-] Ha R. exists SamplePan.ClientA, SamplePan.Server, [SampleClient.x; y].
    simpl in R, Ha. rewrite bool_decide_false in R by done. apply bind_inv in R as ([] & c' & R & _). by exists c'.
Defined.

Definition opened : SelectorClient D := (perform open client).2.
Lemma stack_reached : reaches [open] opened.
Proof.
  apply (reaches_step [] client open (None, None)); [apply reaches_new|].
  apply injective_projections; [vm_compute; reflexivity|vm_compute; reflexivity].
Qed.

Definition quic : squic_Config Sel := mk_squic_Config None None (Some tt).
Definition preferred : ConnectionPreferences := mkConnectionPreferences 9 Scavenger Handover true.

(** A preconnection at 5 with a remote endpoint, over SCION. *)
Definition world (c : SelectorClient D) : World (protocol Sel) Net :=
  mkWorld (mkHeap {[1%positive := mkEndpoint "17-ffaa:1:2,[127.0.0.1]:1337" (Some (ScionQuicProtocol quic))]}
             {[3%positive := preferred]} ∅
             {[5%positive := mkPreconnection None (Some 1%positive) SampleNet.tp_default
                 NewDisabledSecurityParameters (Some 3%positive)]}) c.
Definition connected : connection (H := network) :=
  ScionC (H := network) (mk_squic_Connection (H := network) (Some tt) (Some 6%positive) (Some tt)).
Abbreviation initiate := (Initiate (L := listener) (C := connection) (Some 5%positive) (world client)).
Lemma initiated : initiate.1 = Ok (Some connected, None).
Proof.
  assert (match initiate.1 with
          | Ok (Some (ScionC c), e) => Some (sc_Stream c, sc_p c, sc_Session c, e)
          | _ => None
          end = Some (Some tt, Some 6%positive, Some tt, None)) as F by (vm_compute; reflexivity).
  destruct (initiate.1) as [[[[c|c|[st pre se]]|] e]| | |]; try discriminate F.
  simpl in F. injection F as -> -> -> ->. reflexivity.
Qed.
End SampleStack.
#[local] Existing Instance SampleClient.codecs.
#[local] Existing Instance SampleClient.codecs_faithful.
#[local] Hint Extern 0 (ServerSelector SampleStack.D) => exact (selector_of_daemon SampleScript.text) : typeclass_instances.

(** The script gets the timeout, the names of the enumerations and the flag. *)
Lemma preferences_reach_script_witness :
  let s := script_of SampleStack.opened in
  (SetPreferences (Some 5%positive) (Some 3%positive) (SampleStack.world SampleStack.opened)).1 = Ok None ∧
  ∃ s1 new t, ready s s1 new ∧
    is_table new [("ConnTimeout", LString (SampleScript.text 9));
                  ("ConnCapacityProfile", LString "Scavenger"); ("MultipathPolicy", LString "Handover");
                  ("IsolateSession", LBool true)]%string t.
Proof.
  intros s. split; [vm_compute; reflexivity|].
  destruct (preferences_reach_script (Q := nat) SampleScript.text [SampleStack.open] (SampleStack.world SampleStack.opened)
    5%positive _ _ (ScionQuicProtocol SampleStack.quic) tt (Some 3%positive) SamplePan.ClientA SamplePan.Server
    SampleStack.opened (LFunc (Script 2)) eq_refl eq_refl eq_refl eq_refl)
    as (s1 & new & t & Hready & Hprefs & _).
  - reflexivity.
  - exact SampleStack.stack_reached.
  - split_and!; vm_compute; reflexivity.
  - vm_compute. reflexivity.
  - vm_compute. reflexivity.
  - intros p [= <-]. split; split; vm_compute; congruence.
  - eexists. split; vm_compute; reflexivity.
  - exists s1, new, t. split; [exact Hready|exact Hprefs].
Defined.

(** A preconnection that asks for Scavenger is initiated. *)
Lemma Initiate_reaches_script_witness :
  ∃ x s1 new t_prefs,
    SampleStack.initiate.1 = Ok (Some x, None) ∧
    ready (script_of SampleStack.client) s1 new ∧
    is_prefs SampleScript.text new (Some SampleStack.preferred) t_prefs.
Proof.
  destruct (Initiate_reaches_script (H := SamplePan.pan) (Q := nat) SampleScript.text [] (SampleStack.world SampleStack.client) 5%positive
    (mkView None (Some (mkEndpoint "17-ffaa:1:2,[127.0.0.1]:1337" (Some (ScionQuicProtocol SampleStack.quic))))
       Require_ Require_ Require_ ∅ dynamic NewDisabledSecurityParameters (Some SampleStack.preferred))
    _ SampleStack.quic tt SampleStack.client (LFunc (Script 0))
    SampleStack.connected SampleStack.initiate.2 eq_refl eq_refl eq_refl eq_refl)
    as (addr & n1 & Ha & Hgo).
  - reflexivity.
  - apply reaches_new.
  - split_and!; reflexivity.
  - reflexivity.
  - intros p [= <-]. split; split; vm_compute; congruence.
  - eexists. split; vm_compute; reflexivity.
  - exact (pair_of_fst _ _ SampleStack.initiated).
  - injection Ha as <- <-.
    destruct Hgo as (l & r & ps & s1 & new & lts & tp & tl & e & s2 & Hready & Hprefs & _); [discriminate|].
    exists SampleStack.connected, s1, new, tp. split; [exact SampleStack.initiated|]. split; [exact Hready|exact Hprefs].
Defined.

Lemma offered_path_returns_witness :
  (perform SampleStack.open;; perform OpPath) SampleStack.client
  = (Ok (Some SampleClient.x, None), (perform OpPath SampleStack.opened).2) ∧
  ∃ s1 new lts t_paths,
    ready (script_of SampleStack.client) s1 new ∧ lists is_ref new lts t_paths ∧
    offered_as [without_forwarding SampleClient.x; without_forwarding SampleStack.y] lts new (ppaths s1).
Proof.
  split; [apply injective_projections; [vm_compute; reflexivity|vm_compute; reflexivity]|].
  destruct (offered_path_returns (H := SamplePan.pan) (Q := nat) SampleScript.text [] SamplePan.ClientA SamplePan.Server
    [SampleClient.x; SampleStack.y] SampleStack.client (LFunc (Script 0)) (reaches_new _ _))
    as (s1 & new & lts & tp & tl & Hready & _ & Hlist & Hoff & _).
  - split_and!; reflexivity.
  - by intros p.
  - eexists. split; vm_compute; reflexivity.
  - exists s1, new, lts, tl. split; [exact Hready|]. split; [exact Hlist|exact Hoff].
Defined.
