(* ===== verification/DaemonRun.v ===== *)
(** * A run of the daemon (cmd/daemon/main.go)

    main from the parsed flags to the exit: the Unix socket, profiling, the
    choice of the selector (daemon_main of Daemon), the registration of the
    services (Process), what is served until a signal comes, and the cleanup. The operating system is a parameter; its laws
    say what happens to the file of the socket. *)

From S2P Require Import Prelude Process PanPath TracerMsg ServerSelector QuicTracer LuaApi LuaSelector LuaStats Daemon.

(** Package os, net.ListenUnix with SetUnlinkOnClose(true), pprof and signals. *)
Class DaemonSystem (O : Type) `{!FileSystem O} := {
  ListenUnix : GoM O error;
  StartCPUProfile : GoM O error;
  StopCPUProfile : GoM O unit;
  (** The result of opening a script, and its contents. *)
  open_script : string → GoM O (error * string);
  next_signal : GoM O string;
  listener_Close : GoM O error;
  (** The file of the socket is there. *)
  socket : O → bool
}.

(** The socket's file comes with the listener and goes with its Close; it is in
    the way of the next listener. *)
Class DaemonSystemLaws (O : Type) `{DaemonSystem O} := {
  ListenUnix_law o : ∃ e o', ListenUnix o = (Ok e, o') ∧ socket o' = true ∧ (socket o = true ↔ e ≠ None);
  Close_law o : ∃ o', listener_Close o = (Ok None, o') ∧ socket o' = false;
  Create_law f : within (λ o o', socket o' = socket o) (os_Create f);
  minute_law : within (λ o o', socket o' = socket o) minute;
  StartCPUProfile_law : within (λ o o', socket o' = socket o) StartCPUProfile;
  StopCPUProfile_law o : ∃ o', StopCPUProfile o = (Ok tt, o') ∧ socket o' = socket o;
  open_script_law f : within (λ o o', socket o' = socket o) (open_script f);
  next_signal_law : within (λ o o', socket o' = socket o) next_signal
}.

Section Run.
Context `{Pan} `{Quic} `{!QuicFields} {X : Type} `{!LuaVM X} (Duration_String : Z → string).
Context {W Sel Q : Type} `{!PanDefaultSelector W Sel} `{!LoggingTracer Q}.
Context {O : Type} `{DaemonSystem O}.

(** [os.Exit(0)] *)
Definition exit_0 : string := "exit status 0".

(** [if err != nil { log.Fatal(what, err) }] *)
Definition or_Fatal (what : string) (err : error) : GoM O unit :=
  match err with Some e => fatal (what +:+ e) | None => mret tt end.

Definition could_not_start : string := "Could not start daemon: ".

Definition profiling (cpulog : string) : GoM O unit :=
  if bool_decide (cpulog = ""%string) then mret tt
  else
    err ← os_Create cpulog;
    or_Fatal "cpuprofile:" err;;
    err ← StartCPUProfile;
    or_Fatal "cpuprofile:" err.

Definition cleanup : GoM O unit :=
  _ ← listener_Close;
  StopCPUProfile;;
  fatal exit_0.

(** [<-c], unless what is served ends the process first. A handler that waits
    for ever does not: it has a goroutine of its own. *)
Definition until_signal {A} (served : outcome A) : GoM O unit :=
  match served with
  | Panics why => panic why
  | Exits why => fatal why
  | _ => next_signal;; mret tt
  end.

(** rpc.NewServer, the first of the process. *)
Definition start_services : GoM O error :=
  zoom (mkProcess [] []) (λ p _, os p) NewServer_registers.

(** [log.Fatalln(err)] *)
Definition or_Fatalln (err : error) : GoM O unit :=
  match err with Some e => fatal e | None => mret tt end.

(** Up to the signal: [es] is what reaches the daemon before it. *)
Definition serving (x : X) (w : W) (q : Q) (script cpulog : string) (es : list event) : GoM O unit :=
  profiling cpulog;;
  '(opened, file) ← open_script script;
  d ← pure_call (daemon_main x opened file w q);
  err ← start_services;
  or_Fatalln err;;
  until_signal (go_map (happen (W := W) (Sel := Sel) Duration_String) es d).1.

Definition main (x : X) (w : W) (q : Q) (script cpulog : string) (es : list event) : GoM O unit :=
  err ← ListenUnix;
  or_Fatal could_not_start err;;
  serving x w q script cpulog es;;
  cleanup.
End Run.

Section Lemmas.
Context `{Pan} `{Quic} `{!QuicFields} {X : Type} `{!LuaVM X} (Duration_String : Z → string).
Context {W Sel Q : Type} `{!PanDefaultSelector W Sel} `{!LoggingTracer Q}.
Context {O : Type} `{DaemonSystemLaws O}.

Definition socket_stays (o o' : O) : Prop := socket o' = socket o.
#[export] Instance socket_stays_preorder : PreOrder socket_stays.
Proof. unfold socket_stays. split; [by intros o|]. intros o1 o2 o3 E1 E2. congruence. Qed.

Lemma stays_or_Fatal what err : within socket_stays (or_Fatal what err).
Proof. by destruct err. Qed.

Lemma stays_profiling cpulog : within socket_stays (profiling cpulog).
Proof.
  unfold profiling. case_bool_decide; [apply within_ret; apply _|].
  apply within_bind; [apply _|apply Create_law|intros err].
  apply within_bind; [apply _|apply stays_or_Fatal|intros _].
  apply within_bind; [apply _|apply StartCPUProfile_law|intros err']. apply stays_or_Fatal.
Qed.

Lemma stays_pure_call {A} (r : outcome A) : within socket_stays (pure_call r).
Proof. by intros o. Qed.

Lemma stays_until_signal {A} (served : outcome A) : within socket_stays (until_signal served).
Proof.
  destruct served as [a|why|why|]; [|by intros o|by intros o|];
    (apply within_bind; [apply _|apply next_signal_law|intros u; apply within_ret; apply _]).
Qed.

Lemma stays_start_services : within socket_stays start_services.
Proof.
  set (R := λ p p' : Process O, socket_stays (os p) (os p')).
  assert (PreOrder R) as HR.
  { unfold R. split; [by intros p|]. intros p1 p2 p3 E1 E2. by etrans. }
  assert (∀ {A} (m : GoM O A), within socket_stays m → within R (on_os m)) as Hos.
  { intros A m Hm p. unfold on_os, zoom. specialize (Hm (os p)). by destruct (m (os p)). }
  assert (∀ name, within R (Register name)) as Hreg.
  { intros name p. unfold Register, mbind, GoM_bind, get_state. by case_bool_decide. }
  assert (within R NewServer_registers) as Hn.
  { apply within_bind; [apply _|apply Hreg|intros [e|]]; [apply within_ret; apply _|].
    apply within_bind; [apply _| |intros _].
    - apply within_bind; [apply _| |intros [e|]; by intros p].
      apply within_bind; [apply _|apply Hos, minute_law|intros t].
      apply within_bind; [apply _|apply Hos, Create_law|intros [e|]]; by intros p.
    - apply within_bind; [apply _|apply Hreg|intros [e|]]; [apply within_ret; apply _|apply Hreg]. }
  intros o. unfold start_services, zoom. specialize (Hn (mkProcess [] [] o)).
  by destruct (NewServer_registers _).
Qed.

Lemma stays_serving x w q script cpulog es :
  within socket_stays (serving (Sel := Sel) Duration_String x w q script cpulog es).
Proof.
  apply within_bind; [apply _|apply stays_profiling|intros _].
  apply within_bind; [apply _|apply open_script_law|intros [opened file]].
  apply within_bind; [apply _|apply stays_pure_call|intros d].
  apply within_bind; [apply _|apply stays_start_services|intros err].
  apply within_bind; [apply _|by destruct err|intros _]. apply stays_until_signal.
Qed.

Lemma main_in_use o : socket o = true → ∀ x w q script cpulog es, ∃ e o',
  main (Sel := Sel) Duration_String x w q script cpulog es o = (Exits (could_not_start +:+ e), o').
Proof.
  intros Hs x w q script cpulog es. destruct (ListenUnix_law o) as (e & o' & R & Hs' & He).
  destruct e as [e|]; [|by apply He in Hs]. exists e, o'.
  unfold main. by rewrite (bind_ok _ _ _ _ _ R).
Qed.
End Lemmas.

(** ** Property *)
Section Claims.
Context `{Pan} `{Quic} `{!QuicFields} {X : Type} `{!LuaVM X} (Duration_String : Z → string).
Context {W Sel Q : Type} `{!PanDefaultSelector W Sel} `{!LoggingTracer Q}.
Context {O : Type} `{DaemonSystemLaws O}.
Abbreviation daemon := (main (W := W) (Sel := Sel) (Q := Q) (X := X) Duration_String).

(** C36: A daemon ends by a signal or not at all properly. main never returns;
    when it serves until a signal it closes the socket, so that its file is gone,
    and exits with status 0. When anything else ends it, an error of profiling, a log
    file that cannot be created or a panic of a handler, the file stays, and every daemon started afterwards
    ends at once, unable to listen. *)
Theorem main_socket x w q script cpulog es o r o' :
  socket o = false → daemon x w q script cpulog es o = (r, o') →
  (r = Exits exit_0 ∧ socket o' = false) ∨
  (r ≠ Ok tt ∧ socket o' = true ∧
   ∀ x w q script cpulog es, ∃ e o2,
     daemon x w q script cpulog es o' = (Exits (could_not_start +:+ e), o2)).
Proof.
  intros Hs R. destruct (ListenUnix_law o) as (e & o1 & R1 & Hs1 & He).
  destruct e as [e|]; [by rewrite (proj2 He ltac:(done)) in Hs|].
  unfold main in R. rewrite (bind_ok _ _ _ _ _ R1) in R. unfold or_Fatal in R. rewrite bind_ret_l in R.
  pose proof (stays_serving (Sel := Sel) Duration_String x w q script cpulog es o1) as Hst.
  revert R. set (m := serving _ _ _ _ _ _ _) in *. clearbody m. unfold mbind at 1, GoM_bind at 1.
  unfold socket_stays in Hst. destruct (m o1) as [r2 o2]. cbn [snd] in Hst. intros R.
  destruct r2 as [u|why|why|]; [left|right; injection R as <- <-; split_and!; [done|congruence|]..].
  - destruct (Close_law o2) as (o3 & R3 & Hs3), (StopCPUProfile_law o3) as (o4 & R4 & Hs4).
    unfold cleanup in R. rewrite (bind_ok _ _ _ _ _ R3), (bind_ok _ _ _ _ _ R4) in R.
    injection R as <- <-. split; [done|congruence].
  - apply main_in_use; [apply _|congruence].
  - apply main_in_use; [apply _|congruence].
  - apply main_in_use; [apply _|congruence].
Qed.
End Claims.

(** ** A sample system, on which the profile cannot be created *)
Module SampleSystem.
#[global] Instance files : FileSystem bool := {
  os_Create f := mret (if bool_decide (f = "cpu.log"%string) then Some (f +:+ ": permission denied") else None);
  Sync _ := mret None;
  minute := mret "2021-11-01-12-00"%string
}.
#[global] Instance system : DaemonSystem bool := {
  ListenUnix o := (Ok (if o then Some "bind: address already in use"%string else None), true);
  StartCPUProfile := mret None;
  StopCPUProfile := mret tt;
  open_script _ := mret (None, "-- script"%string);
  next_signal := mret "interrupt"%string;
  listener_Close _ := (Ok None, false);
  socket o := o
}.

#[global] Instance laws : DaemonSystemLaws bool.
Proof.
  split; try done.
  - intros []; eexists _, true; split; try reflexivity; done.
  - intros o. by exists false.
  - intros o. by exists o.
Qed.
End SampleSystem.

Section Witness.
Import SampleSystem SampleDaemon.
Abbreviation sample := (main (H := SamplePan.pan) (W := objects) (Sel := nat) (Q := nat) (O := bool) SampleScript.text
  (mk_machine None) ∅ 0).

(** A profile that cannot be written keeps every later daemon from starting. *)
Lemma main_socket_witness :
  sample "script.lua" "cpu.log" [] false = (Exits "cpuprofile:cpu.log: permission denied", true) ∧
  ∃ e o2, sample "script.lua" "" [] true = (Exits (could_not_start +:+ e), o2).
Proof.
  assert (sample "script.lua" "cpu.log" [] false = (Exits "cpuprofile:cpu.log: permission denied", true)) as R
    by reflexivity.
  split; [exact R|]. assert (socket (DaemonSystem := system) false = false) as Hs by reflexivity.
  destruct (main_socket (H := SamplePan.pan) (Sel := nat) (O := bool) SampleScript.text (mk_machine None) ∅ 0 "script.lua"
    "cpu.log" [] false _ _ Hs R) as [[Hr _]|(_ & _ & Hn)]; [discriminate Hr|].
  exact (Hn (mk_machine None) ∅ 0 "script.lua"%string ""%string []).
Defined.

(** A daemon that serves until a signal. *)
Example main_sample : sample "script.lua" "" events false = (Exits exit_0, false).
Proof. vm_compute. reflexivity. Qed.
End Witness.
