(* ===== verification/Convenience.v ===== *)
(** * Helpers for applications (pkg/convenience/convenience.go)

    A self-signed certificate for QUIC, and the connection to the daemon with
    the selector and the tracer that use it. Keys, certificates and sockets are
    operations on the state of the system, which are parameters. *)

From S2P Require Import Prelude Enums Taps PanPath GobRpc ServerSelector SelectorServer SelectorClient.

(** crypto/rsa, crypto/x509, encoding/pem and crypto/tls. *)
Class Crypto (W : Type) := {
  RsaKey : Type;
  TlsCertificate : Type;
  rsa_GenerateKey : Z → GoM W (option RsaKey * error);
  (** A certificate with this serial number, signed with the key it is for. *)
  x509_CreateCertificate : Z → RsaKey → GoM W (string * error);
  MarshalPKCS1PrivateKey : RsaKey → string;
  pem_EncodeToMemory : string → string → string;
  tls_X509KeyPair : string → string → TlsCertificate * error
}.

Section TLS.
Context {W : Type} `{!Crypto W}.

(** tls.Config, as far as the program sets it. *)
Record tls_Config := mk_tls_Config {
  Certificates : list TlsCertificate;
  NextProtos : list string;
  InsecureSkipVerify : bool
}.
#[export] Instance eta_tls_Config : Eta tls_Config := λ c,
  mk_tls_Config (Certificates c) (NextProtos c) (InsecureSkipVerify c).

(** The error of GenerateKey is overwritten before it is looked at. *)
Definition GenerateTLSConfig : GoM W tls_Config :=
  '(key, _) ← rsa_GenerateKey 1024;
  k ← deref key;
  '(certDER, err) ← x509_CreateCertificate 1 k;
  match err with
  | Some e => panic e
  | None =>
      let keyPEM := pem_EncodeToMemory "RSA PRIVATE KEY" (MarshalPKCS1PrivateKey k) in
      let certPEM := pem_EncodeToMemory "CERTIFICATE" certDER in
      let '(tlsCert, err) := tls_X509KeyPair certPEM keyPEM in
      match err with
      | Some e => panic e
      | None => mret (mk_tls_Config [tlsCert] [] false)
      end
  end.

Definition DummyTLSConfig : GoM W tls_Config :=
  conf ← GenerateTLSConfig;
  mret (conf <| NextProtos := ["dummy-test"%string] |> <| InsecureSkipVerify := true |>).
End TLS.

(** The connection to the daemon: [net.Dial] gives a link to it, [os.Create]
    makes the log file of NewClient. *)
Class DaemonHost (W S : Type) := {
  dial_daemon : GoM W (option (Link S) * error);
  create_log : GoM W error
}.
#[export] Hint Mode DaemonHost ! - : typeclass_instances.

Section RPC.
Context `{Pan} {W S : Type} `{!DaemonHost W S}.

(** A client comes with the link its calls go through. *)
Definition NewRPCClient : GoM W (option (Client * Link S) * error) :=
  '(conn, err) ← dial_daemon;
  match err with
  | Some e => mret (None, Some e)
  | None =>
      l ← deref conn;
      create ← create_log;
      let '(c, err) := NewClient create in
      mret ((λ c, (c, l)) <$> c, err)
  end.

(** [selector], a nil interface or a SelectorClient of the application with
    preferences [prefs], and [tracer], nil or a TracerClient of the client. *)
Definition RPCClientHelper (prefs : gmap loc ConnectionPreferences)
    : GoM W (option (SelectorClient S) * option Client * error) :=
  '(c, err) ← NewRPCClient;
  match err with
  | Some e => mret (None, None, Some e)
  | None =>
      '(c, l) ← deref c;
      mret (Some (NewSelectorClient prefs l), Some c, None)
  end.
End RPC.

Section Lemmas.
Context `{Pan} {W S : Type} `{!DaemonHost W S} `{!Crypto W}.

Lemma NewRPCClient_inv (w : W) c err w1 :
  NewRPCClient w = (Ok (c, err), w1) →
  (∃ conn e, c = None ∧ err = Some e ∧ dial_daemon w = (Ok (conn, Some e), w1)) ∨
  ∃ (l : Link S) w0, dial_daemon w = (Ok (Some l, None), w0) ∧
    ((∃ e, c = None ∧ err = Some e ∧ create_log w0 = (Ok (Some e), w1)) ∨
     c = Some (mkClient 42, l) ∧ err = None ∧ create_log w0 = (Ok None, w1)).
Proof.
  intros ([conn e] & w0 & Hd & R)%bind_inv. destruct e as [e|].
  { apply ret_inv in R as [[= -> ->] ->]. left. eauto. }
  destruct conn as [l|]; [|done]. right. exists l, w0. split; [done|].
  simpl in R. rewrite bind_ret_l in R. apply bind_inv in R as (e & w2 & Hc & R).
  destruct e as [e|]; apply ret_inv in R as [[= -> ->] ->]; eauto.
Qed.

(** A failure to generate the key is a nil dereference, not its error. *)
Lemma GenerateTLSConfig_no_key (w : W) e w1 :
  rsa_GenerateKey 1024 w = (Ok (None, e), w1) → DummyTLSConfig w = (Panics nil_deref, w1).
Proof. intros R. unfold DummyTLSConfig, GenerateTLSConfig, mbind, GoM_bind. by rewrite R. Qed.

(** The configuration has the one certificate, for the key it was made with. *)
Lemma DummyTLSConfig_inv (w : W) conf w1 :
  DummyTLSConfig w = (Ok conf, w1) →
  ∃ k cert der w0 e0, rsa_GenerateKey 1024 w = (Ok (Some k, e0), w0) ∧
    x509_CreateCertificate 1 k w0 = (Ok (der, None), w1) ∧
    tls_X509KeyPair (pem_EncodeToMemory "CERTIFICATE" der)
      (pem_EncodeToMemory "RSA PRIVATE KEY" (MarshalPKCS1PrivateKey k)) = (cert, None) ∧
    conf = mk_tls_Config [cert] ["dummy-test"%string] true.
Proof.
  intros (c & w2 & R & [-> ->]%ret_inv)%bind_inv.
  apply bind_inv in R as ([key e0] & w0 & Hk & R). destruct key as [k|]; [|done].
  simpl in R. rewrite bind_ret_l in R. apply bind_inv in R as ([der e1] & w3 & Hc & R).
  destruct e1; [done|]. destruct (tls_X509KeyPair _ _) as [cert [e|]] eqn:Hp; [done|].
  apply ret_inv in R as [-> ->]. naive_solver.
Qed.
End Lemmas.

(** ** Properties *)
Section Claims.
Context `{Pan} {W S : Type} `{!DaemonHost W S} `{!Crypto W}.

(** RPCClientHelper gives both or neither: without an error a selector and a
    tracer over one link, of a client with id 42, the selector as new; with an
    error neither, and the error is that of reaching the daemon or of creating
    the log file. *)
Theorem RPCClientHelper_both prefs (w : W) sel tr err w' :
  RPCClientHelper prefs w = (Ok (sel, tr, err), w') →
  match err with
  | None => ∃ l : Link S, sel = Some (NewSelectorClient prefs l) ∧ tr = Some (mkClient 42) ∧
      dial_daemon w = (Ok (Some l, None), (dial_daemon w).2) ∧
      create_log (dial_daemon w).2 = (Ok None, w')
  | Some e => sel = None ∧ tr = None ∧
      ((∃ conn, dial_daemon w = (Ok (conn, Some e), w')) ∨
       ∃ l, dial_daemon w = (Ok (Some l, None), (dial_daemon w).2) ∧
         create_log (dial_daemon w).2 = (Ok (Some e), w'))
  end.
Proof.
  intros ([c e] & w1 & R1 & R)%bind_inv.
  destruct (NewRPCClient_inv _ _ _ _ R1) as [(conn & e' & -> & -> & Hd)|(l & w0 & Hd & R0)].
  - apply ret_inv in R as [[= -> -> ->] ->]. eauto 6.
  - rewrite Hd. simpl. destruct R0 as [(e' & -> & -> & Hc)|(-> & -> & Hc)].
    + apply ret_inv in R as [[= -> -> ->] ->]. eauto 6.
    + simpl in R. apply ret_inv in R as [[= -> -> ->] ->]. eauto 6.
Qed.
End Claims.

(** ** A sample host, which the daemon answers and which cannot create files *)
Module SampleHost.
#[global] Instance host : DaemonHost (list string) nat := {
  dial_daemon := mret (Some (mkLink 0 true false None false), None);
  create_log := mret (Some "open /tmp/quic-rpc-client.log: permission denied"%string)
}.

#[global] Instance crypto : Crypto (list string) := {
  RsaKey := Z; TlsCertificate := string;
  rsa_GenerateKey bits := mret (Some bits, None);
  x509_CreateCertificate _ key := mret ("der of " +:+ pretty key, None);
  MarshalPKCS1PrivateKey key := pretty key;
  pem_EncodeToMemory type bytes := type +:+ ":" +:+ bytes;
  tls_X509KeyPair cert key := (cert +:+ "," +:+ key, None)
}.
End SampleHost.

Lemma RPCClientHelper_both_witness :
  let e := "open /tmp/quic-rpc-client.log: permission denied"%string in
  RPCClientHelper (H := SamplePan.pan) (S := nat) ∅ ([] : list string) = (Ok (None, None, Some e), []) ∧
  ((∃ conn, dial_daemon (S := nat) [] = (Ok (conn, Some e), [] : list string)) ∨
   ∃ l : Link nat, dial_daemon (W := list string) [] = (Ok (Some l, None), []) ∧
     create_log (S := nat) [] = (Ok (Some e), [] : list string)).
Proof.
  intros e. split; [reflexivity|].
  exact (proj2 (proj2 (RPCClientHelper_both (H := SamplePan.pan) (S := nat) ∅ [] None None (Some e) [] eq_refl))).
Defined.

Example DummyTLSConfig_sample :
  DummyTLSConfig ([] : list string)
  = (Ok (mk_tls_Config ["CERTIFICATE:der of 1024,RSA PRIVATE KEY:1024"%string] ["dummy-test"%string] true), []).
Proof. vm_compute. reflexivity. Qed.
