(* ===== verification/Examples.v ===== *)
(** * The example programs (examples/concurrent, examples/pingpong, examples/capacityseeker)

    Their main functions: the choice of a protocol from the command line,
    servers that accept for ever, and the workers that talk over a connection.
    Loops have fuel; a loop that is still running gives [None]. A started
    goroutine is recorded, and is a run of its own. *)

From S2P Require Import Prelude Enums Taps Transports PanPath GobRpc ServerSelector SelectorServer.
From S2P Require Import SelectorClient Convenience.
Local Open Scope Z_scope.

(** What Read returns with the bytes it has read. *)
Inductive read_error :=
  | EOF
  | ReadError (text : string).
#[export] Instance read_error_eq_dec : EqDecision read_error.
Proof. solve_decision. Defined.

(** What the programs use of a connection (the [net.Conn] or [quic.Stream] it
    embeds, a bufio.Reader around it), of crypto/rand and of time; the selector
    interface holds the daemon's client or a default selector. *)
Class Programs `{Pan} `{Network} (S : Type) := {
  conn_Write : connection → string → GoM Net (Z * error);
  conn_Read : connection → Z → GoM Net (string * option read_error);
  conn_ReadString : connection → GoM Net (string * error);
  NetConn_Close : NetConn → GoM Net error;
  rand_Read : Z → GoM Net (string * option read_error);
  Instant : Type;
  Now : GoM Net Instant;
  RFC3339Nano : Instant → string;
  Instant_String : Instant → string;
  time_Parse : string → Instant * error;
  Sub_String : Instant → Instant → string;
  tick : GoM Net Instant;
  kbps : Z → string;
  average_kbps : Z → GoM Net string;
  client_selector : SelectorClient S → Sel;
  new_DefaultSelector : GoM Net Sel
}.

Section Programs.
Context `{Pan} `{Network} {S : Type} `{!Programs S} `{!Crypto Net} `{!DaemonHost Net S}.
Abbreviation TW := (World (protocol Sel) Net).

(** quic.Config: its Tracer is nil or the TracerClient of a client. *)
Record quic_Config := mk_quic_Config { qc_Tracer : option Client }.

(** A process: the TAPS objects and the network, the configurations it has made,
    what it has printed, the connections it has started a goroutine for, the
    reporting goroutines (verbose or not) with what was sent to them, and what the
    io.LimitReader of capacityseeker may still read. *)
Record process := mk_process {
  world : TW;
  tls_configs : gmap loc tls_Config;
  quic_configs : gmap loc quic_Config;
  printed : list string;
  started : list (option connection);
  reporting : list bool;
  sent : list Z;
  limit : Z
}.
#[export] Instance eta_process : Eta process := λ s,
  mk_process (world s) (tls_configs s) (quic_configs s) (printed s) (started s)
    (reporting s) (sent s) (limit s).

Definition on_world {A} (m : GoM TW A) : GoM process A :=
  zoom world (λ w s, s <| world := w |>) m.
Definition on_Net {A} (m : GoM Net A) : GoM process A := on_world (on_net m).
Definition on_objects {A} (m : GoM (Heap (protocol Sel)) A) : GoM process A := on_world (on_heap m).

Definition Println (line : string) : GoM process unit :=
  modify (λ s, s <| printed := printed s ++ [line] |>).
Definition error_text (err : error) : string := default "<nil>"%string err.
Definition start_goroutine (c : option connection) : GoM process unit :=
  modify (λ s, s <| started := started s ++ [c] |>).

Definition start_report (verbose : bool) : GoM process unit :=
  modify (λ s, s <| reporting := reporting s ++ [verbose] |>).

(** ** The choice of the protocol *)

(** The flags all three programs have, and their defaults. *)
Record flags := mk_flags { remote : string; local : string; n : string; t : string }.
Definition no_flags : flags := mk_flags "" "" "IP" "QUIC".

Definition len (x : string) : Z := Z.of_nat (String.length x).

(** [server == client] ends the program. *)
Definition is_server (fl : flags) : bool := len (local fl) >? 0.
Definition is_client (fl : flags) : bool := len (remote fl) >? 0.
Definition roles : string := "Either specify -port for server or -remote for client".
Definition check_roles (fl : flags) : GoM process unit :=
  if Bool.eqb (is_server fl) (is_client fl) then fatal roles else mret tt.

Definition prefs_of_process : GoM process (gmap loc ConnectionPreferences) :=
  gets (λ s, preferences (heap (world s))).

(** [selector, config.Tracer, err = convenience.RPCClientHelper()] and the line
    printed on an error. *)
Definition rpc_helper : GoM process (option Sel * option Client * error) :=
  prefs ← prefs_of_process;
  '(selector, tracer, err) ← on_Net (RPCClientHelper prefs);
  match err with Some e => Println e | None => mret tt end;;
  mret (client_selector <$> selector, tracer, err).

(** concurrent and pingpong use what the helper gives. *)
Definition plain_selector : GoM process (option Sel * option Client) :=
  '(selector, tracer, _) ← rpc_helper;
  mret (selector, tracer).

(** capacityseeker uses it as far as it is asked to. *)
Definition asked_selector (daemontracer daemonselector : bool) : GoM process (option Sel * option Client) :=
  '(selector, tracer, err) ← rpc_helper;
  let tracer := if negb daemontracer || bool_decide (err ≠ None) then None else tracer in
  selector ← (if negb daemonselector || bool_decide (err ≠ None)
              then Some <$> on_Net new_DefaultSelector else mret selector);
  mret (selector, tracer).

Definition no_tcp_scion : string := "Transport TCP is not supported for Network Type SCION".
Definition which_net : string := "Either specify -n IP or -n SCION".
Definition which_transport : string := "Either specify -t TCP or -t QUIC".

Definition choose_protocol (helper : GoM process (option Sel * option Client)) (fl : flags)
    : GoM process (protocol Sel) :=
  if bool_decide (t fl = "TCP"%string) then
    if bool_decide (n fl = "SCION"%string) then fatal no_tcp_scion
    else mret TcpProtocol
  else if bool_decide (t fl = "QUIC"%string) then
    conf ← on_Net DummyTLSConfig;
    tlsConf ← alloc tls_configs conf;
    if bool_decide (n fl = "IP"%string) then
      mret (InetQuicProtocol (mk_iquic_Protocol None (Some tlsConf)))
    else if bool_decide (n fl = "SCION"%string) then
      config ← alloc quic_configs (mk_quic_Config None);
      selector ← (if is_client fl then
                    '(selector, tracer) ← helper;
                    store quic_configs (Some config) (mk_quic_Config tracer);;
                    mret selector
                  else mret None);
      mret (ScionQuicProtocol (mk_squic_Config (Some config) (Some tlsConf) selector))
    else fatal which_net
  else fatal which_transport.

Definition quote : string := String (Ascii.ascii_of_nat 34) "".

(** [switch p] of capacityseeker. *)
Definition profile_named (p : string) : GoM process CapacityProfile :=
  if bool_decide (p = "CapacitySeeking"%string) then mret CapacitySeeking
  else if bool_decide (p = "Scavenger"%string) then mret Scavenger
  else if bool_decide (p = "LowLatency"%string) then mret LowLatencyNonInteractive
  else if bool_decide (p = "Default"%string) || bool_decide (p = ""%string) then mret Default
  else fatal ("Unknown capacity profile " +:+ quote +:+ p +:+ quote).

(** ** Connections *)

(** The zero values of the records the programs leave out. *)
Definition zero_TransportPreferences : TransportPreferences :=
  mkTransportPreferences unset unset unset None dynamic.
Definition zero_SecurityParameters : SecurityParameters :=
  mkSecurityParameters "" (mkKeyPair None None) 0 None 0 0 0 None.

(** [taps.Preconnection{LocalEndpoint: &LocalSpecifier}] *)
Definition local_preconnection (local : string) (proto : protocol Sel) : GoM process loc :=
  e ← on_objects (alloc endpoints (mkEndpoint local (Some proto)));
  on_objects (alloc preconnections (mkPreconnection (Some e) None zero_TransportPreferences
    zero_SecurityParameters None)).

(** [taps.Preconnection{RemoteEndpoint: &RemoteSpecifier,
    ConnectionPreferences: &taps.ConnectionPreferences{ConnCapacityProfile: profile}}] *)
Definition remote_preconnection (remote : string) (proto : protocol Sel) (profile : CapacityProfile)
    : GoM process loc :=
  e ← on_objects (alloc endpoints (mkEndpoint remote (Some proto)));
  cp ← on_objects (alloc preferences (mkConnectionPreferences 0 profile Handover false));
  on_objects (alloc preconnections (mkPreconnection None (Some e) zero_TransportPreferences
    zero_SecurityParameters (Some cp))).

(** A TCP connection embeds a net.Conn, whose Close it has. *)
Definition Connection_Close (c : connection) : GoM TW error :=
  match c with
  | TcpC c => nc ← deref (tc_Conn c); on_net (NetConn_Close nc)
  | InetC c => iquic_Connection_Close c
  | ScionC c => squic_Connection_Close c
  end.

(** [defer conn.Close()] of a function with a loop: nothing is closed yet while
    the loop is running. *)
Definition closing {A} (c : connection) (m : GoM process (option A)) : GoM process (option A) := λ s,
  match m s with
  | (Ok None, s') => (Ok None, s')
  | _ => deferring (on_world (Connection_Close c);; mret tt) m s
  end.

(** The end of a worker: [log.Println(err)]. *)
Definition print_end (r : option error) : GoM process (option unit) :=
  match r with
  | None => mret None
  | Some err => Println (error_text err);; mret (Some tt)
  end.

(** ** Servers *)

(** One turn of the accept loops: it never leaves the loop. *)
Definition accept_concurrent (l : listener) (_ : unit) : GoM process (unit + error) :=
  '(c, err) ← on_world (Listener_Accept l);
  match err with
  | Some e => Println e;; mret (inl tt)
  | None => start_goroutine c;; mret (inl tt)
  end.

Definition accept_pingpong (l : listener) (_ : unit) : GoM process (unit + error) :=
  '(c, err) ← on_world (Listener_Accept l);
  match err with
  | Some e => Println e;; mret (inl tt)
  | None => Println "Got connection";; start_goroutine c;; mret (inl tt)
  end.

(** [Connection.Preconnection().RemoteEndpoint.Address] *)
Definition remote_of (c : option connection) : GoM process string :=
  c ← deref c;
  pre ← on_objects (load preconnections (Connection_Preconnection c));
  Address <$> on_objects (load endpoints (RemoteEndpoint pre)).

(** The loop variable is [running]. *)
Definition accept_capacityseeker (l : listener) (running : bool) : GoM process (bool + error) :=
  '(c, err) ← on_world (Listener_Accept l);
  (if running then mret tt else start_report true);;
  addr ← remote_of c;
  Println ("Got Connection from: " +:+ addr);;
  match err with
  | Some e => Println e;; mret (inl true)
  | None => start_goroutine c;; mret (inl true)
  end.

(** [turn] is the body of the program's accept loop, which starts with [b]. *)
Definition runServer {B} (turn : listener → B → GoM process (B + error)) (b : B) (fuel : nat)
    (local : string) (proto : protocol Sel) : GoM process (option error) :=
  p ← local_preconnection local proto;
  '(l, err) ← on_world (Listen (Some p));
  match err with
  | Some e => mret (Some (Some e))
  | None => l ← deref l; loop (turn l) fuel b
  end.

Definition runServer_concurrent := runServer accept_concurrent tt.
Definition runServer_pingpong := runServer accept_pingpong tt.
Definition runServer_capacityseeker := runServer accept_capacityseeker false.

(** ** concurrent: both sides send a line and read one *)

(** The [err] of the read is a new variable: the one printed stays nil. *)
Definition worker_turn (c : connection) (request : string) : GoM process (string + error) :=
  '(_, err) ← on_Net (conn_Write c request);
  match err with
  | Some e => mret (inr (Some e))
  | None =>
      '(response, err) ← on_Net (conn_ReadString c);
      match err with
      | Some _ => mret (inr None)
      | None =>
          Println ("Message: " +:+ response);;
          now ← on_Net tick;
          mret (inl (Instant_String now +:+ newline))
      end
  end.

Definition worker (fuel : nat) (conn : option connection) : GoM process (option unit) :=
  c ← deref conn;
  closing c (r ← loop (worker_turn c) fuel ("Hello!" +:+ newline); print_end r).

Definition runClient_concurrent (fuel : nat) (remote : string) (proto : protocol Sel)
    : GoM process (option error) :=
  p ← remote_preconnection remote proto Scavenger;
  '(c, err) ← on_world (Initiate (Some p));
  match err with
  | Some e => mret (Some (Some e))
  | None => r ← worker fuel c; mret ((λ _, None) <$> r)
  end.

Definition main_concurrent (fuel : nat) (fl : flags) : GoM process (option unit) :=
  check_roles fl;;
  proto ← choose_protocol plain_selector fl;
  (if is_server fl then runServer_concurrent fuel (local fl) proto
   else runClient_concurrent fuel (remote fl) proto) ≫= print_end.

(** ** pingpong: the server sends back what it reads, the client measures *)
Definition serverWorker_turn (c : connection) (_ : unit) : GoM process (unit + error) :=
  '(ping, err) ← on_Net (conn_ReadString c);
  match err with
  | Some e => mret (inr (Some e))
  | None =>
      '(_, err) ← on_Net (conn_Write c ping);
      match err with Some e => mret (inr (Some e)) | None => mret (inl tt) end
  end.

Definition serverWorker (fuel : nat) (conn : option connection) : GoM process (option unit) :=
  c ← deref conn;
  closing c (r ← loop (serverWorker_turn c) fuel tt; print_end r).

(** [prefs.ConnCapacityProfile], through the pointer the preconnection has. *)
Definition get_profile (prefs : option loc) : GoM process CapacityProfile :=
  ConnCapacityProfile <$> on_objects (load preferences prefs).
Definition set_profile (prefs : option loc) (profile : CapacityProfile) : GoM process unit :=
  v ← on_objects (load preferences prefs);
  on_objects (store preferences prefs (mkConnectionPreferences (ConnTimeout v) profile
    (MultipathPolicy_ v) (IsolateSession v))).

(** [pconn.RemoteEndpoint.Address] *)
Definition address_of (pconn : loc) : GoM process string := on_world (remote_address pconn).

Definition switch_profile (pconn : loc) (prefs : option loc) (sw : bool) (i : Z) : GoM process unit :=
  if (i mod 10 =? 0) && sw then
    set_profile prefs (if i mod 20 =? 0 then Scavenger else LowLatencyNonInteractive);;
    on_world (SetPreferences (Some pconn) prefs);; mret tt
  else mret tt.

(** [i] is a uint of 64 bits. *)
Definition clientWorker_turn (c : connection) (pconn : loc) (prefs : option loc) (sw : bool) (i : Z)
    : GoM process (Z + error) :=
  let i := (i + 1) mod 2 ^ 64 in
  switch_profile pconn prefs sw i;;
  sent_at ← on_Net Now;
  '(_, err) ← on_Net (conn_Write c (RFC3339Nano sent_at +:+ newline));
  match err with Some e => mret (inr (Some e)) | None =>
  '(response, err) ← on_Net (conn_ReadString c);
  match err with Some e => mret (inr (Some e)) | None =>
  now ← on_Net Now;
  let '(then_, err) := time_Parse response in
  match err with Some e => mret (inr (Some e)) | None =>
  addr ← address_of pconn;
  profile ← get_profile prefs;
  profile ← pure_call (CapacityProfile_String profile);
  Println ("read " +:+ pretty (len response) +:+ " bytes from " +:+ addr +:+ " (Profile: " +:+ profile +:+
    "): " +:+ Sub_String now then_);;
  on_Net tick;;
  mret (inl i)
  end end end.

(** [pconn] is the worker's own copy of the preconnection. *)
Definition clientWorker (fuel : nat) (pconn : loc) : GoM process (option unit) :=
  '(conn, err) ← on_world (Initiate (Some pconn));
  match err with
  | Some e => print_end (Some (Some e))
  | None =>
      c ← deref conn;
      closing c (
        pre ← on_objects (load preconnections (Some pconn));
        profile ← get_profile (ConnectionPreferences_ pre);
        r ← loop (clientWorker_turn c pconn (ConnectionPreferences_ pre) (profile =? Default)) fuel 0;
        print_end r)
  end.

Definition runClient_pingpong (fuel : nat) (remote : string) (proto : protocol Sel)
    (profile : CapacityProfile) : GoM process (option error) :=
  p ← remote_preconnection remote proto profile;
  pre ← on_objects (load preconnections (Some p));
  pconn ← on_objects (alloc preconnections pre);
  r ← clientWorker fuel pconn;
  mret ((λ _, None) <$> r).

Definition main_pingpong (fuel : nat) (fl : flags) (p : string) : GoM process (option unit) :=
  check_roles fl;;
  proto ← choose_protocol plain_selector fl;
  (if is_server fl then runServer_pingpong fuel (local fl) proto
   else
     scavenger ← pure_call (CapacityProfile_String Scavenger);
     interactive ← pure_call (CapacityProfile_String LowLatencyInteractive);
     runClient_pingpong fuel (remote fl) proto
       (if bool_decide (p = scavenger) then Scavenger
        else if bool_decide (p = interactive) then LowLatencyInteractive else Default)) ≫= print_end.

(** ** capacityseeker: the client sends random bytes, both sides report *)

(** [io.LimitReader(rand.Reader, bytes)]: its Read. *)
Definition limited_Read (size : Z) : GoM process (string * option read_error) :=
  left ← gets limit;
  if left <=? 0 then mret (""%string, Some EOF)
  else
    '(data, err) ← on_Net (rand_Read (if size >? left then left else size));
    modify (λ s, s <| limit := limit s - len data |>);;
    mret (data, err).

(** io.Discard *)
Definition Discard (data : string) : GoM process (Z * error) := mret (len data, None).

(** [c <- nr]: a reporting goroutine takes it. *)
Definition send (nr : Z) : GoM process unit := modify (λ s, s <| sent := sent s ++ [nr] |>).

Definition buffer_size : Z := 1024 * 32.

(** One turn of myCopy: [total] is its named result. *)
Definition myCopy_turn (Write : string → GoM process (Z * error))
    (Read : Z → GoM process (string * option read_error)) (total : Z)
    : GoM process (Z + Z * error) :=
  '(data, err) ← Read buffer_size;
  '(nw, erw) ← Write data;
  let total := int64 (total + nw) in
  send (len data);;
  if bool_decide (erw = None) && negb (nw =? len data) then mret (inr (total, Some "short write"%string))
  else match err with
  | Some EOF => mret (inr (total, None))
  | _ =>
      match erw with
      | Some e => mret (inr (total, Some ("Write error: " +:+ e)))
      | None =>
          match err with
          | Some (ReadError e) => mret (inr (total, Some ("Read err: " +:+ e)))
          | _ => mret (inl total)
          end
      end
  end.

Definition myCopy Write Read (fuel : nat) : GoM process (option (Z * error)) :=
  loop (myCopy_turn Write Read) fuel 0.

(** What the select of report receives. *)
Inductive report_event :=
  | Received (bytes : Z)
  | Second (elapsed : Z).

Definition report_turn (verbose : bool) (v : Z * Z) (ev : report_event) : GoM process (Z * Z) :=
  let '(total, subtotal) := v in
  match ev with
  | Received bytes => mret (total, int64 (subtotal + bytes))
  | Second dur =>
      let total := int64 (total + subtotal) in
      Println (pretty dur +:+ "," +:+ pretty subtotal +:+ "," +:+ pretty total);;
      (if verbose then Println (kbps subtotal +:+ " kb/s") else mret tt);;
      mret (total, 0)
  end.

Fixpoint report_from (verbose : bool) (v : Z * Z) (evs : list report_event) : GoM process (Z * Z) :=
  match evs with
  | [] => mret v
  | ev :: evs => v ← report_turn verbose v ev; report_from verbose v evs
  end.
Definition report (verbose : bool) (evs : list report_event) : GoM process (Z * Z) :=
  report_from verbose (0, 0) evs.

(** The goroutine of a connection the server has accepted. *)
Definition receiver (fuel : nat) (c : connection) : GoM process (option (Z * error)) :=
  myCopy Discard (λ size, on_Net (conn_Read c size)) fuel.

Definition runClient_capacityseeker (fuel : nat) (bytes : Z) (remote : string) (proto : protocol Sel)
    (profile : CapacityProfile) : GoM process (option error) :=
  p ← remote_preconnection remote proto profile;
  '(c, err) ← on_world (Initiate (Some p));
  match err with
  | Some e => mret (Some (Some ("Initate error: " +:+ e)))
  | None =>
      c ← deref c;
      closing c (
        start_report false;;
        modify (λ s, s <| limit := bytes |>);;
        r ← myCopy (λ data, on_Net (conn_Write c data)) limited_Read fuel;
        match r with
        | None => mret None
        | Some (n, err) =>
            match err with
            | Some _ => mret tt
            | None =>
                profile ← pure_call (CapacityProfile_String profile);
                rate ← on_Net (average_kbps n);
                Println (profile +:+ ": Average: " +:+ rate +:+ " kb/s")
            end;;
            mret (Some err)
        end)
  end.

Definition main_capacityseeker (fuel : nat) (fl : flags) (p : string) (daemontracer daemonselector : bool)
    (bytes : Z) : GoM process (option unit) :=
  check_roles fl;;
  proto ← choose_protocol (asked_selector daemontracer daemonselector) fl;
  profile ← profile_named p;
  if is_server fl then
    runServer_capacityseeker fuel (local fl) proto ≫= print_end
  else
    r ← runClient_capacityseeker fuel bytes (remote fl) proto profile;
    match r with
    | Some (Some e) => print_end (Some (Some e))
    | Some None => mret (Some tt)
    | None => mret None
    end.
End Programs.

(** ** Lemmas *)
Section Lemmas.
Context `{Pan} `{Network} {S : Type} `{!Programs S} `{!Crypto Net} `{!DaemonHost Net S}.
Implicit Types (s : process).

(** Operations of the world change nothing else. *)
Lemma on_world_inv {A} (m : GoM (World (protocol Sel) Net) A) s r s' :
  on_world m s = (r, s') → ∃ w, m (world s) = (r, w) ∧ s' = s <| world := w |>.
Proof. unfold on_world, zoom. destruct (m (world s)) as [r' w]. intros [= -> <-]. eauto. Qed.

Lemma on_Net_inv {A} (m : GoM Net A) s r s' :
  on_Net m s = (r, s') →
  ∃ x, m (net (world s)) = (r, x) ∧ s' = s <| world := (world s) <| net := x |> |>.
Proof.
  intros (w & R & ->)%on_world_inv. unfold on_net, zoom in R.
  destruct (m (net (world s))) as [r' x]. injection R as -> <-. eauto.
Qed.

Definition sum_list (l : list Z) : Z := foldr Z.add 0 l.

Lemma sum_list_snoc l x : sum_list (l ++ [x]) = sum_list l + x.
Proof. induction l as [|y l IH]; simpl; [lia|]. unfold sum_list in *. simpl. lia. Qed.

Lemma len_nonneg x : 0 ≤ len x.
Proof. unfold len. lia. Qed.

(** *** The copy of capacityseeker's client *)

(** What io.Writer and crypto/rand.Reader promise. *)
Definition writer_contract : Prop := ∀ c data x nw e x',
  conn_Write c data x = (Ok (nw, e), x') → 0 ≤ nw ≤ len data.
Definition rand_contract : Prop := ∀ k x data e x',
  0 ≤ k → rand_Read k x = (Ok (data, e), x') → len data ≤ k ∧ e ≠ Some EOF.

Lemma limited_Read_inv size s data e s' :
  rand_contract → 0 ≤ size → 0 ≤ limit s → limited_Read size s = (Ok (data, e), s') →
  limit s' = limit s - len data ∧ 0 ≤ limit s' ∧ sent s' = sent s ∧
  (e = Some EOF → limit s' = 0 ∧ len data = 0).
Proof.
  intros Hr Hsz Hl R. unfold limited_Read in R. apply bind_inv in R as (k & s1 & [= <- <-] & R).
  case_match eqn:Hk.
  - apply ret_inv in R as [[= -> ->] ->]. unfold len. simpl. split_and!; [lia..|done|lia].
  - apply bind_inv in R as ([d e1] & s2 & R1 & R). apply on_Net_inv in R1 as (x & R1 & ->).
    apply bind_inv in R as (u & s3 & [= _ <-] & R). apply ret_inv in R as [[= -> ->] ->].
    assert (0 ≤ if size >? limit s then limit s else size) as Hk' by (case_match; lia).
    destruct (Hr _ _ _ _ _ Hk' R1) as [Hd He]. simpl. split_and!; [done| |done|done].
    pose proof (len_nonneg d). case_match; lia.
Qed.

(** The state of the copy after some turns that went on: what is not yet read is
    not yet counted. *)
Definition copied (bytes : Z) s0 (total : Z) s : Prop :=
  0 ≤ limit s ∧ 0 ≤ total ∧ total + limit s = bytes ∧ sum_list (sent s) = sum_list (sent s0) + total.

Lemma copy_turn c bytes s0 total s r s' :
  writer_contract → rand_contract → bytes < 2 ^ 63 → copied bytes s0 total s →
  myCopy_turn (λ data, on_Net (conn_Write c data)) limited_Read total s = (Ok r, s') →
  match r with
  | inl total' => copied bytes s0 total' s'
  | inr (total', err) => 0 ≤ total' ≤ bytes ∧ (err = None → copied bytes s0 total' s' ∧ limit s' = 0)
  end.
Proof.
  intros Hw Hr Hb (Hl & Ht & Hs & Hsum) R. unfold myCopy_turn in R.
  apply bind_inv in R as ([data e] & s1 & R1 & R).
  assert (0 ≤ buffer_size) as Hbuf by done.
  destruct (limited_Read_inv _ _ _ _ _ Hr Hbuf Hl R1) as (Hl1 & Hl1' & Hsent & He).
  apply bind_inv in R as ([nw erw] & s2 & R2 & R). apply on_Net_inv in R2 as (x & R2 & ->).
  pose proof (Hw _ _ _ _ _ _ R2) as Hnw. rewrite int64_small in R by lia.
  apply bind_inv in R as (u & s3 & [= _ <-] & R).
  assert (nw = len data → copied bytes s0 (total + nw)
    ((s1 <| world := (world s1) <| net := x |> |>) <| sent := sent s1 ++ [len data] |>)) as Hc.
  { intros ->. split_and!; simpl; [lia..|]. rewrite sum_list_snoc, Hsent. lia. }
  destruct (nw =? len data) eqn:En.
  - apply Z.eqb_eq in En. rewrite andb_false_r in R.
    specialize (Hc En). destruct e as [[|e]|], erw as [erw|]; apply ret_inv in R as [-> ->]; simpl;
      try done; split; try done; try lia. all: intros _; split; [done|simpl; by apply He].
  - rewrite andb_true_r in R. destruct erw as [erw|]; simpl in R.
    + destruct e as [[|e]|]; apply ret_inv in R as [-> ->]; (split; [lia|]); try done.
      intros _. destruct (He eq_refl) as [_ H0']. apply Z.eqb_neq in En. lia.
    + apply ret_inv in R as [-> ->]. split; [lia|done].
Qed.

(** *** The profile of pingpong's client *)

(** Selectors do not write to the TAPS objects. *)
Definition selectors_only_read : Prop := ∀ sel p (w : World (protocol Sel) Net),
  heap (Sel_SetPreferences sel p w).2 = heap w.

Definition heap_stays (w w' : World (protocol Sel) Net) : Prop := heap w' = heap w.
#[export] Instance heap_stays_preorder : PreOrder heap_stays.
Proof. unfold heap_stays. split; [by intros w|]. intros w1 w2 w3 H1 H2. congruence. Qed.

Lemma heap_stays_load {D} (st : Heap (protocol Sel) → gmap loc D) p :
  within heap_stays (on_heap (load st p) : GoM (World (protocol Sel) Net) D).
Proof.
  intros [h x]. unfold on_heap, zoom, load. simpl. destruct p as [l|]; [|done].
  by destruct (st h !! l).
Qed.
#[local] Hint Resolve heap_stays_load : go.

Lemma heap_stays_SetPreferences p cps :
  selectors_only_read → within heap_stays (SetPreferences p cps : GoM (World (protocol Sel) Net) error).
Proof.
  intros Hsel. assert (∀ sel l, within heap_stays (Sel_SetPreferences sel l)) as Hs by (intros sel l w; apply Hsel).
  unfold SetPreferences.
  repeat first [progress intros | solve [auto with go] | apply within_ret; apply _ | case_match
    | apply Hs | apply within_fmap; [apply _|] | apply within_bind; [apply _| |]].
Qed.

(** The preferences behind [cp] are [v]. *)
Definition prefs_are (cp : loc) (v : ConnectionPreferences) s : Prop :=
  preferences (heap (world s)) !! cp = Some v.

Lemma prefs_on_Net {A} (m : GoM Net A) cp v : preserves (prefs_are cp v) (on_Net m).
Proof.
  intros s Hs. unfold on_Net, on_world, on_net, zoom. by destruct (m (net (world s))).
Qed.

Lemma prefs_on_objects {A} (st : Heap (protocol Sel) → gmap loc A) p cp v :
  preserves (prefs_are cp v) (on_objects (load st p)).
Proof.
  intros s Hs. unfold on_objects, on_world, zoom. pose proof (heap_stays_load st p (world s)) as Hw.
  destruct (on_heap _ _) as [r w]. unfold heap_stays, prefs_are in *. simpl in *. by rewrite Hw.
Qed.

Lemma prefs_on_world {A} (m : GoM (World (protocol Sel) Net) A) cp v :
  within heap_stays m → preserves (prefs_are cp v) (on_world m).
Proof.
  intros Hm s Hs. unfold on_world, zoom. specialize (Hm (world s)).
  destruct (m (world s)) as [r w]. unfold heap_stays, prefs_are in *. simpl in *. by rewrite Hm.
Qed.

Lemma prefs_address_of pconn cp v : preserves (prefs_are cp v) (address_of pconn).
Proof.
  apply prefs_on_world, within_bind; [apply _|auto with go|]. intros pre.
  apply within_fmap; [apply _|auto with go].
Qed.

Lemma prefs_Println line cp v : preserves (prefs_are cp v) (Println line).
Proof. exact (λ s Hs, Hs). Qed.

Lemma prefs_pure {A} (o : outcome A) cp v : preserves (prefs_are cp v) (pure_call o).
Proof. exact (λ s Hs, Hs). Qed.
#[local] Hint Resolve prefs_on_Net prefs_on_objects prefs_address_of prefs_Println prefs_pure : go.

Lemma set_profile_run cp v profile s :
  prefs_are cp v s →
  ∃ s', set_profile (Some cp) profile s = (Ok tt, s') ∧
    prefs_are cp (mkConnectionPreferences (ConnTimeout v) profile (MultipathPolicy_ v) (IsolateSession v)) s'.
Proof.
  intros Hs. unfold set_profile, on_objects, on_world, on_heap, zoom, load, store, mbind, GoM_bind.
  unfold prefs_are in *. rewrite Hs. simpl. rewrite Hs. eexists. split; [reflexivity|].
  apply lookup_insert_eq.
Qed.

(** The preferences [v], but for the profile. *)
Definition with_profile (v : ConnectionPreferences) (profile : CapacityProfile) : ConnectionPreferences :=
  mkConnectionPreferences (ConnTimeout v) profile (MultipathPolicy_ v) (IsolateSession v).

(** The profile in the n-th round of a client started without one. *)
Definition scheduled (n : Z) : CapacityProfile :=
  if n <? 10 then Default
  else if (n / 10) mod 2 =? 0 then Scavenger else LowLatencyNonInteractive.

Lemma scheduled_next n : 0 ≤ n →
  scheduled (n + 1) =
    if (n + 1) mod 10 =? 0 then (if (n + 1) mod 20 =? 0 then Scavenger else LowLatencyNonInteractive)
    else scheduled n.
Proof.
  intros Hn. unfold scheduled.
  destruct (Z.eqb_spec ((n + 1) mod 10) 0), (Z.eqb_spec ((n + 1) mod 20) 0),
    (Z.ltb_spec (n + 1) 10), (Z.ltb_spec n 10), (Z.eqb_spec (((n + 1) / 10) mod 2) 0),
    (Z.eqb_spec ((n / 10) mod 2) 0); try done; exfalso; Z.div_mod_to_equations; lia.
Qed.

Lemma client_switch pconn cp v i s r s' :
  selectors_only_read → 0 ≤ i → prefs_are cp (with_profile v (scheduled i)) s →
  switch_profile pconn (Some cp) true (i + 1) s = (Ok r, s') →
  prefs_are cp (with_profile v (scheduled (i + 1))) s'.
Proof.
  intros Hsel Hi Hs R. unfold switch_profile in R. rewrite scheduled_next by done. rewrite andb_true_r in R.
  destruct ((i + 1) mod 10 =? 0).
  - destruct (set_profile_run _ _ (if (i + 1) mod 20 =? 0 then Scavenger else LowLatencyNonInteractive) _ Hs)
      as (s1 & R1 & H1). rewrite (bind_ok _ _ _ _ _ R1) in R.
    refine (preserves_run _ _ _ _ _ _ H1 R).
    apply preserves_bind; [apply prefs_on_world, heap_stays_SetPreferences; done|auto with go].
  - by apply ret_inv in R as [_ ->].
Qed.

Lemma client_turn c pconn cp v i s i' s' :
  selectors_only_read → 0 ≤ i → i + 1 < 2 ^ 64 → prefs_are cp (with_profile v (scheduled i)) s →
  clientWorker_turn c pconn (Some cp) true i s = (Ok (inl i'), s') →
  i' = i + 1 ∧ prefs_are cp (with_profile v (scheduled (i + 1))) s'.
Proof.
  intros Hsel Hi Hb Hs R. unfold clientWorker_turn in R. cbv zeta in R. rewrite Z.mod_small in R by lia.
  apply bind_inv in R as (u & s1 & R1 & R).
  assert (prefs_are cp (with_profile v (scheduled (i + 1))) s1) as H1 by (by eapply client_switch).
  split.
  - repeat first [apply bind_inv in R as (? & ? & _ & R) | case_match | apply ret_inv in R as [[=] _]];
      done.
  - refine (preserves_run _ _ _ _ _ _ H1 R). unfold get_profile. preserves.
Qed.

(** A server does not ask the daemon for a selector, nor does a client over
    another transport. *)
Lemma choose_protocol_alone helper1 helper2 fl :
  is_client fl = false ∨ t fl ≠ "QUIC"%string ∨ n fl ≠ "SCION"%string →
  choose_protocol helper1 fl = choose_protocol helper2 fl.
Proof.
  intros Hfl. unfold choose_protocol. repeat (case_bool_decide; [by try done|]).
  destruct Hfl as [-> | Hfl]; [done|]. case_bool_decide; [|done]. case_bool_decide; [done|].
  case_bool_decide; [|done]. naive_solver.
Qed.

(** A worker of concurrent that ends because it could not read prints a nil
    error. *)
Lemma worker_prints_nil c request n e x x' s :
  conn_Write c request (net (world s)) = (Ok (n, None), x) →
  conn_ReadString c x = (Ok ("", Some e)%string, x') →
  ∃ s', worker_turn c request s = (Ok (inr None), s') ∧
    print_end (Some None) s' = (Ok (Some tt), s' <| printed := printed s' ++ ["<nil>"%string] |>).
Proof.
  intros Hw Hr. exists (s <| world := (world s) <| net := x' |> |>). split; [|done].
  unfold worker_turn, on_Net, on_world, on_net, zoom, mbind, GoM_bind. rewrite Hw. simpl. by rewrite Hr.
Qed.
End Lemmas.

(** ** Properties *)
Section Claims.
Context `{Pan} `{Network} {S : Type} `{!Programs S} `{!Crypto Net} `{!DaemonHost Net S}.
Implicit Types (s : process).

(** C31: The copy of capacityseeker's client, when it returns: its total is
    between 0 and the number of bytes asked for, whatever failed; without an
    error it is exactly that number, nothing is left to read, and the reporting
    goroutine was told of as many bytes. *)
Theorem client_copy_bytes c fuel bytes s total err s' :
  writer_contract → rand_contract → 0 ≤ bytes < 2 ^ 63 → limit s = bytes →
  myCopy (λ data, on_Net (conn_Write c data)) limited_Read fuel s = (Ok (Some (total, err)), s') →
  0 ≤ total ≤ bytes ∧
  (err = None → total = bytes ∧ limit s' = 0 ∧ sum_list (sent s') = sum_list (sent s) + bytes).
Proof.
  intros Hw Hr Hb Hl (n & t & s1 & _ & Ht & R)%loop_returns.
  assert (copied bytes s t s1) as Hc.
  { refine (turns_invariant _ (λ _ t s1, copied bytes s t s1) 0 _ _ _ _ _ _ Ht _).
    - intros k b s2 b1 s3 Hc R1.
      exact (copy_turn _ _ _ _ _ _ _ Hw Hr (proj2 Hb) Hc R1).
    - split_and!; lia. }
  destruct (copy_turn _ _ _ _ _ _ _ Hw Hr (proj2 Hb) Hc R) as [Ht' He].
  split; [done|]. intros ->. destruct (He eq_refl) as [(_ & _ & Hs & Hsum) Hl']. lia.
Qed.

(** The capacity profile of pingpong's client when none is given: Default in
    the first nine rounds, then every ten rounds the other of
    LowLatencyNonInteractive and Scavenger, in the preferences object the
    connection's preconnection points to, whose other fields stay; the 64-bit
    round counter does not wrap before 2^64 rounds. *)
Theorem clientWorker_profile c pconn cp v n s i s' :
  selectors_only_read → ConnCapacityProfile v = Default → prefs_are cp v s → Z.of_nat n < 2 ^ 64 →
  turns (clientWorker_turn c pconn (Some cp) true) n 0 s i s' →
  i = Z.of_nat n ∧ prefs_are cp (with_profile v (scheduled (Z.of_nat n))) s'.
Proof.
  intros Hsel Hv Hs Hn Ht.
  refine (turns_invariant _ (λ k i s, Z.of_nat k < 2 ^ 64 →
    i = Z.of_nat k ∧ prefs_are cp (with_profile v (scheduled (Z.of_nat k))) s) 0 _ _ _ _ _ _ Ht _ Hn).
  - intros k b s1 b1 s2 Hk R Hk1. destruct Hk as [-> Hp]; [lia|].
    replace (Z.of_nat (Datatypes.S k)) with (Z.of_nat k + 1) by lia.
    eapply client_turn; [done|lia|lia|exact Hp|exact R].
  - intros _. split; [done|]. destruct v. simpl in *. by subst.
Qed.

(** When a QUIC listener fails to accept, the servers of concurrent and
    pingpong print the error and go on; the server of capacityseeker panics: it
    reads the connection before the error. *)
Theorem Accept_failure l ql s q e x b :
  l = InetL (mk_iquic_listener b (Some ql)) ∨ l = ScionL (mk_squic_listener b (Some ql)) →
  QListener_Accept ql (net (world s)) = (Ok (q, Some e), x) →
  let s' := s <| world := (world s) <| net := x |> |> <| printed := printed s ++ [e] |> in
  accept_concurrent l tt s = (Ok (inl tt), s') ∧
  accept_pingpong l tt s = (Ok (inl tt), s') ∧
  ∀ running, (accept_capacityseeker l running s).1 = Panics nil_deref.
Proof.
  intros Hl R s'.
  assert (on_world (Listener_Accept l) s = (Ok (None, Some e), s <| world := (world s) <| net := x |> |>)) as Ha.
  { destruct Hl as [-> | ->]; unfold on_world, Listener_Accept, wrap, iquic_Accept, squic_Accept, on_net,
      zoom, fmap, GoM_fmap, mbind, GoM_bind; simpl; by rewrite R. }
  unfold accept_concurrent, accept_pingpong, accept_capacityseeker.
  repeat split; [by rewrite (bind_ok _ _ _ _ _ Ha)..|].
  intros running. rewrite (bind_ok _ _ _ _ _ Ha). by destruct running.
Qed.
End Claims.

(** ** A sample machine: every write succeeds, random bytes come two at a time,
    and the peer answers with the time *)
Module SampleMachine.
#[global] Existing Instances SamplePan.pan SampleNet.network SampleHost.host SampleHost.crypto.

#[global] Instance programs : Programs nat := {
  conn_Write _ data := mret (len data, None);
  conn_Read _ _ := mret (""%string, Some EOF);
  conn_ReadString _ := mret ("12:00"%string, None);
  NetConn_Close _ := mret None;
  rand_Read k := if k =? 1 then mret ("r"%string, None) else if k <=? 0 then mret (""%string, None)
                 else mret ("rr"%string, None);
  Instant := string;
  Now := mret "12:00"%string;
  RFC3339Nano i := i;
  Instant_String i := i;
  time_Parse x := (x, None);
  Sub_String _ _ := "0s"%string;
  tick := mret "12:00"%string;
  kbps b := pretty b;
  average_kbps b := mret (pretty b);
  client_selector _ := tt;
  new_DefaultSelector := mret tt
}.

Definition conn : connection := InetC (mk_iquic_Connection (Some tt) (Some 5%positive) (Some "peer"%string)).
Definition machine (limit : Z) (peers : list string) : process :=
  mk_process ((SampleNet.w SampleNet.tp_default) <| net := peers |>) ∅ ∅ [] [] [] [] limit.
End SampleMachine.

Section Witnesses.
Import SampleMachine.

Lemma client_copy_bytes_witness :
  let run := myCopy (λ data, on_Net (conn_Write conn data)) limited_Read 4 (machine 5 []) in
  run.1 = Ok (Some (5, None)) ∧ sum_list (sent run.2) = 5.
Proof.
  intros run. assert (run = (Ok (Some (5, None)), run.2)) as R by (vm_compute; reflexivity).
  split; [exact (f_equal fst R)|].
  assert (writer_contract) as Hw.
  { intros c data x nw e x' [= <- _ _]. split; [apply len_nonneg|reflexivity]. }
  assert (rand_contract) as Hr.
  { intros k x data e x' Hk. unfold rand_Read, programs.
    destruct (Z.eqb_spec k 1), (Z.leb_spec k 0); intros [= <- <- _]; (split; [|done]); unfold len; simpl; lia. }
  destruct (client_copy_bytes conn 4 5 (machine 5 []) 5 None run.2 Hw Hr ltac:(lia) eq_refl R) as [_ He].
  exact (proj2 (proj2 (He eq_refl))).
Defined.

(** Ten rounds: the profile has just been switched. *)
Lemma clientWorker_profile_witness :
  let v := mkConnectionPreferences 0 Default Handover false in
  ∃ s', turns (clientWorker_turn conn 5%positive (Some 3%positive) true) 10 0 (machine 0 []) 10 s' ∧
    prefs_are 3%positive (with_profile v LowLatencyNonInteractive) s'.
Proof.
  intros v.
  set (turn := clientWorker_turn conn 5%positive (Some 3%positive) true).
  assert (fst <$> run_turns turn 10 0 (machine 0 []) = Some 10) as Hn by (vm_compute; reflexivity).
  destruct (run_turns turn 10 0 (machine 0 [])) as [[i s']|] eqn:Ht; [|discriminate Hn].
  injection Hn as ->. apply run_turns_sound in Ht.
  exists s'. split; [exact Ht|].
  assert (selectors_only_read) as Hsel by (intros sel p w; reflexivity).
  exact (proj2 (clientWorker_profile conn 5%positive 3%positive v 10 (machine 0 []) 10 s' Hsel eq_refl
    eq_refl eq_refl Ht)).
Defined.

Lemma Accept_failure_witness :
  let l := InetL (mk_iquic_listener (Some 5%positive) (Some tt)) in
  (accept_pingpong l tt (machine 0 [])).1 = Ok (inl tt) ∧
  (accept_capacityseeker l false (machine 0 [])).1 = Panics nil_deref.
Proof.
  intros l. destruct (Accept_failure l tt (machine 0 []) None "closed" [] (Some 5%positive)
    (or_introl eq_refl) eq_refl) as (_ & R & Hp).
  split; [rewrite R; reflexivity|exact (Hp false)].
Defined.

(** A capacityseeker client for three bytes, and both roles at once. *)
Example capacityseeker_sample :
  let '(r, s) := main_capacityseeker 5 (mk_flags "192.0.2.1:1337" "" "IP" "QUIC") "Scavenger" false false 3
                   (machine 0 []) in
  r = Ok (Some tt) ∧ printed s = ["Scavenger: Average: 3 kb/s"%string] ∧ sent s = [2; 1; 0].
Proof. vm_compute. done. Qed.

Example roles_sample :
  (main_concurrent 5 (mk_flags "192.0.2.1:1337" "0.0.0.0:1337" "IP" "QUIC") (machine 0 [])).1 = Exits roles.
Proof. vm_compute. done. Qed.
End Witnesses.
