(* ===== verification/CommandLine.v ===== *)
(** * Command lines (cmd/daemon/main.go and examples/)

    The flags the four programs declare, and package flag's parser that reads
    them: what a command line sets, and the mains run from it. The usage texts are
    left out. *)

From S2P Require Import Prelude Enums Taps Transports Process PanPath TracerMsg ServerSelector QuicTracer.
From S2P Require Import LuaApi LuaSelector LuaStats Daemon DaemonRun Convenience Examples.
From S2P Require GobRpc.
Local Open Scope Z_scope.

(** ** strconv *)

(** [strconv.ParseBool] *)
Definition ParseBool (s : string) : option bool :=
  if bool_decide (s ∈ ["1"; "t"; "T"; "true"; "TRUE"; "True"]%string) then Some true
  else if bool_decide (s ∈ ["0"; "f"; "F"; "false"; "FALSE"; "False"]%string) then Some false
  else None.

Definition lower (c : ascii) : ascii :=
  if (65 <=? Z.of_N (N_of_ascii c)) && (Z.of_N (N_of_ascii c) <=? 90)
  then ascii_of_N (N_of_ascii c + 32) else c.

(** The value of a digit, decimal or a letter. *)
Definition digit_of (c : ascii) : option Z :=
  let n := Z.of_N (N_of_ascii (lower c)) in
  if (48 <=? n) && (n <=? 57) then Some (n - 48)
  else if (97 <=? n) && (n <=? 122) then Some (n - 97 + 10)
  else None.

(** The loop of [strconv.ParseUint] with base prefixes: underscores are skipped,
    values of 2^64 and above are out of range. *)
Fixpoint ParseUint_from (base n : Z) (s : string) : option Z :=
  match s with
  | EmptyString => Some n
  | String c s =>
      if bool_decide (c = "_"%char) then ParseUint_from base n s
      else
        d ← digit_of c;
        if (base <=? d) || (2 ^ 64 <=? n * base + d) then None
        else ParseUint_from base (n * base + d) s
  end.

(** [underscoreOK]: after a digit or the prefix, and before a digit. *)
Fixpoint underscores_ok (hex : bool) (last : ascii) (s : string) : bool :=
  match s with
  | EmptyString => bool_decide (last ≠ "_"%char)
  | String c s =>
      if match digit_of c with Some d => (d <? 10) || (hex && (d <? 16)) | None => false end
      then underscores_ok hex "0" s
      else if bool_decide (c = "_"%char)
      then if bool_decide (last = "0"%char) then underscores_ok hex "_" s else false
      else if bool_decide (last = "_"%char) then false else underscores_ok hex "!" s
  end.

(** [strconv.ParseUint(s, 0, 64)] *)
Definition ParseUint (s : string) : option Z :=
  match s with
  | EmptyString => None
  | String "0" (String p (String c r)) =>
      let s := String c r in
      let prefixed base hex := if underscores_ok hex "0" s then ParseUint_from base 0 s else None in
      if bool_decide (lower p = "b"%char) then prefixed 2 false
      else if bool_decide (lower p = "o"%char) then prefixed 8 false
      else if bool_decide (lower p = "x"%char) then prefixed 16 true
      else if underscores_ok false "0" (String p s) then ParseUint_from 8 0 (String p s) else None
  | String "0" r => if underscores_ok false "0" r then ParseUint_from 8 0 r else None
  | _ => if underscores_ok false "^" s then ParseUint_from 10 0 s else None
  end.

(** [strconv.ParseInt(s, 0, 64)] *)
Definition ParseInt (s : string) : option Z :=
  let '(neg, s) := match s with
                   | String "-" s => (true, s)
                   | String "+" s => (false, s)
                   | _ => (false, s)
                   end in
  n ← ParseUint s;
  if (neg : bool) then if n <=? 2 ^ 63 then Some (- n) else None
  else if n <? 2 ^ 63 then Some n else None.

Example ParseInt_samples :
  ParseInt <$> ["10000000"; "-5"; "0x1F"; "1_000"; "_1"; "0b102"; "0_7"; "0"; "08"; "9223372036854775808"; ""; "0x"]%string
  = [Some 10000000; Some (-5); Some 31; Some 1000; None; None; Some 7; Some 0; None; None; None; None].
Proof. vm_compute. reflexivity. Qed.

(** ** Package flag *)

(** The variable behind a flag, with its type. *)
Inductive value := VString (s : string) | VBool (b : bool) | VInt64 (z : Z).

(** The flags of the process, with their values. *)
Abbreviation flag_set := (gmap string value).

Definition declare (name : string) (v : value) : GoM flag_set unit :=
  formal ← get_state;
  match formal !! name with
  | Some _ => panic ("flag redefined: " +:+ name)
  | None => modify <[name := v]>
  end.
Definition StringVar (name default : string) : GoM flag_set unit := declare name (VString default).
Definition BoolVar (name : string) (default : bool) : GoM flag_set unit := declare name (VBool default).
Definition Int64Var (name : string) (default : Z) : GoM flag_set unit := declare name (VInt64 default).

(** A text as a value of the type of [v]. *)
Definition read_as (v : value) (s : string) : option value :=
  match v with
  | VString _ => Some (VString s)
  | VBool _ => VBool <$> ParseBool s
  | VInt64 _ => VInt64 <$> ParseInt s
  end.
Definition is_bool (v : value) : bool := match v with VBool _ => true | _ => false end.

(** [name=value]; the first character is never the separator. *)
Fixpoint cut (s : string) : string * option string :=
  match s with
  | EmptyString => (EmptyString, None)
  | String c s =>
      if bool_decide (c = "="%char) then (EmptyString, Some s)
      else let '(n, v) := cut s in (String c n, v)
  end.
Definition name_value (s : string) : string * option string :=
  match s with
  | EmptyString => (EmptyString, None)
  | String c s => let '(n, v) := cut s in (String c n, v)
  end.

(** What the head of the arguments is: a flag with its new value, the end of the
    flags, a fault with its message, or a request for help. *)
Inductive parsed := Sets (name : string) (v : value) (args : list string)
  | Stops (args : list string) | Faults (msg : string) | Helps.

(** [f.Value.Set(s)] *)
Definition set_value (name : string) (v : value) (s : string) (args : list string) : parsed :=
  match read_as v s with
  | Some v => Sets name v args
  | None => Faults ("invalid value for flag -" +:+ name)
  end.

(** The rest of a flag's argument after the dashes. *)
Definition parse_name (formal : flag_set) (s : string) (rest : list string) : parsed :=
  let '(name, given) := name_value s in
  match formal !! name with
  | None =>
      if bool_decide (name ∈ ["help"; "h"]%string) then Helps
      else Faults ("flag provided but not defined: -" +:+ name)
  | Some v =>
      match given, rest with
      | Some x, _ => set_value name v x rest
      | None, _ =>
          if is_bool v then Sets name (VBool true) rest
          else match rest with
               | [] => Faults ("flag needs an argument: -" +:+ name)
               | x :: rest => set_value name v x rest
               end
      end
  end.

Definition bad_name (s : string) : bool :=
  match s with String c _ => bool_decide (c = "-"%char ∨ c = "="%char) | EmptyString => true end.

(** [parseOne] *)
Definition parseOne (formal : flag_set) (args : list string) : parsed :=
  match args with
  | String "-" EmptyString :: _ | [] => Stops args
  | String "-" (String "-" EmptyString) :: rest => Stops rest
  | String "-" (String "-" s) :: rest =>
      if bad_name s then Faults ("bad flag syntax: --" +:+ s) else parse_name formal s rest
  | String "-" s :: rest =>
      if bad_name s then Faults ("bad flag syntax: -" +:+ s) else parse_name formal s rest
  | _ => Stops args
  end.

(** [flag.Parse()]: a fault ends the process with status 2, a request for help
    with status 0. [fuel] bounds the flags. *)
Fixpoint parse_flags (fuel : nat) (formal : flag_set) (args : list string)
    : option (outcome (flag_set * list string)) :=
  match fuel with
  | O => None
  | S fuel =>
      match parseOne formal args with
      | Sets name v rest => parse_flags fuel (<[name := v]> formal) rest
      | Stops rest => Some (Ok (formal, rest))
      | Faults msg => Some (Exits "exit status 2")
      | Helps => Some (Exits "exit status 0")
      end
  end.

(** The arguments become fewer with every flag, so this fuel is enough
    (parse_total). *)
Definition Parse (formal : flag_set) (args : list string) : outcome (flag_set * list string) :=
  match parse_flags (S (length args)) formal args with Some r => r | None => Deadlocks end.

(** ** What the programs declare *)
Definition declare_daemon : GoM flag_set unit :=
  StringVar "script" "";;
  StringVar "cpulog" "".

Definition declare_concurrent : GoM flag_set unit :=
  StringVar "remote" "";;
  StringVar "local" "";;
  StringVar "net" "IP";;
  StringVar "transport" "QUIC".

Definition declare_pingpong : GoM flag_set unit :=
  StringVar "remote" "";;
  StringVar "local" "";;
  StringVar "net" "IP";;
  StringVar "transport" "QUIC";;
  StringVar "profile" "".

Definition declare_capacityseeker : GoM flag_set unit :=
  StringVar "remote" "";;
  StringVar "local" "";;
  StringVar "net" "IP";;
  StringVar "transport" "QUIC";;
  StringVar "profile" "CapacitySeeking";;
  BoolVar "daemontracer" false;;
  BoolVar "daemonselector" false;;
  Int64Var "bytes" (1000 * 1000 * 10).

(** The variables after the declarations and Parse. *)
Definition flags_from (declarations : GoM flag_set unit) (args : list string) : outcome flag_set :=
  match declarations ∅ with
  | (Ok _, formal) => match Parse formal args with Ok (vs, _) => Ok vs | Panics w => Panics w | Exits w => Exits w | Deadlocks => Deadlocks end
  | (Panics w, _) => Panics w
  | (Exits w, _) => Exits w
  | (Deadlocks, _) => Deadlocks
  end.

Definition text (vs : flag_set) (name : string) : string :=
  match vs !! name with Some (VString s) => s | _ => "" end.
Definition on (vs : flag_set) (name : string) : bool :=
  match vs !! name with Some (VBool b) => b | _ => false end.
Definition number (vs : flag_set) (name : string) : Z :=
  match vs !! name with Some (VInt64 z) => z | _ => 0 end.

Definition common_flags (vs : flag_set) : flags :=
  mk_flags (text vs "remote") (text vs "local") (text vs "net") (text vs "transport").

(** ** The mains, from their arguments *)
Definition from_args {S A} (declarations : GoM flag_set unit) (args : list string)
    (main : flag_set → GoM S A) : GoM S A :=
  vs ← pure_call (flags_from declarations args); main vs.

Section Mains.
Context `{Programs}.

Definition concurrent (fuel : nat) (args : list string) :=
  from_args declare_concurrent args (λ vs, main_concurrent fuel (common_flags vs)).
Definition pingpong (fuel : nat) (args : list string) :=
  from_args declare_pingpong args (λ vs, main_pingpong fuel (common_flags vs) (text vs "profile")).
Definition capacityseeker (fuel : nat) (args : list string) :=
  from_args declare_capacityseeker args (λ vs,
    main_capacityseeker fuel (common_flags vs) (text vs "profile") (on vs "daemontracer")
      (on vs "daemonselector") (number vs "bytes")).
End Mains.

Section DaemonMain.
Context `{Pan} `{Quic} `{!QuicFields} {X : Type} `{!LuaVM X} (Duration_String : Z → string).
Context {W DSel Q : Type} `{!PanDefaultSelector W DSel} `{!LoggingTracer Q}.
Context {O : Type} `{DaemonSystem O}.

Definition panapid (x : X) (w : W) (q : Q) (args : list string) (es : list Daemon.event) : GoM O unit :=
  from_args declare_daemon args (λ vs,
    DaemonRun.main Duration_String (W := W) (Sel := DSel) x w q (text vs "script") (text vs "cpulog") es).
End DaemonMain.

(** ** Lemmas *)

Inductive program := Daemon_ | Concurrent | Pingpong | Capacityseeker.
Definition declarations (p : program) : GoM flag_set unit :=
  match p with
  | Daemon_ => declare_daemon
  | Concurrent => declare_concurrent
  | Pingpong => declare_pingpong
  | Capacityseeker => declare_capacityseeker
  end.

(** The defaults. *)
Definition declared (p : program) : flag_set := (declarations p ∅).2.

Fixpoint has_separator (s : string) : bool :=
  match s with String c s => bool_decide (c = "="%char) || has_separator s | EmptyString => false end.
Definition well_named (name : string) : bool := negb (bad_name name) && negb (has_separator name).

Lemma declarations_run p : declarations p ∅ = (Ok tt, declared p).
Proof. destruct p; vm_compute; reflexivity. Qed.

Lemma declared_named p : map_Forall (λ name _, well_named name) (declared p).
Proof. apply map_Forall_to_list. destruct p; vm_compute; repeat constructor. Qed.

(** A setting of a flag, and the ways to write it. *)
Inductive form := OneDash | TwoDashes | Apart.
Record setting := mk_setting { s_name : string; s_text : string; s_form : form }.

Definition show (st : setting) : list string :=
  match s_form st with
  | OneDash => ["-" +:+ s_name st +:+ "=" +:+ s_text st]
  | TwoDashes => ["--" +:+ s_name st +:+ "=" +:+ s_text st]
  | Apart => ["-" +:+ s_name st; s_text st]
  end%string.

(** The setting of a declared flag, with a text of the flag's type; the value of
    a boolean flag cannot stand apart. *)
Definition fits (formal : flag_set) (st : setting) : Prop :=
  ∃ v, formal !! s_name st = Some v ∧ is_Some (read_as v (s_text st)) ∧ (s_form st = Apart → is_bool v = false).

Definition assign (formal : flag_set) (st : setting) : flag_set :=
  match formal !! s_name st ≫= λ v, read_as v (s_text st) with
  | Some v => <[s_name st := v]> formal
  | None => formal
  end.

(** Arguments that are not flags. *)
Definition plain (rest : list string) : Prop :=
  match rest with String c (String _ _) :: _ => c ≠ "-"%char | _ => True end.

Lemma cut_plain s : has_separator s = false → cut s = (s, None).
Proof.
  induction s as [|c s IH]; [done|]. simpl. intros [Hc Hs]%orb_false_iff. rewrite Hc, IH by done. done.
Qed.
Lemma cut_value s t : has_separator s = false → cut (s +:+ "=" +:+ t) = (s, Some t).
Proof.
  induction s as [|c s IH]; [done|]. simpl. intros [Hc Hs]%orb_false_iff. rewrite Hc, IH by done. done.
Qed.

Lemma well_named_inv name : well_named name →
  bad_name name = false ∧ name_value name = (name, None) ∧
  ∀ t, name_value (name +:+ "=" +:+ t) = (name, Some t) ∧ bad_name (name +:+ "=" +:+ t) = false.
Proof.
  unfold well_named. intros [Hb%negb_true_iff Hs%negb_true_iff]%Is_true_eq_true%andb_prop. destruct name as [|c s]; [done|].
  simpl in Hs. apply orb_false_iff in Hs as [Hc Hs]. split_and!; [done| |intros t; split; [|done]]; simpl.
  - by rewrite cut_plain.
  - by rewrite cut_value.
Qed.

Lemma parseOne_dash formal s rest : bad_name s = false → parseOne formal (String "-" s :: rest) = parse_name formal s rest.
Proof.
  intros Hb. destruct s as [|c s]; [done|]. destruct (decide (c = "-"%char)) as [->|Hc]; [done|].
  unfold parseOne. rewrite Hb. destruct c as [[] [] [] [] [] [] [] []]; done.
Qed.

Lemma parseOne_dashes formal s rest :
  bad_name s = false → parseOne formal (String "-" (String "-" s) :: rest) = parse_name formal s rest.
Proof. intros Hb. destruct s as [|c s]; [done|]. unfold parseOne. by rewrite Hb. Qed.

Lemma parseOne_plain formal rest : plain rest → parseOne formal rest = Stops rest.
Proof.
  destruct rest as [|[|c [|c' s]] rest]; simpl; [done|done| |].
  - intros _. destruct c as [[] [] [] [] [] [] [] []]; done.
  - intros Hc. destruct c as [[] [] [] [] [] [] [] []]; done.
Qed.

Lemma parseOne_show formal st rest :
  well_named (s_name st) → fits formal st →
  ∃ v, parseOne formal (show st ++ rest) = Sets (s_name st) v rest ∧ assign formal st = <[s_name st := v]> formal.
Proof.
  intros (Hb & Hn & Ht)%well_named_inv (v & Hv & [v' Hr] & Hform). destruct (Ht (s_text st)) as [Hnt Hbt].
  exists v'. unfold assign. rewrite Hv. simpl. rewrite Hr. split; [|done].
  destruct st as [name t []]; cbn [show s_name s_text s_form app] in *.
  - change ("-" +:+ name +:+ "=" +:+ t)%string with (String "-" (name +:+ "=" +:+ t)). rewrite parseOne_dash by done. unfold parse_name. rewrite Hnt, Hv. unfold set_value. by rewrite Hr.
  - change ("--" +:+ name +:+ "=" +:+ t)%string with (String "-" (String "-" (name +:+ "=" +:+ t))). rewrite parseOne_dashes by done. unfold parse_name. rewrite Hnt, Hv. unfold set_value. by rewrite Hr.
  - change ("-" +:+ name)%string with (String "-" name). rewrite parseOne_dash by done. unfold parse_name. rewrite Hn, Hv, Hform by done. unfold set_value. by rewrite Hr.
Qed.

(** Settings do not change types. *)
Lemma read_as_type v s v' : read_as v s = Some v' → is_bool v' = is_bool v ∧ ∀ t, read_as v' t = read_as v t.
Proof.
  destruct v; simpl; intros E; [injection E as <-; done|..]; apply fmap_Some in E as (x & _ & ->); done.
Qed.

Lemma fits_assign formal st st' : fits formal st → fits formal st' → fits (assign formal st) st'.
Proof.
  intros (v & Hv & [v1 Hr] & _) (v' & Hv' & Hr' & Hf'). unfold assign. rewrite Hv. simpl. rewrite Hr.
  destruct (decide (s_name st = s_name st')) as [E|E].
  - rewrite E in *. rewrite Hv in Hv'. injection Hv' as <-. destruct (read_as_type _ _ _ Hr) as [Hb Ht].
    exists v1. rewrite lookup_insert_eq, Ht, Hb. done.
  - exists v'. by rewrite lookup_insert_ne.
Qed.

Lemma assign_undeclared formal settings name :
  formal !! name = None → foldl assign formal settings !! name = None.
Proof.
  revert formal. induction settings as [|st settings IH]; intros formal Hn; [done|]. simpl. apply IH.
  unfold assign. destruct (formal !! s_name st) as [v|] eqn:E; [|done]. simpl.
  destruct (read_as v (s_text st)) as [v'|]; [|done]. by rewrite lookup_insert_ne by congruence.
Qed.

(** The flags of a command line are read, and what follows them is left to do. *)
Lemma parse_settings formal settings : ∀ fuel rest,
  map_Forall (λ name _, well_named name) formal → Forall (fits formal) settings →
  parse_flags (length settings + fuel) formal (concat (show <$> settings) ++ rest)
  = parse_flags fuel (foldl assign formal settings) rest.
Proof.
  revert formal. induction settings as [|st settings IH]; intros formal fuel rest Hn Hf; [done|].
  apply Forall_cons in Hf as [Hst Hf]. assert (well_named (s_name st)) as Hw.
  { destruct Hst as (v & Hv & _). by eapply Hn. }
  destruct (parseOne_show formal st (concat (show <$> settings) ++ rest) Hw Hst) as (v & Hp & Ha).
  rewrite fmap_cons. cbn [concat length Nat.add parse_flags foldl]. rewrite <-app_assoc, Hp, Ha. apply IH.
  - apply map_Forall_insert_2; [done|exact Hn].
  - eapply Forall_impl; [exact Hf|]. intros st' Hst'. rewrite <-Ha. by apply fits_assign.
Qed.

Lemma parse_more fuel k formal args r :
  parse_flags fuel formal args = Some r → parse_flags (fuel + k) formal args = Some r.
Proof.
  revert formal args. induction fuel as [|fuel IH]; intros formal args; [done|]. simpl.
  destruct (parseOne formal args); [apply IH|done..].
Qed.

(** A flag uses up an argument. *)
Lemma parse_name_shorter formal s rest name v rest' :
  parse_name formal s rest = Sets name v rest' → (length rest' ≤ length rest)%nat.
Proof.
  unfold parse_name, set_value. intros R.
  repeat (case_match; simplify_eq/=); lia.
Qed.

Lemma parseOne_shorter formal args name v rest :
  parseOne formal args = Sets name v rest → (length rest < length args)%nat.
Proof.
  destruct args as [|[|c s] args]; [done|done|]. destruct (decide (c = "-"%char)) as [->|Hc].
  - intros R. apply Nat.lt_succ_r. destruct s as [|c s]; [done|]. destruct (decide (c = "-"%char)) as [->|Hc].
    + destruct s as [|c s]; [done|]. unfold parseOne in R. case_match; [done|]. by eapply parse_name_shorter.
    + destruct (bad_name (String c s)) eqn:Hb; [by simpl in Hb; apply bool_decide_eq_true in Hb as [->| ->]|].
      rewrite parseOne_dash in R by done. by eapply parse_name_shorter.
  - destruct c as [[] [] [] [] [] [] [] []]; done.
Qed.

(** Parse looks at every argument at most once: it never runs out of fuel. *)
Lemma parse_total formal args : ∀ fuel, (length args < fuel)%nat → is_Some (parse_flags fuel formal args).
Proof.
  intros fuel. revert formal args. induction fuel as [|fuel IH]; intros formal args Hl; [lia|].
  simpl. destruct (parseOne formal args) as [name v rest|rest|msg|] eqn:E; [|eauto..].
  apply parseOne_shorter in E. apply IH. lia.
Qed.

Lemma parse_Parse fuel formal args r : parse_flags fuel formal args = Some r → Parse formal args = r.
Proof.
  intros R. unfold Parse. destruct (parse_total formal args (S (length args))) as [r' R']; [lia|]. rewrite R'.
  pose proof (parse_more _ fuel _ _ _ R') as E1. pose proof (parse_more _ (S (length args)) _ _ _ R) as E2.
  rewrite Nat.add_comm in E1. congruence.
Qed.

(** ** What a command line is to mean *)

(** The flags of the programs as their usage texts have them. *)
Inductive kind := Text | Truth | Number.
#[export] Instance kind_eq_dec : EqDecision kind.
Proof. solve_decision. Defined.
Definition flags_of (p : program) : list (string * kind) :=
  match p with
  | Daemon_ => [("script", Text); ("cpulog", Text)]
  | Concurrent => [("remote", Text); ("local", Text); ("net", Text); ("transport", Text)]
  | Pingpong => [("remote", Text); ("local", Text); ("net", Text); ("transport", Text); ("profile", Text)]
  | Capacityseeker =>
      [("remote", Text); ("local", Text); ("net", Text); ("transport", Text); ("profile", Text);
       ("daemontracer", Truth); ("daemonselector", Truth); ("bytes", Number)]
  end%string.

(** Whether a text is one of the kind. *)
Definition legible (k : kind) (s : string) : bool :=
  match k with
  | Text => true
  | Truth => bool_decide (is_Some (ParseBool s))
  | Number => bool_decide (is_Some (ParseInt s))
  end.

(** A setting the program accepts, and arguments that end it, with its status. *)
Definition written (p : program) (st : setting) (k : kind) : Prop :=
  (s_name st, k) ∈ flags_of p ∧ (s_form st = Apart → k ≠ Truth).
Definition accepted (p : program) (st : setting) : Prop := ∃ k, written p st k ∧ legible k (s_text st).
Inductive refused (p : program) : list string → string → Prop :=
  | refused_name name :
      name ∉ (flags_of p).*1 → well_named name → name ∉ ["help"; "h"]%string →
      refused p ["-" +:+ name]%string "exit status 2"
  | refused_value st k : written p st k → legible k (s_text st) = false → refused p (show st) "exit status 2"
  | asked_for_help name : name ∈ ["help"; "h"]%string → refused p ["-" +:+ name]%string "exit status 0".

(** The last setting of a flag, or what it is without one. *)
Definition last_setting {A} (read : string → option A) (settings : list setting) (name : string) (without : A) : A :=
  foldl (λ x st, if bool_decide (s_name st = name) then default x (read (s_text st)) else x) without settings.
Definition last_text := last_setting (λ s : string, Some s).

(** The flags the three example programs share. *)
Definition asked (settings : list setting) : flags :=
  mk_flags (last_text settings "remote" "") (last_text settings "local" "")
    (last_text settings "net" "IP") (last_text settings "transport" "QUIC").

Definition kind_of (v : value) : kind :=
  match v with VString _ => Text | VBool _ => Truth | VInt64 _ => Number end.

Lemma legible_read v s : legible (kind_of v) s = bool_decide (is_Some (read_as v s)).
Proof. destruct v; simpl; [done|by apply bool_decide_ext; rewrite fmap_is_Some..]. Qed.

Lemma flags_declared p name k :
  (name, k) ∈ flags_of p → ∃ v, declared p !! name = Some v ∧ kind_of v = k.
Proof.
  destruct p; simpl; rewrite ?elem_of_cons, elem_of_nil; intros Hn;
    repeat match type of Hn with _ ∨ _ => destruct Hn as [Hn|Hn] end; (done || injection Hn as -> ->); eexists; (split; [vm_compute; reflexivity|reflexivity]).
Qed.

Lemma flags_undeclared p name : name ∉ (flags_of p).*1 → declared p !! name = None.
Proof.
  assert (Forall (λ x, x ∈ (flags_of p).*1) (map_to_list (declared p)).*1) as Hall.
  { apply (bool_decide_unpack _). destruct p; vm_compute; exact I. }
  intros Hn. apply eq_None_not_Some. intros [v Hv%elem_of_map_to_list]. apply Hn.
  apply (proj1 (Forall_forall _ _) Hall). apply list_elem_of_fmap. by exists (name, v).
Qed.

Lemma accepted_fits p st : accepted p st → fits (declared p) st.
Proof.
  intros (k & [Hin Hform] & Hl). destruct (flags_declared _ _ _ Hin) as (v & Hv & <-). exists v.
  rewrite legible_read in Hl. apply bool_decide_unpack in Hl. split_and!; [done|done|].
  intros Ha. specialize (Hform Ha). by destruct v.
Qed.

(** What the variables are after the settings. *)
Lemma assigned {A} (wrap : A → value) (read : string → option A) formal settings name x :
  (∀ x s, read_as (wrap x) s = wrap <$> read s) → formal !! name = Some (wrap x) →
  foldl assign formal settings !! name = Some (wrap (last_setting read settings name x)).
Proof.
  intros Hr. revert formal x. induction settings as [|st settings IH]; intros formal x Hx; [done|].
  unfold last_setting. simpl. apply IH. unfold assign. case_bool_decide as E.
  - rewrite E, Hx. simpl. rewrite Hr. by destruct (read (s_text st)); simpl; [rewrite lookup_insert_eq|].
  - destruct (formal !! s_name st ≫= _); [by rewrite lookup_insert_ne|done].
Qed.

Lemma text_assigned formal settings name d :
  formal !! name = Some (VString d) → text (foldl assign formal settings) name = last_text settings name d.
Proof. intros Hd. unfold text. by rewrite (assigned VString (λ s, Some s) _ _ _ d). Qed.
Lemma truth_assigned formal settings name d :
  formal !! name = Some (VBool d) → on (foldl assign formal settings) name = last_setting ParseBool settings name d.
Proof. intros Hd. unfold on. by rewrite (assigned VBool ParseBool _ _ _ d). Qed.
Lemma number_assigned formal settings name d :
  formal !! name = Some (VInt64 d) → number (foldl assign formal settings) name = last_setting ParseInt settings name d.
Proof. intros Hd. unfold number. by rewrite (assigned VInt64 ParseInt _ _ _ d). Qed.

Lemma common_assigned p settings :
  p ≠ Daemon_ → common_flags (foldl assign (declared p) settings) = asked settings.
Proof. intros Hp. destruct p; [done|..]; unfold common_flags, asked; f_equal; by apply text_assigned. Qed.

(** Accepted settings are read, and an argument that ends the program ends it. *)
Lemma from_accepted {S A} p settings rest (main : flag_set → GoM S A) s :
  Forall (accepted p) settings → plain rest →
  from_args (declarations p) (concat (show <$> settings) ++ rest) main s
  = main (foldl assign (declared p) settings) s.
Proof.
  intros Hf Hr. unfold from_args, flags_from. rewrite declarations_run.
  rewrite (parse_Parse (length settings + 1) _ _ (Ok (foldl assign (declared p) settings, rest))); [done|].
  rewrite parse_settings by (apply declared_named || by eapply Forall_impl; [exact Hf|apply accepted_fits]).
  cbn [parse_flags]. by rewrite parseOne_plain.
Qed.

Lemma undeclared_name p settings name rest :
  name ∉ (flags_of p).*1 → well_named name →
  parseOne (foldl assign (declared p) settings) (("-" +:+ name)%string :: rest)
  = if bool_decide (name ∈ ["help"; "h"]%string) then Helps
    else Faults ("flag provided but not defined: -" +:+ name).
Proof.
  intros Hn (Hb & Hnv & _)%well_named_inv. change ("-" +:+ name)%string with (String "-" name).
  rewrite parseOne_dash by done. unfold parse_name. by rewrite Hnv, assign_undeclared by by apply flags_undeclared.
Qed.

Lemma parseOne_refused p settings args status rest :
  Forall (fits (declared p)) settings → refused p args status →
  parse_flags 1 (foldl assign (declared p) settings) (args ++ rest) = Some (Exits status).
Proof.
  intros Hf Hr. destruct Hr as [name Hn Hw Hh|st k [Hin Hform] Hl|name Hn]; cbn [app parse_flags].
  - rewrite undeclared_name by done. by rewrite bool_decide_false.
  - destruct (flags_declared _ _ _ Hin) as (v & Hv & <-).
    assert (∃ v', foldl assign (declared p) settings !! s_name st = Some v' ∧ is_bool v' = is_bool v ∧
      read_as v' (s_text st) = None) as (v' & Hv' & Hb & Hr').
    { rewrite legible_read in Hl. apply bool_decide_eq_false in Hl. destruct v as [d|d|d].
      - destruct Hl. simpl. eauto.
      - rewrite (assigned VBool ParseBool _ _ _ d) by done. eexists. split_and!; [done..|].
        apply eq_None_not_Some. intros [x Hx]. apply Hl. by exists x.
      - rewrite (assigned VInt64 ParseInt _ _ _ d) by done. eexists. split_and!; [done..|].
        apply eq_None_not_Some. intros [x Hx]. apply Hl. by exists x. }
    assert (well_named (s_name st)) as (Hbad & Hnv & Ht)%well_named_inv by by eapply declared_named.
    destruct (Ht (s_text st)) as [Hnt Hbt]. destruct st as [name t []]; cbn [show s_name s_text s_form app] in *.
    + change ("-" +:+ name +:+ "=" +:+ t)%string with (String "-" (name +:+ "=" +:+ t)).
      rewrite parseOne_dash by done. unfold parse_name. rewrite Hnt, Hv'. unfold set_value. by rewrite Hr'.
    + change ("--" +:+ name +:+ "=" +:+ t)%string with (String "-" (String "-" (name +:+ "=" +:+ t))).
      rewrite parseOne_dashes by done. unfold parse_name. rewrite Hnt, Hv'. unfold set_value. by rewrite Hr'.
    + change ("-" +:+ name)%string with (String "-" name). rewrite parseOne_dash by done. unfold parse_name.
      rewrite Hnv, Hv', Hb. specialize (Hform eq_refl). destruct v; [|done|]; simpl; unfold set_value; by rewrite Hr'.
  - rewrite undeclared_name; [by rewrite bool_decide_true| |].
    + intros Hin. revert Hn Hin. rewrite !elem_of_cons, elem_of_nil. intros [->|[->|[]]]; apply (bool_decide_unpack _); destruct p; vm_compute; exact I.
    + revert Hn. rewrite !elem_of_cons, elem_of_nil. by intros [->|[->|[]]].
Qed.

Lemma from_refused {S A} p settings args status rest (main : flag_set → GoM S A) s :
  Forall (accepted p) settings → refused p args status →
  from_args (declarations p) (concat (show <$> settings) ++ args ++ rest) main s = (Exits status, s).
Proof.
  intros Hf Hr. assert (Forall (fits (declared p)) settings) as Hfit by (eapply Forall_impl; [exact Hf|apply accepted_fits]).
  unfold from_args, flags_from. rewrite declarations_run.
  rewrite (parse_Parse (length settings + 1) _ _ (Exits status)); [done|].
  rewrite parse_settings by (apply declared_named || done). by apply parseOne_refused.
Qed.

(** ** Property *)
Section Claims.
Context `{Programs}.
Context `{!Quic} `{!QuicFields} {X : Type} `{!LuaVM X} (Duration_String : Z → string).
Context {W DSel Q : Type} `{!PanDefaultSelector W DSel} `{!LoggingTracer Q}.
Context {O : Type} `{DaemonSystem O}.

(** C39: What a command line says is what the program runs with. Any settings of a
    program's flags, of legible values, in any order and with repetitions, each
    written in one of the three ways, and followed by arguments that are not flags:
    each main runs with every variable at the last setting of its flag, or else at
    the default of the usage text (a network of type IP, QUIC as the transport,
    CapacitySeeking as capacityseeker's profile and 10^7 bytes to send, nothing for
    the rest). After any such settings, a flag the program does not have, or a
    value of the wrong kind, ends it with status 2, and -h or -help with status 0,
    before anything has happened. *)
Theorem command_line :
  (∀ settings rest, plain rest →
     let args := concat (show <$> settings) ++ rest in
     (∀ fuel s, Forall (accepted Concurrent) settings →
        concurrent fuel args s = main_concurrent fuel (asked settings) s) ∧
     (∀ fuel s, Forall (accepted Pingpong) settings →
        pingpong fuel args s = main_pingpong fuel (asked settings) (last_text settings "profile" "") s) ∧
     (∀ fuel s, Forall (accepted Capacityseeker) settings →
        capacityseeker fuel args s
        = main_capacityseeker fuel (asked settings) (last_text settings "profile" "CapacitySeeking")
            (last_setting ParseBool settings "daemontracer" false)
            (last_setting ParseBool settings "daemonselector" false)
            (last_setting ParseInt settings "bytes" 10000000) s) ∧
     (∀ x w q es (s : O), Forall (accepted Daemon_) settings →
        panapid (W := W) (DSel := DSel) (Q := Q) Duration_String (x : X) w q args es s
        = DaemonRun.main Duration_String (W := W) (Sel := DSel) x w q
            (last_text settings "script" "") (last_text settings "cpulog" "") es s)) ∧
  ∀ p settings args status rest T A (main : flag_set → GoM T A) t,
    Forall (accepted p) settings → refused p args status →
    from_args (declarations p) (concat (show <$> settings) ++ args ++ rest) main t = (Exits status, t).
Proof.
  split; [|intros; by apply from_refused].
  intros settings rest Hr args. split_and!; intros.
  - unfold concurrent, args. rewrite (from_accepted Concurrent) by done. by rewrite common_assigned.
  - unfold pingpong, args. rewrite (from_accepted Pingpong) by done. rewrite common_assigned by done.
    by rewrite (text_assigned _ _ _ "").
  - unfold capacityseeker, args. rewrite (from_accepted Capacityseeker) by done. rewrite common_assigned by done.
    by rewrite (text_assigned _ _ _ "CapacitySeeking"), !(truth_assigned _ _ _ false), (number_assigned _ _ _ 10000000).
  - unfold panapid, args. rewrite (from_accepted Daemon_) by done. by rewrite !(text_assigned _ _ _ "").
Qed.
End Claims.

(** ** Witness *)
Module SampleCommand.
Definition settings : list setting := [
  mk_setting "local" "0.0.0.0:1337" OneDash;
  mk_setting "bytes" "0x10" TwoDashes;
  mk_setting "daemontracer" "T" OneDash;
  mk_setting "bytes" "1_000" Apart
].

Lemma fitting : Forall (accepted Capacityseeker) settings.
Proof.
  repeat (apply Forall_cons; split); [exists Text|exists Number|exists Truth|exists Number|by apply Forall_nil];
    (split; [split; [apply (bool_decide_unpack _); vm_compute; exact I|done]|vm_compute; exact I]).
Qed.

Lemma refusing : refused Capacityseeker ["-port"]%string "exit status 2".
Proof.
  apply (refused_name _ "port"); [|done|]; apply (bool_decide_unpack _); vm_compute; exact I.
Qed.
End SampleCommand.

Section Witness.
Import SampleMachine SampleSystem SampleDaemon SampleCommand.
Abbreviation claim := (command_line (H := SamplePan.pan) SampleScript.text (X := machine) (W := objects)
  (DSel := nat) (Q := nat) (O := bool)).

(** A command line of capacityseeker, the same without its last argument but with
    a flag of another program, and one that asks for help. *)
Lemma command_line_witness :
  let args := ["-local=0.0.0.0:1337"; "--bytes=0x10"; "-daemontracer=T"; "-bytes"; "1_000"]%string in
  let s := SampleMachine.machine 0 [] in
  capacityseeker 5 (args ++ ["rest"%string]) s
  = main_capacityseeker 5 (mk_flags "" "0.0.0.0:1337" "IP" "QUIC") "CapacitySeeking" true false 1000 s ∧
  capacityseeker 5 (args ++ ["-port"; "1337"]%string) s = (Exits "exit status 2", s) ∧
  capacityseeker 5 (args ++ ["-h"]%string) s = (Exits "exit status 0", s).
Proof.
  intros args s. destruct claim as [Hrun Hend]. split_and!.
  - destruct (Hrun settings ["rest"%string] ltac:(intros E; discriminate E)) as (_ & _ & Hc & _).
    exact (Hc 5%nat s fitting).
  - exact (Hend Capacityseeker settings ["-port"%string] _ ["1337"%string] _ _ _ s fitting refusing).
  - exact (Hend Capacityseeker settings ["-h"%string] _ [] _ _ _ s fitting
      (asked_for_help Capacityseeker "h" ltac:(apply list_elem_of_further, list_elem_of_here))).
Defined.
End Witness.

(** The three example programs ask for -port, -n and -t, which they do not
    declare: who follows the advice gets status 2 before anything has happened. *)
Lemma advice_fails `{Programs} fuel flag x rest s :
  flag ∈ ["-port"; "-n"; "-t"]%string →
  (concurrent fuel (flag :: x :: rest) s).1 = Exits "exit status 2" ∧
  (pingpong fuel (flag :: x :: rest) s).1 = Exits "exit status 2" ∧
  (capacityseeker fuel (flag :: x :: rest) s).1 = Exits "exit status 2".
Proof. rewrite !elem_of_cons, elem_of_nil. by intros [->|[->|[->|[]]]]. Qed.
